(** * Persistent data structures of spork (src/spork/runtime/pds.c)

    A shallow embedding of the C extension module [pds.c]: the 32-way
    bit-partitioned [Vector], the HAMT behind [Map] and [Set], the
    left-leaning red-black tree behind [SortedVector], the [Cons] cell and
    the unboxing front of the primitive vectors.

    Conventions.
    - A [PyObject *] that the module stores but never looks into (an element,
      a key, a value) is a value of the abstract host type [Obj]; pointer
      identity on such references is Leibniz equality of the model values.
    - [Py_ssize_t], [Py_hash_t] and [int] are [Z]; shifts and masks are
      [Z.shiftl], [Z.shiftr] and [Z.land].
    - A [NULL] return with a Python exception set is [Raise e]; a C
      dereference that the language leaves undefined (a [NULL] child, a cast
      to the wrong node type, an index past the end of a tuple) is
      [Raise Fault].
    - Recursion over [level] or [shift] is driven by a [fuel] argument; the
      entry points pass enough of it for every tree the module can build. *)

From Stdlib Require Import ZArith List Bool Lia SpecFloat Sorting Permutation.
Import ListNotations.
Open Scope Z_scope.

Set Implicit Arguments.

(** ** Outcomes of a C call *)

Inductive error : Type :=
| IndexError      (* PyExc_IndexError *)
| TypeError       (* PyExc_TypeError *)
| ValueError      (* PyExc_ValueError *)
| OverflowError   (* PyExc_OverflowError *)
| KeyError        (* PyExc_KeyError *)
| RuntimeError    (* PyExc_RuntimeError *)
| Fault           (* undefined behaviour of the C program *)
| OutOfFuel.      (* the recursion did not reach its base case *)

Inductive result (A : Type) : Type :=
| Ok (a : A)
| Raise (e : error).
Arguments Raise {A} e.

Definition bind {A B : Type} (m : result A) (k : A -> result B) : result B :=
  match m with
  | Ok a => k a
  | Raise e => Raise e
  end.

Declare Scope result_scope.
Delimit Scope result_scope with result.
Notation "x <- m ;; k" := (bind m (fun x => k))
  (at level 100, m at next level, right associativity) : result_scope.
Notation "' p <- m ;; k" := (bind m (fun p => k))
  (at level 100, p pattern, m at next level, right associativity) : result_scope.
Open Scope result_scope.

Definition is_ok {A : Type} (r : result A) : bool :=
  match r with Ok _ => true | Raise _ => false end.

(** ** Constants for 32-way branching tries (pds.c:56-58) *)

Definition BITS : Z := 5.
Definition WIDTH : Z := Z.shiftl 1 BITS.
Definition MASK : Z := WIDTH - 1.

(** Edit tokens: the identity of the [PyObject] a transient allocates for
    itself.  [None] is the [NULL] token of every persistent value. *)
Definition token : Type := positive.

Definition token_eqb (a b : option token) : bool :=
  match a, b with
  | Some x, Some y => Pos.eqb x y
  | None, None => true
  | _, _ => false
  end.

(** Array access by a C index. *)
Definition get_item {A : Type} (l : list A) (i : Z) : result A :=
  if i <? 0 then Raise Fault
  else match nth_error l (Z.to_nat i) with
       | Some a => Ok a
       | None => Raise Fault
       end.

Fixpoint set_nth {A : Type} (l : list A) (n : nat) (x : A) : list A :=
  match l, n with
  | [], _ => []
  | _ :: t, O => x :: t
  | h :: t, S n' => h :: set_nth t n' x
  end.

Definition set_item {A : Type} (l : list A) (i : Z) (x : A) : list A :=
  if i <? 0 then l else set_nth l (Z.to_nat i) x.

(** ** Writes through shared pointers

    The module edits a node in place when the node carries the caller's edit
    token and copies it otherwise.  A function that may take the in-place
    branch returns, next to its value, the number of times it took it: the
    number of nodes it overwrote instead of copying.  A call that returns
    with the count [0] has written only into objects it allocated itself. *)

Definition W (A : Type) : Type := result (A * nat).

Definition retW {A : Type} (a : A) : W A := Ok (a, 0%nat).

Definition bindW {A B : Type} (m : W A) (k : A -> W B) : W B :=
  match m with
  | Ok (a, w) =>
      match k a with
      | Ok (b, w') => Ok (b, (w + w')%nat)
      | Raise e => Raise e
      end
  | Raise e => Raise e
  end.

Definition liftW {A : Type} (m : result A) : W A :=
  match m with
  | Ok a => Ok (a, 0%nat)
  | Raise e => Raise e
  end.

(** One edit of a node in place (the [is_editable] branch). *)
Definition in_place_write : W unit := Ok (tt, 1%nat).

Notation "x <~ m ;; k" := (bindW m (fun x => k))
  (at level 100, m at next level, right associativity) : result_scope.
Notation "' p <~ m ;; k" := (bindW m (fun p => k))
  (at level 100, p pattern, m at next level, right associativity) : result_scope.

Fixpoint foldW {A B : Type} (f : B -> A -> W B) (l : list A) (b : B) : W B :=
  match l with
  | [] => retW b
  | a :: t => b' <~ f b a ;; foldW f t b'
  end.

Definition writes {A : Type} (m : W A) : nat :=
  match m with Ok (_, w) => w | Raise _ => 0%nat end.

Definition value {A : Type} (m : W A) : result A :=
  match m with Ok (a, _) => Ok a | Raise e => Raise e end.

(** How an entry point hands back its object: the receiver itself, the
    module's canonical empty instance, or an object it just allocated. *)
Inductive ret (A : Type) : Type :=
| ret_self                (* Py_INCREF(self); return self *)
| ret_canonical_empty     (* Py_INCREF(EMPTY_X); return EMPTY_X *)
| ret_new (a : A).        (* X_create(...) *)
Arguments ret_self {A}.
Arguments ret_canonical_empty {A}.

Section Vector.

(** The host objects stored in a vector. *)
Variable Obj : Type.
Variable Py_None : Obj.
Variable PyObject_Hash : Obj -> result Z.

(** *** VectorNode (pds.c:471-512)

    [array[WIDTH]] holds [NULL], an element or a child node. *)
Inductive VectorNode : Type :=
| mkVectorNode (array : list VSlot) (transient_id : option token)
with VSlot : Type :=
| VNull
| VItem (o : Obj)
| VChild (n : VectorNode).

Definition node_array (n : VectorNode) : list VSlot :=
  match n with mkVectorNode a _ => a end.
Definition node_transient_id (n : VectorNode) : option token :=
  match n with mkVectorNode _ t => t end.

Definition VectorNode_create (transient_id : option token) : VectorNode :=
  mkVectorNode (repeat VNull (Z.to_nat WIDTH)) transient_id.

Definition VectorNode_clone (self : VectorNode) (transient_id : option token)
  : VectorNode :=
  mkVectorNode (node_array self) transient_id.

Definition VectorNode_is_editable (self : VectorNode)
           (transient_id : option token) : bool :=
  match transient_id with
  | None => false
  | Some _ => token_eqb (node_transient_id self) transient_id
  end.

Definition EMPTY_NODE : VectorNode := VectorNode_create None.

(** The assignment [ret->array[i] = s]. *)
Definition node_store (ret : VectorNode) (i : Z) (s : VSlot) : VectorNode :=
  mkVectorNode (set_item (node_array ret) i s) (node_transient_id ret).

(** The cast [(VectorNode * )node->array[k]]. *)
Definition as_node (s : VSlot) : result VectorNode :=
  match s with
  | VChild n => Ok n
  | _ => Raise Fault
  end.

(** *** Vector (pds.c:526-594) *)
Record Vector : Type := mkVector {
  cnt : Z;
  shift : Z;
  root : VectorNode;
  tail : list Obj;
  hash : Z;
  hash_computed : bool;
  transient_id : option token
}.

Definition Vector_create (cnt shift : Z) (root : VectorNode)
           (tail : list Obj) (transient_id : option token) : Vector :=
  mkVector cnt shift root tail 0 false transient_id.

Definition EMPTY_VECTOR : Vector := Vector_create 0 BITS EMPTY_NODE [] None.

Definition Vector_length (self : Vector) : Z := cnt self.

Definition Vector_tail_off (self : Vector) : Z :=
  if cnt self <? WIDTH then 0
  else Z.shiftl (Z.shiftr (cnt self - 1) BITS) BITS.

(** The descent
    [for (level = shift; level > 0; level -= BITS) node = node->array[...]]. *)
Fixpoint descend (fuel : nat) (node : VectorNode) (level i : Z)
  : result VectorNode :=
  if level >? 0 then
    match fuel with
    | O => Raise OutOfFuel
    | S fuel' =>
        s <- get_item (node_array node) (Z.land (Z.shiftr i level) MASK) ;;
        child <- as_node s ;;
        descend fuel' child (level - BITS) i
    end
  else Ok node.

Definition level_fuel (level : Z) : nat := S (Z.to_nat level).

Definition slot_item (s : VSlot) : result Obj :=
  match s with
  | VNull => Ok Py_None
  | VItem o => Ok o
  | VChild _ => Raise Fault
  end.

Fixpoint map_result {A B : Type} (f : A -> result B) (l : list A)
  : result (list B) :=
  match l with
  | [] => Ok []
  | a :: t => b <- f a ;; r <- map_result f t ;; Ok (b :: r)
  end.

(** [Vector_array_for] (pds.c:614-641): the tail tuple, or a fresh tuple
    built from the leaf that holds index [i]. *)
Definition Vector_array_for (self : Vector) (i : Z) : result (list Obj) :=
  if (i <? 0) || (i >=? cnt self) then Raise IndexError
  else if i >=? Vector_tail_off self then Ok (tail self)
  else
    node <- descend (level_fuel (shift self)) (root self) (shift self) i ;;
    map_result slot_item (node_array node).

(** [Vector_nth_impl] (pds.c:645-666). *)
Definition Vector_nth_impl (self : Vector) (i : Z) (default_val : option Obj)
  : result Obj :=
  let i := if i <? 0 then cnt self + i else i in
  if (i <? 0) || (i >=? cnt self) then
    match default_val with
    | Some d => Ok d
    | None => Raise IndexError
    end
  else
    arr <- Vector_array_for self i ;;
    get_item arr (Z.land i MASK).

(** The integer branch of [Vector_getitem] (pds.c:710-733). *)
Definition Vector_getitem (self : Vector) (key : Z) : result Obj :=
  let i := key in
  let i := if i <? 0 then cnt self + i else i in
  if (i <? 0) || (i >=? cnt self) then Raise IndexError
  else
    arr <- Vector_array_for self i ;;
    get_item arr (Z.land i MASK).

(** *** Appending (pds.c:736-861) *)

Fixpoint Vector_new_path (fuel : nat) (level : Z) (node : VectorNode)
         (transient_id : option token) : result VectorNode :=
  if level =? 0 then Ok node
  else match fuel with
       | O => Raise OutOfFuel
       | S fuel' =>
           let ret := VectorNode_create transient_id in
           child <- Vector_new_path fuel' (level - BITS) node transient_id ;;
           Ok (node_store ret 0 (VChild child))
       end.

(** [ret = parent] when the parent is editable, a clone otherwise. *)
Definition VectorNode_for_write (parent : VectorNode)
           (transient_id : option token) : W VectorNode :=
  if VectorNode_is_editable parent transient_id
  then _ <~ in_place_write ;; retW parent
  else retW (VectorNode_clone parent transient_id).

Fixpoint Vector_push_tail (fuel : nat) (self_cnt : Z) (level : Z)
         (parent tail_node : VectorNode) (transient_id : option token)
  : W VectorNode :=
  match fuel with
  | O => Raise OutOfFuel
  | S fuel' =>
      let subidx := Z.land (Z.shiftr (self_cnt - 1) level) MASK in
      ret <~ VectorNode_for_write parent transient_id ;;
      node_to_insert <~
        (if level =? BITS then retW tail_node
         else
           child <~ liftW (get_item (node_array parent) subidx) ;;
           match child with
           | VNull =>
               liftW (Vector_new_path fuel' (level - BITS) tail_node
                                      transient_id)
           | _ =>
               c <~ liftW (as_node child) ;;
               Vector_push_tail fuel' self_cnt (level - BITS) c tail_node
                                transient_id
           end) ;;
      retW (node_store ret subidx (VChild node_to_insert))
  end.

Definition tail_node_of (tail : list Obj) (transient_id : option token)
  : VectorNode :=
  let filled := firstn (Z.to_nat WIDTH) tail in
  mkVectorNode (map VItem filled
                ++ repeat VNull (Z.to_nat WIDTH - length filled))
               transient_id.

(** [Vector_conj] (pds.c:787-861): the new vector, with the number of
    in-place writes to nodes that [self] reaches. *)
Definition Vector_conj (self : Vector) (val : Obj) : W Vector :=
  let transient_id := transient_id self in
  if cnt self - Vector_tail_off self <? WIDTH then
    let new_tail := tail self ++ [val] in
    retW (Vector_create (cnt self + 1) (shift self) (root self) new_tail
                        transient_id)
  else
    let tail_node := tail_node_of (tail self) transient_id in
    '(new_root, new_shift) <~
      (if Z.shiftr (cnt self) BITS >? Z.shiftl 1 (shift self) then
         let new_root := VectorNode_create transient_id in
         let new_root := node_store new_root 0 (VChild (root self)) in
         path <~ liftW (Vector_new_path (level_fuel (shift self))
                          (shift self) tail_node transient_id) ;;
         retW (node_store new_root 1 (VChild path), shift self + BITS)
       else
         r <~ Vector_push_tail (level_fuel (shift self)) (cnt self)
                (shift self) (root self) tail_node transient_id ;;
         retW (r, shift self)) ;;
    retW (Vector_create (cnt self + 1) new_shift new_root [val]
                        transient_id).

(** *** Updating (pds.c:863-934) *)

Fixpoint Vector_do_assoc (fuel : nat) (level : Z) (node : VectorNode)
         (i : Z) (val : Obj) : result VectorNode :=
  let ret := VectorNode_clone node None in
  if level =? 0 then
    Ok (node_store ret (Z.land i MASK) (VItem val))
  else
    match fuel with
    | O => Raise OutOfFuel
    | S fuel' =>
        let subidx := Z.land (Z.shiftr i level) MASK in
        s <- get_item (node_array node) subidx ;;
        c <- as_node s ;;
        child <- Vector_do_assoc fuel' (level - BITS) c i val ;;
        Ok (node_store ret subidx (VChild child))
    end.

Definition Vector_assoc (self : Vector) (i : Z) (val : Obj) : W Vector :=
  let i := if i <? 0 then cnt self + i else i in
  if (i <? 0) || (i >? cnt self) then Raise IndexError
  else if i =? cnt self then Vector_conj self val
  else if i >=? Vector_tail_off self then
    let new_tail := set_item (tail self) (Z.land i MASK) val in
    retW (Vector_create (cnt self) (shift self) (root self) new_tail None)
  else
    new_root <~ liftW (Vector_do_assoc (level_fuel (shift self))
                         (shift self) (root self) i val) ;;
    retW (Vector_create (cnt self) (shift self) new_root (tail self) None).

(** *** Popping (pds.c:936-1005)

    [Vector_pop_tail] returns [None] for the C [NULL] ("this subtree is
    now empty"). *)
Fixpoint Vector_pop_tail (fuel : nat) (self_cnt : Z) (level : Z)
         (node : VectorNode) : result (option VectorNode) :=
  let subidx := Z.land (Z.shiftr (self_cnt - 2) level) MASK in
  if level >? BITS then
    match fuel with
    | O => Raise OutOfFuel
    | S fuel' =>
        s <- get_item (node_array node) subidx ;;
        c <- as_node s ;;
        new_child <- Vector_pop_tail fuel' self_cnt (level - BITS) c ;;
        match new_child with
        | None =>
            if subidx =? 0 then Ok None
            else
              let ret := VectorNode_clone node None in
              Ok (Some (node_store ret subidx VNull))
        | Some nc =>
            let ret := VectorNode_clone node None in
            Ok (Some (node_store ret subidx (VChild nc)))
        end
    end
  else if subidx =? 0 then Ok None
  else
    let ret := VectorNode_clone node None in
    Ok (Some (node_store ret subidx VNull)).

Definition Vector_pop (self : Vector) : result (ret Vector) :=
  if cnt self =? 0 then Raise IndexError
  else if cnt self =? 1 then Ok ret_canonical_empty
  else
    let tail_len := Z.of_nat (length (tail self)) in
    if cnt self - Vector_tail_off self >? 1 then
      let new_tail := firstn (Z.to_nat (tail_len - 1)) (tail self) in
      Ok (ret_new (Vector_create (cnt self - 1) (shift self) (root self)
                                 new_tail None))
    else
      new_tail <- Vector_array_for self (cnt self - 2) ;;
      popped <- Vector_pop_tail (level_fuel (shift self)) (cnt self)
                  (shift self) (root self) ;;
      let new_root := match popped with
                      | None => EMPTY_NODE
                      | Some r => r
                      end in
      slot1 <- get_item (node_array new_root) 1 ;;
      '(new_root, new_shift) <-
        (if (shift self >? BITS)
            && (match slot1 with VNull => true | _ => false end)
         then
           s0 <- get_item (node_array new_root) 0 ;;
           r <- as_node s0 ;;
           Ok (r, shift self - BITS)
         else Ok (new_root, shift self)) ;;
      Ok (ret_new (Vector_create (cnt self - 1) new_shift new_root new_tail
                                 None)).

(** The object an entry point returned, as a value. *)
Definition deref_vector (self : Vector) (r : ret Vector) : Vector :=
  match r with
  | ret_self => self
  | ret_canonical_empty => EMPTY_VECTOR
  | ret_new v => v
  end.

(** *** TransientVector (pds.c:3651-4054)

    [id] is the identity of the token object the transient allocated;
    [None] after [persistent()]. *)
Record TransientVector : Type := mkTransientVector {
  tv_cnt : Z;
  tv_shift : Z;
  tv_root : VectorNode;
  tv_tail : list Obj;       (* a Python list *)
  tv_id : option token
}.

(** [Vector_transient] (pds.c:3667-3697); [id] is the fresh token. *)
Definition Vector_transient (self : Vector) (id : token) : TransientVector :=
  mkTransientVector (cnt self) (shift self)
                    (VectorNode_clone (root self) (Some id))
                    (tail self) (Some id).

Definition TransientVector_tail_off (self : TransientVector) : Z :=
  if tv_cnt self <? WIDTH then 0
  else Z.shiftl (Z.shiftr (tv_cnt self - 1) BITS) BITS.

(** [TransientVector_ensure_editable] followed by [PyErr_Occurred()]. *)
Definition TransientVector_ensure_editable (self : TransientVector)
  : result unit :=
  match tv_id self with
  | None => Raise RuntimeError
  | Some _ => Ok tt
  end.

(** [TransientVector_new_path] and [TransientVector_push_tail]
    (pds.c:3712-3761) repeat the bodies of [Vector_new_path] and
    [Vector_push_tail] with [self->id] as the token. *)
Definition TransientVector_new_path (fuel : nat) (self : TransientVector)
           (level : Z) (node : VectorNode) : result VectorNode :=
  Vector_new_path fuel level node (tv_id self).

Definition TransientVector_push_tail (fuel : nat) (self : TransientVector)
           (level : Z) (parent tail_node : VectorNode) : W VectorNode :=
  Vector_push_tail fuel (tv_cnt self) level parent tail_node (tv_id self).

(** [TransientVector_conj_mut] (pds.c:3763-3831): the transient after the
    call.  First the part that follows the [ensure_editable] check. *)
Definition TransientVector_conj_mut_raw (self : TransientVector) (val : Obj)
  : W TransientVector :=
  if tv_cnt self - TransientVector_tail_off self <? WIDTH then
    retW (mkTransientVector (tv_cnt self + 1) (tv_shift self) (tv_root self)
                            (tv_tail self ++ [val]) (tv_id self))
  else
    let tail_node := tail_node_of (tv_tail self) (tv_id self) in
    let new_tail := [val] in
    '(new_root, new_shift) <~
      (if Z.shiftr (tv_cnt self) BITS >? Z.shiftl 1 (tv_shift self) then
         let new_root := VectorNode_create (tv_id self) in
         let new_root := node_store new_root 0 (VChild (tv_root self)) in
         path <~ liftW (TransientVector_new_path
                          (level_fuel (tv_shift self)) self (tv_shift self)
                          tail_node) ;;
         retW (node_store new_root 1 (VChild path), tv_shift self + BITS)
       else
         r <~ TransientVector_push_tail (level_fuel (tv_shift self)) self
                (tv_shift self) (tv_root self) tail_node ;;
         retW (r, tv_shift self)) ;;
    retW (mkTransientVector (tv_cnt self + 1) new_shift new_root new_tail
                            (tv_id self)).

Definition TransientVector_conj_mut (self : TransientVector) (val : Obj)
  : W TransientVector :=
  _ <~ liftW (TransientVector_ensure_editable self) ;;
  TransientVector_conj_mut_raw self val.

(** [TransientVector_persistent] (pds.c:4042-4054): the vector returned and
    the transient with its token cleared. *)
Definition TransientVector_persistent (self : TransientVector)
  : result (Vector * TransientVector) :=
  _ <- TransientVector_ensure_editable self ;;
  Ok (Vector_create (tv_cnt self) (tv_shift self) (tv_root self)
                    (tv_tail self) None,
      mkTransientVector (tv_cnt self) (tv_shift self) (tv_root self)
                        (tv_tail self) None).

(** *** The factory [vec] (pds.c:9340-9404)

    [expands arg] is the test
    [PyIter_Check(arg) || PyObject_TypeCheck(arg, &SortedVectorType) ||
     (PySequence_Check(arg) && !PyUnicode_Check(arg) && ...)];
    [PyObject_GetIter arg] is the list of objects the iterator of [arg]
    yields, [Raise] when [arg] has no iterator. *)
Variable expands : Obj -> bool.
Variable PyObject_GetIter : Obj -> result (list Obj).

Fixpoint conj_mut_all (t : TransientVector) (items : list Obj)
  : W TransientVector :=
  match items with
  | [] => retW t
  | item :: rest =>
      t' <~ TransientVector_conj_mut t item ;;
      conj_mut_all t' rest
  end.

Definition pds_vec (args : list Obj) (id : token) : W (ret Vector) :=
  match args with
  | [] => retW ret_canonical_empty
  | _ =>
      let varargs :=
        t <~ conj_mut_all (Vector_transient EMPTY_VECTOR id) args ;;
        '(v, _) <~ liftW (TransientVector_persistent t) ;;
        retW (ret_new v) in
      match args with
      | [arg] =>
          if expands arg then
            match PyObject_GetIter arg with
            | Raise _ => varargs
            | Ok items =>
                t <~ conj_mut_all (Vector_transient EMPTY_VECTOR id) items ;;
                '(v, _) <~ liftW (TransientVector_persistent t) ;;
                retW (ret_new v)
            end
          else varargs
      | _ => varargs
      end
  end.

End Vector.

(** ** SortedVector: a size-annotated left-leaning red-black tree
       (pds.c:7969-9313) *)

Inductive cmp_op : Type := Py_LT | Py_GT | Py_EQ.

Inductive rb_color : Type := RB_RED | RB_BLACK.

Definition rb_color_eqb (a b : rb_color) : bool :=
  match a, b with
  | RB_RED, RB_RED | RB_BLACK, RB_BLACK => true
  | _, _ => false
  end.

(** [!color] on the encoding [RB_RED = 0], [RB_BLACK = 1]. *)
Definition rb_color_not (c : rb_color) : rb_color :=
  match c with RB_RED => RB_BLACK | RB_BLACK => RB_RED end.

Section SortedVector.

Variable Obj : Type.
Variable Py_None : Obj.
(** [PyObject_RichCompareBool(a, b, op)]; [Raise] is the [-1] return. *)
Variable PyObject_RichCompareBool : Obj -> Obj -> cmp_op -> result bool.

(** *** RBNode (pds.c:7975-8064); [RBNull] is the [NULL] pointer. *)
Inductive RBNode : Type :=
| RBNull
| RBNode_ (value sort_key : Obj) (left right : RBNode) (size : Z)
          (color : rb_color) (edit : option token).

Definition RBNode_size (node : RBNode) : Z :=
  match node with
  | RBNull => 0
  | RBNode_ _ _ _ _ s _ _ => s
  end.

Definition rb_left (n : RBNode) : RBNode :=
  match n with RBNull => RBNull | RBNode_ _ _ l _ _ _ _ => l end.
Definition rb_right (n : RBNode) : RBNode :=
  match n with RBNull => RBNull | RBNode_ _ _ _ r _ _ _ => r end.

Definition set_left (n l : RBNode) : RBNode :=
  match n with
  | RBNull => RBNull
  | RBNode_ v k _ r s c e => RBNode_ v k l r s c e
  end.
Definition set_right (n r : RBNode) : RBNode :=
  match n with
  | RBNull => RBNull
  | RBNode_ v k l _ s c e => RBNode_ v k l r s c e
  end.
Definition set_color (n : RBNode) (c : rb_color) : RBNode :=
  match n with
  | RBNull => RBNull
  | RBNode_ v k l r s _ e => RBNode_ v k l r s c e
  end.
Definition set_value_key (n : RBNode) (v k : Obj) : RBNode :=
  match n with
  | RBNull => RBNull
  | RBNode_ _ _ l r s c e => RBNode_ v k l r s c e
  end.

Definition RBNode_update_size (node : RBNode) : RBNode :=
  match node with
  | RBNull => RBNull
  | RBNode_ v k l r _ c e =>
      RBNode_ v k l r (1 + RBNode_size l + RBNode_size r) c e
  end.

Definition RBNode_create (value sort_key : Obj) (color : rb_color)
           (edit : option token) : RBNode :=
  RBNode_ value sort_key RBNull RBNull 1 color edit.

Definition RBNode_clone (node : RBNode) (edit : option token) : RBNode :=
  match node with
  | RBNull => RBNull
  | RBNode_ v k l r s c _ => RBNode_ v k l r s c edit
  end.

Definition RBNode_is_red (node : RBNode) : bool :=
  match node with
  | RBNode_ _ _ _ _ _ RB_RED _ => true
  | _ => false
  end.

Definition RBNode_is_editable (node : RBNode) (edit : option token) : bool :=
  match node, edit with
  | RBNode_ _ _ _ _ _ _ e, Some _ => token_eqb e edit
  | _, _ => false
  end.

Definition rb_is_null (node : RBNode) : bool :=
  match node with RBNull => true | _ => false end.

Definition RBNode_ensure_editable (node : RBNode) (edit : option token)
  : W RBNode :=
  match node with
  | RBNull => retW RBNull
  | _ =>
      if RBNode_is_editable node edit
      then _ <~ in_place_write ;; retW node
      else retW (RBNode_clone node edit)
  end.

(** [SortedVector_compare_keys] (pds.c:8077-8087): [-1], [0] or [1]. *)
Definition SortedVector_compare_keys (a b : Obj) (reverse : bool) : result Z :=
  lt <- PyObject_RichCompareBool a b Py_LT ;;
  if lt then Ok (if reverse then 1 else -1)
  else
    gt <- PyObject_RichCompareBool a b Py_GT ;;
    if gt then Ok (if reverse then -1 else 1)
    else Ok 0.

(** *** Rotations and colour flips (pds.c:8091-8175) *)

Definition rb_color_of (n : RBNode) : rb_color :=
  match n with RBNull => RB_BLACK | RBNode_ _ _ _ _ _ c _ => c end.

Definition RBNode_rotate_left (h : RBNode) (edit : option token) : W RBNode :=
  match h with
  | RBNull => Raise Fault
  | _ =>
      x <~ RBNode_ensure_editable (rb_right h) edit ;;
      if rb_is_null x then retW RBNull
      else
        new_h <~ RBNode_ensure_editable h edit ;;
        let new_h := set_right new_h (rb_left x) in
        let x_color := rb_color_of new_h in
        let new_h := set_color new_h RB_RED in
        let new_h := RBNode_update_size new_h in
        let x := set_left x new_h in
        let x := set_color x x_color in
        retW (RBNode_update_size x)
  end.

Definition RBNode_rotate_right (h : RBNode) (edit : option token) : W RBNode :=
  match h with
  | RBNull => Raise Fault
  | _ =>
      x <~ RBNode_ensure_editable (rb_left h) edit ;;
      if rb_is_null x then retW RBNull
      else
        new_h <~ RBNode_ensure_editable h edit ;;
        let new_h := set_left new_h (rb_right x) in
        let x_color := rb_color_of new_h in
        let new_h := set_color new_h RB_RED in
        let new_h := RBNode_update_size new_h in
        let x := set_right x new_h in
        let x := set_color x x_color in
        retW (RBNode_update_size x)
  end.

Definition flip_child (c : RBNode) (edit : option token) : W RBNode :=
  match c with
  | RBNull => retW RBNull
  | _ =>
      n <~ RBNode_ensure_editable c edit ;;
      retW (set_color n (rb_color_not (rb_color_of n)))
  end.

Definition RBNode_flip_colors (h : RBNode) (edit : option token) : W RBNode :=
  new_h <~ RBNode_ensure_editable h edit ;;
  match new_h with
  | RBNull => retW RBNull
  | _ =>
      let new_h := set_color new_h (rb_color_not (rb_color_of new_h)) in
      new_left <~ flip_child (rb_left new_h) edit ;;
      let new_h := set_left new_h new_left in
      new_right <~ flip_child (rb_right new_h) edit ;;
      retW (set_right new_h new_right)
  end.

(** [RBNode_balance] (pds.c:8178-8201). *)
Definition RBNode_balance (h : RBNode) (edit : option token) : W RBNode :=
  match h with
  | RBNull => retW RBNull
  | _ =>
      h <~ (if RBNode_is_red (rb_right h) && negb (RBNode_is_red (rb_left h))
            then RBNode_rotate_left h edit else retW h) ;;
      if rb_is_null h then retW RBNull
      else
        h <~ (if RBNode_is_red (rb_left h)
                 && RBNode_is_red (rb_left (rb_left h))
              then RBNode_rotate_right h edit else retW h) ;;
        if rb_is_null h then retW RBNull
        else
          h <~ (if RBNode_is_red (rb_left h) && RBNode_is_red (rb_right h)
                then RBNode_flip_colors h edit else retW h) ;;
          if rb_is_null h then retW RBNull
          else retW (RBNode_update_size h)
  end.

(** *** Insertion (pds.c:8242-8308) *)

Fixpoint RBNode_insert (h : RBNode) (value sort_key : Obj) (reverse : bool)
         (edit : option token) : W RBNode :=
  match h with
  | RBNull => retW (RBNode_create value sort_key RB_RED edit)
  | RBNode_ _ h_key h_left h_right _ _ _ =>
      cmp <~ liftW (SortedVector_compare_keys sort_key h_key reverse) ;;
      new_h <~ RBNode_ensure_editable h edit ;;
      new_h <~
        (if cmp <? 0 then
           new_left <~ RBNode_insert h_left value sort_key reverse edit ;;
           retW (set_left new_h new_left)
         else
           new_right <~ RBNode_insert h_right value sort_key reverse edit ;;
           retW (set_right new_h new_right)) ;;
      RBNode_balance new_h edit
  end.

(** *** SortedVector (pds.c:8205-8239) *)
Record SortedVector : Type := mkSortedVector {
  sv_root : RBNode;
  sv_cnt : Z;
  sv_key_fn : option (Obj -> result Obj);
  sv_reverse : bool
}.

Definition SortedVector_new : SortedVector :=
  mkSortedVector RBNull 0 None false.

Definition SortedVector_get_sort_key (key_fn : option (Obj -> result Obj))
           (value : Obj) : result Obj :=
  match key_fn with
  | Some f => f value
  | None => Ok value
  end.

(** [SortedVector_first] and [SortedVector_last] (pds.c:8378-8405): the
    value at the end of the left (right) spine, [Py_None] for an empty
    vector. *)
Fixpoint rb_leftmost (node : RBNode) : result Obj :=
  match node with
  | RBNull => Raise Fault
  | RBNode_ v _ RBNull _ _ _ _ => Ok v
  | RBNode_ _ _ l _ _ _ _ => rb_leftmost l
  end.

Fixpoint rb_rightmost (node : RBNode) : result Obj :=
  match node with
  | RBNull => Raise Fault
  | RBNode_ v _ _ RBNull _ _ _ => Ok v
  | RBNode_ _ _ _ r _ _ _ => rb_rightmost r
  end.

Definition SortedVector_first (self : SortedVector) : result Obj :=
  if sv_cnt self =? 0 then Ok Py_None else rb_leftmost (sv_root self).

Definition SortedVector_last (self : SortedVector) : result Obj :=
  if sv_cnt self =? 0 then Ok Py_None else rb_rightmost (sv_root self).

Definition SortedVector_conj (self : SortedVector) (value : Obj)
  : W SortedVector :=
  sort_key <~ liftW (SortedVector_get_sort_key (sv_key_fn self) value) ;;
  new_root <~ RBNode_insert (sv_root self) value sort_key (sv_reverse self)
                None ;;
  let new_root :=
    if RBNode_is_red new_root
    then set_color (RBNode_clone new_root None) RB_BLACK
    else new_root in
  retW (mkSortedVector new_root (sv_cnt self + 1) (sv_key_fn self)
                       (sv_reverse self)).

(** *** Deletion (pds.c:8730-8929) *)

Definition RBNode_move_red_left (h : RBNode) (edit : option token)
  : W RBNode :=
  h <~ RBNode_flip_colors h edit ;;
  if rb_is_null h then retW RBNull
  else if negb (rb_is_null (rb_right h))
          && RBNode_is_red (rb_left (rb_right h)) then
    new_right <~ RBNode_rotate_right (rb_right h) edit ;;
    if rb_is_null new_right then retW RBNull
    else
      let h := set_right h new_right in
      h <~ RBNode_rotate_left h edit ;;
      if rb_is_null h then retW RBNull
      else RBNode_flip_colors h edit
  else retW h.

Definition RBNode_move_red_right (h : RBNode) (edit : option token)
  : W RBNode :=
  h <~ RBNode_flip_colors h edit ;;
  if rb_is_null h then retW RBNull
  else if negb (rb_is_null (rb_left h))
          && RBNode_is_red (rb_left (rb_left h)) then
    h <~ RBNode_rotate_right h edit ;;
    if rb_is_null h then retW RBNull
    else RBNode_flip_colors h edit
  else retW h.

(** [while (node->left) node = node->left] *)
Fixpoint RBNode_min (node : RBNode) : result RBNode :=
  match node with
  | RBNull => Raise Fault
  | RBNode_ _ _ RBNull _ _ _ _ => Ok node
  | RBNode_ _ _ l _ _ _ _ => RBNode_min l
  end.

Definition rb_value (n : RBNode) : result Obj :=
  match n with RBNull => Raise Fault | RBNode_ v _ _ _ _ _ _ => Ok v end.
Definition rb_sort_key (n : RBNode) : result Obj :=
  match n with RBNull => Raise Fault | RBNode_ _ k _ _ _ _ _ => Ok k end.

Fixpoint RBNode_delete_min (fuel : nat) (h : RBNode) (edit : option token)
  : W RBNode :=
  match fuel with
  | O => Raise OutOfFuel
  | S fuel' =>
      new_h <~ RBNode_ensure_editable h edit ;;
      if rb_is_null new_h then retW RBNull
      else if rb_is_null (rb_left new_h) then retW RBNull
      else
        new_h <~
          (if negb (RBNode_is_red (rb_left new_h))
              && negb (RBNode_is_red (rb_left (rb_left new_h)))
           then RBNode_move_red_left new_h edit else retW new_h) ;;
        if rb_is_null new_h then retW RBNull
        else
          new_left <~ RBNode_delete_min fuel' (rb_left new_h) edit ;;
          RBNode_balance (set_left new_h new_left) edit
  end.

(** [key_eq = (SortedVector_compare_keys(...) == 0)]: the error return
    [-2] compares unequal to [0]. *)
Definition key_equal (a b : Obj) (reverse : bool) : bool :=
  match SortedVector_compare_keys a b reverse with
  | Ok c => c =? 0
  | Raise _ => false
  end.

(** [RBNode_delete] (pds.c:8797-8888); the [int *deleted] out-parameter is
    threaded as a value. *)
Fixpoint RBNode_delete (fuel : nat) (h : RBNode) (sort_key value : Obj)
         (reverse : bool) (deleted : bool) (edit : option token)
  : W (RBNode * bool) :=
  match fuel with
  | O => Raise OutOfFuel
  | S fuel' =>
      match h with
      | RBNull => retW (RBNull, false)
      | RBNode_ _ h_key _ _ _ _ _ =>
          cmp <~ liftW (SortedVector_compare_keys sort_key h_key reverse) ;;
          new_h <~ RBNode_ensure_editable h edit ;;
          if cmp <? 0 then
            new_h <~
              (if negb (rb_is_null (rb_left new_h))
                  && negb (RBNode_is_red (rb_left new_h))
                  && negb (RBNode_is_red (rb_left (rb_left new_h)))
               then RBNode_move_red_left new_h edit else retW new_h) ;;
            if rb_is_null new_h then retW (RBNull, deleted)
            else
              '(new_left, deleted) <~
                RBNode_delete fuel' (rb_left new_h) sort_key value reverse
                              deleted edit ;;
              r <~ RBNode_balance (set_left new_h new_left) edit ;;
              retW (r, deleted)
          else
            new_h <~
              (if RBNode_is_red (rb_left new_h)
               then RBNode_rotate_right new_h edit else retW new_h) ;;
            if rb_is_null new_h then retW (RBNull, deleted)
            else
              nv <~ liftW (rb_value new_h) ;;
              nk <~ liftW (rb_sort_key new_h) ;;
              eq <~ liftW (PyObject_RichCompareBool value nv Py_EQ) ;;
              let key_eq := key_equal sort_key nk reverse in
              if key_eq && eq && rb_is_null (rb_right new_h)
              then retW (RBNull, true)
              else
                new_h <~
                  (if negb (rb_is_null (rb_right new_h))
                      && negb (RBNode_is_red (rb_right new_h))
                      && negb (RBNode_is_red (rb_left (rb_right new_h)))
                   then RBNode_move_red_right new_h edit else retW new_h) ;;
                if rb_is_null new_h then retW (RBNull, deleted)
                else
                  nv <~ liftW (rb_value new_h) ;;
                  nk <~ liftW (rb_sort_key new_h) ;;
                  eq <~ liftW (PyObject_RichCompareBool value nv Py_EQ) ;;
                  let key_eq := key_equal sort_key nk reverse in
                  if key_eq && eq then
                    min_node <~ liftW (RBNode_min (rb_right new_h)) ;;
                    mv <~ liftW (rb_value min_node) ;;
                    mk <~ liftW (rb_sort_key min_node) ;;
                    let new_h := set_value_key new_h mv mk in
                    new_right <~ RBNode_delete_min fuel' (rb_right new_h)
                                   edit ;;
                    r <~ RBNode_balance (set_right new_h new_right) edit ;;
                    retW (r, true)
                  else
                    '(new_right, deleted) <~
                      RBNode_delete fuel' (rb_right new_h) sort_key value
                                    reverse deleted edit ;;
                    r <~ RBNode_balance (set_right new_h new_right) edit ;;
                    retW (r, deleted)
      end
  end.

Fixpoint rb_nodes (n : RBNode) : nat :=
  match n with
  | RBNull => O
  | RBNode_ _ _ l r _ _ _ => S (rb_nodes l + rb_nodes r)
  end.

Definition SortedVector_disj (self : SortedVector) (value : Obj)
  : W (ret SortedVector) :=
  if sv_cnt self =? 0 then retW ret_self
  else
    sort_key <~ liftW (SortedVector_get_sort_key (sv_key_fn self) value) ;;
    '(new_root, deleted) <~
      RBNode_delete (S (rb_nodes (sv_root self))) (sv_root self) sort_key
                    value (sv_reverse self) false None ;;
    if negb deleted then retW ret_self
    else
      let new_root :=
        if RBNode_is_red new_root then set_color new_root RB_BLACK
        else new_root in
      retW (ret_new (mkSortedVector new_root (sv_cnt self - 1)
                                    (sv_key_fn self) (sv_reverse self))).

(** *** The factory [sorted_vec] (pds.c:9573-9621)

    [iterable] is the list the iterator of the argument yields, [None] when
    the argument is absent or [Py_None]. *)
Fixpoint sv_conj_all (sv : SortedVector) (items : list Obj) : W SortedVector :=
  match items with
  | [] => retW sv
  | item :: rest =>
      sv' <~ SortedVector_conj sv item ;;
      sv_conj_all sv' rest
  end.

Definition pds_sorted_vec (iterable : option (list Obj))
           (key_fn : option (Obj -> result Obj)) (reverse : bool)
  : W (ret SortedVector) :=
  let sv := mkSortedVector RBNull 0 key_fn reverse in
  match iterable with
  | None => retW (ret_new sv)
  | Some items =>
      sv <~ sv_conj_all sv items ;;
      retW (ret_new sv)
  end.

End SortedVector.

Arguments RBNull {Obj}.

(** ** Hashing and bit utilities (pds.c:97-122) *)

(** [ctpop]: the portable loop
    [while (i) { count += i & 1; i >>= 1; }] on a 32-bit unsigned value. *)
Fixpoint ctpop_loop (bits : nat) (i count : Z) : Z :=
  match bits with
  | O => count
  | S bits' =>
      if i =? 0 then count
      else ctpop_loop bits' (Z.shiftr i 1) (count + Z.land i 1)
  end.

Definition ctpop (i : Z) : Z := ctpop_loop 32 i 0.

Definition mask_hash (hash_val shift : Z) : Z :=
  Z.land (Z.shiftr hash_val shift) MASK.

Definition bitpos (hash_val shift : Z) : Z :=
  Z.shiftl 1 (mask_hash hash_val shift).

Definition bitmap_index (bitmap bit : Z) : Z :=
  ctpop (Z.land bitmap (bit - 1)).

Section HAMT.

Variable Obj : Type.
Variable Py_None : Obj.
(** Pointer identity of host objects ([a == b] on [PyObject *]). *)
Variable Obj_eq_dec : forall a b : Obj, {a = b} + {a <> b}.
(** [PyObject_Hash]; [Raise] is the [-1] return with an exception set. *)
Variable PyObject_Hash : Obj -> result Z.
Variable PyObject_RichCompareBool : Obj -> Obj -> cmp_op -> result bool.

Definition obj_is (a b : Obj) : bool :=
  if Obj_eq_dec a b then true else false.

(** *** Map nodes (pds.c:4400-4606)

    The [array] of every node is a Python list of [PyObject *]: it holds
    host objects (keys, values, the [Py_None] marker) and node objects. *)
Inductive MapNode : Type :=
| BitmapIndexedNode (bitmap : Z) (array : list MapItem)
                    (transient_id : option token)
| ArrayNode (count : Z) (array : list MapItem) (transient_id : option token)
| HashCollisionNode (hash : Z) (count : Z) (array : list MapItem)
                    (transient_id : option token)
with MapItem : Type :=
| IObj (o : Obj)
| INode (n : MapNode).

Definition map_node_tid (n : MapNode) : option token :=
  match n with
  | BitmapIndexedNode _ _ t | ArrayNode _ _ t | HashCollisionNode _ _ _ t => t
  end.

Definition map_node_array (n : MapNode) : list MapItem :=
  match n with
  | BitmapIndexedNode _ a _ | ArrayNode _ a _ | HashCollisionNode _ _ a _ => a
  end.

Definition set_map_node_array (n : MapNode) (a : list MapItem) : MapNode :=
  match n with
  | BitmapIndexedNode b _ t => BitmapIndexedNode b a t
  | ArrayNode c _ t => ArrayNode c a t
  | HashCollisionNode h c _ t => HashCollisionNode h c a t
  end.

Definition BitmapIndexedNode_create (bitmap : Z) (array : list MapItem)
           (transient_id : option token) : MapNode :=
  BitmapIndexedNode bitmap array transient_id.

Definition ArrayNode_create (count : Z) (array : list MapItem)
           (transient_id : option token) : MapNode :=
  ArrayNode count array transient_id.

Definition HashCollisionNode_create (hash_val count : Z)
           (array : list MapItem) (transient_id : option token) : MapNode :=
  HashCollisionNode hash_val count array transient_id.

Definition EMPTY_BIN : MapNode := BitmapIndexedNode_create 0 [] None.

(** [X_is_editable]: the same test for the three node types. *)
Definition MapNode_is_editable (self : MapNode) (transient_id : option token)
  : bool :=
  match transient_id with
  | None => false
  | Some _ => token_eqb (map_node_tid self) transient_id
  end.

(** [X_ensure_editable]: the node itself when it is editable, otherwise a
    node of the same type over a copy of the list, stamped with the
    caller's token.  The boolean tells whether the pointer returned is
    [self]. *)
Definition MapNode_ensure_editable (self : MapNode)
           (transient_id : option token) : W (MapNode * bool) :=
  if MapNode_is_editable self transient_id
  then _ <~ in_place_write ;; retW (self, true)
  else
    retW (match self with
          | BitmapIndexedNode b a _ => BitmapIndexedNode b a transient_id
          | ArrayNode c a _ => ArrayNode c a transient_id
          | HashCollisionNode h c a _ => HashCollisionNode h c a transient_id
          end, false).

(** The pointer a node operation returns. *)
Inductive nret : Type :=
| RSelf (now : MapNode)   (* [self]; [now] is what it holds after the call *)
| RNew (n : MapNode)      (* a node other than [self] *)
| RNone.                  (* [Py_None] *)

Definition nret_of (node : MapNode) (is_self : bool) : nret :=
  if is_self then RSelf node else RNew node.

(** The key slot is the [Py_None] marker. *)
Definition is_Py_None (i : MapItem) : bool :=
  match i with
  | IObj o => obj_is o Py_None
  | INode _ => false
  end.

(** A slot read as a host object. *)
Definition as_obj (i : MapItem) : result Obj :=
  match i with
  | IObj o => Ok o
  | INode _ => Raise Fault
  end.

(** The node type a child pointer is dispatched on:
    [PyObject_TypeCheck(p, &BitmapIndexedNodeType)], then
    [PyObject_TypeCheck(p, &ArrayNodeType)], and the unchecked cast
    [(HashCollisionNode * )p] in the [else] branch.  A host object that
    reaches the cast is read through the wrong struct layout. *)
Inductive child_kind : Type := KBitmap | KArray | KCollision.

Definition dispatch (p : MapItem) : result (child_kind * MapNode) :=
  match p with
  | INode (BitmapIndexedNode _ _ _ as n) => Ok (KBitmap, n)
  | INode (ArrayNode _ _ _ as n) => Ok (KArray, n)
  | INode (HashCollisionNode _ _ _ _ as n) => Ok (KCollision, n)
  | IObj _ => Raise Fault
  end.

(** [HashCollisionNode_find_index] (pds.c:4568-4576): the index of the
    key, or [-1]. *)
Fixpoint find_index_loop (pairs : nat) (array : list MapItem) (i : Z)
         (key : Obj) : result Z :=
  match pairs with
  | O => Ok (-1)
  | S pairs' =>
      k <- get_item array i ;;
      k <- as_obj k ;;
      eq <- PyObject_RichCompareBool k key Py_EQ ;;
      if eq then Ok i else find_index_loop pairs' array (i + 2) key
  end.

Definition HashCollisionNode_find_index (self : MapNode) (key : Obj)
  : result Z :=
  match self with
  | HashCollisionNode _ count array _ =>
      find_index_loop (Z.to_nat count) array 0 key
  | _ => Raise Fault
  end.

(** *** find (pds.c:4803-4834, 5097-5113, 5324-5334)

    [None] stands for the [not_found] pointer the caller passed. *)
Definition HashCollisionNode_find (self : MapNode) (key : Obj)
  : result (option Obj) :=
  idx <- HashCollisionNode_find_index self key ;;
  if idx <? 0 then Ok None
  else
    v <- get_item (map_node_array self) (idx + 1) ;;
    v <- as_obj v ;;
    Ok (Some v).

Fixpoint BitmapIndexedNode_find (fuel : nat) (self : MapNode)
         (shift hash_val : Z) (key : Obj) {struct fuel}
  : result (option Obj) :=
  match fuel with
  | O => Raise OutOfFuel
  | S fuel' =>
      match self with
      | BitmapIndexedNode bitmap array _ =>
          let bit := bitpos hash_val shift in
          if Z.land bitmap bit =? 0 then Ok None
          else
            let idx := bitmap_index bitmap bit in
            key_or_null <- get_item array (2 * idx) ;;
            val_or_node <- get_item array (2 * idx + 1) ;;
            if is_Py_None key_or_null then
              '(kind, child) <- dispatch val_or_node ;;
              match kind with
              | KBitmap =>
                  BitmapIndexedNode_find fuel' child (shift + BITS)
                                         hash_val key
              | KArray =>
                  ArrayNode_find fuel' child (shift + BITS) hash_val key
              | KCollision => HashCollisionNode_find child key
              end
            else
              k <- as_obj key_or_null ;;
              eq <- PyObject_RichCompareBool key k Py_EQ ;;
              if eq then v <- as_obj val_or_node ;; Ok (Some v)
              else Ok None
      | _ => Raise Fault
      end
  end
with ArrayNode_find (fuel : nat) (self : MapNode) (shift hash_val : Z)
                    (key : Obj) {struct fuel} : result (option Obj) :=
  match fuel with
  | O => Raise OutOfFuel
  | S fuel' =>
      match self with
      | ArrayNode _ array _ =>
          let idx := mask_hash hash_val shift in
          node <- get_item array idx ;;
          if is_Py_None node then Ok None
          else
            '(kind, child) <- dispatch node ;;
            match kind with
            | KBitmap =>
                BitmapIndexedNode_find fuel' child (shift + BITS) hash_val key
            | KArray => ArrayNode_find fuel' child (shift + BITS) hash_val key
            | KCollision => HashCollisionNode_find child key
            end
      | _ => Raise Fault
      end
  end.

(** *** assoc (pds.c:4609-4801, 5040-5095, 5267-5322)

    Each function returns the pointer it hands back and the number of
    [PyList_Append(added_leaf, Py_True)] calls it made on the list it was
    given. *)

(** The object behind the pointer a node operation returned. *)
Definition nret_item (r : nret) : MapItem :=
  match r with
  | RSelf now => INode now
  | RNew n => INode n
  | RNone => IObj Py_None
  end.

Definition list_insert2 (array : list MapItem) (at_ : Z) (k v : MapItem)
  : list MapItem :=
  firstn (Z.to_nat at_) array ++ k :: v :: skipn (Z.to_nat at_) array.

Definition list_remove2 (array : list MapItem) (at_ : Z) : list MapItem :=
  firstn (Z.to_nat at_) array ++ skipn (Z.to_nat at_ + 2) array.

Definition slots32 : list Z := map Z.of_nat (seq 0 (Z.to_nat WIDTH)).

Fixpoint BitmapIndexedNode_assoc (fuel : nat) (self : MapNode)
         (shift hash_val : Z) (key val : Obj) (transient_id : option token)
         {struct fuel} : W (nret * Z) :=
  match fuel with
  | O => Raise OutOfFuel
  | S fuel' =>
      match self with
      | BitmapIndexedNode bitmap array _ =>
          let bit := bitpos hash_val shift in
          let idx := bitmap_index bitmap bit in
          if negb (Z.land bitmap bit =? 0) then
            key_or_null <~ liftW (get_item array (2 * idx)) ;;
            val_or_node <~ liftW (get_item array (2 * idx + 1)) ;;
            if is_Py_None key_or_null then
              '(kind, child) <~ liftW (dispatch val_or_node) ;;
              '(n, added) <~
                match kind with
                | KBitmap =>
                    BitmapIndexedNode_assoc fuel' child (shift + BITS)
                      hash_val key val transient_id
                | KArray =>
                    ArrayNode_assoc fuel' child (shift + BITS) hash_val key
                      val transient_id
                | KCollision =>
                    HashCollisionNode_assoc fuel' child (shift + BITS)
                      hash_val key val transient_id
                end ;;
              match n with
              | RSelf now =>
                  retW (RSelf (set_map_node_array self
                                 (set_item array (2 * idx + 1) (INode now))),
                        added)
              | _ =>
                  '(node, is_self) <~
                    MapNode_ensure_editable self transient_id ;;
                  retW (nret_of
                          (set_map_node_array node
                             (set_item (map_node_array node) (2 * idx + 1)
                                       (nret_item n)))
                          is_self, added)
              end
            else
              k <~ liftW (as_obj key_or_null) ;;
              eq <~ liftW (PyObject_RichCompareBool key k Py_EQ) ;;
              if eq then
                old <~ liftW (as_obj val_or_node) ;;
                if obj_is val old then retW (RSelf self, 0)
                else
                  '(node, is_self) <~
                    MapNode_ensure_editable self transient_id ;;
                  retW (nret_of
                          (set_map_node_array node
                             (set_item (map_node_array node) (2 * idx + 1)
                                       (IObj val)))
                          is_self, 0)
              else
                old <~ liftW (as_obj val_or_node) ;;
                new_node <~ create_node fuel' (shift + BITS) k old hash_val
                              key val transient_id ;;
                '(node, is_self) <~
                  MapNode_ensure_editable self transient_id ;;
                retW (nret_of
                        (set_map_node_array node
                           (set_item
                              (set_item (map_node_array node) (2 * idx)
                                        (IObj Py_None))
                              (2 * idx + 1) (INode new_node)))
                        is_self, 1)
          else
            let n := ctpop bitmap in
            if n >=? WIDTH / 2 then
              let nodes := repeat (IObj Py_None) (Z.to_nat WIDTH) in
              let jdx := mask_hash hash_val shift in
              '(new_bin, added) <~
                BitmapIndexedNode_assoc fuel' EMPTY_BIN (shift + BITS)
                  hash_val key val transient_id ;;
              let nodes := set_item nodes jdx (nret_item new_bin) in
              '(nodes, _) <~
                foldW (fun (st : list MapItem * Z) (i : Z) =>
                         let '(nodes, j) := st in
                         if Z.land (Z.shiftr bitmap i) 1 =? 1 then
                           k <~ liftW (get_item array j) ;;
                           v <~ liftW (get_item array (j + 1)) ;;
                           if is_Py_None k then
                             retW (set_item nodes i v, j + 2)
                           else
                             ko <~ liftW (as_obj k) ;;
                             vo <~ liftW (as_obj v) ;;
                             kh <~ liftW (PyObject_Hash ko) ;;
                             '(child, _) <~
                               BitmapIndexedNode_assoc fuel' EMPTY_BIN
                                 (shift + BITS) kh ko vo transient_id ;;
                             retW (set_item nodes i (nret_item child), j + 2)
                         else retW (nodes, j))
                      slots32 (nodes, 0) ;;
              retW (RNew (ArrayNode_create (n + 1) nodes transient_id), added)
            else
              let new_array :=
                list_insert2 array (2 * idx) (IObj key) (IObj val) in
              retW (RNew (BitmapIndexedNode_create (Z.lor bitmap bit)
                            new_array transient_id), 1)
      | _ => Raise Fault
      end
  end
with ArrayNode_assoc (fuel : nat) (self : MapNode) (shift hash_val : Z)
       (key val : Obj) (transient_id : option token) {struct fuel}
     : W (nret * Z) :=
  match fuel with
  | O => Raise OutOfFuel
  | S fuel' =>
      match self with
      | ArrayNode _ array _ =>
          let idx := mask_hash hash_val shift in
          node <~ liftW (get_item array idx) ;;
          if is_Py_None node then
            '(new_node, _) <~
              BitmapIndexedNode_assoc fuel' EMPTY_BIN (shift + BITS)
                hash_val key val transient_id ;;
            '(editable, is_self) <~
              MapNode_ensure_editable self transient_id ;;
            match editable with
            | ArrayNode count earray etid =>
                retW (nret_of
                        (ArrayNode (count + 1)
                           (set_item earray idx (nret_item new_node)) etid)
                        is_self, 1)
            | _ => Raise Fault
            end
          else
            '(kind, child) <~ liftW (dispatch node) ;;
            '(n, added) <~
              match kind with
              | KBitmap =>
                  BitmapIndexedNode_assoc fuel' child (shift + BITS)
                    hash_val key val transient_id
              | KArray =>
                  ArrayNode_assoc fuel' child (shift + BITS) hash_val key
                    val transient_id
              | KCollision =>
                  HashCollisionNode_assoc fuel' child (shift + BITS)
                    hash_val key val transient_id
              end ;;
            match n with
            | RSelf now =>
                retW (RSelf (set_map_node_array self
                               (set_item array idx (INode now))), added)
            | _ =>
                '(editable, is_self) <~
                  MapNode_ensure_editable self transient_id ;;
                retW (nret_of
                        (set_map_node_array editable
                           (set_item (map_node_array editable) idx
                                     (nret_item n)))
                        is_self, added)
            end
      | _ => Raise Fault
      end
  end
with HashCollisionNode_assoc (fuel : nat) (self : MapNode)
       (shift hash_val : Z) (key val : Obj) (transient_id : option token)
       {struct fuel} : W (nret * Z) :=
  match fuel with
  | O => Raise OutOfFuel
  | S fuel' =>
      match self with
      | HashCollisionNode self_hash count array _ =>
          if hash_val =? self_hash then
            idx <~ liftW (HashCollisionNode_find_index self key) ;;
            if negb (idx =? -1) then
              existing <~ liftW (get_item array (idx + 1)) ;;
              existing <~ liftW (as_obj existing) ;;
              if obj_is existing val then retW (RSelf self, 0)
              else
                '(node, is_self) <~
                  MapNode_ensure_editable self transient_id ;;
                retW (nret_of
                        (set_map_node_array node
                           (set_item (map_node_array node) (idx + 1)
                                     (IObj val)))
                        is_self, 0)
            else
              let new_array := array ++ [IObj key; IObj val] in
              retW (RNew (HashCollisionNode_create self_hash (count + 1)
                            new_array transient_id), 1)
          else
            let arr := [IObj Py_None; INode self] in
            let bin :=
              BitmapIndexedNode_create (bitpos self_hash shift) arr
                                       transient_id in
            '(result, added) <~
              BitmapIndexedNode_assoc fuel' bin shift hash_val key val
                                      transient_id ;;
            match result with
            | RSelf now => retW (RNew now, added)
            | r => retW (r, added)
            end
      | _ => Raise Fault
      end
  end
with create_node (fuel : nat) (shift : Z) (key1 val1 : Obj) (hash2 : Z)
       (key2 val2 : Obj) (transient_id : option token) {struct fuel}
     : W MapNode :=
  match fuel with
  | O => Raise OutOfFuel
  | S fuel' =>
      hash1 <~ liftW (PyObject_Hash key1) ;;
      if hash1 =? hash2 then
        let arr := [IObj key1; IObj val1; IObj key2; IObj val2] in
        retW (HashCollisionNode_create hash1 2 arr transient_id)
      else
        '(n1, _) <~
          BitmapIndexedNode_assoc fuel' EMPTY_BIN shift hash1 key1 val1
                                  transient_id ;;
        '(kind, n1) <~ liftW (dispatch (nret_item n1)) ;;
        '(n2, _) <~
          match kind with
          | KBitmap =>
              BitmapIndexedNode_assoc fuel' n1 shift hash2 key2 val2
                                      transient_id
          | KArray =>
              ArrayNode_assoc fuel' n1 shift hash2 key2 val2 transient_id
          | KCollision =>
              HashCollisionNode_assoc fuel' n1 shift hash2 key2 val2
                                      transient_id
          end ;;
        '(_, n2) <~ liftW (dispatch (nret_item n2)) ;;
        retW n2
  end.

(** *** dissoc (pds.c:4836-4936, 5115-5189, 5336-5372)

    Each function returns the pointer it hands back and the number of
    [PyList_Append(removed_leaf, Py_True)] calls it would make on a
    non-[NULL] [removed_leaf]. *)

(** [ArrayNode_pack] (pds.c:5115-5140): the loop over the 32 slots, then the
    node. *)
Fixpoint ArrayNode_pack_loop (array : list MapItem) (idx : Z) (slots : list Z)
         (new_array : list MapItem) (bitmap : Z)
  : result (list MapItem * Z) :=
  match slots with
  | [] => Ok (new_array, bitmap)
  | i :: rest =>
      node <- get_item array i ;;
      if negb (i =? idx) && negb (is_Py_None node)
      then ArrayNode_pack_loop array idx rest
             (new_array ++ [IObj Py_None; node]) (Z.lor bitmap (Z.shiftl 1 i))
      else ArrayNode_pack_loop array idx rest new_array bitmap
  end.

Definition ArrayNode_pack (self : MapNode) (transient_id : option token)
           (idx : Z) : result MapNode :=
  match self with
  | ArrayNode _ array _ =>
      '(new_array, bitmap) <- ArrayNode_pack_loop array idx slots32 [] 0 ;;
      Ok (BitmapIndexedNode_create bitmap new_array transient_id)
  | _ => Raise Fault
  end.

(** The pairs of a collision node other than the one at [idx]. *)
Fixpoint remove_pair_loop (array : list MapItem) (i idx : Z)
  : list MapItem :=
  match array with
  | k :: v :: t =>
      if i =? idx then remove_pair_loop t (i + 2) idx
      else k :: v :: remove_pair_loop t (i + 2) idx
  | _ => []
  end.

Definition HashCollisionNode_dissoc (self : MapNode) (key : Obj)
           (transient_id : option token) : result (nret * Z) :=
  match self with
  | HashCollisionNode self_hash count array _ =>
      idx <- HashCollisionNode_find_index self key ;;
      if idx =? -1 then Ok (RSelf self, 0)
      else if count =? 1 then Ok (RNone, 1)
      else
        let new_array := remove_pair_loop array 0 idx in
        Ok (RNew (HashCollisionNode_create self_hash (count - 1) new_array
                    transient_id), 1)
  | _ => Raise Fault
  end.

Fixpoint BitmapIndexedNode_dissoc (fuel : nat) (self : MapNode)
         (shift hash_val : Z) (key : Obj) (transient_id : option token)
         {struct fuel} : W (nret * Z) :=
  match fuel with
  | O => Raise OutOfFuel
  | S fuel' =>
      match self with
      | BitmapIndexedNode bitmap array _ =>
          let bit := bitpos hash_val shift in
          if Z.land bitmap bit =? 0 then retW (RSelf self, 0)
          else
            let idx := bitmap_index bitmap bit in
            key_or_null <~ liftW (get_item array (2 * idx)) ;;
            val_or_node <~ liftW (get_item array (2 * idx + 1)) ;;
            if is_Py_None key_or_null then
              '(kind, child) <~ liftW (dispatch val_or_node) ;;
              '(n, removed) <~
                match kind with
                | KBitmap =>
                    BitmapIndexedNode_dissoc fuel' child (shift + BITS)
                      hash_val key transient_id
                | KArray =>
                    ArrayNode_dissoc fuel' child (shift + BITS) hash_val key
                      transient_id
                | KCollision =>
                    liftW (HashCollisionNode_dissoc child key transient_id)
                end ;;
              match n with
              | RSelf now =>
                  retW (RSelf (set_map_node_array self
                                 (set_item array (2 * idx + 1) (INode now))),
                        removed)
              | RNew c =>
                  '(node, is_self) <~
                    MapNode_ensure_editable self transient_id ;;
                  retW (nret_of
                          (set_map_node_array node
                             (set_item (map_node_array node) (2 * idx + 1)
                                       (INode c)))
                          is_self, removed)
              | RNone =>
                  if bitmap =? bit then retW (RNone, removed)
                  else
                    let new_array := list_remove2 array (2 * idx) in
                    retW (RNew (BitmapIndexedNode_create
                                  (Z.lxor bitmap bit) new_array
                                  transient_id), removed)
              end
            else
              k <~ liftW (as_obj key_or_null) ;;
              eq <~ liftW (PyObject_RichCompareBool key k Py_EQ) ;;
              if eq then
                if bitmap =? bit then retW (RNone, 1)
                else
                  let new_array := list_remove2 array (2 * idx) in
                  retW (RNew (BitmapIndexedNode_create (Z.lxor bitmap bit)
                                new_array transient_id), 1)
              else retW (RSelf self, 0)
      | _ => Raise Fault
      end
  end
with ArrayNode_dissoc (fuel : nat) (self : MapNode) (shift hash_val : Z)
       (key : Obj) (transient_id : option token) {struct fuel}
     : W (nret * Z) :=
  match fuel with
  | O => Raise OutOfFuel
  | S fuel' =>
      match self with
      | ArrayNode count array _ =>
          let idx := mask_hash hash_val shift in
          node <~ liftW (get_item array idx) ;;
          if is_Py_None node then retW (RSelf self, 0)
          else
            '(kind, child) <~ liftW (dispatch node) ;;
            '(n, removed) <~
              match kind with
              | KBitmap =>
                  BitmapIndexedNode_dissoc fuel' child (shift + BITS)
                    hash_val key transient_id
              | KArray =>
                  ArrayNode_dissoc fuel' child (shift + BITS) hash_val key
                    transient_id
              | KCollision =>
                  liftW (HashCollisionNode_dissoc child key transient_id)
              end ;;
            match n with
            | RSelf now =>
                retW (RSelf (set_map_node_array self
                               (set_item array idx (INode now))), removed)
            | RNone =>
                if count <=? WIDTH / 4 then
                  packed <~ liftW (ArrayNode_pack self transient_id idx) ;;
                  retW (RNew packed, removed)
                else
                  '(editable, is_self) <~
                    MapNode_ensure_editable self transient_id ;;
                  match editable with
                  | ArrayNode ecount earray etid =>
                      retW (nret_of
                              (ArrayNode (ecount - 1)
                                 (set_item earray idx (IObj Py_None)) etid)
                              is_self, removed)
                  | _ => Raise Fault
                  end
            | RNew c =>
                '(editable, is_self) <~
                  MapNode_ensure_editable self transient_id ;;
                retW (nret_of
                        (set_map_node_array editable
                           (set_item (map_node_array editable) idx
                                     (INode c)))
                        is_self, removed)
            end
      | _ => Raise Fault
      end
  end.

(** *** Map (pds.c:5441-5647) *)
Record Map : Type := mkMap {
  map_cnt : Z;
  map_root : option MapNode;       (* [None] is the [NULL] root *)
  map_hash : Z;
  map_hash_computed : bool;
  map_transient_id : option token
}.

Definition Map_create (cnt : Z) (root : option MapNode)
           (transient_id : option token) : Map :=
  mkMap cnt root 0 false transient_id.

Definition EMPTY_MAP : Map := Map_create 0 None None.

Definition Map_length (self : Map) : Z := map_cnt self.

(** Enough for the 13 levels of a 64-bit hash, two calls a level. *)
Definition HAMT_FUEL : nat := 64.

(** The three-way [PyObject_TypeCheck] dispatch on the root. *)
Definition root_find (root : MapNode) (h : Z) (key : Obj)
  : result (option Obj) :=
  '(kind, r) <- dispatch (INode root) ;;
  match kind with
  | KBitmap => BitmapIndexedNode_find HAMT_FUEL r 0 h key
  | KArray => ArrayNode_find HAMT_FUEL r 0 h key
  | KCollision => HashCollisionNode_find r key
  end.

Definition root_assoc (root : MapNode) (h : Z) (key val : Obj)
           (transient_id : option token) : W (nret * Z) :=
  '(kind, r) <~ liftW (dispatch (INode root)) ;;
  match kind with
  | KBitmap => BitmapIndexedNode_assoc HAMT_FUEL r 0 h key val transient_id
  | KArray => ArrayNode_assoc HAMT_FUEL r 0 h key val transient_id
  | KCollision =>
      HashCollisionNode_assoc HAMT_FUEL r 0 h key val transient_id
  end.

Definition root_dissoc (root : MapNode) (h : Z) (key : Obj)
           (transient_id : option token) : W (nret * Z) :=
  '(kind, r) <~ liftW (dispatch (INode root)) ;;
  match kind with
  | KBitmap => BitmapIndexedNode_dissoc HAMT_FUEL r 0 h key transient_id
  | KArray => ArrayNode_dissoc HAMT_FUEL r 0 h key transient_id
  | KCollision => liftW (HashCollisionNode_dissoc r key transient_id)
  end.

(** [Map_get] (pds.c:5490-5513), with the default already unpacked from
    the argument tuple ([Py_None] when absent). *)
Definition Map_get (self : Map) (key default_val : Obj) : result Obj :=
  match map_root self with
  | None => Ok default_val
  | Some root =>
      h <- PyObject_Hash key ;;
      r <- root_find root h key ;;
      Ok (match r with Some v => v | None => default_val end)
  end.

(** [Map_getitem] (pds.c:5515-5542). *)
Definition Map_getitem (self : Map) (key : Obj) : result Obj :=
  match map_root self with
  | None => Raise KeyError
  | Some root =>
      h <- PyObject_Hash key ;;
      r <- root_find root h key ;;
      match r with Some v => Ok v | None => Raise KeyError end
  end.

(** [Map_contains] (pds.c:5544-5566). *)
Definition Map_contains (self : Map) (key : Obj) : result bool :=
  match map_root self with
  | None => Ok false
  | Some root =>
      h <- PyObject_Hash key ;;
      r <- root_find root h key ;;
      Ok (match r with Some _ => true | None => false end)
  end.

(** An entry point that returned [self] after a node of [self] was edited
    in place reports the root [self] now holds. *)
Definition with_root (self : Map) (root : MapNode) : Map :=
  mkMap (map_cnt self) (Some root) (map_hash self) (map_hash_computed self)
        (map_transient_id self).

(** [Map_assoc] (pds.c:5568-5610). *)
Definition Map_assoc (self : Map) (key val : Obj) : W (ret Map * Map) :=
  h <~ liftW (PyObject_Hash key) ;;
  let root := match map_root self with Some r => r | None => EMPTY_BIN end in
  '(new_root, added) <~ root_assoc root h key val (map_transient_id self) ;;
  match new_root, map_root self with
  | RSelf now, Some _ => retW (ret_self, with_root self now)
  | _, _ =>
      new_n <~ liftW (match new_root with
                      | RSelf now => Ok now
                      | RNew n => Ok n
                      | RNone => Raise Fault
                      end) ;;
      let new_cnt := map_cnt self + added in
      retW (ret_new (Map_create new_cnt (Some new_n)
                                (map_transient_id self)), self)
  end.

(** [Map_dissoc] (pds.c:5612-5647). *)
Definition Map_dissoc (self : Map) (key : Obj) : W (ret Map * Map) :=
  match map_root self with
  | None => retW (ret_self, self)
  | Some root =>
      h <~ liftW (PyObject_Hash key) ;;
      '(new_root, _) <~ root_dissoc root h key (map_transient_id self) ;;
      match new_root with
      | RSelf now => retW (ret_self, with_root self now)
      | RNew n =>
          retW (ret_new (Map_create (map_cnt self - 1) (Some n)
                                    (map_transient_id self)), self)
      | RNone =>
          retW (ret_new (Map_create 0 None (map_transient_id self)), self)
      end
  end.

(** The object an entry point returned, as a value; [self_now] is what the
    receiver holds after the call. *)
Definition deref_map (r : ret Map * Map) : Map :=
  match r with
  | (ret_self, self_now) => self_now
  | (ret_canonical_empty, _) => EMPTY_MAP
  | (ret_new m, _) => m
  end.

(** *** Iteration (pds.c:4960-5011, 5208-5238, 5389-5413, 5664-5676)

    The pairs the items iterator yields, in the order it yields them. *)
Fixpoint collision_items (array : list MapItem) : result (list (Obj * Obj)) :=
  match array with
  | k :: v :: rest =>
      k <- as_obj k ;; v <- as_obj v ;;
      r <- collision_items rest ;;
      Ok ((k, v) :: r)
  | _ => Ok []
  end.

Fixpoint node_items (fuel : nat) (node : MapNode) {struct fuel}
  : result (list (Obj * Obj)) :=
  match fuel with
  | O => Raise OutOfFuel
  | S fuel' =>
      match node with
      | BitmapIndexedNode _ array _ =>
          (fix pairs (array : list MapItem) : result (list (Obj * Obj)) :=
             match array with
             | key_or_null :: val_or_node :: rest =>
                 here <-
                   (if negb (is_Py_None key_or_null) then
                      k <- as_obj key_or_null ;;
                      v <- as_obj val_or_node ;;
                      Ok [(k, v)]
                    else if negb (is_Py_None val_or_node) then
                      '(_, child) <- dispatch val_or_node ;;
                      node_items fuel' child
                    else Ok []) ;;
                 r <- pairs rest ;;
                 Ok (here ++ r)
             | _ => Ok []
             end) array
      | ArrayNode _ array _ =>
          (fix slots (array : list MapItem) : result (list (Obj * Obj)) :=
             match array with
             | node :: rest =>
                 here <-
                   (if negb (is_Py_None node) then
                      '(_, child) <- dispatch node ;;
                      node_items fuel' child
                    else Ok []) ;;
                 r <- slots rest ;;
                 Ok (here ++ r)
             | [] => Ok []
             end) (firstn (Z.to_nat WIDTH) array)
      | HashCollisionNode _ _ array _ => collision_items array
      end
  end.

Definition Map_items (self : Map) : result (list (Obj * Obj)) :=
  match map_root self with
  | None => Ok []
  | Some root => node_items HAMT_FUEL root
  end.

(** *** TransientMap (pds.c:6245-6412) *)
Record TransientMap : Type := mkTransientMap {
  tm_cnt : Z;
  tm_root : option MapNode;
  tm_id : option token
}.

(** [Map_transient] (pds.c:6258-6286); [id] is the fresh token. *)
Definition Map_transient (self : Map) (id : token) : W TransientMap :=
  match map_root self with
  | Some root =>
      '(r, _) <~ MapNode_ensure_editable root (Some id) ;;
      retW (mkTransientMap (map_cnt self) (Some r) (Some id))
  | None => retW (mkTransientMap (map_cnt self) None (Some id))
  end.

Definition TransientMap_assoc_mut_impl (self : TransientMap) (key val : Obj)
  : W TransientMap :=
  match tm_id self with
  | None => Raise RuntimeError
  | Some _ =>
      h <~ liftW (PyObject_Hash key) ;;
      let root := match tm_root self with Some r => r | None => EMPTY_BIN end in
      '(new_root, added) <~ root_assoc root h key val (tm_id self) ;;
      new_n <~ liftW (match new_root with
                      | RSelf now => Ok now
                      | RNew n => Ok n
                      | RNone => Raise Fault
                      end) ;;
      retW (mkTransientMap (tm_cnt self + added) (Some new_n) (tm_id self))
  end.

Definition TransientMap_persistent (self : TransientMap)
  : result (Map * TransientMap) :=
  match tm_id self with
  | None => Raise RuntimeError
  | Some _ =>
      Ok (Map_create (tm_cnt self) (tm_root self) None,
          mkTransientMap (tm_cnt self) (tm_root self) None)
  end.

(** *** The factory [hash_map] (pds.c:9461-9497) *)
Fixpoint assoc_mut_pairs (t : TransientMap) (args : list Obj)
  : W TransientMap :=
  match args with
  | key :: val :: rest =>
      t' <~ TransientMap_assoc_mut_impl t key val ;;
      assoc_mut_pairs t' rest
  | _ => retW t
  end.

Definition pds_hash_map (args : list Obj) (id : token) : W (ret Map) :=
  let n := Z.of_nat (length args) in
  if negb (Z.rem n 2 =? 0) then Raise ValueError
  else if n =? 0 then retW ret_canonical_empty
  else
    t <~ Map_transient EMPTY_MAP id ;;
    t <~ assoc_mut_pairs t args ;;
    '(m, _) <~ liftW (TransientMap_persistent t) ;;
    retW (ret_new m).

(** *** Set (pds.c:6643-6824): the same nodes, every value [Py_None] *)
Record Set_ : Type := mkSet {
  set_cnt : Z;
  set_root : option MapNode;
  set_hash : Z;
  set_hash_computed : bool;
  set_transient_id : option token
}.

Definition Set_create (cnt : Z) (root : option MapNode)
           (transient_id : option token) : Set_ :=
  mkSet cnt root 0 false transient_id.

Definition EMPTY_SET : Set_ := Set_create 0 None None.

Definition Set_length (self : Set_) : Z := set_cnt self.

Definition Set_contains (self : Set_) (key : Obj) : result bool :=
  match set_root self with
  | None => Ok false
  | Some root =>
      h <- PyObject_Hash key ;;
      r <- root_find root h key ;;
      Ok (match r with Some _ => true | None => false end)
  end.

Definition set_with_root (self : Set_) (root : MapNode) : Set_ :=
  mkSet (set_cnt self) (Some root) (set_hash self) (set_hash_computed self)
        (set_transient_id self).

(** [Set_conj] (pds.c:6751-6787). *)
Definition Set_conj (self : Set_) (key : Obj) : W (ret Set_ * Set_) :=
  h <~ liftW (PyObject_Hash key) ;;
  let root := match set_root self with Some r => r | None => EMPTY_BIN end in
  '(new_root, added) <~
    root_assoc root h key Py_None (set_transient_id self) ;;
  match new_root, set_root self with
  | RSelf now, Some _ => retW (ret_self, set_with_root self now)
  | _, _ =>
      new_n <~ liftW (match new_root with
                      | RSelf now => Ok now
                      | RNew n => Ok n
                      | RNone => Raise Fault
                      end) ;;
      retW (ret_new (Set_create (set_cnt self + added) (Some new_n)
                                (set_transient_id self)), self)
  end.

(** [Set_disj] (pds.c:6789-6824). *)
Definition Set_disj (self : Set_) (key : Obj) : W (ret Set_ * Set_) :=
  match set_root self with
  | None => retW (ret_self, self)
  | Some root =>
      h <~ liftW (PyObject_Hash key) ;;
      '(new_root, _) <~ root_dissoc root h key (set_transient_id self) ;;
      match new_root with
      | RSelf now => retW (ret_self, set_with_root self now)
      | RNew n =>
          retW (ret_new (Set_create (set_cnt self - 1) (Some n)
                                    (set_transient_id self)), self)
      | RNone =>
          retW (ret_new (Set_create 0 None (set_transient_id self)), self)
      end
  end.

Definition deref_set (r : ret Set_ * Set_) : Set_ :=
  match r with
  | (ret_self, self_now) => self_now
  | (ret_canonical_empty, _) => EMPTY_SET
  | (ret_new m, _) => m
  end.

(** *** TransientSet and the factory [hash_set] (pds.c:7673-7841, 9406-9459) *)
Record TransientSet : Type := mkTransientSet {
  ts_cnt : Z;
  ts_root : option MapNode;
  ts_id : option token
}.

Definition TransientSet_conj_mut (self : TransientSet) (key : Obj)
  : W TransientSet :=
  match ts_id self with
  | None => Raise RuntimeError
  | Some _ =>
      h <~ liftW (PyObject_Hash key) ;;
      let root := match ts_root self with Some r => r | None => EMPTY_BIN end in
      '(new_root, added) <~ root_assoc root h key Py_None (ts_id self) ;;
      new_n <~ liftW (match new_root with
                      | RSelf now => Ok now
                      | RNew n => Ok n
                      | RNone => Raise Fault
                      end) ;;
      retW (mkTransientSet (ts_cnt self + added) (Some new_n) (ts_id self))
  end.

Definition TransientSet_persistent (self : TransientSet)
  : result (Set_ * TransientSet) :=
  match ts_id self with
  | None => Raise RuntimeError
  | Some _ =>
      Ok (Set_create (ts_cnt self) (ts_root self) None,
          mkTransientSet (ts_cnt self) (ts_root self) None)
  end.

Variable PyObject_GetIter : Obj -> result (list Obj).

Fixpoint set_conj_mut_all (t : TransientSet) (keys : list Obj)
  : W TransientSet :=
  match keys with
  | [] => retW t
  | key :: rest =>
      t' <~ TransientSet_conj_mut t key ;;
      set_conj_mut_all t' rest
  end.

(** [iterable] is [None] when the argument was not given. *)
Definition pds_set (iterable : option Obj) (id : token) : W (ret Set_) :=
  match iterable with
  | None => retW ret_canonical_empty
  | Some it =>
      keys <~ liftW (PyObject_GetIter it) ;;
      t <~ set_conj_mut_all (mkTransientSet 0 None (Some id)) keys ;;
      '(s, _) <~ liftW (TransientSet_persistent t) ;;
      retW (ret_new s)
  end.

End HAMT.

Arguments RNone {Obj}.

(** ** A concrete host: [None] and the integers

    The host objects used by the worked scenarios: [Py_None] and Python
    [int]s with CPython's hash and comparison. *)
(** ** Primitive vectors (pds.c:1551-3640, 9503-9571)

    [DoubleVector] and [IntVector] repeat the trie of [Vector] with unboxed
    slots: a leaf holds [double] (or [int64_t]) values, an inner node child
    pointers, [valid_mask] tells which slots are set, and the tail is a C
    array.  The model shares the trie code with [Vector], at the element
    types [double] and [int64_t]; what is specific to the primitive vectors
    is the unboxing at the boundary. *)
Definition double : Type := spec_float.
Definition int64_t : Type := Z.

(** The value [0.0] a fresh node is filled with. *)
Definition double_zero : double := S754_zero false.

Section PrimitiveVector.

Variable Obj : Type.
(** [PyFloat_AsDouble] and [PyLong_AsLongLong]; [Raise] is the [-1] return
    with an exception set. *)
Variable PyFloat_AsDouble : Obj -> result double.
Variable PyLong_AsLongLong : Obj -> result int64_t.

Definition DoubleVector : Type := Vector double.
Definition IntVector : Type := Vector int64_t.

Definition EMPTY_DOUBLE_VECTOR : DoubleVector := EMPTY_VECTOR double.
Definition EMPTY_LONG_VECTOR : IntVector := EMPTY_VECTOR int64_t.

(** [DoubleVector_conj] (pds.c:1865-1941). *)
Definition DoubleVector_conj (self : DoubleVector) (val : Obj)
  : W DoubleVector :=
  dval <~ liftW (PyFloat_AsDouble val) ;;
  Vector_conj self dval.

(** [IntVector_conj] (pds.c:2915-2990). *)
Definition IntVector_conj (self : IntVector) (val : Obj) : W IntVector :=
  lval <~ liftW (PyLong_AsLongLong val) ;;
  Vector_conj self lval.

(** [DoubleVector_nth_raw] (pds.c:1724-1728) and [IntVector_nth_raw]. *)
Definition DoubleVector_nth_raw (self : DoubleVector) (i : Z)
  : result double :=
  arr <- Vector_array_for double_zero self i ;;
  get_item arr (Z.land i MASK).

Definition IntVector_nth_raw (self : IntVector) (i : Z) : result int64_t :=
  arr <- Vector_array_for 0 self i ;;
  get_item arr (Z.land i MASK).

(** The loop of [pds_vec_f64] (pds.c:9515-9533): a conversion that fails,
    with whatever exception, is reported as [TypeError]. *)
Fixpoint vec_f64_loop (t : TransientVector double) (args : list Obj)
  : W (TransientVector double) :=
  match args with
  | [] => retW t
  | item :: rest =>
      match PyFloat_AsDouble item with
      | Raise _ => Raise TypeError
      | Ok val =>
          t' <~ TransientVector_conj_mut_raw t val ;;
          vec_f64_loop t' rest
      end
  end.

Definition pds_vec_f64 (args : list Obj) (id : token)
  : W (ret DoubleVector) :=
  match args with
  | [] => retW ret_canonical_empty
  | _ =>
      t <~ vec_f64_loop (Vector_transient EMPTY_DOUBLE_VECTOR id) args ;;
      '(v, _) <~ liftW (TransientVector_persistent t) ;;
      retW (ret_new v)
  end.

(** The loop of [pds_vec_i64] (pds.c:9550-9568). *)
Fixpoint vec_i64_loop (t : TransientVector int64_t) (args : list Obj)
  : W (TransientVector int64_t) :=
  match args with
  | [] => retW t
  | item :: rest =>
      match PyLong_AsLongLong item with
      | Raise _ => Raise TypeError
      | Ok val =>
          t' <~ TransientVector_conj_mut_raw t val ;;
          vec_i64_loop t' rest
      end
  end.

Definition pds_vec_i64 (args : list Obj) (id : token) : W (ret IntVector) :=
  match args with
  | [] => retW ret_canonical_empty
  | _ =>
      t <~ vec_i64_loop (Vector_transient EMPTY_LONG_VECTOR id) args ;;
      '(v, _) <~ liftW (TransientVector_persistent t) ;;
      retW (ret_new v)
  end.

End PrimitiveVector.

(** ** The host's numbers

    What [PyFloat_AsDouble] and [PyLong_AsLongLong] do on an [int], on a
    [float] and on an object that is not a number (CPython 3.10 and later:
    a [float] has no [__index__]). *)
Module PyNumber.

Inductive obj : Type :=
| Long (n : Z)
| Float (d : double)
| Str.

(** [PyLong_AsDouble]: the nearest double, ties to even; [OverflowError]
    when the integer is too large for a double. *)
Definition PyLong_AsDouble (n : Z) : result double :=
  match binary_normalize 53 1024 n 0 false with
  | S754_infinity _ => Raise OverflowError
  | d => Ok d
  end.

Definition PyFloat_AsDouble (o : obj) : result double :=
  match o with
  | Float d => Ok d
  | Long n => PyLong_AsDouble n
  | Str => Raise TypeError
  end.

Definition PyLong_AsLongLong (o : obj) : result int64_t :=
  match o with
  | Long n =>
      if (- 2 ^ 63 <=? n) && (n <? 2 ^ 63) then Ok n
      else Raise OverflowError
  | Float _ => Raise TypeError
  | Str => Raise TypeError
  end.

End PyNumber.

(** ** Cons (pds.c:186-460) *)

(** The [op] argument of a [tp_richcompare] slot, and what the slot returns:
    [Py_NotImplemented] or a [bool]. *)
Inductive rich_op : Type := Op_LT | Op_LE | Op_EQ | Op_NE | Op_GT | Op_GE.

Inductive rich_result : Type :=
| Py_NotImplemented
| PyBool (b : bool).

Definition is_Op_EQ (op : rich_op) : bool :=
  match op with Op_EQ => true | _ => false end.

Definition is_Op_NE (op : rich_op) : bool :=
  match op with Op_NE => true | _ => false end.

Section Cons.

Variable Obj : Type.
Variable PyObject_Hash : Obj -> result Z.
Variable PyObject_RichCompareBool : Obj -> Obj -> cmp_op -> result bool.

(** [rest] is [Py_None], a Cons, or an object of another type. *)
Inductive Cons : Type :=
| mkCons (first : Obj) (rest : ConsRest) (hash : Z) (hash_computed : bool)
with ConsRest : Type :=
| RestNone
| RestCons (c : Cons)
| RestObj (o : Obj).

Definition cons_first (c : Cons) : Obj :=
  match c with mkCons f _ _ _ => f end.

Definition cons_rest (c : Cons) : ConsRest :=
  match c with mkCons _ r _ _ => r end.

(** [pds_cons] (pds.c:9320-9338) and [Cons_conj] (pds.c:364-376). *)
Definition pds_cons (first : Obj) (rest : ConsRest) : Cons :=
  mkCons first rest 0 false.

Definition Cons_conj (self : Cons) (val : Obj) : Cons :=
  mkCons val (RestCons self) 0 false.

(** [Cons_length] (pds.c:259-267). *)
Fixpoint Cons_length (self : Cons) : Z :=
  match self with
  | mkCons _ (RestCons c) _ _ => 1 + Cons_length c
  | mkCons _ _ _ _ => 1
  end.

(** The loop of [Cons_richcompare] (pds.c:304-321) from the pointers [a]
    and [b] on: [false] at the first pair of unequal elements, otherwise
    [both_none] as it stands when the loop is left. *)
Fixpoint Cons_compare_loop (a b : ConsRest) {struct a} : result bool :=
  match a, b with
  | RestNone, RestNone => Ok true
  | RestCons (mkCons fa ra _ _), RestCons (mkCons fb rb _ _) =>
      cmp <- PyObject_RichCompareBool fa fb Py_EQ ;;
      if negb cmp then Ok false else Cons_compare_loop ra rb
  | _, _ => Ok false
  end.

End Cons.

Arguments RestNone {Obj}.

(** ** Rich comparison (pds.c:291-325, 1077-1116, 5731-5807) *)
Section RichCompare.

Variable Obj : Type.
Variable Py_None : Obj.
Variable Obj_eq_dec : forall a b : Obj, {a = b} + {a <> b}.
Variable PyObject_Hash : Obj -> result Z.
Variable PyObject_RichCompareBool : Obj -> Obj -> cmp_op -> result bool.

(** The objects a comparison can be handed: an instance of one of the
    module's types, or an object of any other type (a host list, tuple,
    dict, number, ...). *)
Inductive PyObject : Type :=
| PyCons (c : Cons Obj)
| PyVector (v : Vector Obj)
| PyMap (m : Map Obj)
| PyOther (o : Obj).

(** The [other] argument: the very object [self], or another object. *)
Inductive other_arg : Type :=
| OtherIsSelf
| Other (o : PyObject).

Inductive pds_type : Type := ConsType | VectorType | MapType | OtherType.

Definition Py_TYPE (o : PyObject) : pds_type :=
  match o with
  | PyCons _ => ConsType
  | PyVector _ => VectorType
  | PyMap _ => MapType
  | PyOther _ => OtherType
  end.

Definition PyBool_FromLong (b : bool) : result rich_result := Ok (PyBool b).

(** [Cons_richcompare] (pds.c:291-325). *)
Definition Cons_richcompare (self : Cons Obj) (other : other_arg)
           (op : rich_op) : result rich_result :=
  if negb (is_Op_EQ op) && negb (is_Op_NE op) then Ok Py_NotImplemented
  else
    match other with
    | OtherIsSelf => PyBool_FromLong (is_Op_EQ op)
    | Other (PyCons o) =>
        both_none <- Cons_compare_loop PyObject_RichCompareBool
                       (RestCons self) (RestCons o) ;;
        PyBool_FromLong (if is_Op_EQ op then both_none else negb both_none)
    | Other _ => PyBool_FromLong (is_Op_NE op)
    end.

(** The loop [for (i = 0; i < self->cnt; i++)] of [Vector_richcompare]:
    [false] at the first index with unequal elements. *)
Fixpoint Vector_compare_loop (n : nat) (i : Z) (self o : Vector Obj)
  : result bool :=
  match n with
  | O => Ok true
  | S n' =>
      arr1 <- Vector_array_for Py_None self i ;;
      arr2 <- Vector_array_for Py_None o i ;;
      x <- get_item arr1 (Z.land i MASK) ;;
      y <- get_item arr2 (Z.land i MASK) ;;
      cmp <- PyObject_RichCompareBool x y Py_EQ ;;
      if negb cmp then Ok false
      else Vector_compare_loop n' (i + 1) self o
  end.

(** [Vector_richcompare] (pds.c:1077-1116). *)
Definition Vector_richcompare (self : Vector Obj) (other : other_arg)
           (op : rich_op) : result rich_result :=
  if negb (is_Op_EQ op) && negb (is_Op_NE op) then Ok Py_NotImplemented
  else
    match other with
    | OtherIsSelf => PyBool_FromLong (is_Op_EQ op)
    | Other (PyVector o) =>
        if negb (cnt self =? cnt o) then PyBool_FromLong (is_Op_NE op)
        else
          eq <- Vector_compare_loop (Z.to_nat (cnt self)) 0 self o ;;
          PyBool_FromLong (if eq then is_Op_EQ op else is_Op_NE op)
    | Other _ => PyBool_FromLong (is_Op_NE op)
    end.

(** The loop over the items of [self] in [Map_richcompare]: [false] at the
    first key that [o] lacks or maps to an unequal value.  The items are
    taken from the iterator before the loop; the iterator itself fails only
    on a slot whose key is [Py_None] and whose value is a host object. *)
Fixpoint Map_compare_loop (items : list (Obj * Obj)) (o : Map Obj)
  : result bool :=
  match items with
  | [] => Ok true
  | (key, val) :: rest =>
      h <- PyObject_Hash key ;;
      other_val <-
        match map_root o with
        | None => Ok None
        | Some root =>
            root_find Py_None Obj_eq_dec PyObject_RichCompareBool root h key
        end ;;
      match other_val with
      | None => Ok false
      | Some ov =>
          eq <- PyObject_RichCompareBool val ov Py_EQ ;;
          if negb eq then Ok false else Map_compare_loop rest o
      end
  end.

(** [Map_richcompare] (pds.c:5731-5807). *)
Definition Map_richcompare (self : Map Obj) (other : other_arg)
           (op : rich_op) : result rich_result :=
  if negb (is_Op_EQ op) && negb (is_Op_NE op) then Ok Py_NotImplemented
  else
    match other with
    | OtherIsSelf => PyBool_FromLong (is_Op_EQ op)
    | Other (PyMap o) =>
        if negb (map_cnt self =? map_cnt o) then PyBool_FromLong (is_Op_NE op)
        else
          items <- Map_items Py_None Obj_eq_dec self ;;
          eq <- Map_compare_loop items o ;;
          PyBool_FromLong (if eq then is_Op_EQ op else is_Op_NE op)
    | Other _ => PyBool_FromLong (is_Op_NE op)
    end.

End RichCompare.

Module PyHost.

Inductive obj : Type :=
| None_
| Int (n : Z).

Definition obj_eq_dec : forall a b : obj, {a = b} + {a <> b}.
Proof. decide equality. apply Z.eq_dec. Defined.

(** CPython hashes an [int] modulo the Mersenne prime [2^61 - 1], keeps the
    sign, and never returns [-1]. *)
Definition long_hash (n : Z) : Z :=
  let m := 2 ^ 61 - 1 in
  let r := Z.sgn n * (Z.abs n mod m) in
  if r =? -1 then -2 else r.

(** The fixed hash of [None] (CPython 3.12 and later). *)
Definition none_hash : Z := 4238894112.

Definition hash (o : obj) : result Z :=
  match o with
  | None_ => Ok none_hash
  | Int n => Ok (long_hash n)
  end.

Definition compare (a b : obj) (op : cmp_op) : result bool :=
  match a, b with
  | Int x, Int y =>
      Ok (match op with
          | Py_LT => x <? y
          | Py_GT => x >? y
          | Py_EQ => x =? y
          end)
  | None_, None_ =>
      match op with Py_EQ => Ok true | _ => Raise TypeError end
  | _, _ =>
      match op with Py_EQ => Ok false | _ => Raise TypeError end
  end.

End PyHost.


(** ** Vector: readers, iteration and concatenation
       (pds.c:596-612, 1013-1052, 1162-1211, 1269-1322, 1388-1453) *)
Section VectorReaders.

Variable Obj : Type.
Variable Py_None : Obj.
Variable PyObject_RichCompareBool : Obj -> Obj -> cmp_op -> result bool.
(** The objects the iterator of an argument yields; [Raise] when the
    argument has no iterator. *)
Variable PyObject_GetIter : Obj -> result (list Obj).

(** [Vector_node_for] (pds.c:600-612): [None] stands for the [NULL] return
    with [*is_tail = 1].  The function checks no bound. *)
Definition Vector_node_for (self : Vector Obj) (i : Z)
  : result (option (VectorNode Obj)) :=
  if i >=? Vector_tail_off self then Ok None
  else
    node <- descend (level_fuel (shift self)) (root self) (shift self) i ;;
    Ok (Some node).

(** The element at [j & MASK] of a chunk: of the tail tuple, or of a leaf
    (a [NULL] slot reads as [Py_None]). *)
Definition chunk_item (self : Vector Obj) (node : option (VectorNode Obj))
           (j : Z) : result Obj :=
  match node with
  | None => get_item (tail self) (Z.land j MASK)
  | Some n =>
      s <- get_item (node_array n) (Z.land j MASK) ;;
      slot_item Py_None s
  end.

(** *** The iterator (pds.c:1388-1453) *)
Record VectorIterator : Type := mkVectorIterator {
  vi_index : Z;
  vi_cached_node : option (VectorNode Obj);  (* [None] is [NULL] *)
  vi_cached_chunk : Z;
  vi_cached_is_tail : bool
}.

(** [Vector_iter]: the iterator over [self] before its first step. *)
Definition Vector_iter : VectorIterator :=
  mkVectorIterator 0 None (-1) false.

(** The leaf a cached pointer is read through; a [NULL] pointer that is
    dereferenced is a fault. *)
Definition cached_item (vec : Vector Obj) (it : VectorIterator)
  : result Obj :=
  if vi_cached_is_tail it then
    get_item (tail vec) (Z.land (vi_index it) MASK)
  else
    match vi_cached_node it with
    | None => Raise Fault
    | Some n =>
        s <- get_item (node_array n) (Z.land (vi_index it) MASK) ;;
        slot_item Py_None s
    end.

(** [VectorIterator_next] (pds.c:1405-1430): the object returned ([None]
    for the [NULL] of StopIteration) and the iterator after the call. *)
Definition VectorIterator_next (vec : Vector Obj) (it : VectorIterator)
  : result (option Obj * VectorIterator) :=
  if vi_index it >=? cnt vec then Ok (None, it)
  else
    let chunk_start := Z.shiftl (Z.shiftr (vi_index it) BITS) BITS in
    it <- (if negb (chunk_start =? vi_cached_chunk it) then
             node <- Vector_node_for vec (vi_index it) ;;
             Ok (mkVectorIterator (vi_index it) node chunk_start
                   (match node with None => true | Some _ => false end))
           else Ok it) ;;
    r <- cached_item vec it ;;
    Ok (Some r,
        mkVectorIterator (vi_index it + 1) (vi_cached_node it)
                         (vi_cached_chunk it) (vi_cached_is_tail it)).

(** The host's loop over an iterator: call [next] until it returns
    [NULL]; the objects it returned, in order. *)
Fixpoint Vector_iterate (fuel : nat) (vec : Vector Obj) (it : VectorIterator)
  : result (list Obj) :=
  match fuel with
  | O => Raise OutOfFuel
  | S fuel' =>
      '(r, it') <- VectorIterator_next vec it ;;
      match r with
      | None => Ok []
      | Some x => rest <- Vector_iterate fuel' vec it' ;; Ok (x :: rest)
      end
  end.

(** *** [Vector_to_seq] (pds.c:1162-1211) *)

(** The inner loop [for (j = i; j >= chunk_start; j--)], [k] iterations
    from [j] down: each prepends a cell to the list [res] built so far. *)
Fixpoint to_seq_chunk (k : nat) (self : Vector Obj)
         (node : option (VectorNode Obj)) (j : Z) (res : ConsRest Obj)
  : result (ConsRest Obj) :=
  match k with
  | O => Ok res
  | S k' =>
      item <- chunk_item self node j ;;
      to_seq_chunk k' self node (j - 1) (RestCons (mkCons item res 0 false))
  end.

(** The outer loop [while (i >= 0)]. *)
Fixpoint to_seq_loop (fuel : nat) (self : Vector Obj) (i : Z)
         (res : ConsRest Obj) : result (ConsRest Obj) :=
  if i >=? 0 then
    match fuel with
    | O => Raise OutOfFuel
    | S fuel' =>
        let chunk_start := Z.shiftl (Z.shiftr i BITS) BITS in
        node <- Vector_node_for self i ;;
        res <- to_seq_chunk (Z.to_nat (i - chunk_start + 1)) self node i
                            res ;;
        to_seq_loop fuel' self (chunk_start - 1) res
    end
  else Ok res.

(** [RestNone] is the [Py_None] an empty vector converts to. *)
Definition Vector_to_seq (self : Vector Obj) : result (ConsRest Obj) :=
  if cnt self =? 0 then Ok RestNone
  else to_seq_loop (S (Z.to_nat (cnt self))) self (cnt self - 1) RestNone.

(** *** [Vector_index] and [Vector_count] (pds.c:1269-1322) *)

(** The loop [for (i = start; i < stop; i++)] of [Vector_index], [n]
    iterations from [i] on. *)
Fixpoint index_loop (n : nat) (self : Vector Obj) (value : Obj) (i : Z)
  : result Z :=
  match n with
  | O => Raise ValueError
  | S n' =>
      item <- Vector_nth_impl Py_None self i None ;;
      cmp <- PyObject_RichCompareBool item value Py_EQ ;;
      if cmp then Ok i else index_loop n' self value (i + 1)
  end.

(** [start] and [stop] as [PyArg_ParseTuple] leaves them: [0] and
    [self->cnt] when the caller gave none. *)
Definition Vector_index (self : Vector Obj) (value : Obj) (start stop : Z)
  : result Z :=
  let start :=
    if start <? 0 then
      let start := start + cnt self in
      if start <? 0 then 0 else start
    else start in
  let stop := if stop <? 0 then stop + cnt self else stop in
  let stop := if stop >? cnt self then cnt self else stop in
  index_loop (Z.to_nat (stop - start)) self value start.

Fixpoint count_loop (n : nat) (self : Vector Obj) (value : Obj) (i count : Z)
  : result Z :=
  match n with
  | O => Ok count
  | S n' =>
      item <- Vector_nth_impl Py_None self i None ;;
      cmp <- PyObject_RichCompareBool item value Py_EQ ;;
      count_loop n' self value (i + 1) (if cmp then count + 1 else count)
  end.

Definition Vector_count (self : Vector Obj) (value : Obj) : result Z :=
  count_loop (Z.to_nat (cnt self)) self value 0 0.

(** *** [Vector_add] (pds.c:1013-1052)

    [id] is the token of the transient the function makes; the result is
    [None] for [Py_NotImplemented]. *)
Definition Vector_add (self : Vector Obj) (other : Obj) (id : token)
  : W (option (Vector Obj)) :=
  match PyObject_GetIter other with
  | Raise _ => retW None
  | Ok items =>
      t <~ conj_mut_all (Vector_transient self id) items ;;
      '(v, _) <~ liftW (TransientVector_persistent t) ;;
      retW (Some v)
  end.

(** *** TransientVector: the remaining entry points (pds.c:3833-4259) *)

(** [TransientVector_do_assoc] (pds.c:3833-3859). *)
Fixpoint TransientVector_do_assoc (fuel : nat) (id : option token)
         (level : Z) (node : VectorNode Obj) (i : Z) (val : Obj)
  : W (VectorNode Obj) :=
  ret <~ VectorNode_for_write node id ;;
  if level =? 0 then
    retW (node_store ret (Z.land i MASK) (VItem val))
  else
    match fuel with
    | O => Raise OutOfFuel
    | S fuel' =>
        let subidx := Z.land (Z.shiftr i level) MASK in
        s <~ liftW (get_item (node_array node) subidx) ;;
        c <~ liftW (as_node s) ;;
        child <~ TransientVector_do_assoc fuel' id (level - BITS) c i val ;;
        retW (node_store ret subidx (VChild child))
    end.

(** [PyList_SET_ITEM(list, i, val)]: a write past the end of the list is
    undefined. *)
Definition list_set_item (l : list Obj) (i : Z) (val : Obj)
  : result (list Obj) :=
  if (0 <=? i) && (i <? Z.of_nat (length l)) then Ok (set_item l i val)
  else Raise Fault.

(** [TransientVector_assoc_mut] (pds.c:3861-3910): the transient after the
    call. *)
Definition TransientVector_assoc_mut (self : TransientVector Obj) (i : Z)
           (val : Obj) : W (TransientVector Obj) :=
  _ <~ liftW (TransientVector_ensure_editable self) ;;
  let i := if i <? 0 then tv_cnt self + i else i in
  if (i <? 0) || (i >? tv_cnt self) then Raise IndexError
  else if i =? tv_cnt self then TransientVector_conj_mut self val
  else
    let tail_off := TransientVector_tail_off self in
    if i >=? tail_off then
      new_tail <~ liftW (list_set_item (tv_tail self) (i - tail_off) val) ;;
      retW (mkTransientVector (tv_cnt self) (tv_shift self) (tv_root self)
                              new_tail (tv_id self))
    else
      new_root <~ TransientVector_do_assoc (level_fuel (tv_shift self))
                    (tv_id self) (tv_shift self) (tv_root self) i val ;;
      retW (mkTransientVector (tv_cnt self) (tv_shift self) new_root
                              (tv_tail self) (tv_id self)).

(** [TransientVector_sq_item] (pds.c:4062-4090): the slot of the leaf is
    returned as it is, a [NULL] slot included. *)
Definition TransientVector_sq_item (self : TransientVector Obj) (i : Z)
  : result Obj :=
  _ <- TransientVector_ensure_editable self ;;
  let i := if i <? 0 then tv_cnt self + i else i in
  if (i <? 0) || (i >=? tv_cnt self) then Raise IndexError
  else
    let tail_off := TransientVector_tail_off self in
    if i >=? tail_off then get_item (tv_tail self) (i - tail_off)
    else
      node <- descend (level_fuel (tv_shift self)) (tv_root self)
                      (tv_shift self) i ;;
      s <- get_item (node_array node) (Z.land i MASK) ;;
      match s with
      | VItem o => Ok o
      | _ => Raise Fault
      end.

(** [TransientVector_extend] (pds.c:4236-4259). *)
Definition TransientVector_extend (self : TransientVector Obj)
           (iterable : Obj) : W (TransientVector Obj) :=
  _ <~ liftW (TransientVector_ensure_editable self) ;;
  items <~ liftW (PyObject_GetIter iterable) ;;
  conj_mut_all self items.

End VectorReaders.

(** ** SortedVector: readers, iteration and equality (pds.c:8311-8725) *)
Section SortedVectorReaders.

Variable Obj : Type.
Variable PyObject_RichCompareBool : Obj -> Obj -> cmp_op -> result bool.

(** [RBNode_nth] (pds.c:8311-8327). *)
Fixpoint RBNode_nth (node : RBNode Obj) (index : Z) : result Obj :=
  match node with
  | RBNull => Raise IndexError
  | RBNode_ v _ l r _ _ _ =>
      let left_size := RBNode_size l in
      if index <? left_size then RBNode_nth l index
      else if index =? left_size then Ok v
      else RBNode_nth r (index - left_size - 1)
  end.

(** [SortedVector_nth] (pds.c:8329-8352); [default_val] is [None] when the
    call has one argument. *)
Definition SortedVector_nth (self : SortedVector Obj) (index : Z)
           (default_val : option Obj) : result Obj :=
  let index := if index <? 0 then index + sv_cnt self else index in
  if (index <? 0) || (index >=? sv_cnt self) then
    match default_val with
    | Some d => Ok d
    | None => Raise IndexError
    end
  else RBNode_nth (sv_root self) index.

(** The integer branch of [SortedVector_getitem] (pds.c:8354-8371). *)
Definition SortedVector_getitem (self : SortedVector Obj) (key : Z)
  : result Obj :=
  let index := key in
  let index := if index <? 0 then index + sv_cnt self else index in
  if (index <? 0) || (index >=? sv_cnt self) then Raise IndexError
  else RBNode_nth (sv_root self) index.

(** [SortedVector_length] (pds.c:8373-8375). *)
Definition SortedVector_length (self : SortedVector Obj) : Z := sv_cnt self.

(** [RBNode_index_of] (pds.c:8408-8427): [-1] when no key matches; [Raise]
    is the [-2] return. *)
Fixpoint RBNode_index_of (node : RBNode Obj) (sort_key : Obj)
         (reverse : bool) (offset : Z) : result Z :=
  match node with
  | RBNull => Ok (-1)
  | RBNode_ _ k l r _ _ _ =>
      cmp <- SortedVector_compare_keys PyObject_RichCompareBool sort_key k
               reverse ;;
      let left_size := RBNode_size l in
      if cmp <? 0 then RBNode_index_of l sort_key reverse offset
      else if cmp >? 0 then
        RBNode_index_of r sort_key reverse (offset + left_size + 1)
      else
        left_result <- RBNode_index_of l sort_key reverse offset ;;
        if left_result >=? 0 then Ok left_result
        else Ok (offset + left_size)
  end.

(** [SortedVector_index_of] (pds.c:8429-8439). *)
Definition SortedVector_index_of (self : SortedVector Obj) (value : Obj)
  : result Z :=
  sort_key <- SortedVector_get_sort_key (sv_key_fn self) value ;;
  RBNode_index_of (sv_root self) sort_key (sv_reverse self) 0.

(** [RBNode_contains] (pds.c:8442-8463); [Raise] is the [-1] return. *)
Fixpoint RBNode_contains (node : RBNode Obj) (sort_key value : Obj)
         (reverse : bool) : result bool :=
  match node with
  | RBNull => Ok false
  | RBNode_ v k l r _ _ _ =>
      cmp <- SortedVector_compare_keys PyObject_RichCompareBool sort_key k
               reverse ;;
      if cmp <? 0 then RBNode_contains l sort_key value reverse
      else if cmp >? 0 then RBNode_contains r sort_key value reverse
      else
        eq <- PyObject_RichCompareBool value v Py_EQ ;;
        if eq then Ok true
        else
          left_result <- RBNode_contains l sort_key value reverse ;;
          if left_result then Ok true
          else RBNode_contains r sort_key value reverse
  end.

(** [SortedVector_contains] (pds.c:8465-8475). *)
Definition SortedVector_contains (self : SortedVector Obj) (value : Obj)
  : result bool :=
  if sv_cnt self =? 0 then Ok false
  else
    sort_key <- SortedVector_get_sort_key (sv_key_fn self) value ;;
    RBNode_contains (sv_root self) sort_key value (sv_reverse self).

(** [RBNode_rank] (pds.c:8478-8493).  The C function returns [-1] for an
    error of the comparison; a negative rank of the right subtree is taken
    for that error too, with no exception set ([Fault]). *)
Fixpoint RBNode_rank (node : RBNode Obj) (sort_key : Obj) (reverse : bool)
  : result Z :=
  match node with
  | RBNull => Ok 0
  | RBNode_ _ k l r _ _ _ =>
      cmp <- SortedVector_compare_keys PyObject_RichCompareBool sort_key k
               reverse ;;
      let left_size := RBNode_size l in
      if cmp <=? 0 then RBNode_rank l sort_key reverse
      else
        right_rank <- RBNode_rank r sort_key reverse ;;
        if right_rank <? 0 then Raise Fault
        else Ok (left_size + 1 + right_rank)
  end.

(** [SortedVector_rank] (pds.c:8495-8504). *)
Definition SortedVector_rank (self : SortedVector Obj) (value : Obj)
  : result Z :=
  sort_key <- SortedVector_get_sort_key (sv_key_fn self) value ;;
  r <- RBNode_rank (sv_root self) sort_key (sv_reverse self) ;;
  if r <? 0 then Raise Fault else Ok r.

(** *** The iterator (pds.c:8509-8582)

    The stack of the iterator as a list, its top first. *)
Definition SortedVectorIterator : Type := list (RBNode Obj).

(** [SortedVectorIterator_push_left] (pds.c:8525-8538). *)
Fixpoint SortedVectorIterator_push_left (stack : SortedVectorIterator)
         (node : RBNode Obj) : SortedVectorIterator :=
  match node with
  | RBNull => stack
  | RBNode_ _ _ l _ _ _ _ => SortedVectorIterator_push_left (node :: stack) l
  end.

(** [SortedVectorIterator_next] (pds.c:8540-8554): the object returned
    ([None] for the [NULL] of StopIteration) and the stack after the
    call. *)
Definition SortedVectorIterator_next (stack : SortedVectorIterator)
  : result (option Obj * SortedVectorIterator) :=
  match stack with
  | [] => Ok (None, [])
  | node :: stack' =>
      match node with
      | RBNull => Raise Fault
      | RBNode_ v _ _ r _ _ _ =>
          Ok (Some v, SortedVectorIterator_push_left stack' r)
      end
  end.

(** [SortedVector_iter] (pds.c:8566-8582). *)
Definition SortedVector_iter (self : SortedVector Obj)
  : SortedVectorIterator :=
  SortedVectorIterator_push_left [] (sv_root self).

(** The host's loop over the iterator: [next] until it returns [NULL]. *)
Fixpoint SortedVector_iterate (fuel : nat) (it : SortedVectorIterator)
  : result (list Obj) :=
  match fuel with
  | O => Raise OutOfFuel
  | S fuel' =>
      '(r, it') <- SortedVectorIterator_next it ;;
      match r with
      | None => Ok []
      | Some x => rest <- SortedVector_iterate fuel' it' ;; Ok (x :: rest)
      end
  end.

(** *** Equality (pds.c:8664-8725) *)

(** The [other] argument of [SortedVector_richcompare]: a SortedVector, or
    an object that fails [PyObject_TypeCheck]. *)
Inductive sv_other : Type :=
| OtherSorted (o : SortedVector Obj)
| OtherNotSorted.

(** The loop [while ((item1 = next(iter1)) != NULL)]: the value of [equal]
    when it is left. *)
Fixpoint SortedVector_compare_loop (fuel : nat)
         (iter1 iter2 : SortedVectorIterator) : result bool :=
  match fuel with
  | O => Raise OutOfFuel
  | S fuel' =>
      '(item1, iter1) <- SortedVectorIterator_next iter1 ;;
      match item1 with
      | None => Ok true
      | Some x =>
          '(item2, iter2) <- SortedVectorIterator_next iter2 ;;
          match item2 with
          | None => Ok false
          | Some y =>
              cmp <- PyObject_RichCompareBool x y Py_EQ ;;
              if negb cmp then Ok false
              else SortedVector_compare_loop fuel' iter1 iter2
          end
      end
  end.

(** [SortedVector_richcompare] (pds.c:8664-8725); the loop runs at most
    once more than the tree of [self] has nodes. *)
Definition SortedVector_richcompare (self : SortedVector Obj)
           (other : sv_other) (op : rich_op) : result rich_result :=
  if negb (is_Op_EQ op) && negb (is_Op_NE op) then Ok Py_NotImplemented
  else
    match other with
    | OtherNotSorted => Ok (PyBool (negb (is_Op_EQ op)))
    | OtherSorted other_sv =>
        if negb (sv_cnt self =? sv_cnt other_sv)
        then Ok (PyBool (negb (is_Op_EQ op)))
        else
          equal <- SortedVector_compare_loop (S (rb_nodes (sv_root self)))
                     (SortedVector_iter self) (SortedVector_iter other_sv) ;;
          Ok (PyBool (if is_Op_EQ op then equal else negb equal))
    end.

End SortedVectorReaders.

Arguments OtherNotSorted {Obj}.

(** ** Cons: the iterator (pds.c:408-449) *)
Section ConsReaders.

Variable Obj : Type.

(** The [curr] pointer of a ConsIterator: [Py_None], a Cons, or an object of
    another type. *)
Definition ConsIterator : Type := ConsRest Obj.

(** [Cons_iter] (pds.c:442-449). *)
Definition Cons_iter (self : Cons Obj) : ConsIterator := RestCons self.

(** [ConsIterator_next] (pds.c:415-430): the object returned ([None] for
    the [NULL] of StopIteration) and the iterator after the call. *)
Definition ConsIterator_next (it : ConsIterator)
  : option Obj * ConsIterator :=
  match it with
  | RestCons c => (Some (cons_first c), cons_rest c)
  | _ => (None, it)
  end.

(** The host's loop over the iterator: [next] until it returns [NULL]. *)
Fixpoint Cons_iterate (fuel : nat) (it : ConsIterator) : result (list Obj) :=
  match fuel with
  | O => Raise OutOfFuel
  | S fuel' =>
      let '(r, it') := ConsIterator_next it in
      match r with
      | None => Ok []
      | Some x => rest <- Cons_iterate fuel' it' ;; Ok (x :: rest)
      end
  end.

End ConsReaders.

(** ** TransientVector: removing the last element (pds.c:3912-4060) *)
Section TransientVectorPop.

Variable Obj : Type.
Variable Py_None : Obj.

(** [TransientVector_length] (pds.c:4058-4060). *)
Definition TransientVector_length (self : TransientVector Obj) : Z :=
  tv_cnt self.

(** [TransientVector_pop_tail] (pds.c:3912-3950): [None] for the C [NULL]
    ("this subtree is now empty").  The node is taken for writing before
    the function looks at the level. *)
Fixpoint TransientVector_pop_tail (fuel : nat) (self_cnt : Z)
         (id : option token) (level : Z) (node : VectorNode Obj)
  : W (option (VectorNode Obj)) :=
  let subidx := Z.land (Z.shiftr (self_cnt - 2) level) MASK in
  ret <~ VectorNode_for_write node id ;;
  if level >? BITS then
    match fuel with
    | O => Raise OutOfFuel
    | S fuel' =>
        s <~ liftW (get_item (node_array node) subidx) ;;
        c <~ liftW (as_node s) ;;
        new_child <~ TransientVector_pop_tail fuel' self_cnt id
                       (level - BITS) c ;;
        match new_child with
        | None =>
            if subidx =? 0 then retW None
            else retW (Some (node_store ret subidx (VNull Obj)))
        | Some nc => retW (Some (node_store ret subidx (VChild nc)))
        end
    end
  else if subidx =? 0 then retW None
  else retW (Some (node_store ret subidx (VNull Obj))).

(** [TransientVector_pop_mut] (pds.c:3952-4040): the transient after the
    call. *)
Definition TransientVector_pop_mut (self : TransientVector Obj)
  : W (TransientVector Obj) :=
  _ <~ liftW (TransientVector_ensure_editable self) ;;
  if tv_cnt self =? 0 then Raise IndexError
  else if tv_cnt self =? 1 then
    retW (mkTransientVector 0 (tv_shift self) (tv_root self) []
                            (tv_id self))
  else
    let tail_len := Z.of_nat (length (tv_tail self)) in
    if tail_len >? 1 then
      retW (mkTransientVector (tv_cnt self - 1) (tv_shift self)
              (tv_root self)
              (firstn (Z.to_nat (tail_len - 1)) (tv_tail self))
              (tv_id self))
    else
      node <~ liftW (descend (level_fuel (tv_shift self)) (tv_root self)
                             (tv_shift self) (tv_cnt self - 2)) ;;
      new_tail <~ liftW (map_result (slot_item Py_None) (node_array node)) ;;
      popped <~ TransientVector_pop_tail (level_fuel (tv_shift self))
                  (tv_cnt self) (tv_id self) (tv_shift self)
                  (tv_root self) ;;
      let new_root := match popped with
                      | None => VectorNode_create Obj (tv_id self)
                      | Some r => r
                      end in
      slot1 <~ liftW (get_item (node_array new_root) 1) ;;
      '(new_root, new_shift) <~
        liftW (if (tv_shift self >? BITS)
                  && (match slot1 with VNull _ => true | _ => false end)
               then
                 s0 <- get_item (node_array new_root) 0 ;;
                 r <- as_node s0 ;;
                 Ok (r, tv_shift self - BITS)
               else Ok (new_root, tv_shift self)) ;;
      let new_cnt := tv_cnt self - 1 in
      let actual_tail_size := Z.land (new_cnt - 1) MASK in
      let new_tail :=
        if actual_tail_size <? WIDTH - 1
        then firstn (Z.to_nat (actual_tail_size + 1)) new_tail
        else new_tail in
      retW (mkTransientVector new_cnt new_shift new_root new_tail
                              (tv_id self)).

End TransientVectorPop.

(** * Specification vocabulary

    Shapes, invariants and the worked scenarios the statements below speak
    about. *)

Section VectorShape.

Variable Obj : Type.

(** A node [depth] levels above the leaves: 32 slots, and above the leaves
    every slot is [NULL] or a child one level lower. *)
Fixpoint wf_node (depth : nat) (n : VectorNode Obj) : Prop :=
  length (node_array n) = Z.to_nat WIDTH /\
  match depth with
  | O => True
  | S d =>
      Forall (fun s => s = VNull Obj \/ exists c, s = VChild c /\ wf_node d c)
             (node_array n)
  end.

(** The shape every vector of the module has: [shift = 5 * depth] with
    [depth >= 1], and a root of that depth. *)
Definition wf_vector (v : Vector Obj) : Prop :=
  exists d : nat, shift v = BITS * Z.of_nat (S d) /\ wf_node (S d) (root v).

(** The shift [Vector_conj] gives its result: one level more when the tail
    is full and the trie cannot take another leaf. *)
Definition conj_promotes (self : Vector Obj) : bool :=
  negb (cnt self - Vector_tail_off self <? WIDTH)
  && (Z.shiftr (cnt self) BITS >? Z.shiftl 1 (shift self)).

(** The shape of a transient: that of the vector it was made from. *)
Definition wf_transient (t : TransientVector Obj) : Prop :=
  exists d : nat,
    tv_shift t = BITS * Z.of_nat (S d) /\ wf_node (S d) (tv_root t).

(** Appending the elements of a list one by one. *)
Fixpoint Vector_conj_all (self : Vector Obj) (l : list Obj)
  : result (Vector Obj) :=
  match l with
  | [] => Ok self
  | x :: t =>
      match Vector_conj self x with
      | Ok (v, _) => Vector_conj_all v t
      | Raise e => Raise e
      end
  end.

End VectorShape.

(** The integers [0 .. n-1] as host objects. *)
Definition int_range (n : nat) : list PyHost.obj :=
  map (fun i => PyHost.Int (Z.of_nat i)) (seq 0 n).

(** The vector obtained from the empty one by [conj]-ing [0 .. n-1]. *)
Definition vector_of_range (n : nat) : result (Vector PyHost.obj) :=
  Vector_conj_all (EMPTY_VECTOR PyHost.obj) (int_range n).

(** What the promotion scenario observes of the vector of [0 .. n-1]: its
    shift, its first element and its last element. *)
Definition promotion_scenario (n : nat)
  : result (Z * result PyHost.obj * result PyHost.obj) :=
  v <- vector_of_range n ;;
  Ok (shift v, Vector_getitem PyHost.None_ v 0,
      Vector_getitem PyHost.None_ v (Z.of_nat n - 1)).

(** Reading index [i] of the vector of [0 .. n-1]. *)
Definition getitem_of_range (n : nat) (i : Z) : result PyHost.obj :=
  v <- vector_of_range n ;; Vector_getitem PyHost.None_ v i.

(** ** Maps over the host model *)
Module HostMap.
Import PyHost.

Definition assoc (m : Map obj) (k v : obj) : result (Map obj) :=
  r <- value (Map_assoc None_ obj_eq_dec hash compare m k v) ;;
  Ok (deref_map r).

Definition dissoc (m : Map obj) (k : obj) : result (Map obj) :=
  r <- value (Map_dissoc None_ obj_eq_dec hash compare m k) ;;
  Ok (deref_map r).

Definition get (m : Map obj) (k : obj) : result obj :=
  Map_get None_ obj_eq_dec hash compare m k None_.

Definition contains (m : Map obj) (k : obj) : result bool :=
  Map_contains None_ obj_eq_dec hash compare m k.

Fixpoint assoc_all (m : Map obj) (kvs : list (obj * obj))
  : result (Map obj) :=
  match kvs with
  | [] => Ok m
  | (k, v) :: rest => m' <- assoc m k v ;; assoc_all m' rest
  end.

Fixpoint dissoc_all (m : Map obj) (ks : list obj) : result (Map obj) :=
  match ks with
  | [] => Ok m
  | k :: rest => m' <- dissoc m k ;; dissoc_all m' rest
  end.

(** The type of the root node and what it says of its children: the bitmap
    of a Bitmap-indexed node, the [count] field of the other two. *)
Inductive root_shape : Type :=
| NoRoot
| BitmapRoot (bitmap : Z)
| ArrayRoot (count : Z)
| CollisionRoot (count : Z).

Definition shape_of (m : Map obj) : root_shape :=
  match map_root m with
  | None => NoRoot
  | Some (BitmapIndexedNode b _ _) => BitmapRoot b
  | Some (ArrayNode c _ _) => ArrayRoot c
  | Some (HashCollisionNode _ c _ _) => CollisionRoot c
  end.

(** The entries [i -> 10 * i] for [i] in [0 .. n-1]; the hash of the integer
    [i < 32] is [i], so the keys fall into distinct first-level slots. *)
Definition entries (n : nat) : list (obj * obj) :=
  map (fun i => (Int (Z.of_nat i), Int (10 * Z.of_nat i))) (seq 0 n).

Definition keys (from n : nat) : list obj :=
  map (fun i => Int (Z.of_nat i)) (seq from n).

(** Insert 17 entries into the empty map, then remove the keys
    [0 .. removed-1]: the count and the shape of the root. *)
Definition demotion_scenario (removed : nat) : result (Z * root_shape) :=
  m <- assoc_all (EMPTY_MAP obj) (entries 17) ;;
  m <- dissoc_all m (keys 0 removed) ;;
  Ok (map_cnt m, shape_of m).

(** The bitmap with exactly the bits [from .. from+n-1]. *)
Definition bits_of (from n : nat) : Z :=
  fold_right (fun i acc => Z.lor (Z.shiftl 1 (Z.of_nat i)) acc) 0 (seq from n).

End HostMap.

(** ** Array nodes: which slots survive a pack *)
Section MapShape.

Variable Obj : Type.
Variable Py_None : Obj.
Variable Obj_eq_dec : forall a b : Obj, {a = b} + {a <> b}.
Variable PyObject_Hash : Obj -> result Z.
Variable PyObject_RichCompareBool : Obj -> Obj -> cmp_op -> result bool.

(** Slot [i] is not the slot being cleared and holds a child. *)
Definition occupied (array : list (MapItem Obj)) (idx i : Z) : bool :=
  negb (i =? idx)
  && match nth_error array (Z.to_nat i) with
     | Some node => negb (is_Py_None Py_None Obj_eq_dec node)
     | None => false
     end.

(** The children that survive, in slot order, each behind the [Py_None]
    marker of a Bitmap-indexed node. *)
Definition packed_children (array : list (MapItem Obj)) (idx : Z)
  : list (MapItem Obj) :=
  flat_map (fun i =>
              if occupied array idx i
              then [IObj Py_None; nth (Z.to_nat i) array (IObj Py_None)]
              else [])
           slots32.

(** The call a node makes on the child of a slot, by the child's type. *)
Definition child_dissoc (fuel : nat) (kind : child_kind)
           (child : MapNode Obj) (shift hash_val : Z) (key : Obj)
           (transient_id : option token) : W (nret Obj * Z) :=
  match kind with
  | KBitmap =>
      BitmapIndexedNode_dissoc Py_None Obj_eq_dec PyObject_RichCompareBool
        fuel child shift hash_val key transient_id
  | KArray =>
      ArrayNode_dissoc Py_None Obj_eq_dec PyObject_RichCompareBool
        fuel child shift hash_val key transient_id
  | KCollision =>
      liftW (HashCollisionNode_dissoc PyObject_RichCompareBool child key
               transient_id)
  end.

End MapShape.

(** The map of the demotion scenario and the array of its root. *)
Definition demotion_map (removed : nat) : Map PyHost.obj :=
  match (m <- HostMap.assoc_all (EMPTY_MAP PyHost.obj) (HostMap.entries 17) ;;
         HostMap.dissoc_all m (HostMap.keys 0 removed))%result with
  | Ok m => m
  | Raise _ => EMPTY_MAP PyHost.obj
  end.

Definition root_array (m : Map PyHost.obj) : list (MapItem PyHost.obj) :=
  match map_root m with
  | Some n => map_node_array n
  | None => []
  end.

(** ** Map entry points as functions from maps to maps *)
Section MapCalls.

Variable Obj : Type.
Variable Py_None : Obj.
Variable Obj_eq_dec : forall a b : Obj, {a = b} + {a <> b}.
Variable PyObject_Hash : Obj -> result Z.
Variable PyObject_RichCompareBool : Obj -> Obj -> cmp_op -> result bool.

(** The map [self.assoc(key, val)] evaluates to. *)
Definition assoc_result (self : Map Obj) (key val : Obj)
  : result (Map Obj) :=
  r <- value (Map_assoc Py_None Obj_eq_dec PyObject_Hash
                        PyObject_RichCompareBool self key val) ;;
  Ok (deref_map r).

(** The map [self.dissoc(key)] evaluates to. *)
Definition dissoc_result (self : Map Obj) (key : Obj) : result (Map Obj) :=
  r <- value (Map_dissoc Py_None Obj_eq_dec PyObject_Hash
                         PyObject_RichCompareBool self key) ;;
  Ok (deref_map r).

(** A Bitmap-indexed root whose only slot, the one of hash [h], holds a
    collision node with the given pairs. *)
Definition collision_under_root (h : Z) (pairs : list (Obj * Obj))
  : option (MapNode Obj) :=
  Some (BitmapIndexedNode (bitpos h 0)
          [IObj Py_None;
           INode (HashCollisionNode h (Z.of_nat (length pairs))
                    (flat_map (fun kv => [IObj (fst kv); IObj (snd kv)])
                              pairs)
                    None)]
          None).

End MapCalls.

(** The integers [-1] and [-2] both hash to [-2].  Put both into the empty
    map, take [-1] out: the count, the root and the lookup of [-2]. *)
Definition collision_scenario
  : result (Z * option (MapNode PyHost.obj) * result PyHost.obj) :=
  m <- HostMap.assoc_all (EMPTY_MAP PyHost.obj)
         [(PyHost.Int (-1), PyHost.Int 10); (PyHost.Int (-2), PyHost.Int 20)] ;;
  m <- HostMap.dissoc m (PyHost.Int (-1)) ;;
  Ok (map_cnt m, map_root m, HostMap.get m (PyHost.Int (-2))).

(** The key [None] put into the empty map: the count, the root, and what
    [get], [contains] and [dissoc] of that key return afterwards. *)
Definition none_key_scenario
  : result (Z * option (MapNode PyHost.obj) * result PyHost.obj
            * result bool * result (Map PyHost.obj)) :=
  m <- HostMap.assoc (EMPTY_MAP PyHost.obj) PyHost.None_ (PyHost.Int 1) ;;
  Ok (map_cnt m, map_root m, HostMap.get m PyHost.None_,
      HostMap.contains m PyHost.None_, HostMap.dissoc m PyHost.None_).

(** The object [dissoc] returns for the only key of a one-entry map. *)
Definition last_key_scenario : result (ret (Map PyHost.obj)) :=
  m <- HostMap.assoc (EMPTY_MAP PyHost.obj) (PyHost.Int 5) (PyHost.Int 1) ;;
  r <- value (Map_dissoc PyHost.None_ PyHost.obj_eq_dec PyHost.hash
                         PyHost.compare m (PyHost.Int 5)) ;;
  Ok (fst r).

(** ** Comparisons over the host model *)

(** A Cons chain, a Vector and a Map with the elements 1, 2 (the map: the
    entry 1 -> 2), and host objects to compare them with. *)
Definition cons_1_2 : Cons PyHost.obj :=
  Cons_conj (pds_cons (PyHost.Int 2) RestNone) (PyHost.Int 1).

Definition vector_1_2 : Vector PyHost.obj :=
  match Vector_conj_all (EMPTY_VECTOR PyHost.obj)
                        [PyHost.Int 1; PyHost.Int 2] with
  | Ok v => v
  | Raise _ => EMPTY_VECTOR PyHost.obj
  end.

Definition map_1_2 : Map PyHost.obj :=
  match HostMap.assoc (EMPTY_MAP PyHost.obj) (PyHost.Int 1) (PyHost.Int 2) with
  | Ok m => m
  | Raise _ => EMPTY_MAP PyHost.obj
  end.

(** ** Primitive vectors over the host's numbers *)

(** [conj] of one host object onto the empty f64 vector, then element 0. *)
Definition f64_conj_then_read (val : PyNumber.obj) : result double :=
  value (v <~ DoubleVector_conj PyNumber.PyFloat_AsDouble
                                EMPTY_DOUBLE_VECTOR val ;;
         liftW (DoubleVector_nth_raw v 0))%result.

(** [conj] of one host object onto the empty i64 vector, then element 0. *)
Definition i64_conj_then_read (val : PyNumber.obj) : result int64_t :=
  value (v <~ IntVector_conj PyNumber.PyLong_AsLongLong
                             EMPTY_LONG_VECTOR val ;;
         liftW (IntVector_nth_raw v 0))%result.

(** ** Persistence: what a call must not do to its receiver *)

(** The call, when it returns, has edited no node in place. *)
Definition no_write {A : Type} (m : W A) : Prop :=
  forall (a : A) (w : nat), m = Ok (a, w) -> w = 0%nat.

(** The call, when it returns, has edited no node in place, and the
    receiver holds what it held before. *)
Definition receiver_unchanged {M : Type} (self : M) (m : W (ret M * M))
  : Prop :=
  forall (r : ret M) (self_now : M) (w : nat),
    m = Ok ((r, self_now), w) -> w = 0%nat /\ self_now = self.

(** A node function handed back the pointer [self] only if [self] holds
    what it held. *)
Definition keeps_self {Obj : Type} (self : MapNode Obj)
           (m : W (nret Obj * Z)) : Prop :=
  forall (now : MapNode Obj) (z : Z) (w : nat),
    m = Ok ((RSelf now, z), w) -> now = self.

(** ** SortedVector: the invariants of the tree *)
Section TreeInvariants.

Variable Obj : Type.
(** The host's order on sort keys: [lt a b] is the answer of [a < b]. *)
Variable lt : Obj -> Obj -> bool.

(** [a] goes strictly before [b] in the direction of the vector. *)
Definition before (reverse : bool) (a b : Obj) : bool :=
  if reverse then lt b a else lt a b.

(** [a] may stand before [b]: [b] does not go strictly before [a]. *)
Definition may_precede (reverse : bool) (a b : Obj) : Prop :=
  before reverse b a = false.

(** Sort keys and values in order: left subtree, node, right subtree. *)
Fixpoint rb_keys (t : RBNode Obj) : list Obj :=
  match t with
  | RBNull => []
  | RBNode_ _ k l r _ _ _ => rb_keys l ++ k :: rb_keys r
  end.

Fixpoint rb_values (t : RBNode Obj) : list Obj :=
  match t with
  | RBNull => []
  | RBNode_ v _ l r _ _ _ => rb_values l ++ v :: rb_values r
  end.

(** Search-tree order with equal keys to the right only: every key of the
    left subtree goes strictly before the key of the node, no key of the
    right subtree does. *)
Fixpoint bst_dups_right (reverse : bool) (t : RBNode Obj) : bool :=
  match t with
  | RBNull => true
  | RBNode_ _ k l r _ _ _ =>
      forallb (fun x => before reverse x k) (rb_keys l)
      && forallb (fun x => negb (before reverse x k)) (rb_keys r)
      && bst_dups_right reverse l && bst_dups_right reverse r
  end.

(** Search-tree order with equal keys on either side: the key of the node
    goes before no key of the left subtree, and no key of the right subtree
    goes before it. *)
Fixpoint bst_order (reverse : bool) (t : RBNode Obj) : bool :=
  match t with
  | RBNull => true
  | RBNode_ _ k l r _ _ _ =>
      forallb (fun x => negb (before reverse k x)) (rb_keys l)
      && forallb (fun x => negb (before reverse x k)) (rb_keys r)
      && bst_order reverse l && bst_order reverse r
  end.

(** No right child is red. *)
Fixpoint left_leaning (t : RBNode Obj) : bool :=
  match t with
  | RBNull => true
  | RBNode_ _ _ l r _ _ _ =>
      negb (RBNode_is_red r) && left_leaning l && left_leaning r
  end.

(** No red node has a red child. *)
Fixpoint no_red_red (t : RBNode Obj) : bool :=
  match t with
  | RBNull => true
  | RBNode_ _ _ l r _ c _ =>
      (match c with
       | RB_RED => negb (RBNode_is_red l) && negb (RBNode_is_red r)
       | RB_BLACK => true
       end)
      && no_red_red l && no_red_red r
  end.

(** The number of black nodes on every path from [t] to a null child, when
    all paths agree. *)
Fixpoint black_depth (t : RBNode Obj) : option nat :=
  match t with
  | RBNull => Some O
  | RBNode_ _ _ l r _ c _ =>
      match black_depth l, black_depth r with
      | Some a, Some b =>
          if Nat.eqb a b
          then Some (match c with RB_BLACK => S a | RB_RED => a end)
          else None
      | _, _ => None
      end
  end.

(** [size == 1 + left.size + right.size] at every node. *)
Fixpoint sizes_ok (t : RBNode Obj) : bool :=
  match t with
  | RBNull => true
  | RBNode_ _ _ l r s _ _ =>
      (s =? 1 + RBNode_size l + RBNode_size r) && sizes_ok l && sizes_ok r
  end.

(** The invariants of a SortedVector: those of its tree, a black root, and
    a count equal to the size of the tree. *)
Definition sv_invariants (sv : SortedVector Obj) : Prop :=
  bst_order (sv_reverse sv) (sv_root sv) = true
  /\ left_leaning (sv_root sv) = true
  /\ no_red_red (sv_root sv) = true
  /\ (exists n, black_depth (sv_root sv) = Some n)
  /\ sizes_ok (sv_root sv) = true
  /\ RBNode_is_red (sv_root sv) = false
  /\ sv_cnt sv = RBNode_size (sv_root sv)
  /\ sv_cnt sv = Z.of_nat (length (rb_values (sv_root sv))).

(** *** The tree functions without an edit token

    With [edit == NULL] no node is editable: [RBNode_ensure_editable] is
    [RBNode_clone] and the functions below are what [RBNode_rotate_left],
    [RBNode_rotate_right], [RBNode_flip_colors], [RBNode_balance] and
    [RBNode_insert] return. *)
Definition rotate_left_copy (h : RBNode Obj) : RBNode Obj :=
  let x := RBNode_clone (rb_right h) None in
  if rb_is_null x then RBNull
  else
    let new_h := RBNode_clone h None in
    let new_h := set_right new_h (rb_left x) in
    let x_color := rb_color_of new_h in
    let new_h := set_color new_h RB_RED in
    let new_h := RBNode_update_size new_h in
    let x := set_left x new_h in
    let x := set_color x x_color in
    RBNode_update_size x.

Definition rotate_right_copy (h : RBNode Obj) : RBNode Obj :=
  let x := RBNode_clone (rb_left h) None in
  if rb_is_null x then RBNull
  else
    let new_h := RBNode_clone h None in
    let new_h := set_left new_h (rb_right x) in
    let x_color := rb_color_of new_h in
    let new_h := set_color new_h RB_RED in
    let new_h := RBNode_update_size new_h in
    let x := set_right x new_h in
    let x := set_color x x_color in
    RBNode_update_size x.

Definition flip_child_copy (c : RBNode Obj) : RBNode Obj :=
  let n := RBNode_clone c None in
  set_color n (rb_color_not (rb_color_of n)).

Definition flip_colors_copy (h : RBNode Obj) : RBNode Obj :=
  let new_h := RBNode_clone h None in
  let new_h := set_color new_h (rb_color_not (rb_color_of new_h)) in
  let new_h := set_left new_h (flip_child_copy (rb_left new_h)) in
  set_right new_h (flip_child_copy (rb_right new_h)).

Definition balance_copy (h : RBNode Obj) : RBNode Obj :=
  let h := if RBNode_is_red (rb_right h) && negb (RBNode_is_red (rb_left h))
           then rotate_left_copy h else h in
  let h := if RBNode_is_red (rb_left h)
              && RBNode_is_red (rb_left (rb_left h))
           then rotate_right_copy h else h in
  let h := if RBNode_is_red (rb_left h) && RBNode_is_red (rb_right h)
           then flip_colors_copy h else h in
  RBNode_update_size h.

Fixpoint insert_copy (reverse : bool) (h : RBNode Obj) (value sort_key : Obj)
  : RBNode Obj :=
  match h with
  | RBNull => RBNode_create value sort_key RB_RED None
  | RBNode_ _ h_key h_left h_right _ _ _ =>
      let new_h := RBNode_clone h None in
      balance_copy
        (if before reverse sort_key h_key
         then set_left new_h (insert_copy reverse h_left value sort_key)
         else set_right new_h (insert_copy reverse h_right value sort_key))
  end.

(** The shape of a left-leaning red-black tree: the colour of its root and
    its black depth. *)
Inductive llrb : rb_color -> nat -> RBNode Obj -> Prop :=
| llrb_null : llrb RB_BLACK O RBNull
| llrb_red n v k l r s e :
    llrb RB_BLACK n l -> llrb RB_BLACK n r ->
    llrb RB_RED n (RBNode_ v k l r s RB_RED e)
| llrb_black n cl v k l r s e :
    llrb cl n l -> llrb RB_BLACK n r ->
    llrb RB_BLACK (S n) (RBNode_ v k l r s RB_BLACK e).

(** What an insertion below a red node may leave: a red node whose left
    child is red. *)
Inductive red_red_left : nat -> RBNode Obj -> Prop :=
| red_red_left_intro n v k l r s e :
    llrb RB_RED n l -> llrb RB_BLACK n r ->
    red_red_left n (RBNode_ v k l r s RB_RED e).

End TreeInvariants.

(** The integers as sort keys. *)
Definition Zcompare (a b : Z) (op : cmp_op) : result bool :=
  Ok (match op with
      | Py_LT => a <? b
      | Py_GT => a >? b
      | Py_EQ => a =? b
      end).

(** The tree after the integers of a list were [conj]-ed in order onto the
    empty SortedVector. *)
Definition sorted_of (items : list Z) : result (SortedVector Z) :=
  value (sv_conj_all Zcompare (@SortedVector_new Z) items).

Definition root_of (items : list Z) : RBNode Z :=
  match sorted_of items with
  | Ok sv => sv_root sv
  | Raise _ => RBNull
  end.

(** [disj] of [x] from the SortedVector of [items]: the count, the values in
    order and the black depth of what it returns. *)
Definition disj_scenario (items : list Z) (x : Z)
  : result (Z * list Z * option nat) :=
  sv <- sorted_of items ;;
  r <- value (SortedVector_disj Zcompare sv x) ;;
  let s := match r with ret_new s => s | _ => sv end in
  Ok (sv_cnt s, rb_values (sv_root s), black_depth (sv_root s)).

(** ** A round trip through a map, checked by evaluation *)

(** Put [k -> k + 100] for every [k] of [ks] into the empty map, then take
    the keys of [gone] out.  The check: the count after the insertions is
    the number of keys and every key maps to its value; after the removals
    the count has dropped by the number of keys removed, the removed keys
    are absent and every other key still maps to its value. *)
Definition round_trip_check (ks gone : list Z) : bool :=
  let value_ok (m : Map PyHost.obj) (k : Z) :=
    match HostMap.get m (PyHost.Int k) with
    | Ok (PyHost.Int v) => v =? k + 100
    | _ => false
    end in
  let absent (m : Map PyHost.obj) (k : Z) :=
    match HostMap.contains m (PyHost.Int k) with
    | Ok false => true
    | _ => false
    end in
  match HostMap.assoc_all (EMPTY_MAP PyHost.obj)
          (map (fun k => (PyHost.Int k, PyHost.Int (k + 100))) ks) with
  | Ok m =>
      (map_cnt m =? Z.of_nat (length ks))
      && forallb (value_ok m) ks
      && match HostMap.dissoc_all m (map PyHost.Int gone) with
         | Ok m' =>
             (map_cnt m' =? Z.of_nat (length ks) - Z.of_nat (length gone))
             && forallb (absent m') gone
             && forallb (fun k => existsb (Z.eqb k) gone || value_ok m' k) ks
         | Raise _ => false
         end
  | Raise _ => false
  end.

(** Keys that spread over the root ([-2 .. 40], with the colliding [-1] and
    [-2]) and keys that share their low ten bits, so that they meet again
    two levels down. *)
Definition round_trip_keys : list Z :=
  map (fun i => Z.of_nat i - 2) (seq 0 43)
  ++ map (fun i => 1024 * Z.of_nat i + 3) (seq 1 40).

Definition round_trip_gone : list Z :=
  map (fun i => 2 * Z.of_nat i - 1) (seq 0 20)
  ++ map (fun i => 1024 * (2 * Z.of_nat i) + 3) (seq 1 19).


(** ** Vectors as sequences

    What a trie holds, told by index: the vocabulary of the statements
    about [Vector_conj], [Vector_assoc], [Vector_pop] and the readers. *)
Section VectorContents.

Variable Obj : Type.
Variable Py_None : Obj.

(** The number of elements below a full node that is [d] levels above the
    leaves: [32] for a leaf, [32 * 32] for a node of leaves, ... *)
Definition capacity (d : nat) : Z := WIDTH ^ (Z.of_nat d + 1).

(** The element of [l] at a C index. *)
Definition elem (l : list Obj) (i : Z) : Obj := nth (Z.to_nat i) l Py_None.

(** [holds d node base n l]: [node], [d] levels above the leaves, is the
    part of a trie that starts at index [base], in a trie that stores the
    first [n] elements of [l].  Slot [j] of a leaf has the element of index
    [base + j] when that index is below [n]; slot [j] of an inner node has
    a child when the first index of that child, [base + j * capacity], is
    below [n]; every other slot is [NULL]. *)
Fixpoint holds (d : nat) (node : VectorNode Obj) (base n : Z) (l : list Obj)
  : Prop :=
  length (node_array node) = Z.to_nat WIDTH /\
  forall j : Z, 0 <= j < WIDTH ->
    match d with
    | O =>
        nth_error (node_array node) (Z.to_nat j)
        = Some (if base + j <? n then VItem (elem l (base + j))
                else VNull Obj)
    | S d' =>
        if base + j * capacity d' <? n
        then exists c,
               nth_error (node_array node) (Z.to_nat j) = Some (VChild c)
               /\ holds d' c (base + j * capacity d') n l
        else nth_error (node_array node) (Z.to_nat j) = Some (VNull Obj)
    end.

(** [represents v l]: the vector [v] stores the sequence [l].  The tail is
    the part of [l] from [Vector_tail_off] on, the trie under the root holds
    the part before it, the root is as deep as [shift] says and, when it is
    deeper than one level, has more than one child. *)
Definition represents (v : Vector Obj) (l : list Obj) : Prop :=
  exists d : nat,
    shift v = BITS * Z.of_nat (S d)
    /\ cnt v = Z.of_nat (length l)
    /\ tail v = skipn (Z.to_nat (Vector_tail_off v)) l
    /\ Vector_tail_off v <= capacity (S d)
    /\ (d <> O -> capacity d < Vector_tail_off v)
    /\ holds (S d) (root v) 0 (Vector_tail_off v) l.

End VectorContents.

Section VectorViews.

Variable Obj : Type.
Variable Py_None : Obj.

(** The Cons chain with the elements of [l] in front of [rest]. *)
Definition cons_onto (l : list Obj) (rest : ConsRest Obj) : ConsRest Obj :=
  fold_right (fun x r => RestCons (mkCons x r 0 false)) rest l.

(** The Cons chain of a list: [Py_None] for the empty list. *)
Definition cons_of_list (l : list Obj) : ConsRest Obj := cons_onto l RestNone.

(** A transient seen as the vector it would become. *)
Definition tv_vector (t : TransientVector Obj) : Vector Obj :=
  Vector_create (tv_cnt t) (tv_shift t) (tv_root t) (tv_tail t) (tv_id t).

(** The transient [t] stores the sequence [l]. *)
Definition tv_represents (t : TransientVector Obj) (l : list Obj) : Prop :=
  represents Py_None (tv_vector t) l.

(** The first index in [start .. stop-1] whose element satisfies [p]. *)
Fixpoint first_index (p : Obj -> bool) (l : list Obj) (start : Z) (n : nat)
  : option Z :=
  match n with
  | O => None
  | S n' =>
      if p (elem Py_None l start) then Some start
      else first_index p l (start + 1) n'
  end.

(** The number of elements that satisfy [p]. *)
Definition count_of (p : Obj -> bool) (l : list Obj) : Z :=
  Z.of_nat (length (filter p l)).

(** The elements of [l] at the indices [a .. a+k-1]. *)
Definition slice (l : list Obj) (a : Z) (k : nat) : list Obj :=
  firstn k (skipn (Z.to_nat a) l).

(** The cache of an iterator is empty, or it is what [Vector_node_for]
    returned for the chunk [vi_cached_chunk]. *)
Definition cache_ok (v : Vector Obj) (l : list Obj)
           (it : VectorIterator Obj) : Prop :=
  vi_cached_chunk it = -1
  \/ (exists c, vi_cached_chunk it = 32 * c /\ 0 <= c
      /\ forall j, 32 * c <= j < 32 * c + 32 -> j < cnt v ->
           cached_item Py_None v
             (mkVectorIterator j (vi_cached_node it) (vi_cached_chunk it)
                               (vi_cached_is_tail it))
           = Ok (elem Py_None l j)).

End VectorViews.

(** Two lists have the same length and equal elements at every index. *)
Fixpoint list_eqb {A : Type} (eqb : A -> A -> bool) (l1 l2 : list A) : bool :=
  match l1, l2 with
  | [], [] => true
  | x :: t, y :: u => eqb x y && list_eqb eqb t u
  | _, _ => false
  end.

(** The vector obtained from the empty one by [conj]-ing the integers
    [0 .. n-1]. *)
Definition sample_vector (n : nat) : Vector PyHost.obj :=
  match vector_of_range n with
  | Ok v => v
  | Raise _ => EMPTY_VECTOR PyHost.obj
  end.

(** A host iterator over the integers: the object [Int n] yields
    [0 .. n-1], [None] has no iterator. *)
Definition range_iter (o : PyHost.obj) : result (list PyHost.obj) :=
  match o with
  | PyHost.Int n => Ok (int_range (Z.to_nat n))
  | PyHost.None_ => Raise TypeError
  end.

(** Equality of the host's integers and of [None], as a boolean. *)
Definition host_eqb (a b : PyHost.obj) : bool :=
  match a, b with
  | PyHost.Int x, PyHost.Int y => x =? y
  | PyHost.None_, PyHost.None_ => true
  | _, _ => false
  end.

(** ** What a SortedVector stores *)
Section SortedContents.

Variable Obj : Type.
(** The host's order on sort keys: [lt a b] is the answer of [a < b]. *)
Variable lt : Obj -> Obj -> bool.

(** The pairs (sort key, value) of a tree in order: left subtree, node,
    right subtree. *)
Fixpoint rb_items (t : RBNode Obj) : list (Obj * Obj) :=
  match t with
  | RBNull => []
  | RBNode_ v k l r _ _ _ => rb_items l ++ (k, v) :: rb_items r
  end.

(** Two sort keys are equivalent: neither is smaller than the other. *)
Definition equivalent (a b : Obj) : bool := negb (lt a b) && negb (lt b a).

(** [x] put into a sequence behind every pair it does not go strictly
    before: in front of the first pair whose key comes strictly after the
    key of [x]. *)
Fixpoint stable_insert (reverse : bool) (x : Obj * Obj)
         (l : list (Obj * Obj)) : list (Obj * Obj) :=
  match l with
  | [] => [x]
  | y :: t =>
      if before lt reverse (fst x) (fst y) then x :: l
      else y :: stable_insert reverse x t
  end.

(** Insertion sort of [items] by the key [kf], in the direction [reverse]:
    items with equivalent keys stay in the order of [items]. *)
Definition stable_sort (reverse : bool) (kf : Obj -> Obj) (items : list Obj)
  : list (Obj * Obj) :=
  fold_left (fun acc v => stable_insert reverse (kf v, v) acc) items [].

(** The position of the first element that satisfies [p]. *)
Fixpoint find_first {A : Type} (p : A -> bool) (l : list A) : option nat :=
  match l with
  | [] => None
  | x :: t =>
      if p x then Some O
      else match find_first p t with
           | Some i => Some (S i)
           | None => None
           end
  end.

(** The values an iterator with the stack [stack] has still to yield: for
    each node on the stack, from the top, its value and then the values of
    its right subtree. *)
Fixpoint stack_values (stack : list (RBNode Obj)) : list Obj :=
  match stack with
  | [] => []
  | n :: rest =>
      match n with
      | RBNull => stack_values rest
      | RBNode_ v _ _ r _ _ _ => v :: rb_values r ++ stack_values rest
      end
  end.

(** No node on the stack is [NULL]. *)
Definition stack_ok (stack : list (RBNode Obj)) : Prop :=
  Forall (fun n => rb_is_null n = false) stack.

End SortedContents.

(** The SortedVector obtained from the empty one by [conj]-ing integers. *)
Definition sample_sorted (items : list Z) : SortedVector Z :=
  match sorted_of items with
  | Ok sv => sv
  | Raise _ => @SortedVector_new Z
  end.

(** A key function on the integers: the tens of a number. *)
Definition tens (z : Z) : result Z := Ok (z / 10).

(** ** A Cons chain as a list *)
Section ConsContents.

Variable Obj : Type.

(** The [first] fields along the chain of [rest] pointers. *)
Fixpoint cons_list (c : Cons Obj) : list Obj :=
  match c with
  | mkCons f (RestCons r) _ _ => f :: cons_list r
  | mkCons f _ _ _ => [f]
  end.

(** The chain ends in [Py_None]. *)
Fixpoint cons_proper (c : Cons Obj) : bool :=
  match c with
  | mkCons _ (RestCons r) _ _ => cons_proper r
  | mkCons _ RestNone _ _ => true
  | mkCons _ (RestObj _) _ _ => false
  end.

End ConsContents.


(** * Facts about the model *)

Unset Implicit Arguments.

(** ** Lists as C arrays *)

Lemma set_nth_length (A : Type) (l : list A) (n : nat) (x : A) :
  length (set_nth l n x) = length l.
Proof.
  revert n; induction l as [|h t IH]; intros [|n]; simpl; auto.
Qed.

Lemma set_item_length (A : Type) (l : list A) (i : Z) (x : A) :
  length (set_item l i x) = length l.
Proof.
  unfold set_item. destruct (i <? 0); auto using set_nth_length.
Qed.

Lemma set_nth_Forall (A : Type) (P : A -> Prop) (l : list A) (n : nat) (x : A) :
  Forall P l -> P x -> Forall P (set_nth l n x).
Proof.
  intros Hl Hx. revert n.
  induction Hl as [|h t Hh Ht IH]; intros [|n]; simpl; auto.
Qed.

Lemma set_item_Forall (A : Type) (P : A -> Prop) (l : list A) (i : Z) (x : A) :
  Forall P l -> P x -> Forall P (set_item l i x).
Proof.
  intros. unfold set_item. destruct (i <? 0); auto using set_nth_Forall.
Qed.

Lemma get_item_in_range (A : Type) (l : list A) (i : Z) :
  0 <= i < Z.of_nat (length l) -> exists a, get_item l i = Ok a /\ In a l.
Proof.
  intros [Hlo Hhi]. unfold get_item.
  destruct (i <? 0) eqn:E; [apply Z.ltb_lt in E; lia|].
  destruct (nth_error l (Z.to_nat i)) eqn:En.
  - exists a. split; auto. eapply nth_error_In; eauto.
  - apply nth_error_None in En. lia.
Qed.

Lemma land_MASK_range (x : Z) : 0 <= Z.land x MASK < WIDTH.
Proof.
  change MASK with (Z.ones 5). rewrite Z.land_ones by lia.
  change WIDTH with (2 ^ 5). apply Z.mod_pos_bound. lia.
Qed.

(** ** The writer *)

Lemma bindW_Ok (A B : Type) (m : W A) (k : A -> W B) (b : B) (w : nat) :
  bindW m k = Ok (b, w) ->
  exists a w1 w2, m = Ok (a, w1) /\ k a = Ok (b, w2) /\ w = (w1 + w2)%nat.
Proof.
  unfold bindW. destruct m as [[a w1]|e]; [|discriminate].
  destruct (k a) as [[b' w2]|e] eqn:E; [|discriminate].
  intros H; inversion H; subst. eauto 6.
Qed.

Lemma liftW_Ok (A : Type) (m : result A) (a : A) (w : nat) :
  liftW m = Ok (a, w) -> m = Ok a /\ w = 0%nat.
Proof.
  unfold liftW. destruct m; [|discriminate]. intros H; inversion H; auto.
Qed.

Lemma retW_Ok (A : Type) (a b : A) (w : nat) :
  retW a = Ok (b, w) -> a = b /\ w = 0%nat.
Proof. unfold retW. intros H; inversion H; auto. Qed.

Ltac invW :=
  repeat match goal with
  | H : bindW _ _ = Ok (_, _) |- _ =>
      apply bindW_Ok in H; destruct H as (? & ? & ? & H & ? & ?)
  | H : liftW _ = Ok (_, _) |- _ => apply liftW_Ok in H; destruct H
  | H : retW _ = Ok (_, _) |- _ => apply retW_Ok in H; destruct H
  | H : Ok _ = Ok _ |- _ => inversion H; clear H
  end; subst.

(** ** Vector: shape and appending *)

Section VectorFacts.
Variable Obj : Type.

Lemma VectorNode_create_wf (d : nat) (t : option token) :
  wf_node d (VectorNode_create Obj t).
Proof.
  destruct d; cbn [wf_node VectorNode_create node_array]; split;
    try apply repeat_length; auto.
  apply Forall_forall. intros s Hs. apply repeat_spec in Hs. auto.
Qed.

Lemma node_store_wf_S (d : nat) (n c : VectorNode Obj) (i : Z) :
  wf_node (S d) n -> wf_node d c -> wf_node (S d) (node_store n i (VChild c)).
Proof.
  intros [Hl Hf] Hc. split.
  - destruct n; simpl in *. now rewrite set_item_length.
  - destruct n; simpl in *. apply set_item_Forall; eauto.
Qed.

Lemma node_store_wf_null (d : nat) (n : VectorNode Obj) (i : Z) :
  wf_node (S d) n -> wf_node (S d) (node_store n i (VNull Obj)).
Proof.
  intros [Hl Hf]. split.
  - destruct n; simpl in *. now rewrite set_item_length.
  - destruct n; simpl in *. apply set_item_Forall; eauto.
Qed.

Lemma clone_wf (d : nat) (n : VectorNode Obj) (t : option token) :
  wf_node d n -> wf_node d (VectorNode_clone n t).
Proof. destruct n, d; simpl; auto. Qed.

Lemma Vector_new_path_wf (k : nat) : forall (fuel : nat) (node : VectorNode Obj) (t : option token),
  (k <= fuel)%nat -> wf_node 0 node ->
  exists p, Vector_new_path fuel (BITS * Z.of_nat k) node t = Ok p /\ wf_node k p.
Proof.
  induction k as [|k IH]; intros fuel node t Hf Hn.
  - exists node. split; auto. destruct fuel; reflexivity.
  - destruct fuel as [|fuel]; [lia|].
    cbn [Vector_new_path].
    replace (BITS * Z.of_nat (S k) =? 0) with false
      by (symmetry; apply Z.eqb_neq; unfold BITS; lia).
    replace (BITS * Z.of_nat (S k) - BITS) with (BITS * Z.of_nat k)
      by (unfold BITS; lia).
    destruct (IH fuel node t ltac:(lia) Hn) as (p & Hp & Hwf).
    rewrite Hp. cbn [bind]. eexists; split; [reflexivity|].
    apply node_store_wf_S; auto using VectorNode_create_wf.
Qed.

Lemma for_write_None (parent : VectorNode Obj) :
  VectorNode_for_write parent None = Ok (VectorNode_clone parent None, 0%nat).
Proof. reflexivity. Qed.

Lemma for_write_wf (d : nat) (parent : VectorNode Obj) (t : option token) :
  wf_node d parent ->
  exists r w, VectorNode_for_write parent t = Ok (r, w) /\ wf_node d r
              /\ (t = None -> w = 0%nat).
Proof.
  intros H. unfold VectorNode_for_write.
  destruct (VectorNode_is_editable parent t) eqn:E.
  - exists parent, 1%nat. repeat split; auto. intros ->. discriminate.
  - exists (VectorNode_clone parent t), 0%nat. repeat split; auto using clone_wf.
Qed.

Lemma Vector_push_tail_wf (k : nat) : forall (fuel : nat) (c : Z)
    (parent tail_node : VectorNode Obj) (t : option token),
  (k < fuel)%nat -> wf_node (S k) parent -> wf_node 0 tail_node ->
  exists r w, Vector_push_tail fuel c (BITS * Z.of_nat (S k)) parent tail_node t
              = Ok (r, w)
              /\ wf_node (S k) r /\ (t = None -> w = 0%nat).
Proof.
  induction k as [|k IH]; intros fuel c parent tail_node t Hf Hp Ht;
    (destruct fuel as [|fuel]; [lia|]); cbn [Vector_push_tail].
  - destruct (for_write_wf _ _ t Hp) as (r & w & Hr & Hwf & Hw). rewrite Hr.
    change (BITS * Z.of_nat 1 =? BITS) with true. cbn [bindW retW liftW].
    eexists _, _. split; [reflexivity|]. split.
    + apply node_store_wf_S; auto.
    + intros ->. rewrite (Hw eq_refl). reflexivity.
  - destruct (for_write_wf _ _ t Hp) as (r & w & Hr & Hwf & Hw). rewrite Hr.
    replace (BITS * Z.of_nat (S (S k)) =? BITS) with false
      by (symmetry; apply Z.eqb_neq; unfold BITS; lia).
    replace (BITS * Z.of_nat (S (S k)) - BITS) with (BITS * Z.of_nat (S k))
      by (unfold BITS; lia).
    set (subidx := Z.land (Z.shiftr (c - 1) (BITS * Z.of_nat (S (S k)))) MASK).
    destruct Hp as [Hlen Hall].
    destruct (get_item_in_range _ (node_array parent) subidx) as (s & Hs & Hin).
    { rewrite Hlen. pose proof (land_MASK_range (Z.shiftr (c - 1) (BITS * Z.of_nat (S (S k))))).
      unfold subidx. change (Z.of_nat (Z.to_nat WIDTH)) with WIDTH. lia. }
    rewrite Hs. cbn [liftW bindW].
    rewrite Forall_forall in Hall. destruct (Hall s Hin) as [->|(ch & -> & Hch)].
    + destruct (Vector_new_path_wf (S k) fuel tail_node t ltac:(lia) Ht)
        as (p & Hp' & Hpw).
      rewrite Hp'. cbn [bindW retW liftW].
      eexists _, _. split; [reflexivity|]. split.
      * apply node_store_wf_S; auto.
      * intros ->. rewrite (Hw eq_refl). reflexivity.
    + cbn [as_node liftW bindW].
      destruct (IH fuel c ch tail_node t ltac:(lia) Hch Ht) as (r' & w' & Hr' & Hwf' & Hw').
      rewrite Hr'. cbn [bindW retW liftW].
      eexists _, _. split; [reflexivity|]. split.
      * apply node_store_wf_S; auto.
      * intros ->. rewrite (Hw eq_refl), (Hw' eq_refl). reflexivity.
Qed.


Lemma tail_node_of_wf (tl : list Obj) (t : option token) :
  wf_node 0 (tail_node_of tl t).
Proof.
  split; auto. unfold tail_node_of. cbn [node_array].
  rewrite length_app, length_map, repeat_length.
  pose proof (firstn_le_length (Z.to_nat WIDTH) tl).
  rewrite length_firstn in *. lia.
Qed.

Lemma Vector_conj_total (self : Vector Obj) (val : Obj) :
  wf_vector self ->
  exists v' w,
    Vector_conj self val = Ok (v', w)
    /\ wf_vector v'
    /\ cnt v' = cnt self + 1
    /\ shift v' = (if conj_promotes self then shift self + BITS else shift self)
    /\ transient_id v' = transient_id self
    /\ (transient_id self = None -> w = 0%nat)
    /\ (shift v' = shift self + BITS ->
        get_item (node_array (root v')) 0 = Ok (VChild (root self))).
Proof.
  intros (d & Hs & Hr). unfold Vector_conj, conj_promotes.
  destruct (cnt self - Vector_tail_off self <? WIDTH) eqn:Eroom.
  - eexists _, _. split; [reflexivity|]. cbn [negb andb].
    cbn [cnt shift root transient_id Vector_create].
    repeat split; auto; try (exists d; cbn [shift root Vector_create]; auto).
    intros; unfold BITS in *; lia.
  - cbn [negb andb].
    pose proof (tail_node_of_wf (tail self) (transient_id self)) as Ht.
    destruct (Z.shiftr (cnt self) BITS >? Z.shiftl 1 (shift self)) eqn:Eover.
    + destruct (Vector_new_path_wf (S d) (level_fuel (shift self))
                  (tail_node_of (tail self) (transient_id self))
                  (transient_id self)) as (p & Hp & Hpw); auto.
      { unfold level_fuel. rewrite Hs. unfold BITS. lia. }
      rewrite <- Hs in Hp. rewrite Hp. cbn [liftW bindW retW].
      eexists _, _. split; [reflexivity|].
      cbn [cnt shift root transient_id Vector_create].
      repeat split; auto.
      * exists (S d). cbn [shift root Vector_create].
        split; [rewrite Hs; unfold BITS; lia|].
        apply (node_store_wf_S (S d)); auto.
        apply (node_store_wf_S (S d)); auto using VectorNode_create_wf.
    + destruct (Vector_push_tail_wf d (level_fuel (shift self)) (cnt self)
                  (root self) (tail_node_of (tail self) (transient_id self))
                  (transient_id self)) as (r & w & Hpt & Hrw & Hw); auto.
      { unfold level_fuel. rewrite Hs. unfold BITS. lia. }
      rewrite <- Hs in Hpt. rewrite Hpt. cbn [liftW bindW retW].
      eexists _, _. split; [reflexivity|].
      cbn [cnt shift root transient_id Vector_create].
      repeat split; auto.
      * exists d. cbn [shift root Vector_create]. auto.
      * intros E. rewrite (Hw E). reflexivity.
      * intros; unfold BITS in *; lia.
Qed.

End VectorFacts.

(** ** C3: root promotion *)

(** C3, the scenario as the claim states it: after the integers 0..1024 have
    been appended to the empty vector, the shift is 5, where the claim
    expects 10. *)
Lemma C3_shift_after_1025_is_5 :
  promotion_scenario 1025
  = Ok (5, Ok (PyHost.Int 0), Ok (PyHost.Int 1024)).
Proof. vm_compute. reflexivity. Qed.

(** C3 (amended).  On every well-formed vector [Vector_conj] returns, and the
    result's shift is the old shift plus 5 exactly when the tail is full and
    [(count >> 5) > (1 << shift)]; it is the old shift otherwise; when the
    shift grows the new root has the old root in slot 0.  From the empty
    vector, appending 0..1024 leaves the shift at 5 with [get(0) == 0] and
    [get(1024) == 1024]; the shift is still 5 after element 1055 and becomes
    10 when element 1056 is appended. *)
Theorem C3_vector_root_promotion :
  (forall (Obj : Type) (self : Vector Obj) (val : Obj),
      wf_vector self ->
      exists v' w,
        Vector_conj self val = Ok (v', w)
        /\ wf_vector v'
        /\ (shift v' = shift self + BITS <->
            (WIDTH <= cnt self - Vector_tail_off self
             /\ Z.shiftl 1 (shift self) < Z.shiftr (cnt self) BITS))
        /\ (shift v' = shift self \/ shift v' = shift self + BITS)
        /\ (shift v' = shift self + BITS ->
            get_item (node_array (root v')) 0 = Ok (VChild (root self))))
  /\ promotion_scenario 1025
     = Ok (5, Ok (PyHost.Int 0), Ok (PyHost.Int 1024))
  /\ promotion_scenario 1056
     = Ok (5, Ok (PyHost.Int 0), Ok (PyHost.Int 1055))
  /\ promotion_scenario 1057
     = Ok (10, Ok (PyHost.Int 0), Ok (PyHost.Int 1056)).
Proof.
  split; [|repeat split; vm_compute; reflexivity].
  intros Obj self val Hwf.
  destruct (Vector_conj_total Obj self val Hwf)
    as (v' & w & Hc & Hwf' & _ & Hs & _ & _ & Hroot).
  exists v', w.
  assert (Hp : conj_promotes self = true <->
               (WIDTH <= cnt self - Vector_tail_off self
                /\ Z.shiftl 1 (shift self) < Z.shiftr (cnt self) BITS)).
  { unfold conj_promotes. rewrite andb_true_iff, negb_true_iff.
    rewrite Z.ltb_ge. rewrite <- Zgt_is_gt_bool. lia. }
  split; [exact Hc|]. split; [exact Hwf'|].
  split; [|split; [|exact Hroot]].
  - rewrite <- Hp, Hs. destruct (conj_promotes self); unfold BITS.
    + split; auto.
    + split; [lia|discriminate].
  - rewrite Hs. destruct (conj_promotes self); auto.
Qed.

Lemma EMPTY_VECTOR_wf (Obj : Type) : wf_vector (EMPTY_VECTOR Obj).
Proof.
  exists 0%nat. split; [reflexivity|]. apply VectorNode_create_wf.
Qed.

(** C3, witness: the general part at the empty vector of integers. *)
Lemma C3_vector_root_promotion_witness :
  wf_vector (EMPTY_VECTOR PyHost.obj)
  /\ exists v' w,
       Vector_conj (EMPTY_VECTOR PyHost.obj) (PyHost.Int 0) = Ok (v', w)
       /\ wf_vector v'
       /\ (shift v' = shift (EMPTY_VECTOR PyHost.obj) + BITS <->
           (WIDTH <= cnt (EMPTY_VECTOR PyHost.obj)
                     - Vector_tail_off (EMPTY_VECTOR PyHost.obj)
            /\ Z.shiftl 1 (shift (EMPTY_VECTOR PyHost.obj))
               < Z.shiftr (cnt (EMPTY_VECTOR PyHost.obj)) BITS))
       /\ (shift v' = shift (EMPTY_VECTOR PyHost.obj)
           \/ shift v' = shift (EMPTY_VECTOR PyHost.obj) + BITS)
       /\ (shift v' = shift (EMPTY_VECTOR PyHost.obj) + BITS ->
           get_item (node_array (root v')) 0
           = Ok (VChild (root (EMPTY_VECTOR PyHost.obj)))).
Proof.
  split.
  - apply EMPTY_VECTOR_wf.
  - apply (proj1 C3_vector_root_promotion PyHost.obj
             (EMPTY_VECTOR PyHost.obj) (PyHost.Int 0)).
    apply EMPTY_VECTOR_wf.
Defined.

(** ** C6: failure semantics *)




(** ** Map nodes: packing an Array node *)

Section MapFacts.
Variable Obj : Type.
Variable Py_None : Obj.
Variable Obj_eq_dec : forall a b : Obj, {a = b} + {a <> b}.
Variable PyObject_Hash : Obj -> result Z.
Variable PyObject_RichCompareBool : Obj -> Obj -> cmp_op -> result bool.


Lemma get_item_nth_error (A : Type) (l : list A) (i : Z) (a : A) :
  get_item l i = Ok a -> 0 <= i /\ nth_error l (Z.to_nat i) = Some a.
Proof.
  unfold get_item. destruct (i <? 0) eqn:E; [discriminate|].
  apply Z.ltb_ge in E.
  destruct (nth_error l (Z.to_nat i)); [|discriminate].
  intros H; inversion H; auto.
Qed.

Lemma get_item_Ok_nth (A : Type) (l : list A) (i : Z) (d : A) :
  0 <= i < Z.of_nat (length l) -> get_item l i = Ok (nth (Z.to_nat i) l d).
Proof.
  intros [Hlo Hhi]. unfold get_item.
  destruct (i <? 0) eqn:E; [apply Z.ltb_lt in E; lia|].
  rewrite (nth_error_nth' l d) by lia. reflexivity.
Qed.

(** The loop of [ArrayNode_pack]: what it appends and which bits it sets. *)
Lemma ArrayNode_pack_loop_spec (array : list (MapItem Obj)) (idx : Z) :
  forall (slots : list Z) (acc : list (MapItem Obj)) (b : Z),
    Forall (fun i => 0 <= i < Z.of_nat (length array)) slots ->
    exists b',
      ArrayNode_pack_loop Py_None Obj_eq_dec array idx slots acc b
      = Ok (acc ++ flat_map (fun i =>
                               if occupied Py_None Obj_eq_dec array idx i
                               then [IObj Py_None;
                                     nth (Z.to_nat i) array (IObj Py_None)]
                               else []) slots, b')
      /\ forall j, 0 <= j ->
           Z.testbit b' j
           = Z.testbit b j || existsb (fun i => occupied Py_None Obj_eq_dec array idx i && (i =? j)) slots.
Proof.
  induction slots as [|i rest IH]; intros acc b Hs.
  - exists b. split.
    + cbn. rewrite app_nil_r. reflexivity.
    + intros j _. cbn. rewrite orb_false_r. reflexivity.
  - inversion Hs as [|? ? Hi Hrest]; subst.
    cbn [ArrayNode_pack_loop flat_map existsb].
    rewrite (get_item_Ok_nth _ array i (IObj Py_None) Hi). cbn [bind].
    assert (Hocc : occupied Py_None Obj_eq_dec array idx i
                   = negb (i =? idx)
                     && negb (is_Py_None Py_None Obj_eq_dec
                                (nth (Z.to_nat i) array (IObj Py_None)))).
    { unfold occupied. rewrite (nth_error_nth' array (IObj Py_None)) by lia.
      reflexivity. }
    rewrite <- Hocc.
    destruct (occupied Py_None Obj_eq_dec array idx i) eqn:E.
    + destruct (IH (acc ++ [IObj Py_None; nth (Z.to_nat i) array (IObj Py_None)])
                  (Z.lor b (Z.shiftl 1 i)) Hrest) as (b' & Hrun & Hbits).
      exists b'. split.
      * rewrite Hrun. rewrite <- app_assoc. reflexivity.
      * intros j Hj. rewrite (Hbits j Hj). rewrite Z.lor_spec.
        rewrite Z.shiftl_1_l. rewrite Z.pow2_bits_eqb by lia.
        cbn [andb]. rewrite orb_assoc. reflexivity.
    + destruct (IH acc b Hrest) as (b' & Hrun & Hbits).
      exists b'. split; [exact Hrun|].
      intros j Hj. rewrite (Hbits j Hj). reflexivity.
Qed.

Lemma slots32_range (n : nat) :
  Forall (fun i => 0 <= i < Z.of_nat n) (map Z.of_nat (seq 0 n)).
Proof.
  apply Forall_forall. intros x Hx. apply in_map_iff in Hx.
  destruct Hx as (k & <- & Hk). apply in_seq in Hk. lia.
Qed.

Lemma existsb_slots (f : Z -> bool) (n : nat) (j : Z) :
  existsb (fun i => f i && (i =? j)) (map Z.of_nat (seq 0 n))
  = (0 <=? j) && (j <? Z.of_nat n) && f j.
Proof.
  apply eq_true_iff_eq. rewrite existsb_exists, !andb_true_iff.
  rewrite Z.leb_le, Z.ltb_lt. split.
  - intros (x & Hx & Hf). apply andb_true_iff in Hf. destruct Hf as [Hf He].
    apply Z.eqb_eq in He. subst x. apply in_map_iff in Hx.
    destruct Hx as (k & <- & Hk). apply in_seq in Hk.
    repeat split; try lia. exact Hf.
  - intros [[Hlo Hhi] Hf]. exists j. split.
    + apply in_map_iff. exists (Z.to_nat j). split; [lia|].
      apply in_seq. lia.
    + rewrite Hf, Z.eqb_refl. reflexivity.
Qed.

Lemma ArrayNode_pack_spec (count : Z) (array : list (MapItem Obj))
      (tid t : option token) (idx : Z) :
  length array = Z.to_nat WIDTH ->
  exists bitmap,
    ArrayNode_pack Py_None Obj_eq_dec (ArrayNode count array tid) t idx
    = Ok (BitmapIndexedNode bitmap
            (packed_children Py_None Obj_eq_dec array idx) t)
    /\ (forall i, 0 <= i < WIDTH -> Z.testbit bitmap i = occupied Py_None Obj_eq_dec array idx i)
    /\ (forall i, WIDTH <= i -> Z.testbit bitmap i = false).
Proof.
  intros Hlen. unfold ArrayNode_pack.
  destruct (ArrayNode_pack_loop_spec array idx slots32 [] 0) as (b & Hrun & Hb).
  { unfold slots32. rewrite <- Hlen. apply slots32_range. }
  exists b. rewrite Hrun. cbn [bind app]. split; [reflexivity|].
  unfold slots32 in Hb. split.
  - intros i Hi. rewrite (Hb i) by lia. rewrite Z.bits_0. cbn [orb].
    rewrite existsb_slots.
    replace (0 <=? i) with true by (symmetry; apply Z.leb_le; lia).
    replace (i <? Z.of_nat (Z.to_nat WIDTH)) with true
      by (symmetry; apply Z.ltb_lt; change WIDTH with 32 in *; lia).
    reflexivity.
  - intros i Hi. change WIDTH with 32 in *. rewrite (Hb i) by lia. rewrite Z.bits_0. cbn [orb].
    rewrite existsb_slots.
    replace (i <? Z.of_nat (Z.to_nat 32)) with false
      by (symmetry; apply Z.ltb_ge; lia).
    rewrite andb_false_r. reflexivity.
Qed.

(** [ArrayNode_dissoc] when the child of the slot went away: pack at
    [count <= 8], otherwise clear the slot and decrement [count]. *)
Lemma ArrayNode_dissoc_cleared (fuel : nat) (count : Z)
      (array : list (MapItem Obj)) (tid t : option token) (shift h : Z)
      (key : Obj) (node : MapItem Obj) (kind : child_kind)
      (child : MapNode Obj) (removed : Z) (w : nat) :
  length array = Z.to_nat WIDTH ->
  get_item array (mask_hash h shift) = Ok node ->
  is_Py_None Py_None Obj_eq_dec node = false ->
  dispatch node = Ok (kind, child) ->
  child_dissoc Py_None Obj_eq_dec PyObject_RichCompareBool fuel kind child
               (shift + BITS) h key t = Ok ((RNone, removed), w) ->
  (count <= WIDTH / 4 ->
   exists bitmap,
     value (ArrayNode_dissoc Py_None Obj_eq_dec PyObject_RichCompareBool
              (S fuel) (ArrayNode count array tid) shift h key t)
     = Ok (RNew (BitmapIndexedNode bitmap
                   (packed_children Py_None Obj_eq_dec array
                                    (mask_hash h shift)) t), removed)
     /\ (forall i, 0 <= i < WIDTH ->
           Z.testbit bitmap i = occupied Py_None Obj_eq_dec array (mask_hash h shift) i)
     /\ (forall i, WIDTH <= i -> Z.testbit bitmap i = false))
  /\ (WIDTH / 4 < count ->
      value (ArrayNode_dissoc Py_None Obj_eq_dec PyObject_RichCompareBool
               (S fuel) (ArrayNode count array tid) shift h key t)
      = let e := MapNode_is_editable (ArrayNode count array tid) t in
        Ok (nret_of (ArrayNode (count - 1)
                       (set_item array (mask_hash h shift) (IObj Py_None))
                       (if e then tid else t)) e, removed)).
Proof.
  intros Hlen Hget Hnone Hdisp Hchild.
  assert (Hrun :
             ArrayNode_dissoc Py_None Obj_eq_dec PyObject_RichCompareBool
               (S fuel) (ArrayNode count array tid) shift h key t
             = bindW (liftW (get_item array (mask_hash h shift)))
                 (fun node =>
                    if is_Py_None Py_None Obj_eq_dec node
                    then retW (RSelf (ArrayNode count array tid), 0)
                    else
                      bindW (liftW (dispatch node))
                        (fun '(kind, child) =>
                           bindW (child_dissoc Py_None Obj_eq_dec
                                    PyObject_RichCompareBool fuel kind child
                                    (shift + BITS) h key t)
                             (fun '(n, removed) =>
                                match n with
                                | RSelf now =>
                                    retW (RSelf (set_map_node_array
                                                   (ArrayNode count array tid)
                                                   (set_item array
                                                      (mask_hash h shift)
                                                      (INode now))), removed)
                                | RNone =>
                                    if count <=? WIDTH / 4 then
                                      bindW (liftW (ArrayNode_pack Py_None
                                                      Obj_eq_dec
                                                      (ArrayNode count array
                                                                 tid) t
                                                      (mask_hash h shift)))
                                        (fun packed =>
                                           retW (RNew packed, removed))
                                    else
                                      bindW (MapNode_ensure_editable
                                               (ArrayNode count array tid) t)
                                        (fun '(editable, is_self) =>
                                           match editable with
                                           | ArrayNode ecount earray etid =>
                                               retW (nret_of
                                                       (ArrayNode (ecount - 1)
                                                          (set_item earray
                                                             (mask_hash h shift)
                                                             (IObj Py_None))
                                                          etid)
                                                       is_self, removed)
                                           | _ => Raise Fault
                                           end)
                                | RNew c =>
                                    bindW (MapNode_ensure_editable
                                             (ArrayNode count array tid) t)
                                      (fun '(editable, is_self) =>
                                         retW (nret_of
                                                 (set_map_node_array editable
                                                    (set_item
                                                       (map_node_array editable)
                                                       (mask_hash h shift)
                                                       (INode c)))
                                                 is_self, removed))
                                end)))).
  { destruct kind; reflexivity. }
  rewrite Hrun. clear Hrun. rewrite Hget. cbn [liftW bindW].
  rewrite Hnone, Hdisp. cbn [liftW bindW]. rewrite Hchild.

  split.
  - intros Hc. apply Z.leb_le in Hc. rewrite Hc.
    destruct (ArrayNode_pack_spec count array tid t (mask_hash h shift) Hlen)
      as (bitmap & Hpack & Hbits & Hhigh).
    exists bitmap. rewrite Hpack. cbn. auto.
  - intros Hc. apply Z.leb_gt in Hc. rewrite Hc.
    unfold MapNode_ensure_editable.
    destruct (MapNode_is_editable (ArrayNode count array tid) t); reflexivity.
Qed.

End MapFacts.

(** ** C4: Array-node demotion *)

(** C4, as the claim states it: after 9 of the 17 entries are removed the
    root has 8 children and is still an Array node. *)
Lemma C4_root_is_array_at_count_8 :
  HostMap.demotion_scenario 9 = Ok (8, HostMap.ArrayRoot 8).
Proof. vm_compute. reflexivity. Qed.

(** C4 (amended).  [ArrayNode_pack] returns a Bitmap-indexed node whose bit
    [i] is set exactly when slot [i] holds a child and is not the slot
    cleared, with those children in slot order.  When a dissoc makes the
    child of a slot go away, [ArrayNode_dissoc] packs if [count], read
    before the slot is cleared, is at most 8, so the Bitmap-indexed node has
    at most 7 children; with a larger [count] it clears the slot and
    decrements [count].  In the 17-entry scenario the root is an Array node
    with 9 and with 8 children and Bitmap-indexed with 7. *)
Theorem C4_array_node_demotion :
  (forall (Obj : Type) (Py_None : Obj)
          (Obj_eq_dec : forall a b : Obj, {a = b} + {a <> b})
          (count : Z) (array : list (MapItem Obj)) (tid t : option token)
          (idx : Z),
      length array = Z.to_nat WIDTH ->
      exists bitmap,
        ArrayNode_pack Py_None Obj_eq_dec (ArrayNode count array tid) t idx
        = Ok (BitmapIndexedNode bitmap
                (packed_children Py_None Obj_eq_dec array idx) t)
        /\ (forall i, 0 <= i < WIDTH ->
              Z.testbit bitmap i = occupied Py_None Obj_eq_dec array idx i)
        /\ (forall i, WIDTH <= i -> Z.testbit bitmap i = false))
  /\ (forall (Obj : Type) (Py_None : Obj)
             (Obj_eq_dec : forall a b : Obj, {a = b} + {a <> b})
             (PyObject_RichCompareBool : Obj -> Obj -> cmp_op -> result bool)
             (fuel : nat) (count : Z) (array : list (MapItem Obj))
             (tid t : option token) (shift h : Z) (key : Obj)
             (node : MapItem Obj) (kind : child_kind) (child : MapNode Obj)
             (removed : Z) (w : nat),
         length array = Z.to_nat WIDTH ->
         get_item array (mask_hash h shift) = Ok node ->
         is_Py_None Py_None Obj_eq_dec node = false ->
         dispatch node = Ok (kind, child) ->
         child_dissoc Py_None Obj_eq_dec PyObject_RichCompareBool fuel kind
                      child (shift + BITS) h key t
         = Ok ((RNone, removed), w) ->
         (count <= WIDTH / 4 ->
          exists bitmap,
            value (ArrayNode_dissoc Py_None Obj_eq_dec
                     PyObject_RichCompareBool (S fuel)
                     (ArrayNode count array tid) shift h key t)
            = Ok (RNew (BitmapIndexedNode bitmap
                          (packed_children Py_None Obj_eq_dec array
                                           (mask_hash h shift)) t), removed)
            /\ (forall i, 0 <= i < WIDTH ->
                  Z.testbit bitmap i
                  = occupied Py_None Obj_eq_dec array (mask_hash h shift) i)
            /\ (forall i, WIDTH <= i -> Z.testbit bitmap i = false))
         /\ (WIDTH / 4 < count ->
             value (ArrayNode_dissoc Py_None Obj_eq_dec
                      PyObject_RichCompareBool (S fuel)
                      (ArrayNode count array tid) shift h key t)
             = let e := MapNode_is_editable (ArrayNode count array tid) t in
               Ok (nret_of (ArrayNode (count - 1)
                              (set_item array (mask_hash h shift)
                                        (IObj Py_None))
                              (if e then tid else t)) e, removed)))
  /\ HostMap.demotion_scenario 0 = Ok (17, HostMap.ArrayRoot 17)
  /\ HostMap.demotion_scenario 8 = Ok (9, HostMap.ArrayRoot 9)
  /\ HostMap.demotion_scenario 9 = Ok (8, HostMap.ArrayRoot 8)
  /\ HostMap.demotion_scenario 10
     = Ok (7, HostMap.BitmapRoot (HostMap.bits_of 10 7)).
Proof.
  split; [|split].
  - intros. apply ArrayNode_pack_spec. assumption.
  - intros. eapply ArrayNode_dissoc_cleared; eassumption.
  - repeat split; vm_compute; reflexivity.
Qed.

(** C4, witness: the root of the scenario with 8 children left, on removing
    key 9. *)
Lemma C4_array_node_demotion_witness :
  exists bitmap,
    value (ArrayNode_dissoc PyHost.None_ PyHost.obj_eq_dec PyHost.compare
             (S 62) (ArrayNode 8 (root_array (demotion_map 9)) None)
             0 9 (PyHost.Int 9) None)
    = Ok (RNew (BitmapIndexedNode bitmap
                  (packed_children PyHost.None_ PyHost.obj_eq_dec
                                   (root_array (demotion_map 9))
                                   (mask_hash 9 0)) None), 1)
    /\ (forall i, 0 <= i < WIDTH ->
          Z.testbit bitmap i
          = occupied PyHost.None_ PyHost.obj_eq_dec
                     (root_array (demotion_map 9)) (mask_hash 9 0) i)
    /\ (forall i, WIDTH <= i -> Z.testbit bitmap i = false).
Proof.
  refine (proj1 (proj1 (proj2 C4_array_node_demotion)
                   PyHost.obj PyHost.None_ PyHost.obj_eq_dec PyHost.compare
                   62%nat 8 (root_array (demotion_map 9)) None None 0 9
                   (PyHost.Int 9)
                   (INode (BitmapIndexedNode 1
                             [IObj (PyHost.Int 9); IObj (PyHost.Int 90)]
                             None))
                   KBitmap
                   (BitmapIndexedNode 1
                      [IObj (PyHost.Int 9); IObj (PyHost.Int 90)] None)
                   1 0%nat _ _ _ _ _) _).
  - vm_compute. reflexivity.
  - vm_compute. reflexivity.
  - vm_compute. reflexivity.
  - vm_compute. reflexivity.
  - vm_compute. reflexivity.
  - vm_compute. discriminate.
Defined.

(** ** Map nodes: two keys with one hash *)

Lemma bitpos_pos (h s : Z) : 0 < bitpos h s.
Proof.
  unfold bitpos. rewrite Z.shiftl_1_l. apply Z.pow_pos_nonneg; [lia|].
  unfold mask_hash. apply land_MASK_range.
Qed.

Lemma bitpos_self_index (h s : Z) : bitmap_index (bitpos h s) (bitpos h s) = 0.
Proof.
  unfold bitmap_index, bitpos. rewrite Z.shiftl_1_l.
  replace (2 ^ mask_hash h s - 1) with (Z.ones (mask_hash h s))
    by (rewrite Z.ones_equiv; lia).
  rewrite Z.land_ones by (unfold mask_hash; apply land_MASK_range).
  rewrite Z.mod_same; [reflexivity|].
  apply Z.pow_nonzero; [lia|unfold mask_hash; apply land_MASK_range].
Qed.

Lemma get_item_0 (A : Type) (a : A) (l : list A) : get_item (a :: l) 0 = Ok a.
Proof. reflexivity. Qed.

Lemma get_item_1 (A : Type) (a b : A) (l : list A) :
  get_item (a :: b :: l) 1 = Ok b.
Proof. reflexivity. Qed.

Section CollisionFacts.
Variable Obj : Type.
Variable Py_None : Obj.
Variable Obj_eq_dec : forall a b : Obj, {a = b} + {a <> b}.
Variable PyObject_Hash : Obj -> result Z.
Variable PyObject_RichCompareBool : Obj -> Obj -> cmp_op -> result bool.

Lemma obj_is_refl (a : Obj) : obj_is Obj_eq_dec a a = true.
Proof. unfold obj_is. destruct (Obj_eq_dec a a); congruence. Qed.

Lemma obj_is_neq (a b : Obj) : a <> b -> obj_is Obj_eq_dec a b = false.
Proof. unfold obj_is. destruct (Obj_eq_dec a b); congruence. Qed.

Lemma assoc_EMPTY_BIN (f : nat) (s h : Z) (k v : Obj) (t : option token) :
  BitmapIndexedNode_assoc Py_None Obj_eq_dec PyObject_Hash
    PyObject_RichCompareBool (S f) (BitmapIndexedNode 0 [] None) s h k v t
  = Ok ((RNew (BitmapIndexedNode (bitpos h s) [IObj k; IObj v] t), 1), 0%nat).
Proof.
  cbn [BitmapIndexedNode_assoc].
  rewrite Z.land_0_l. cbn. reflexivity.
Qed.

Variables (k1 k2 v1 v2 : Obj) (h : Z).
Hypothesis Hk1 : k1 <> Py_None.
Hypothesis Hh1 : PyObject_Hash k1 = Ok h.
Hypothesis Hh2 : PyObject_Hash k2 = Ok h.
Hypothesis H21 : PyObject_RichCompareBool k2 k1 Py_EQ = Ok false.
Hypothesis H11 : PyObject_RichCompareBool k1 k1 Py_EQ = Ok true.
Hypothesis H22 : PyObject_RichCompareBool k2 k2 Py_EQ = Ok true.

Lemma land_bitpos_self (s : Z) : (Z.land (bitpos h s) (bitpos h s) =? 0) = false.
Proof. rewrite Z.land_diag. apply Z.eqb_neq. pose proof (bitpos_pos h s). lia. Qed.

Lemma assoc_colliding (f : nat) (s : Z) (tid : option token) :
  BitmapIndexedNode_assoc Py_None Obj_eq_dec PyObject_Hash
    PyObject_RichCompareBool (S (S f))
    (BitmapIndexedNode (bitpos h s) [IObj k1; IObj v1] tid) s h k2 v2 None
  = Ok ((RNew (BitmapIndexedNode (bitpos h s)
                 [IObj Py_None;
                  INode (HashCollisionNode h 2
                           [IObj k1; IObj v1; IObj k2; IObj v2] None)]
                 None), 1), 0%nat).
Proof.
  cbn [BitmapIndexedNode_assoc].
  rewrite land_bitpos_self, bitpos_self_index. cbn [negb].
  change (2 * 0) with 0. change (0 + 1) with 1.
  rewrite get_item_0, get_item_1. cbn [liftW bindW is_Py_None].
  rewrite (obj_is_neq k1 Py_None Hk1). cbn [liftW bindW as_obj].
  rewrite H21. cbn [liftW bindW as_obj create_node].
  rewrite Hh1. cbn [liftW bindW]. rewrite Z.eqb_refl.
  reflexivity.
Qed.


Lemma dissoc_colliding (f : nat) (s : Z) :
  BitmapIndexedNode_dissoc Py_None Obj_eq_dec PyObject_RichCompareBool (S f)
    (BitmapIndexedNode (bitpos h s)
       [IObj Py_None;
        INode (HashCollisionNode h 2
                 [IObj k1; IObj v1; IObj k2; IObj v2] None)] None)
    s h k1 None
  = Ok ((RNew (BitmapIndexedNode (bitpos h s)
                 [IObj Py_None;
                  INode (HashCollisionNode h 1 [IObj k2; IObj v2] None)]
                 None), 1), 0%nat).
Proof.
  cbn [BitmapIndexedNode_dissoc].
  rewrite land_bitpos_self, bitpos_self_index.
  change (2 * 0) with 0. change (0 + 1) with 1.
  rewrite get_item_0, get_item_1. cbn [liftW bindW is_Py_None].
  rewrite obj_is_refl.
  cbn [liftW bindW dispatch HashCollisionNode_dissoc
       HashCollisionNode_find_index].
  change (Z.to_nat 2) with 2%nat. cbn [find_index_loop].
  rewrite get_item_0. cbn [bind as_obj].
  rewrite H11. cbn. reflexivity.
Qed.

Lemma find_after_dissoc (f : nat) (s : Z) :
  BitmapIndexedNode_find Py_None Obj_eq_dec PyObject_RichCompareBool (S f)
    (BitmapIndexedNode (bitpos h s)
       [IObj Py_None;
        INode (HashCollisionNode h 1 [IObj k2; IObj v2] None)] None)
    s h k2 = Ok (Some v2)
  /\ BitmapIndexedNode_find Py_None Obj_eq_dec PyObject_RichCompareBool (S f)
       (BitmapIndexedNode (bitpos h s)
          [IObj Py_None;
           INode (HashCollisionNode h 1 [IObj k2; IObj v2] None)] None)
       s h k1 = Ok None.
Proof.
  split.
  - cbn [BitmapIndexedNode_find].
    rewrite land_bitpos_self, bitpos_self_index.
    change (2 * 0) with 0. change (0 + 1) with 1.
    rewrite get_item_0, get_item_1. cbn [bind is_Py_None].
    rewrite obj_is_refl.
    unfold HashCollisionNode_find.
    cbn [bind dispatch HashCollisionNode_find_index].
    change (Z.to_nat 1) with 1%nat. cbn [find_index_loop].
    rewrite get_item_0. cbn [bind as_obj].
    rewrite H22. cbn. reflexivity.
  - cbn [BitmapIndexedNode_find].
    rewrite land_bitpos_self, bitpos_self_index.
    change (2 * 0) with 0. change (0 + 1) with 1.
    rewrite get_item_0, get_item_1. cbn [bind is_Py_None].
    rewrite obj_is_refl.
    unfold HashCollisionNode_find.
    cbn [bind dispatch HashCollisionNode_find_index].
    change (Z.to_nat 1) with 1%nat. cbn [find_index_loop].
    rewrite get_item_0. cbn [bind as_obj].
    rewrite H21. cbn. reflexivity.
Qed.

(** Two keys with one hash, put into the empty map and the first one taken
    out again. *)
Lemma collision_round_trip (default : Obj) :
  exists m0 m2 m1,
    assoc_result Py_None Obj_eq_dec PyObject_Hash PyObject_RichCompareBool
                 (EMPTY_MAP Obj) k1 v1 = Ok m0
    /\ assoc_result Py_None Obj_eq_dec PyObject_Hash PyObject_RichCompareBool
                    m0 k2 v2 = Ok m2
    /\ map_cnt m2 = 2
    /\ map_root m2 = collision_under_root Py_None h [(k1, v1); (k2, v2)]
    /\ dissoc_result Py_None Obj_eq_dec PyObject_Hash PyObject_RichCompareBool
                     m2 k1 = Ok m1
    /\ map_cnt m1 = 1
    /\ map_root m1 = collision_under_root Py_None h [(k2, v2)]
    /\ Map_get Py_None Obj_eq_dec PyObject_Hash PyObject_RichCompareBool
               m1 k2 default = Ok v2
    /\ Map_contains Py_None Obj_eq_dec PyObject_Hash PyObject_RichCompareBool
                    m1 k1 = Ok false.
Proof.
  eexists. eexists. eexists.
  split.
  { unfold assoc_result, Map_assoc. rewrite Hh1.
    cbn [liftW bindW EMPTY_MAP Map_create map_root map_transient_id map_cnt].
    unfold root_assoc.
    cbn [dispatch liftW bindW EMPTY_BIN BitmapIndexedNode_create].
    change HAMT_FUEL with (S 63).
    rewrite assoc_EMPTY_BIN. cbn. reflexivity. }
  split.
  { unfold assoc_result, Map_assoc. rewrite Hh2.
    cbn [liftW bindW Map_create map_root map_transient_id map_cnt].
    unfold root_assoc. cbn [dispatch liftW bindW].
    change HAMT_FUEL with (S (S 62)).
    rewrite assoc_colliding. cbn. reflexivity. }
  split; [reflexivity|]. split; [reflexivity|].
  split.
  { unfold dissoc_result, Map_dissoc.
    cbn [liftW bindW Map_create map_root map_transient_id map_cnt].
    rewrite Hh1. cbn [liftW bindW].
    unfold root_dissoc. cbn [dispatch liftW bindW].
    change HAMT_FUEL with (S 63).
    rewrite dissoc_colliding. cbn. reflexivity. }
  split; [reflexivity|]. split; [reflexivity|].
  split.
  { unfold Map_get. cbn [Map_create map_root]. rewrite Hh2. cbn [bind].
    unfold root_find. cbn [dispatch bind]. change HAMT_FUEL with (S 63).
    rewrite (proj1 (find_after_dissoc 63 0)). reflexivity. }
  { unfold Map_contains. cbn [Map_create map_root]. rewrite Hh1. cbn [bind].
    unfold root_find. cbn [dispatch bind]. change HAMT_FUEL with (S 63).
    rewrite (proj2 (find_after_dissoc 63 0)). reflexivity. }
Qed.


(** What [HashCollisionNode_dissoc] hands back. *)
Lemma HashCollisionNode_dissoc_shape (hash_val count : Z)
      (array : list (MapItem Obj)) (tid t : option token) (key : Obj)
      (r : nret Obj) (removed : Z) :
  HashCollisionNode_dissoc PyObject_RichCompareBool
    (HashCollisionNode hash_val count array tid) key t = Ok (r, removed) ->
  (r = RSelf (HashCollisionNode hash_val count array tid) /\ removed = 0)
  \/ (r = RNone /\ count = 1 /\ removed = 1)
  \/ (exists idx,
         r = RNew (HashCollisionNode hash_val (count - 1)
                     (remove_pair_loop array 0 idx) t)
         /\ count <> 1 /\ removed = 1).
Proof.
  unfold HashCollisionNode_dissoc.
  destruct (HashCollisionNode_find_index PyObject_RichCompareBool
              (HashCollisionNode hash_val count array tid) key)
    as [idx|e]; [|discriminate].
  cbn [bind]. destruct (idx =? -1).
  - intros H; inversion H; auto.
  - destruct (count =? 1) eqn:E.
    + apply Z.eqb_eq in E. intros H; inversion H; auto.
    + apply Z.eqb_neq in E. intros H; inversion H.
      right. right. exists idx. auto.
Qed.

End CollisionFacts.

(** ** C5: dissoc on a collision node *)

(** C5, as the claim states it: with one of the two colliding entries
    removed, the slot of the root still holds a collision node, now with one
    pair, and not the pair itself. *)
Lemma C5_collision_node_stays :
  collision_scenario
  = Ok (1,
        Some (BitmapIndexedNode 1073741824
                [IObj PyHost.None_;
                 INode (HashCollisionNode (-2) 1
                          [IObj (PyHost.Int (-2)); IObj (PyHost.Int 20)]
                          None)]
                None),
        Ok (PyHost.Int 20)).
Proof. vm_compute. reflexivity. Qed.

(** C5 (amended).  For two keys other than [None] with the same hash, put
    into the empty map: the map has count 2 and a collision node with both
    pairs; after dissoc of the first key the count is 1, the value of the
    second key is retrievable, the first key is absent, and the slot holds a
    collision node with the one remaining pair.  A collision node hands back
    itself when the key is absent, [None] when its only pair is removed, and
    otherwise a collision node with [count - 1] pairs. *)
Theorem C5_collision_node_dissoc :
  (forall (Obj : Type) (Py_None : Obj)
          (Obj_eq_dec : forall a b : Obj, {a = b} + {a <> b})
          (PyObject_Hash : Obj -> result Z)
          (PyObject_RichCompareBool : Obj -> Obj -> cmp_op -> result bool)
          (k1 k2 v1 v2 : Obj) (h : Z) (default : Obj),
      k1 <> Py_None ->
      PyObject_Hash k1 = Ok h ->
      PyObject_Hash k2 = Ok h ->
      PyObject_RichCompareBool k2 k1 Py_EQ = Ok false ->
      PyObject_RichCompareBool k1 k1 Py_EQ = Ok true ->
      PyObject_RichCompareBool k2 k2 Py_EQ = Ok true ->
      exists m0 m2 m1,
        assoc_result Py_None Obj_eq_dec PyObject_Hash PyObject_RichCompareBool
                     (EMPTY_MAP Obj) k1 v1 = Ok m0
        /\ assoc_result Py_None Obj_eq_dec PyObject_Hash
                        PyObject_RichCompareBool m0 k2 v2 = Ok m2
        /\ map_cnt m2 = 2
        /\ map_root m2 = collision_under_root Py_None h [(k1, v1); (k2, v2)]
        /\ dissoc_result Py_None Obj_eq_dec PyObject_Hash
                         PyObject_RichCompareBool m2 k1 = Ok m1
        /\ map_cnt m1 = 1
        /\ map_root m1 = collision_under_root Py_None h [(k2, v2)]
        /\ Map_get Py_None Obj_eq_dec PyObject_Hash PyObject_RichCompareBool
                   m1 k2 default = Ok v2
        /\ Map_contains Py_None Obj_eq_dec PyObject_Hash
                        PyObject_RichCompareBool m1 k1 = Ok false)
  /\ (forall (Obj : Type)
             (PyObject_RichCompareBool : Obj -> Obj -> cmp_op -> result bool)
             (hash_val count : Z) (array : list (MapItem Obj))
             (tid t : option token) (key : Obj) (r : nret Obj) (removed : Z),
         HashCollisionNode_dissoc PyObject_RichCompareBool
           (HashCollisionNode hash_val count array tid) key t
         = Ok (r, removed) ->
         (r = RSelf (HashCollisionNode hash_val count array tid)
          /\ removed = 0)
         \/ (r = RNone /\ count = 1 /\ removed = 1)
         \/ (exists idx,
                r = RNew (HashCollisionNode hash_val (count - 1)
                            (remove_pair_loop array 0 idx) t)
                /\ count <> 1 /\ removed = 1)).
Proof.
  split.
  - intros. apply collision_round_trip; assumption.
  - intros. eapply HashCollisionNode_dissoc_shape; eassumption.
Qed.

(** C5, witness: the integers [-1] and [-2]. *)
Lemma C5_collision_node_dissoc_witness :
  exists m0 m2 m1,
    assoc_result PyHost.None_ PyHost.obj_eq_dec PyHost.hash PyHost.compare
                 (EMPTY_MAP PyHost.obj) (PyHost.Int (-1)) (PyHost.Int 10)
    = Ok m0
    /\ assoc_result PyHost.None_ PyHost.obj_eq_dec PyHost.hash PyHost.compare
                    m0 (PyHost.Int (-2)) (PyHost.Int 20) = Ok m2
    /\ map_cnt m2 = 2
    /\ map_root m2
       = collision_under_root PyHost.None_ (-2)
           [(PyHost.Int (-1), PyHost.Int 10); (PyHost.Int (-2), PyHost.Int 20)]
    /\ dissoc_result PyHost.None_ PyHost.obj_eq_dec PyHost.hash PyHost.compare
                     m2 (PyHost.Int (-1)) = Ok m1
    /\ map_cnt m1 = 1
    /\ map_root m1
       = collision_under_root PyHost.None_ (-2)
           [(PyHost.Int (-2), PyHost.Int 20)]
    /\ Map_get PyHost.None_ PyHost.obj_eq_dec PyHost.hash PyHost.compare
               m1 (PyHost.Int (-2)) PyHost.None_ = Ok (PyHost.Int 20)
    /\ Map_contains PyHost.None_ PyHost.obj_eq_dec PyHost.hash PyHost.compare
                    m1 (PyHost.Int (-1)) = Ok false.
Proof.
  refine (proj1 C5_collision_node_dissoc PyHost.obj PyHost.None_
            PyHost.obj_eq_dec PyHost.hash PyHost.compare
            (PyHost.Int (-1)) (PyHost.Int (-2)) (PyHost.Int 10)
            (PyHost.Int 20) (-2) PyHost.None_ _ _ _ _ _ _).
  - discriminate.
  - reflexivity.
  - reflexivity.
  - reflexivity.
  - reflexivity.
  - reflexivity.
Defined.

(** ** C2: round trip through a map *)

(** C2: the key [None] is the marker the nodes use for a slot that holds a
    child.  After [assoc(None, 1)] on the empty map the count is 1 and the
    root holds the pair [None, 1]; [get(None)], [contains(None)] and
    [dissoc(None)] then take the value [1] for a child node and read it
    through the layout of a collision node. *)
Theorem C2_none_key_lookup_faults :
  none_key_scenario
  = Ok (1,
        Some (BitmapIndexedNode 1 [IObj PyHost.None_; IObj (PyHost.Int 1)]
                None),
        Raise Fault, Raise Fault, Raise Fault).
Proof. vm_compute. reflexivity. Qed.

(** ** Maps and sets: removing the only key *)

Section LastKey.
Variable Obj : Type.
Variable Py_None : Obj.
Variable Obj_eq_dec : forall a b : Obj, {a = b} + {a <> b}.
Variable PyObject_Hash : Obj -> result Z.
Variable PyObject_RichCompareBool : Obj -> Obj -> cmp_op -> result bool.
Variables (k v : Obj) (h : Z).
Hypothesis Hk : k <> Py_None.
Hypothesis Hh : PyObject_Hash k = Ok h.
Hypothesis Hkk : PyObject_RichCompareBool k k Py_EQ = Ok true.

Lemma dissoc_single (f : nat) (s : Z) (tid t : option token) (v0 : Obj) :
  BitmapIndexedNode_dissoc Py_None Obj_eq_dec PyObject_RichCompareBool (S f)
    (BitmapIndexedNode (bitpos h s) [IObj k; IObj v0] tid) s h k t
  = Ok ((RNone, 1), 0%nat).
Proof.
  cbn [BitmapIndexedNode_dissoc].
  rewrite (land_bitpos_self h), bitpos_self_index.
  change (2 * 0) with 0. change (0 + 1) with 1.
  rewrite get_item_0, get_item_1. cbn [liftW bindW is_Py_None].
  rewrite (obj_is_neq _ Obj_eq_dec k Py_None Hk). cbn [liftW bindW as_obj].
  rewrite Hkk. cbn [liftW bindW]. rewrite Z.eqb_refl. reflexivity.
Qed.

Lemma Map_dissoc_last_key :
  exists m1,
    assoc_result Py_None Obj_eq_dec PyObject_Hash PyObject_RichCompareBool
                 (EMPTY_MAP Obj) k v = Ok m1
    /\ map_cnt m1 = 1
    /\ value (Map_dissoc Py_None Obj_eq_dec PyObject_Hash
                PyObject_RichCompareBool m1 k)
       = Ok (ret_new (Map_create 0 None None), m1).
Proof.
  eexists. split; [|split].
  - unfold assoc_result, Map_assoc. rewrite Hh.
    cbn [liftW bindW EMPTY_MAP Map_create map_root map_transient_id map_cnt].
    unfold root_assoc.
    cbn [dispatch liftW bindW EMPTY_BIN BitmapIndexedNode_create].
    change HAMT_FUEL with (S 63).
    rewrite assoc_EMPTY_BIN. cbn. reflexivity.
  - reflexivity.
  - unfold Map_dissoc.
    cbn [liftW bindW Map_create map_root map_transient_id map_cnt].
    rewrite Hh. cbn [liftW bindW].
    unfold root_dissoc. cbn [dispatch liftW bindW].
    change HAMT_FUEL with (S 63).
    rewrite dissoc_single. cbn. reflexivity.
Qed.

Lemma Set_disj_last_key :
  exists s1,
    value (Set_conj Py_None Obj_eq_dec PyObject_Hash PyObject_RichCompareBool
                    (EMPTY_SET Obj) k)
    = Ok (ret_new s1, EMPTY_SET Obj)
    /\ set_cnt s1 = 1
    /\ value (Set_disj Py_None Obj_eq_dec PyObject_Hash
                PyObject_RichCompareBool s1 k)
       = Ok (ret_new (Set_create 0 None None), s1).
Proof.
  eexists. split; [|split].
  - unfold Set_conj. rewrite Hh.
    cbn [liftW bindW EMPTY_SET Set_create set_root set_transient_id set_cnt].
    unfold root_assoc.
    cbn [dispatch liftW bindW EMPTY_BIN BitmapIndexedNode_create].
    change HAMT_FUEL with (S 63).
    rewrite assoc_EMPTY_BIN. cbn. reflexivity.
  - reflexivity.
  - unfold Set_disj.
    cbn [liftW bindW Set_create set_root set_transient_id set_cnt].
    rewrite Hh. cbn [liftW bindW].
    unfold root_dissoc. cbn [dispatch liftW bindW].
    change HAMT_FUEL with (S 63).
    rewrite dissoc_single. cbn. reflexivity.
Qed.
End LastKey.

(** ** C7: canonical empty instances *)

(** C7, as the claim states it: [dissoc] of the only key returns a map it
    allocates, not the canonical empty map. *)
Lemma C7_dissoc_last_key_allocates :
  last_key_scenario = Ok (ret_new (Map_create 0 None None)).
Proof. vm_compute. reflexivity. Qed.

(** C7 (amended).  [vec()], [hash_map()], [hash_set()], [vec_f64()] and
    [vec_i64()] without arguments return the canonical empty instance of
    their type, and [pop] on a one-element Vector returns the canonical
    empty Vector.  [sorted_vec()]
    allocates its result; [hash_set] of an iterable that yields nothing
    allocates an empty set; [dissoc] of the only key of a map and [disj] of
    the only element of a set allocate an empty map or set with count 0 and
    no root. *)
Theorem C7_canonical_empty :
  (forall (Obj : Type) (expands : Obj -> bool)
          (PyObject_GetIter : Obj -> result (list Obj)) (id : token),
      value (pds_vec expands PyObject_GetIter [] id)
      = Ok ret_canonical_empty)
  /\ (forall (Obj : Type) (Py_None : Obj)
             (Obj_eq_dec : forall a b : Obj, {a = b} + {a <> b})
             (PyObject_Hash : Obj -> result Z)
             (PyObject_RichCompareBool : Obj -> Obj -> cmp_op -> result bool)
             (id : token),
         value (pds_hash_map Py_None Obj_eq_dec PyObject_Hash
                             PyObject_RichCompareBool [] id)
         = Ok ret_canonical_empty)
  /\ (forall (Obj : Type) (Py_None : Obj)
             (Obj_eq_dec : forall a b : Obj, {a = b} + {a <> b})
             (PyObject_Hash : Obj -> result Z)
             (PyObject_RichCompareBool : Obj -> Obj -> cmp_op -> result bool)
             (PyObject_GetIter : Obj -> result (list Obj)) (id : token),
         value (pds_set Py_None Obj_eq_dec PyObject_Hash
                        PyObject_RichCompareBool PyObject_GetIter None id)
         = Ok ret_canonical_empty
         /\ forall it : Obj,
              PyObject_GetIter it = Ok [] ->
              value (pds_set Py_None Obj_eq_dec PyObject_Hash
                             PyObject_RichCompareBool PyObject_GetIter
                             (Some it) id)
              = Ok (ret_new (Set_create 0 None None)))
  /\ (forall (Obj : Type)
             (PyObject_RichCompareBool : Obj -> Obj -> cmp_op -> result bool)
             (key_fn : option (Obj -> result Obj)) (reverse : bool),
         value (pds_sorted_vec PyObject_RichCompareBool None key_fn reverse)
         = Ok (ret_new (mkSortedVector RBNull 0 key_fn reverse)))
  /\ (forall (Obj : Type) (PyFloat_AsDouble : Obj -> result double)
             (PyLong_AsLongLong : Obj -> result int64_t) (id : token),
         value (pds_vec_f64 PyFloat_AsDouble [] id) = Ok ret_canonical_empty
         /\ value (pds_vec_i64 PyLong_AsLongLong [] id)
            = Ok ret_canonical_empty)
  /\ (forall (Obj : Type) (Py_None : Obj) (self : Vector Obj),
         cnt self = 1 -> Vector_pop Py_None self = Ok ret_canonical_empty)
  /\ (forall (Obj : Type) (Py_None : Obj)
             (Obj_eq_dec : forall a b : Obj, {a = b} + {a <> b})
             (PyObject_Hash : Obj -> result Z)
             (PyObject_RichCompareBool : Obj -> Obj -> cmp_op -> result bool)
             (k v : Obj) (h : Z),
         k <> Py_None ->
         PyObject_Hash k = Ok h ->
         PyObject_RichCompareBool k k Py_EQ = Ok true ->
         (exists m1,
             assoc_result Py_None Obj_eq_dec PyObject_Hash
                          PyObject_RichCompareBool (EMPTY_MAP Obj) k v
             = Ok m1
             /\ map_cnt m1 = 1
             /\ value (Map_dissoc Py_None Obj_eq_dec PyObject_Hash
                         PyObject_RichCompareBool m1 k)
                = Ok (ret_new (Map_create 0 None None), m1))
         /\ (exists s1,
                value (Set_conj Py_None Obj_eq_dec PyObject_Hash
                                PyObject_RichCompareBool (EMPTY_SET Obj) k)
                = Ok (ret_new s1, EMPTY_SET Obj)
                /\ set_cnt s1 = 1
                /\ value (Set_disj Py_None Obj_eq_dec PyObject_Hash
                            PyObject_RichCompareBool s1 k)
                   = Ok (ret_new (Set_create 0 None None), s1))).
Proof.
  split; [|split; [|split; [|split; [|split; [|split]]]]].
  - intros; reflexivity.
  - intros; reflexivity.
  - intros. split; [reflexivity|].
    intros it Hit. unfold pds_set. rewrite Hit. reflexivity.
  - intros; reflexivity.
  - intros; split; reflexivity.
  - intros Obj Py_None self H. unfold Vector_pop. rewrite H. reflexivity.
  - intros.
    split; [eapply Map_dissoc_last_key|eapply Set_disj_last_key]; eassumption.
Qed.

(** C7, witness: a one-element vector, and the key 5 in a map and a set. *)
Lemma C7_canonical_empty_witness :
  Vector_pop PyHost.None_
    (Vector_create 1 BITS (EMPTY_NODE PyHost.obj) [PyHost.Int 7] None)
  = Ok ret_canonical_empty
  /\ exists m1,
       assoc_result PyHost.None_ PyHost.obj_eq_dec PyHost.hash PyHost.compare
                    (EMPTY_MAP PyHost.obj) (PyHost.Int 5) (PyHost.Int 1)
       = Ok m1
       /\ map_cnt m1 = 1
       /\ value (Map_dissoc PyHost.None_ PyHost.obj_eq_dec PyHost.hash
                   PyHost.compare m1 (PyHost.Int 5))
          = Ok (ret_new (Map_create 0 None None), m1).
Proof.
  pose proof C7_canonical_empty as (_ & _ & _ & _ & _ & Hpop & Hlast).
  split.
  - apply (Hpop PyHost.obj PyHost.None_
             (Vector_create 1 BITS (EMPTY_NODE PyHost.obj) [PyHost.Int 7]
                            None)).
    reflexivity.
  - refine (proj1 (Hlast PyHost.obj PyHost.None_ PyHost.obj_eq_dec PyHost.hash
                         PyHost.compare (PyHost.Int 5) (PyHost.Int 1) 5
                         _ _ _)).
    + discriminate.
    + reflexivity.
    + reflexivity.
Defined.

(** ** C10: equality is guarded by the type of the other operand *)

(** C10.  For a Cons, a Vector or a Map [self] and any object [other] that
    is not the object [self] and whose type is not the type of [self]
    ([PyObject_TypeCheck] fails), the comparison slot answers [False] to
    [==] and [True] to [!=], whatever the two hold; no element, hash or
    count of [other] is read. *)
Theorem C10_equality_is_type_guarded :
  forall (Obj : Type) (Py_None : Obj)
         (Obj_eq_dec : forall a b : Obj, {a = b} + {a <> b})
         (PyObject_Hash : Obj -> result Z)
         (PyObject_RichCompareBool : Obj -> Obj -> cmp_op -> result bool),
    (forall (self : Cons Obj) (other : PyObject Obj),
        Py_TYPE other <> ConsType ->
        Cons_richcompare PyObject_RichCompareBool self (Other other) Op_EQ
        = Ok (PyBool false)
        /\ Cons_richcompare PyObject_RichCompareBool self (Other other) Op_NE
           = Ok (PyBool true))
    /\ (forall (self : Vector Obj) (other : PyObject Obj),
           Py_TYPE other <> VectorType ->
           Vector_richcompare Py_None PyObject_RichCompareBool self
                              (Other other) Op_EQ
           = Ok (PyBool false)
           /\ Vector_richcompare Py_None PyObject_RichCompareBool self
                                 (Other other) Op_NE
              = Ok (PyBool true))
    /\ (forall (self : Map Obj) (other : PyObject Obj),
           Py_TYPE other <> MapType ->
           Map_richcompare Py_None Obj_eq_dec PyObject_Hash
                           PyObject_RichCompareBool self (Other other) Op_EQ
           = Ok (PyBool false)
           /\ Map_richcompare Py_None Obj_eq_dec PyObject_Hash
                              PyObject_RichCompareBool self (Other other)
                              Op_NE
              = Ok (PyBool true)).
Proof.
  intros. repeat split;
    match goal with
    | H : Py_TYPE ?o <> _ |- _ =>
        destruct o; try reflexivity; exfalso; apply H; reflexivity
    end.
Qed.

(** C10, witness: a Cons chain and a Vector that hold 1, 2, and the map
    [{1: 2}], each compared with objects of the two other types and with a
    host object. *)
Lemma C10_equality_is_type_guarded_witness :
  Cons_richcompare PyHost.compare cons_1_2 (Other (PyVector vector_1_2)) Op_EQ
  = Ok (PyBool false)
  /\ Vector_richcompare PyHost.None_ PyHost.compare vector_1_2
                        (Other (PyCons cons_1_2)) Op_EQ
     = Ok (PyBool false)
  /\ Map_richcompare PyHost.None_ PyHost.obj_eq_dec PyHost.hash PyHost.compare
                     map_1_2 (Other (PyOther (PyHost.Int 1))) Op_EQ
     = Ok (PyBool false).
Proof.
  pose proof (C10_equality_is_type_guarded PyHost.obj PyHost.None_
                PyHost.obj_eq_dec PyHost.hash PyHost.compare)
    as (Hc & Hv & Hm).
  split; [|split].
  - apply (Hc cons_1_2 (PyVector vector_1_2)). discriminate.
  - apply (Hv vector_1_2 (PyCons cons_1_2)). discriminate.
  - apply (Hm map_1_2 (PyOther (PyHost.Int 1))). discriminate.
Defined.

(** ** Transients and the primitive-vector factories *)

Section TransientFacts.
Variable Obj : Type.

Lemma Vector_transient_wf (v : Vector Obj) (id : token) :
  wf_vector v -> wf_transient (Vector_transient v id).
Proof.
  intros (d & Hs & Hr). exists d. cbn [Vector_transient tv_shift tv_root].
  split; auto using clone_wf.
Qed.

Lemma TransientVector_conj_mut_raw_total (t : TransientVector Obj) (val : Obj) :
  wf_transient t ->
  exists t' w,
    TransientVector_conj_mut_raw t val = Ok (t', w)
    /\ wf_transient t'
    /\ tv_cnt t' = tv_cnt t + 1
    /\ tv_id t' = tv_id t.
Proof.
  intros (d & Hs & Hr). unfold TransientVector_conj_mut_raw.
  destruct (tv_cnt t - TransientVector_tail_off t <? WIDTH) eqn:Eroom.
  - eexists _, _. split; [reflexivity|].
    cbn [tv_cnt tv_id]. repeat split; auto.
    exists d. cbn [tv_shift tv_root]. auto.
  - pose proof (tail_node_of_wf _ (tv_tail t) (tv_id t)) as Ht.
    destruct (Z.shiftr (tv_cnt t) BITS >? Z.shiftl 1 (tv_shift t)) eqn:Eover.
    + unfold TransientVector_new_path.
      destruct (Vector_new_path_wf _ (S d) (level_fuel (tv_shift t))
                  (tail_node_of (tv_tail t) (tv_id t)) (tv_id t))
        as (p & Hp & Hpw); auto.
      { unfold level_fuel. rewrite Hs. unfold BITS. lia. }
      rewrite <- Hs in Hp. rewrite Hp. cbn [liftW bindW retW].
      eexists _, _. split; [reflexivity|].
      cbn [tv_cnt tv_id]. repeat split; auto.
      exists (S d). cbn [tv_shift tv_root].
      split; [rewrite Hs; unfold BITS; lia|].
      apply (node_store_wf_S _ (S d)); auto.
      apply (node_store_wf_S _ (S d)); auto using VectorNode_create_wf.
    + unfold TransientVector_push_tail.
      destruct (Vector_push_tail_wf _ d (level_fuel (tv_shift t)) (tv_cnt t)
                  (tv_root t) (tail_node_of (tv_tail t) (tv_id t)) (tv_id t))
        as (r & w & Hpt & Hrw & Hw); auto.
      { unfold level_fuel. rewrite Hs. unfold BITS. lia. }
      rewrite <- Hs in Hpt. rewrite Hpt. cbn [liftW bindW retW].
      eexists _, _. split; [reflexivity|].
      cbn [tv_cnt tv_id]. repeat split; auto.
      exists d. cbn [tv_shift tv_root]. auto.
Qed.
End TransientFacts.

Section PrimitiveFacts.
Variable Obj : Type.
Variable PyFloat_AsDouble : Obj -> result double.
Variable PyLong_AsLongLong : Obj -> result int64_t.

Lemma vec_f64_loop_ok (args : list Obj) :
  forall t : TransientVector double,
    wf_transient t ->
    Forall (fun item => exists d, PyFloat_AsDouble item = Ok d) args ->
    exists t' w,
      vec_f64_loop PyFloat_AsDouble t args = Ok (t', w)
      /\ wf_transient t'
      /\ tv_cnt t' = tv_cnt t + Z.of_nat (length args)
      /\ tv_id t' = tv_id t.
Proof.
  induction args as [|item rest IH]; intros t Hwf Hall.
  - exists t, 0%nat. cbn. repeat split; auto. lia.
  - inversion Hall as [|? ? (d & Hd) Hrest]; subst.
    cbn [vec_f64_loop]. rewrite Hd.
    destruct (TransientVector_conj_mut_raw_total _ t d Hwf)
      as (t1 & w1 & H1 & Hwf1 & Hc1 & Hi1).
    rewrite H1. cbn [bindW].
    destruct (IH t1 Hwf1 Hrest) as (t2 & w2 & H2 & Hwf2 & Hc2 & Hi2).
    rewrite H2. eexists _, _. split; [reflexivity|].
    repeat split; auto; [|congruence].
    rewrite Hc2, Hc1. cbn [length]. lia.
Qed.

Lemma vec_f64_loop_fails (args : list Obj) :
  forall t : TransientVector double,
    wf_transient t ->
    Exists (fun item => exists e, PyFloat_AsDouble item = Raise e) args ->
    vec_f64_loop PyFloat_AsDouble t args = Raise TypeError.
Proof.
  induction args as [|item rest IH]; intros t Hwf Hex.
  - inversion Hex.
  - cbn [vec_f64_loop].
    destruct (PyFloat_AsDouble item) as [d|e] eqn:Hd; [|reflexivity].
    inversion Hex as [? ? (e & He)|? ? Hrest]; subst; [congruence|].
    destruct (TransientVector_conj_mut_raw_total _ t d Hwf)
      as (t1 & w1 & H1 & Hwf1 & _).
    rewrite H1. cbn [bindW]. rewrite (IH t1 Hwf1 Hrest). reflexivity.
Qed.

Lemma vec_i64_loop_ok (args : list Obj) :
  forall t : TransientVector int64_t,
    wf_transient t ->
    Forall (fun item => exists d, PyLong_AsLongLong item = Ok d) args ->
    exists t' w,
      vec_i64_loop PyLong_AsLongLong t args = Ok (t', w)
      /\ wf_transient t'
      /\ tv_cnt t' = tv_cnt t + Z.of_nat (length args)
      /\ tv_id t' = tv_id t.
Proof.
  induction args as [|item rest IH]; intros t Hwf Hall.
  - exists t, 0%nat. cbn. repeat split; auto. lia.
  - inversion Hall as [|? ? (d & Hd) Hrest]; subst.
    cbn [vec_i64_loop]. rewrite Hd.
    destruct (TransientVector_conj_mut_raw_total _ t d Hwf)
      as (t1 & w1 & H1 & Hwf1 & Hc1 & Hi1).
    rewrite H1. cbn [bindW].
    destruct (IH t1 Hwf1 Hrest) as (t2 & w2 & H2 & Hwf2 & Hc2 & Hi2).
    rewrite H2. eexists _, _. split; [reflexivity|].
    repeat split; auto; [|congruence].
    rewrite Hc2, Hc1. cbn [length]. lia.
Qed.

Lemma vec_i64_loop_fails (args : list Obj) :
  forall t : TransientVector int64_t,
    wf_transient t ->
    Exists (fun item => exists e, PyLong_AsLongLong item = Raise e) args ->
    vec_i64_loop PyLong_AsLongLong t args = Raise TypeError.
Proof.
  induction args as [|item rest IH]; intros t Hwf Hex.
  - inversion Hex.
  - cbn [vec_i64_loop].
    destruct (PyLong_AsLongLong item) as [d|e] eqn:Hd; [|reflexivity].
    inversion Hex as [? ? (e & He)|? ? Hrest]; subst; [congruence|].
    destruct (TransientVector_conj_mut_raw_total _ t d Hwf)
      as (t1 & w1 & H1 & Hwf1 & _).
    rewrite H1. cbn [bindW]. rewrite (IH t1 Hwf1 Hrest). reflexivity.
Qed.

Lemma pds_vec_f64_spec (args : list Obj) (id : token) :
  (Exists (fun item => exists e, PyFloat_AsDouble item = Raise e) args ->
   pds_vec_f64 PyFloat_AsDouble args id = Raise TypeError)
  /\ (args <> [] ->
      Forall (fun item => exists d, PyFloat_AsDouble item = Ok d) args ->
      exists v,
        value (pds_vec_f64 PyFloat_AsDouble args id) = Ok (ret_new v)
        /\ cnt v = Z.of_nat (length args)).
Proof.
  assert (Hwf : wf_transient
                  (Vector_transient (EMPTY_DOUBLE_VECTOR) id))
    by (apply Vector_transient_wf, EMPTY_VECTOR_wf).
  split.
  - intros Hex. destruct args as [|a r]; [inversion Hex|].
    unfold pds_vec_f64. rewrite (vec_f64_loop_fails _ _ Hwf Hex). reflexivity.
  - intros Hne Hall. destruct args as [|a r]; [congruence|].
    unfold pds_vec_f64.
    destruct (vec_f64_loop_ok _ _ Hwf Hall) as (t' & w & H & _ & Hc & Hi).
    rewrite H. cbn [bindW]. unfold TransientVector_persistent,
      TransientVector_ensure_editable. rewrite Hi.
    cbn. eexists. split; [reflexivity|]. cbn [cnt]. rewrite Hc. cbn. lia.
Qed.

Lemma pds_vec_i64_spec (args : list Obj) (id : token) :
  (Exists (fun item => exists e, PyLong_AsLongLong item = Raise e) args ->
   pds_vec_i64 PyLong_AsLongLong args id = Raise TypeError)
  /\ (args <> [] ->
      Forall (fun item => exists d, PyLong_AsLongLong item = Ok d) args ->
      exists v,
        value (pds_vec_i64 PyLong_AsLongLong args id) = Ok (ret_new v)
        /\ cnt v = Z.of_nat (length args)).
Proof.
  assert (Hwf : wf_transient
                  (Vector_transient (EMPTY_LONG_VECTOR) id))
    by (apply Vector_transient_wf, EMPTY_VECTOR_wf).
  split.
  - intros Hex. destruct args as [|a r]; [inversion Hex|].
    unfold pds_vec_i64. rewrite (vec_i64_loop_fails _ _ Hwf Hex). reflexivity.
  - intros Hne Hall. destruct args as [|a r]; [congruence|].
    unfold pds_vec_i64.
    destruct (vec_i64_loop_ok _ _ Hwf Hall) as (t' & w & H & _ & Hc & Hi).
    rewrite H. cbn [bindW]. unfold TransientVector_persistent,
      TransientVector_ensure_editable. rewrite Hi.
    cbn. eexists. split; [reflexivity|]. cbn [cnt]. rewrite Hc. cbn. lia.
Qed.
End PrimitiveFacts.

(** ** C9: unboxing at the boundary of a primitive vector *)

(** C9, as the claim states it: [conj] of the integer [2^53 + 1] onto an f64
    vector does not fail; the element stored is the double [2^53], the same
    as for the integer [2^53].  An integer too large for a double fails
    with [OverflowError], not [TypeError]. *)
Lemma C9_conj_rounds_silently :
  f64_conj_then_read (PyNumber.Long (2 ^ 53 + 1))
  = Ok (S754_finite false 4503599627370496 1)
  /\ f64_conj_then_read (PyNumber.Long (2 ^ 53))
     = Ok (S754_finite false 4503599627370496 1)
  /\ f64_conj_then_read (PyNumber.Long (2 ^ 1024)) = Raise OverflowError.
Proof. repeat split; vm_compute; reflexivity. Qed.

(** C9 (amended).  [conj] on an f64 vector appends what [PyFloat_AsDouble]
    returns for the argument and fails with the exception of
    [PyFloat_AsDouble] when that fails; [conj] on an i64 vector does the
    same with [PyLong_AsLongLong].  On the host's numbers: a [float] is
    taken as it is, an [int] is rounded to the nearest double without an
    error (so [2^53 + 1] is stored as [2^53]), an [int] beyond the doubles
    fails with [OverflowError] and an object that is not a number with
    [TypeError]; an i64 vector takes an [int] of the 64-bit range unchanged,
    fails with [OverflowError] outside the range and with [TypeError] for a
    [float].  The factories [vec_f64] and [vec_i64] fail with [TypeError]
    when the conversion of an argument fails, whatever its exception, and
    otherwise return a vector with one element for each argument. *)
Theorem C9_primitive_unboxing :
  (forall (Obj : Type) (PyFloat_AsDouble : Obj -> result double)
          (self : DoubleVector) (val : Obj),
      (forall e, PyFloat_AsDouble val = Raise e ->
                 DoubleVector_conj PyFloat_AsDouble self val = Raise e)
      /\ (forall d, PyFloat_AsDouble val = Ok d ->
                    DoubleVector_conj PyFloat_AsDouble self val
                    = Vector_conj self d))
  /\ (forall (Obj : Type) (PyLong_AsLongLong : Obj -> result int64_t)
             (self : IntVector) (val : Obj),
         (forall e, PyLong_AsLongLong val = Raise e ->
                    IntVector_conj PyLong_AsLongLong self val = Raise e)
         /\ (forall n, PyLong_AsLongLong val = Ok n ->
                       IntVector_conj PyLong_AsLongLong self val
                       = Vector_conj self n))
  /\ (forall (Obj : Type) (PyFloat_AsDouble : Obj -> result double)
             (args : list Obj) (id : token),
         (Exists (fun item => exists e, PyFloat_AsDouble item = Raise e) args ->
          pds_vec_f64 PyFloat_AsDouble args id = Raise TypeError)
         /\ (args <> [] ->
             Forall (fun item => exists d, PyFloat_AsDouble item = Ok d) args ->
             exists v,
               value (pds_vec_f64 PyFloat_AsDouble args id) = Ok (ret_new v)
               /\ cnt v = Z.of_nat (length args)))
  /\ (forall (Obj : Type) (PyLong_AsLongLong : Obj -> result int64_t)
             (args : list Obj) (id : token),
         (Exists (fun item => exists e, PyLong_AsLongLong item = Raise e)
                 args ->
          pds_vec_i64 PyLong_AsLongLong args id = Raise TypeError)
         /\ (args <> [] ->
             Forall (fun item => exists n, PyLong_AsLongLong item = Ok n)
                    args ->
             exists v,
               value (pds_vec_i64 PyLong_AsLongLong args id) = Ok (ret_new v)
               /\ cnt v = Z.of_nat (length args)))
  /\ (forall d, f64_conj_then_read (PyNumber.Float d) = Ok d)
  /\ f64_conj_then_read (PyNumber.Long (2 ^ 53 + 1))
     = f64_conj_then_read (PyNumber.Long (2 ^ 53))
  /\ f64_conj_then_read (PyNumber.Long (2 ^ 1024)) = Raise OverflowError
  /\ f64_conj_then_read PyNumber.Str = Raise TypeError
  /\ (forall n, - 2 ^ 63 <= n < 2 ^ 63 ->
                i64_conj_then_read (PyNumber.Long n) = Ok n)
  /\ (forall n, n < - 2 ^ 63 \/ 2 ^ 63 <= n ->
                i64_conj_then_read (PyNumber.Long n) = Raise OverflowError)
  /\ (forall d, i64_conj_then_read (PyNumber.Float d) = Raise TypeError)
  /\ i64_conj_then_read PyNumber.Str = Raise TypeError.
Proof.
  split; [|split; [|split; [|split]]].
  - intros. split; intros ? H; unfold DoubleVector_conj; rewrite H;
      cbn [liftW bindW]; [reflexivity|].
    destruct (Vector_conj self d) as [[? ?]|?]; reflexivity.
  - intros. split; intros ? H; unfold IntVector_conj; rewrite H;
      cbn [liftW bindW]; [reflexivity|].
    destruct (Vector_conj self n) as [[? ?]|?]; reflexivity.
  - intros. apply pds_vec_f64_spec.
  - intros. apply pds_vec_i64_spec.
  - split; [|split; [|split; [|split; [|split; [|split; [|split]]]]]].
    + intros d. reflexivity.
    + vm_compute. reflexivity.
    + vm_compute. reflexivity.
    + reflexivity.
    + intros n Hn. unfold i64_conj_then_read, IntVector_conj.
      unfold PyNumber.PyLong_AsLongLong.
      replace ((- 2 ^ 63 <=? n) && (n <? 2 ^ 63)) with true; [reflexivity|].
      symmetry. apply andb_true_iff.
      split; [apply Z.leb_le|apply Z.ltb_lt]; lia.
    + intros n Hn. unfold i64_conj_then_read, IntVector_conj.
      unfold PyNumber.PyLong_AsLongLong.
      replace ((- 2 ^ 63 <=? n) && (n <? 2 ^ 63)) with false; [reflexivity|].
      symmetry. apply andb_false_iff.
      destruct Hn; [left; apply Z.leb_gt|right; apply Z.ltb_ge]; lia.
    + intros d. reflexivity.
    + reflexivity.
Qed.

(** C9, witness: [vec_f64(1, "a")] and [vec_f64(1, 2)]. *)
Lemma C9_primitive_unboxing_witness :
  pds_vec_f64 PyNumber.PyFloat_AsDouble
              [PyNumber.Long 1; PyNumber.Str] 1%positive
  = Raise TypeError
  /\ (exists v,
         value (pds_vec_f64 PyNumber.PyFloat_AsDouble
                            [PyNumber.Long 1; PyNumber.Long 2] 1%positive)
         = Ok (ret_new v)
         /\ cnt v = Z.of_nat (length [PyNumber.Long 1; PyNumber.Long 2]))
  /\ i64_conj_then_read (PyNumber.Long 7) = Ok 7.
Proof.
  pose proof C9_primitive_unboxing as (_ & _ & Hf & _ & _ & _ & _ & _ & Hi & _).
  split; [|split].
  - apply (proj1 (Hf PyNumber.obj PyNumber.PyFloat_AsDouble
                     [PyNumber.Long 1; PyNumber.Str] 1%positive)).
    apply Exists_cons_tl, Exists_cons_hd.
    exists TypeError. reflexivity.
  - apply (proj2 (Hf PyNumber.obj PyNumber.PyFloat_AsDouble
                     [PyNumber.Long 1; PyNumber.Long 2] 1%positive)).
    + discriminate.
    + repeat constructor; eexists; vm_compute; reflexivity.
  - apply Hi. lia.
Defined.

(** ** Calls that edit nothing in place *)

Lemma no_write_ret (A : Type) (a : A) : no_write (retW a).
Proof. intros x w H. inversion H. reflexivity. Qed.

Lemma no_write_lift (A : Type) (m : result A) : no_write (liftW m).
Proof. intros x w H. destruct m; inversion H. reflexivity. Qed.

Lemma no_write_raise (A : Type) (e : error) : no_write (@Raise (A * nat) e).
Proof. intros x w H. discriminate. Qed.

Lemma no_write_bind (A B : Type) (m : W A) (k : A -> W B) :
  no_write m -> (forall a, no_write (k a)) -> no_write (bindW m k).
Proof.
  intros Hm Hk b w H. apply bindW_Ok in H.
  destruct H as (a & w1 & w2 & H1 & H2 & ->).
  rewrite (Hm a w1 H1), (Hk a b w2 H2). reflexivity.
Qed.

Lemma no_write_fold (A B : Type) (f : B -> A -> W B) (l : list A) :
  (forall b a, no_write (f b a)) -> forall b, no_write (foldW f l b).
Proof.
  intros Hf. induction l as [|a t IH]; intros b; cbn [foldW].
  - apply no_write_ret.
  - apply no_write_bind; auto.
Qed.

Ltac no_write_step :=
  match goal with
  | |- no_write (bindW _ _) => apply no_write_bind; [|intros]
  | |- no_write (retW _) => apply no_write_ret
  | |- no_write (liftW _) => apply no_write_lift
  | |- no_write (Raise _) => apply no_write_raise
  | |- no_write (foldW _ _ _) => apply no_write_fold; intros
  | |- no_write (if ?c then _ else _) => destruct c
  | |- no_write (let '(_, _) := ?p in _) => destruct p
  | |- no_write (match ?x with _ => _ end) => destruct x
  | H : _ |- _ => solve [apply H]
  end.

Ltac no_write_auto := repeat no_write_step.

Section VectorPersistence.
Variable Obj : Type.

Lemma for_write_no_write (parent : VectorNode Obj) :
  no_write (VectorNode_for_write parent None).
Proof. rewrite for_write_None. intros a w H. inversion H. reflexivity. Qed.

Lemma Vector_push_tail_no_write (fuel : nat) :
  forall (c level : Z) (parent tail_node : VectorNode Obj),
    no_write (Vector_push_tail fuel c level parent tail_node None).
Proof.
  induction fuel as [|fuel IH]; intros; cbn [Vector_push_tail].
  - apply no_write_raise.
  - apply no_write_bind; [apply for_write_no_write|intros].
    no_write_auto.
Qed.

Lemma Vector_conj_no_write (self : Vector Obj) (val : Obj) :
  transient_id self = None -> no_write (Vector_conj self val).
Proof.
  intros Ht. unfold Vector_conj. rewrite Ht.
  pose proof Vector_push_tail_no_write. no_write_auto.
Qed.

Lemma Vector_assoc_no_write (self : Vector Obj) (i : Z) (val : Obj) :
  transient_id self = None -> no_write (Vector_assoc self i val).
Proof.
  intros Ht. unfold Vector_assoc.
  pose proof (Vector_conj_no_write self val Ht). no_write_auto.
Qed.
End VectorPersistence.

Section SortedPersistence.
Variable Obj : Type.
Variable PyObject_RichCompareBool : Obj -> Obj -> cmp_op -> result bool.

Lemma RBNode_ensure_editable_no_write (n : RBNode Obj) :
  no_write (RBNode_ensure_editable n None).
Proof.
  destruct n; cbn; [apply no_write_ret|].
  intros a w H. inversion H. reflexivity.
Qed.

Lemma RBNode_rotate_left_no_write (h : RBNode Obj) :
  no_write (RBNode_rotate_left h None).
Proof.
  pose proof RBNode_ensure_editable_no_write.
  unfold RBNode_rotate_left. no_write_auto.
Qed.

Lemma RBNode_rotate_right_no_write (h : RBNode Obj) :
  no_write (RBNode_rotate_right h None).
Proof.
  pose proof RBNode_ensure_editable_no_write.
  unfold RBNode_rotate_right. no_write_auto.
Qed.

Lemma flip_child_no_write (c : RBNode Obj) : no_write (flip_child c None).
Proof.
  pose proof RBNode_ensure_editable_no_write.
  unfold flip_child. no_write_auto.
Qed.

Lemma RBNode_flip_colors_no_write (h : RBNode Obj) :
  no_write (RBNode_flip_colors h None).
Proof.
  pose proof RBNode_ensure_editable_no_write.
  pose proof flip_child_no_write.
  unfold RBNode_flip_colors. no_write_auto.
Qed.

Lemma RBNode_balance_no_write (h : RBNode Obj) :
  no_write (RBNode_balance h None).
Proof.
  pose proof RBNode_rotate_left_no_write.
  pose proof RBNode_rotate_right_no_write.
  pose proof RBNode_flip_colors_no_write.
  unfold RBNode_balance. no_write_auto.
Qed.

Lemma RBNode_insert_no_write (h : RBNode Obj) (value sort_key : Obj)
      (reverse : bool) :
  no_write (RBNode_insert PyObject_RichCompareBool h value sort_key reverse
                          None).
Proof.
  pose proof RBNode_ensure_editable_no_write.
  pose proof RBNode_balance_no_write.
  induction h as [|v k l IHl r IHr s c e]; cbn [RBNode_insert].
  - apply no_write_ret.
  - no_write_auto.
Qed.

Lemma SortedVector_conj_no_write (self : SortedVector Obj) (value : Obj) :
  no_write (SortedVector_conj PyObject_RichCompareBool self value).
Proof.
  pose proof RBNode_insert_no_write.
  unfold SortedVector_conj. no_write_auto.
Qed.

Lemma RBNode_move_red_left_no_write (h : RBNode Obj) :
  no_write (RBNode_move_red_left h None).
Proof.
  pose proof RBNode_rotate_left_no_write.
  pose proof RBNode_rotate_right_no_write.
  pose proof RBNode_flip_colors_no_write.
  unfold RBNode_move_red_left. no_write_auto.
Qed.

Lemma RBNode_move_red_right_no_write (h : RBNode Obj) :
  no_write (RBNode_move_red_right h None).
Proof.
  pose proof RBNode_rotate_right_no_write.
  pose proof RBNode_flip_colors_no_write.
  unfold RBNode_move_red_right. no_write_auto.
Qed.

Lemma RBNode_delete_min_no_write (fuel : nat) :
  forall h : RBNode Obj, no_write (RBNode_delete_min fuel h None).
Proof.
  pose proof RBNode_ensure_editable_no_write.
  pose proof RBNode_move_red_left_no_write.
  pose proof RBNode_balance_no_write.
  induction fuel as [|fuel IH]; intros h; cbn [RBNode_delete_min].
  - apply no_write_raise.
  - no_write_auto.
Qed.

Lemma RBNode_delete_no_write (fuel : nat) :
  forall (h : RBNode Obj) (sort_key value : Obj) (reverse deleted : bool),
    no_write (RBNode_delete PyObject_RichCompareBool fuel h sort_key value
                            reverse deleted None).
Proof.
  pose proof RBNode_ensure_editable_no_write.
  pose proof RBNode_move_red_left_no_write.
  pose proof RBNode_move_red_right_no_write.
  pose proof RBNode_rotate_right_no_write.
  pose proof RBNode_delete_min_no_write.
  pose proof RBNode_balance_no_write.
  induction fuel as [|fuel IH]; intros; cbn [RBNode_delete].
  - apply no_write_raise.
  - no_write_auto.
Qed.

Lemma SortedVector_disj_no_write (self : SortedVector Obj) (value : Obj) :
  no_write (SortedVector_disj PyObject_RichCompareBool self value).
Proof.
  pose proof RBNode_delete_no_write.
  unfold SortedVector_disj. no_write_auto.
Qed.
End SortedPersistence.

Section MapPersistence.
Variable Obj : Type.
Variable Py_None : Obj.
Variable Obj_eq_dec : forall a b : Obj, {a = b} + {a <> b}.
Variable PyObject_Hash : Obj -> result Z.
Variable PyObject_RichCompareBool : Obj -> Obj -> cmp_op -> result bool.

Local Abbreviation bin_assoc :=
  (BitmapIndexedNode_assoc Py_None Obj_eq_dec PyObject_Hash
                           PyObject_RichCompareBool).
Local Abbreviation arr_assoc :=
  (ArrayNode_assoc Py_None Obj_eq_dec PyObject_Hash PyObject_RichCompareBool).
Local Abbreviation col_assoc :=
  (HashCollisionNode_assoc Py_None Obj_eq_dec PyObject_Hash
                           PyObject_RichCompareBool).
Local Abbreviation mk_node :=
  (create_node Py_None Obj_eq_dec PyObject_Hash PyObject_RichCompareBool).
Local Abbreviation bin_dissoc :=
  (BitmapIndexedNode_dissoc Py_None Obj_eq_dec PyObject_RichCompareBool).
Local Abbreviation arr_dissoc :=
  (ArrayNode_dissoc Py_None Obj_eq_dec PyObject_RichCompareBool).

Lemma MapNode_ensure_editable_None (self : MapNode Obj) :
  exists node,
    MapNode_ensure_editable self None = Ok ((node, false), 0%nat).
Proof. destruct self; eexists; reflexivity. Qed.

Lemma MapNode_ensure_editable_no_write (self : MapNode Obj) :
  no_write (MapNode_ensure_editable self None).
Proof.
  destruct (MapNode_ensure_editable_None self) as (n & ->).
  intros a w H. inversion H. reflexivity.
Qed.

Lemma assoc_no_write (fuel : nat) :
  (forall self shift h k v, no_write (bin_assoc fuel self shift h k v None))
  /\ (forall self shift h k v, no_write (arr_assoc fuel self shift h k v None))
  /\ (forall self shift h k v, no_write (col_assoc fuel self shift h k v None))
  /\ (forall shift k1 v1 h2 k2 v2,
         no_write (mk_node fuel shift k1 v1 h2 k2 v2 None)).
Proof.
  pose proof MapNode_ensure_editable_no_write as He.
  induction fuel as [|fuel (IHb & IHa & IHc & IHn)].
  - repeat split; intros; apply no_write_raise.
  - split; [|split; [|split]]; intros.
    + cbn [BitmapIndexedNode_assoc]. no_write_auto.
    + cbn [ArrayNode_assoc]. no_write_auto.
    + cbn [HashCollisionNode_assoc]. no_write_auto.
    + cbn [create_node]. no_write_auto.
Qed.

Lemma dissoc_no_write (fuel : nat) :
  (forall self shift h k, no_write (bin_dissoc fuel self shift h k None))
  /\ (forall self shift h k, no_write (arr_dissoc fuel self shift h k None)).
Proof.
  pose proof MapNode_ensure_editable_no_write as He.
  induction fuel as [|fuel (IHb & IHa)].
  - repeat split; intros; apply no_write_raise.
  - split; intros.
    + cbn [BitmapIndexedNode_dissoc]. no_write_auto.
    + cbn [ArrayNode_dissoc]. no_write_auto.
Qed.

Lemma set_nth_same (A : Type) (l : list A) (n : nat) (x : A) :
  nth_error l n = Some x -> set_nth l n x = l.
Proof.
  revert n. induction l as [|a t IH]; intros [|n] H; cbn in *;
    try discriminate; try congruence.
  f_equal. auto.
Qed.

Lemma set_item_same (A : Type) (l : list A) (i : Z) (x : A) :
  get_item l i = Ok x -> set_item l i x = l.
Proof.
  intros H. apply get_item_nth_error in H. destruct H as [Hi Hn].
  unfold set_item. destruct (i <? 0) eqn:E; [reflexivity|].
  apply set_nth_same. exact Hn.
Qed.

Lemma dispatch_INode (p : MapItem Obj) (kind : child_kind)
      (child : MapNode Obj) :
  dispatch p = Ok (kind, child) -> p = INode child.
Proof.
  destruct p as [o|[| |]]; cbn; intros H; inversion H; reflexivity.
Qed.

Lemma set_map_node_array_same (n : MapNode Obj) :
  set_map_node_array n (map_node_array n) = n.
Proof. destruct n; reflexivity. Qed.

Ltac inv_step :=
  match goal with
  | H : bindW _ _ = Ok (_, _) |- _ =>
      apply bindW_Ok in H; destruct H as (? & ? & ? & ? & H & ?)
  | H : liftW _ = Ok (_, _) |- _ => apply liftW_Ok in H; destruct H
  | H : retW _ = Ok (_, _) |- _ => apply retW_Ok in H; destruct H
  | H : Raise _ = Ok _ |- _ => discriminate H
  | H : (_, _) = (_, _) |- _ => inversion H; clear H; subst
  | H : MapNode_ensure_editable ?s None = Ok (_, _) |- _ =>
      let n := fresh "n" in let E := fresh "E" in
      destruct (MapNode_ensure_editable_None s) as (n & E);
      rewrite E in H; inversion H; clear H E; subst
  | H : nret_of _ false = RSelf _ |- _ => discriminate H
  | H : RNew _ = RSelf _ |- _ => discriminate H
  | H : RNone = RSelf _ |- _ => discriminate H
  | H : RSelf _ = RSelf _ |- _ => inversion H; clear H; subst
  | H : (if ?c then _ else _) = Ok (_, _) |- _ => destruct c eqn:?
  | H : (let '(_, _) := ?p in _) = Ok (_, _) |- _ => destruct p
  | H : match ?x with _ => _ end = Ok (_, _) |- _ => destruct x eqn:?
  end.

Lemma assoc_keeps_self (fuel : nat) :
  (forall self shift h k v,
      keeps_self self (bin_assoc fuel self shift h k v None))
  /\ (forall self shift h k v,
         keeps_self self (arr_assoc fuel self shift h k v None))
  /\ (forall self shift h k v,
         keeps_self self (col_assoc fuel self shift h k v None)).
Proof.
  induction fuel as [|fuel (IHb & IHa & IHc)].
  - repeat split; intros self shift h k v now z w H; discriminate H.
  - split; [|split]; intros self shift h k v now z w H.
    + cbn [BitmapIndexedNode_assoc] in H.
      repeat inv_step; subst; auto.
      all: try match goal with
           | Hc : _ = Ok (RSelf ?n, _, _) |- _ =>
               first [apply IHb in Hc | apply IHa in Hc | apply IHc in Hc];
               subst
           end.
      all: repeat match goal with
           | Hd : dispatch _ = Ok (_, _) |- _ =>
               apply dispatch_INode in Hd; subst
           end.
      all: try (rewrite set_item_same by assumption; reflexivity).
    + cbn [ArrayNode_assoc] in H.
      repeat inv_step; subst; auto.
      all: try match goal with
           | Hc : _ = Ok (RSelf ?n, _, _) |- _ =>
               first [apply IHb in Hc | apply IHa in Hc | apply IHc in Hc];
               subst
           end.
      all: repeat match goal with
           | Hd : dispatch _ = Ok (_, _) |- _ =>
               apply dispatch_INode in Hd; subst
           end.
      all: try (rewrite set_item_same by assumption; reflexivity).
    + cbn [HashCollisionNode_assoc] in H.
      repeat inv_step; subst; auto.
Qed.


Lemma collision_dissoc_keeps_self (self : MapNode Obj) (k : Obj)
      (now : MapNode Obj) (z : Z) :
  HashCollisionNode_dissoc PyObject_RichCompareBool self k None
  = Ok (RSelf now, z) -> now = self.
Proof.
  unfold HashCollisionNode_dissoc. destruct self; try discriminate.
  destruct (HashCollisionNode_find_index _ _ _); cbn [bind]; try discriminate.
  destruct (_ =? -1); [intros H; inversion H; reflexivity|].
  destruct (_ =? 1); intros H; inversion H.
Qed.

Lemma dissoc_keeps_self (fuel : nat) :
  (forall self shift h k, keeps_self self (bin_dissoc fuel self shift h k None))
  /\ (forall self shift h k,
         keeps_self self (arr_dissoc fuel self shift h k None)).
Proof.
  induction fuel as [|fuel (IHb & IHa)].
  - repeat split; intros self shift h k now z w H; discriminate H.
  - split; intros self shift h k now z w H.
    + cbn [BitmapIndexedNode_dissoc] in H.
      repeat inv_step; subst; auto.
      all: try match goal with
           | Hc : _ = Ok (RSelf ?n, _, _) |- _ =>
               first [apply IHb in Hc | apply IHa in Hc]; subst
           | Hc : HashCollisionNode_dissoc _ _ _ _ = Ok (RSelf ?n, _) |- _ =>
               apply collision_dissoc_keeps_self in Hc; subst
           end.
      all: repeat match goal with
           | Hd : dispatch _ = Ok (_, _) |- _ =>
               apply dispatch_INode in Hd; subst
           end.
      all: try (rewrite set_item_same by assumption; reflexivity).
    + cbn [ArrayNode_dissoc] in H.
      repeat inv_step; subst; auto.
      all: try match goal with
           | Hc : _ = Ok (RSelf ?n, _, _) |- _ =>
               first [apply IHb in Hc | apply IHa in Hc]; subst
           | Hc : HashCollisionNode_dissoc _ _ _ _ = Ok (RSelf ?n, _) |- _ =>
               apply collision_dissoc_keeps_self in Hc; subst
           end.
      all: repeat match goal with
           | Hd : dispatch _ = Ok (_, _) |- _ =>
               apply dispatch_INode in Hd; subst
           end.
      all: try (rewrite set_item_same by assumption; reflexivity).
Qed.

Lemma bindW_Ok_0 (A B : Type) (a : A) (k : A -> W B) :
  bindW (Ok (a, 0%nat)) k = k a.
Proof. cbn. destruct (k a) as [[b w]|e]; reflexivity. Qed.

Lemma root_assoc_frame (root : MapNode Obj) (h : Z) (k v : Obj) :
  no_write (root_assoc Py_None Obj_eq_dec PyObject_Hash
                       PyObject_RichCompareBool root h k v None)
  /\ keeps_self root (root_assoc Py_None Obj_eq_dec PyObject_Hash
                                 PyObject_RichCompareBool root h k v None).
Proof.
  destruct (assoc_no_write HAMT_FUEL) as (Nb & Na & Nc & _).
  destruct (assoc_keeps_self HAMT_FUEL) as (Kb & Ka & Kc).
  unfold root_assoc.
  destruct root; cbn [dispatch liftW]; rewrite bindW_Ok_0; auto.
Qed.

Lemma root_dissoc_frame (root : MapNode Obj) (h : Z) (k : Obj) :
  no_write (root_dissoc Py_None Obj_eq_dec PyObject_RichCompareBool
                        root h k None)
  /\ keeps_self root (root_dissoc Py_None Obj_eq_dec
                                  PyObject_RichCompareBool root h k None).
Proof.
  destruct (dissoc_no_write HAMT_FUEL) as (Nb & Na).
  destruct (dissoc_keeps_self HAMT_FUEL) as (Kb & Ka).
  unfold root_dissoc.
  destruct root; cbn [dispatch liftW]; rewrite bindW_Ok_0; auto.
  split; [apply no_write_lift|].
  intros now z w H. apply liftW_Ok in H. destruct H as [H _].
  eapply collision_dissoc_keeps_self; eassumption.
Qed.

Lemma with_root_same (self : Map Obj) (root : MapNode Obj) :
  map_root self = Some root -> with_root self root = self.
Proof. destruct self; cbn; intros ->; reflexivity. Qed.

Lemma Map_assoc_unchanged (self : Map Obj) (key val : Obj) :
  map_transient_id self = None ->
  receiver_unchanged self (Map_assoc Py_None Obj_eq_dec PyObject_Hash
                                     PyObject_RichCompareBool self key val).
Proof.
  intros Ht r self_now w H. unfold Map_assoc in H. rewrite Ht in H.
  apply bindW_Ok in H. destruct H as (h & w1 & w2 & H1 & H & ->).
  apply liftW_Ok in H1. destruct H1 as [_ ->].
  apply bindW_Ok in H. destruct H as ([new_root added] & w3 & w4 & H3 & H & ->).
  destruct (root_assoc_frame
              match map_root self with Some r0 => r0 | None => EMPTY_BIN Obj end
              h key val) as [Hn Hk].
  rewrite (Hn _ _ H3).
  destruct new_root as [now|n|]; destruct (map_root self) as [root|] eqn:Er;
    repeat inv_step; subst; try discriminate; split; auto.
  apply Hk in H3. subst. apply with_root_same. exact Er.
Qed.

Lemma Map_dissoc_unchanged (self : Map Obj) (key : Obj) :
  map_transient_id self = None ->
  receiver_unchanged self (Map_dissoc Py_None Obj_eq_dec PyObject_Hash
                                      PyObject_RichCompareBool self key).
Proof.
  intros Ht r self_now w H. unfold Map_dissoc in H. rewrite Ht in H.
  destruct (map_root self) as [root|] eqn:Er.
  - apply bindW_Ok in H. destruct H as (h & w1 & w2 & H1 & H & ->).
    apply liftW_Ok in H1. destruct H1 as [_ ->].
    apply bindW_Ok in H.
    destruct H as ([new_root removed] & w3 & w4 & H3 & H & ->).
    destruct (root_dissoc_frame root h key) as [Hn Hk].
    rewrite (Hn _ _ H3).
    destruct new_root as [now|n|]; repeat inv_step; subst; split; auto.
    apply Hk in H3. subst. apply with_root_same. exact Er.
  - apply retW_Ok in H. destruct H as [H ->]. inversion H. auto.
Qed.

Lemma set_with_root_same (self : Set_ Obj) (root : MapNode Obj) :
  set_root self = Some root -> set_with_root self root = self.
Proof. destruct self; cbn; intros ->; reflexivity. Qed.

Lemma Set_conj_unchanged (self : Set_ Obj) (key : Obj) :
  set_transient_id self = None ->
  receiver_unchanged self (Set_conj Py_None Obj_eq_dec PyObject_Hash
                                    PyObject_RichCompareBool self key).
Proof.
  intros Ht r self_now w H. unfold Set_conj in H. rewrite Ht in H.
  apply bindW_Ok in H. destruct H as (h & w1 & w2 & H1 & H & ->).
  apply liftW_Ok in H1. destruct H1 as [_ ->].
  apply bindW_Ok in H. destruct H as ([new_root added] & w3 & w4 & H3 & H & ->).
  destruct (root_assoc_frame
              match set_root self with Some r0 => r0 | None => EMPTY_BIN Obj end
              h key Py_None) as [Hn Hk].
  rewrite (Hn _ _ H3).
  destruct new_root as [now|n|]; destruct (set_root self) as [root|] eqn:Er;
    repeat inv_step; subst; try discriminate; split; auto.
  apply Hk in H3. subst. apply set_with_root_same. exact Er.
Qed.

Lemma Set_disj_unchanged (self : Set_ Obj) (key : Obj) :
  set_transient_id self = None ->
  receiver_unchanged self (Set_disj Py_None Obj_eq_dec PyObject_Hash
                                    PyObject_RichCompareBool self key).
Proof.
  intros Ht r self_now w H. unfold Set_disj in H. rewrite Ht in H.
  destruct (set_root self) as [root|] eqn:Er.
  - apply bindW_Ok in H. destruct H as (h & w1 & w2 & H1 & H & ->).
    apply liftW_Ok in H1. destruct H1 as [_ ->].
    apply bindW_Ok in H.
    destruct H as ([new_root removed] & w3 & w4 & H3 & H & ->).
    destruct (root_dissoc_frame root h key) as [Hn Hk].
    rewrite (Hn _ _ H3).
    destruct new_root as [now|n|]; repeat inv_step; subst; split; auto.
    apply Hk in H3. subst. apply set_with_root_same. exact Er.
  - apply retW_Ok in H. destruct H as [H ->]. inversion H. auto.
Qed.

End MapPersistence.

(** ** C1: persistent operations leave their receiver as it was *)



(** ** SortedVector: insertion without an edit token *)

Section TreeFacts.
Variable Obj : Type.
Variable PyObject_RichCompareBool : Obj -> Obj -> cmp_op -> result bool.
Variable lt : Obj -> Obj -> bool.

Hypothesis cmp_LT : forall a b, PyObject_RichCompareBool a b Py_LT = Ok (lt a b).
Hypothesis cmp_GT : forall a b, PyObject_RichCompareBool a b Py_GT = Ok (lt b a).
Hypothesis lt_asym : forall a b, lt a b = true -> lt b a = false.
Hypothesis lt_cotrans :
  forall a b c, lt a c = true -> lt a b = true \/ lt b c = true.

(** *** The copies are what the functions return *)

Lemma ensure_editable_None (n : RBNode Obj) :
  RBNode_ensure_editable n None = Ok (RBNode_clone n None, 0%nat).
Proof. destruct n; reflexivity. Qed.

Lemma rotate_left_None (h : RBNode Obj) :
  rb_is_null h = false ->
  RBNode_rotate_left h None = Ok (rotate_left_copy h, 0%nat).
Proof.
  destruct h as [|v k l r s c e]; [discriminate|]. intros _.
  unfold RBNode_rotate_left, rotate_left_copy.
  rewrite !ensure_editable_None. cbn [bindW].
  destruct (rb_is_null (RBNode_clone (rb_right _) None)); reflexivity.
Qed.

Lemma rotate_right_None (h : RBNode Obj) :
  rb_is_null h = false ->
  RBNode_rotate_right h None = Ok (rotate_right_copy h, 0%nat).
Proof.
  destruct h as [|v k l r s c e]; [discriminate|]. intros _.
  unfold RBNode_rotate_right, rotate_right_copy.
  rewrite !ensure_editable_None. cbn [bindW].
  destruct (rb_is_null (RBNode_clone (rb_left _) None)); reflexivity.
Qed.

Lemma flip_colors_None (h : RBNode Obj) :
  RBNode_flip_colors h None = Ok (flip_colors_copy h, 0%nat).
Proof.
  destruct h as [|v k l r s c e]; [reflexivity|].
  unfold RBNode_flip_colors, flip_colors_copy, flip_child, flip_child_copy.
  destruct l, r; reflexivity.
Qed.

Lemma balance_None (h : RBNode Obj) :
  RBNode_balance h None = Ok (balance_copy h, 0%nat).
Proof.
  destruct h as [|v k l r s c e]; [reflexivity|].
  unfold RBNode_balance, balance_copy.
  destruct l as [|lv lk ll lr ls [|] le]; destruct r as [|rv rk rl rr rs [|] re];
    try destruct ll as [|? ? ? ? ? [|] ?];
    try destruct rr as [|? ? ? ? ? [|] ?];
    reflexivity.
Qed.

Lemma compare_keys_before (a b : Obj) (reverse : bool) :
  exists c, SortedVector_compare_keys PyObject_RichCompareBool a b reverse
            = Ok c
            /\ (c <? 0) = before lt reverse a b.
Proof.
  unfold SortedVector_compare_keys, before.
  rewrite cmp_LT, cmp_GT. cbn [bind].
  destruct (lt a b) eqn:Eab.
  - rewrite (lt_asym _ _ Eab). destruct reverse; eexists; split; reflexivity.
  - destruct (lt b a) eqn:Eba; destruct reverse; eexists; split; reflexivity.
Qed.

Lemma insert_None (reverse : bool) (value sort_key : Obj) (h : RBNode Obj) :
  RBNode_insert PyObject_RichCompareBool h value sort_key reverse None
  = Ok (insert_copy lt reverse h value sort_key, 0%nat).
Proof.
  induction h as [|v k l IHl r IHr s c e]; [reflexivity|].
  cbn [RBNode_insert insert_copy].
  destruct (compare_keys_before sort_key k reverse) as (c0 & -> & Hc).
  cbn [liftW bindW]. rewrite ensure_editable_None. cbn [bindW].
  rewrite Hc. destruct (before lt reverse sort_key k).
  - rewrite IHl. cbn [bindW retW]. rewrite balance_None. reflexivity.
  - rewrite IHr. cbn [bindW retW]. rewrite balance_None. reflexivity.
Qed.

(** *** Keys and values in order *)

Lemma balance_copy_keys (h : RBNode Obj) :
  rb_keys (balance_copy h) = rb_keys h
  /\ rb_values (balance_copy h) = rb_values h.
Proof.
  destruct h as [|v k l r s c e]; [split; reflexivity|].
  unfold balance_copy.
  destruct l as [|lv lk ll lr ls [|] le]; destruct r as [|rv rk rl rr rs [|] re];
    try destruct ll as [|? ? ? ? ? [|] ?];
    try destruct rr as [|? ? ? ? ? [|] ?];
    cbn; rewrite <- ?app_assoc; cbn; rewrite <- ?app_assoc; split; reflexivity.
Qed.

Lemma insert_copy_keys (reverse : bool) (value sort_key : Obj)
      (h : RBNode Obj) :
  rb_keys (insert_copy lt reverse h value sort_key)
  = match h with
    | RBNull => [sort_key]
    | RBNode_ _ k l r _ _ _ =>
        if before lt reverse sort_key k
        then rb_keys (insert_copy lt reverse l value sort_key) ++ k :: rb_keys r
        else rb_keys l ++ k :: rb_keys (insert_copy lt reverse r value sort_key)
    end.
Proof.
  destruct h as [|v k l r s c e]; [reflexivity|].
  cbn [insert_copy]. rewrite (proj1 (balance_copy_keys _)).
  destruct (before lt reverse sort_key k); reflexivity.
Qed.

Lemma insert_copy_values (reverse : bool) (value sort_key : Obj)
      (h : RBNode Obj) :
  Permutation (rb_values (insert_copy lt reverse h value sort_key))
              (value :: rb_values h).
Proof.
  induction h as [|v k l IHl r IHr s c e]; [apply Permutation_refl|].
  cbn [insert_copy]. rewrite (proj2 (balance_copy_keys _)).
  destruct (before lt reverse sort_key k); cbn [RBNode_clone set_left set_right rb_values].
  - rewrite IHl. reflexivity.
  - rewrite IHr.
    replace (rb_values l ++ v :: value :: rb_values r)
      with ((rb_values l ++ [v]) ++ value :: rb_values r)
      by (rewrite <- app_assoc; reflexivity).
    replace (value :: rb_values l ++ v :: rb_values r)
      with (value :: (rb_values l ++ [v]) ++ rb_values r)
      by (rewrite <- app_assoc; reflexivity).
    apply Permutation_sym, Permutation_middle.
Qed.


(** *** Order *)

Variable reverse : bool.

Local Abbreviation precedes := (may_precede lt reverse).

Lemma before_asym (a b : Obj) :
  before lt reverse a b = true -> before lt reverse b a = false.
Proof. unfold before. destruct reverse; apply lt_asym. Qed.

Lemma before_cotrans (a b c : Obj) :
  before lt reverse a c = true ->
  before lt reverse a b = true \/ before lt reverse b c = true.
Proof.
  unfold before. destruct reverse; intros H.
  - destruct (lt_cotrans _ b _ H); auto.
  - apply lt_cotrans. exact H.
Qed.

Lemma may_precede_trans (a b c : Obj) :
  precedes a b -> precedes b c -> precedes a c.
Proof.
  unfold may_precede. intros Hab Hbc.
  destruct (before lt reverse c a) eqn:E; [|reflexivity].
  destruct (before_cotrans _ b _ E); congruence.
Qed.

Lemma sorted_app_inv (l1 l2 : list Obj) (a : Obj) :
  StronglySorted precedes (l1 ++ a :: l2) ->
  StronglySorted precedes l1 /\ StronglySorted precedes l2
  /\ Forall (fun x => precedes x a) l1 /\ Forall (precedes a) l2.
Proof.
  induction l1 as [|x t IH]; cbn [app]; intros H.
  - inversion H; subst. repeat split; auto. constructor.
  - inversion H as [|? ? Ht Hx]; subst.
    destruct (IH Ht) as (H1 & H2 & H3 & H4).
    repeat split; auto.
    + constructor; auto. apply Forall_app in Hx. tauto.
    + constructor; auto. apply Forall_app in Hx. destruct Hx as [_ Hx].
      inversion Hx; auto.
Qed.

Lemma sorted_app (l1 l2 : list Obj) (a : Obj) :
  StronglySorted precedes l1 -> StronglySorted precedes l2 ->
  Forall (fun x => precedes x a) l1 -> Forall (precedes a) l2 ->
  StronglySorted precedes (l1 ++ a :: l2).
Proof.
  intros H1 H2 H3 H4. induction l1 as [|x t IH]; cbn [app].
  - constructor; auto.
  - inversion H1; subst. inversion H3; subst.
    constructor; auto. apply Forall_app. split; auto.
    constructor; auto.
    eapply Forall_impl; [|exact H4]. intros y Hy.
    eapply may_precede_trans; eauto.
Qed.

Lemma bst_order_sorted (t : RBNode Obj) :
  bst_order lt reverse t = true <-> StronglySorted precedes (rb_keys t).
Proof.
  induction t as [|v k l IHl r IHr s c e]; cbn [bst_order rb_keys].
  - split; auto. constructor.
  - rewrite !andb_true_iff, !forallb_forall, IHl, IHr. split.
    + intros [[[Hl Hr] Sl] Sr]. apply sorted_app; auto.
      * apply Forall_forall. intros x Hx. apply Hl in Hx.
        apply negb_true_iff in Hx. exact Hx.
      * apply Forall_forall. intros x Hx. apply Hr in Hx.
        apply negb_true_iff in Hx. exact Hx.
    + intros H. apply sorted_app_inv in H. destruct H as (Sl & Sr & Hl & Hr).
      rewrite Forall_forall in Hl, Hr. repeat split; auto.
      * intros x Hx. apply negb_true_iff. apply Hl. exact Hx.
      * intros x Hx. apply negb_true_iff. apply Hr. exact Hx.
Qed.

Lemma insert_copy_In (value sort_key : Obj) (h : RBNode Obj) (x : Obj) :
  In x (rb_keys (insert_copy lt reverse h value sort_key))
  <-> x = sort_key \/ In x (rb_keys h).
Proof.
  induction h as [|v k l IHl r IHr s c e]; rewrite insert_copy_keys.
  - cbn. intuition congruence.
  - cbn [rb_keys]. destruct (before lt reverse sort_key k);
      rewrite !in_app_iff; cbn [In]; rewrite ?in_app_iff, ?IHl, ?IHr; tauto.
Qed.

Lemma insert_copy_sorted (value sort_key : Obj) (h : RBNode Obj) :
  StronglySorted precedes (rb_keys h) ->
  StronglySorted precedes
    (rb_keys (insert_copy lt reverse h value sort_key)).
Proof.
  induction h as [|v k l IHl r IHr s c e]; intros H; rewrite insert_copy_keys.
  - repeat constructor.
  - cbn [rb_keys] in H. apply sorted_app_inv in H.
    destruct H as (Sl & Sr & Hl & Hr).
    destruct (before lt reverse sort_key k) eqn:E.
    + apply sorted_app; auto.
      apply Forall_forall. intros x Hx. apply insert_copy_In in Hx.
      destruct Hx as [->|Hx].
      * apply before_asym in E. exact E.
      * rewrite Forall_forall in Hl. auto.
    + apply sorted_app; auto.
      apply Forall_forall. intros x Hx. apply insert_copy_In in Hx.
      destruct Hx as [->|Hx].
      * exact E.
      * rewrite Forall_forall in Hr. auto.
Qed.


(** *** Colours and black depth *)

Lemma llrb_black_not_red (n : nat) (t : RBNode Obj) :
  llrb RB_BLACK n t -> RBNode_is_red t = false.
Proof. intros H. inversion H; reflexivity. Qed.

Lemma llrb_red_is_red (n : nat) (t : RBNode Obj) :
  llrb RB_RED n t -> RBNode_is_red t = true.
Proof. intros H. inversion H; reflexivity. Qed.

Ltac colour_facts :=
  repeat match goal with
  | H : llrb RB_BLACK _ ?t |- context [RBNode_is_red ?t] =>
      rewrite (llrb_black_not_red _ _ H)
  | H : llrb RB_RED _ ?t |- context [RBNode_is_red ?t] =>
      rewrite (llrb_red_is_red _ _ H)
  end.

Ltac run_balance :=
  unfold balance_copy, rotate_left_copy, rotate_right_copy, flip_colors_copy,
    flip_child_copy;
  repeat (cbn [RBNode_clone set_left set_right set_color rb_left rb_right
               rb_color_of rb_color_not rb_is_null RBNode_update_size
               RBNode_is_red andb negb];
          colour_facts).

Ltac expose_shape :=
  repeat (run_balance;
          match goal with
          | H : llrb _ _ ?t |- context [RBNode_clone ?t _] =>
              is_var t; inversion H; subst; clear H
          | H : llrb _ _ ?t |- context [rb_left ?t] =>
              is_var t; inversion H; subst; clear H
          | H : llrb _ _ ?t |- context [rb_right ?t] =>
              is_var t; inversion H; subst; clear H
          | H : llrb _ _ ?t |- context [rb_color_of ?t] =>
              is_var t; inversion H; subst; clear H
          | H : llrb _ _ ?t |- context [set_color ?t _] =>
              is_var t; inversion H; subst; clear H
          | H : red_red_left _ ?t |- _ => inversion H; subst; clear H
          end);
  run_balance.

Ltac shape_done :=
  expose_shape;
  first [ solve [eauto 8 using llrb_null, llrb_red, llrb_black,
                               red_red_left_intro]
        | solve [left; eauto 8 using llrb_null, llrb_red, llrb_black,
                                     red_red_left_intro]
        | solve [right; eauto 8 using llrb_null, llrb_red, llrb_black,
                                      red_red_left_intro] ].

Lemma insert_copy_shape (value sort_key : Obj) (h : RBNode Obj) :
  forall c n,
    llrb c n h ->
    match c with
    | RB_BLACK =>
        exists c', llrb c' n (insert_copy lt reverse h value sort_key)
    | RB_RED =>
        llrb RB_RED n (insert_copy lt reverse h value sort_key)
        \/ red_red_left n (insert_copy lt reverse h value sort_key)
    end.
Proof.
  induction h as [|v k l IHl r IHr s c0 e]; intros c n H.
  - inversion H; subst. exists RB_RED. cbn. repeat constructor.
  - inversion H as [|n' ? ? ? ? ? ? Hl Hr|n' cl ? ? ? ? ? ? Hl Hr]; subst;
      cbn [insert_copy]; destruct (before lt reverse sort_key k).
    + pose proof (IHl _ _ Hl) as (cl' & Hl').
      set (L := insert_copy lt reverse l value sort_key) in *. clearbody L.
      clear IHl IHr. destruct cl'; shape_done.
    + pose proof (IHr _ _ Hr) as (cr' & Hr').
      set (R := insert_copy lt reverse r value sort_key) in *. clearbody R.
      clear IHl IHr. destruct cr'; shape_done.
    + pose proof (IHl _ _ Hl) as Hl'.
      set (L := insert_copy lt reverse l value sort_key) in *. clearbody L.
      clear IHl IHr.
      destruct cl; [destruct Hl' as [Hl'|Hl']|destruct Hl' as ([|] & Hl')];
        shape_done.
    + pose proof (IHr _ _ Hr) as (cr' & Hr').
      set (R := insert_copy lt reverse r value sort_key) in *. clearbody R.
      clear IHl IHr. destruct cr'; destruct cl; shape_done.
Qed.


(** *** Sizes *)

Lemma sizes_ok_node (v k : Obj) (l r : RBNode Obj) (s : Z) (c : rb_color)
      (e : option token) :
  sizes_ok (RBNode_ v k l r s c e) = true
  <-> s = 1 + RBNode_size l + RBNode_size r
      /\ sizes_ok l = true /\ sizes_ok r = true.
Proof.
  cbn [sizes_ok]. rewrite !andb_true_iff, Z.eqb_eq. tauto.
Qed.

Lemma balance_copy_sizes (v k : Obj) (l r : RBNode Obj) (s : Z)
      (c : rb_color) (e : option token) :
  sizes_ok l = true -> sizes_ok r = true ->
  sizes_ok (balance_copy (RBNode_ v k l r s c e)) = true
  /\ RBNode_size (balance_copy (RBNode_ v k l r s c e))
     = 1 + RBNode_size l + RBNode_size r.
Proof.
  intros Hl Hr. unfold balance_copy.
  destruct l as [|lv lk ll lr ls [|] le]; destruct r as [|rv rk rl rr rs [|] re];
    try destruct ll as [|? ? ? ? ? [|] ?];
    try destruct rr as [|? ? ? ? ? [|] ?];
    cbn -[sizes_ok Z.add];
    repeat rewrite sizes_ok_node in *;
    cbn [RBNode_size sizes_ok] in *;
    intuition lia.
Qed.

Lemma insert_copy_sizes (value sort_key : Obj) (h : RBNode Obj) :
  sizes_ok h = true ->
  sizes_ok (insert_copy lt reverse h value sort_key) = true
  /\ RBNode_size (insert_copy lt reverse h value sort_key)
     = RBNode_size h + 1.
Proof.
  induction h as [|v k l IHl r IHr s c e]; intros H.
  - split; reflexivity.
  - apply sizes_ok_node in H. destruct H as (Hs & Hl & Hr).
    cbn [insert_copy RBNode_clone].
    destruct (before lt reverse sort_key k); cbn [set_left set_right].
    + destruct (IHl Hl) as [Hl' Hsz].
      destruct (balance_copy_sizes v k
                  (insert_copy lt reverse l value sort_key) r s c None Hl' Hr)
        as [H1 H2].
      split; [exact H1|]. rewrite H2, Hsz. cbn [RBNode_size]. lia.
    + destruct (IHr Hr) as [Hr' Hsz].
      destruct (balance_copy_sizes v k l
                  (insert_copy lt reverse r value sort_key) s c None Hl Hr')
        as [H1 H2].
      split; [exact H1|]. rewrite H2, Hsz. cbn [RBNode_size]. lia.
Qed.


(** *** The checks and the shape *)

Lemma llrb_checks (c : rb_color) (n : nat) (t : RBNode Obj) :
  llrb c n t ->
  left_leaning t = true /\ no_red_red t = true /\ black_depth t = Some n
  /\ rb_color_of t = c.
Proof.
  induction 1 as [|n v k l r s e Hl (Ll & Nl & Bl & Cl) Hr (Lr & Nr & Br & Cr)
                  |n cl v k l r s e Hl (Ll & Nl & Bl & Cl) Hr (Lr & Nr & Br & Cr)].
  - repeat split.
  - cbn [left_leaning no_red_red black_depth rb_color_of].
    rewrite Ll, Lr, Nl, Nr, Bl, Br, Nat.eqb_refl.
    rewrite (llrb_black_not_red _ _ Hl), (llrb_black_not_red _ _ Hr).
    repeat split.
  - cbn [left_leaning no_red_red black_depth rb_color_of].
    rewrite Ll, Lr, Nl, Nr, Bl, Br, Nat.eqb_refl.
    rewrite (llrb_black_not_red _ _ Hr). repeat split.
Qed.

Lemma not_red_colour (t : RBNode Obj) :
  RBNode_is_red t = false -> rb_color_of t = RB_BLACK.
Proof. destruct t as [|? ? ? ? ? [|] ?]; cbn; congruence. Qed.

Lemma checks_llrb (t : RBNode Obj) :
  forall n,
    left_leaning t = true -> no_red_red t = true -> black_depth t = Some n ->
    llrb (rb_color_of t) n t.
Proof.
  induction t as [|v k l IHl r IHr s c e]; intros n HL HN HB.
  - cbn in HB. inversion HB. constructor.
  - cbn [left_leaning no_red_red black_depth] in *.
    apply andb_true_iff in HL. destruct HL as [HL Lr].
    apply andb_true_iff in HL. destruct HL as [Rr Ll].
    apply andb_true_iff in HN. destruct HN as [HN Nr].
    apply andb_true_iff in HN. destruct HN as [Hc Nl].
    destruct (black_depth l) as [a|] eqn:Bl; [|discriminate].
    destruct (black_depth r) as [b|] eqn:Br; [|discriminate].
    destruct (Nat.eqb a b) eqn:Eab; [|discriminate].
    apply Nat.eqb_eq in Eab. subst b.
    apply negb_true_iff in Rr.
    pose proof (IHl a Ll Nl eq_refl) as Sl.
    pose proof (IHr a Lr Nr eq_refl) as Sr.
    rewrite (not_red_colour _ Rr) in Sr.
    destruct c; inversion HB; subst; cbn [rb_color_of].
    + apply andb_true_iff in Hc. destruct Hc as [Rl _].
      apply negb_true_iff in Rl. rewrite (not_red_colour _ Rl) in Sl.
      constructor; assumption.
    + econstructor; eassumption.
Qed.

(** *** [SortedVector_conj] *)

Lemma root_made_black (n : nat) (c : rb_color) (t : RBNode Obj) :
  llrb c n t ->
  exists m,
    llrb RB_BLACK m
         (if RBNode_is_red t
          then set_color (RBNode_clone t None) RB_BLACK else t).
Proof.
  intros H. inversion H; subst; cbn.
  - exists O. constructor.
  - exists (S n). econstructor; eassumption.
  - exists (S n0). econstructor; eassumption.
Qed.

Lemma root_made_black_same (t : RBNode Obj) :
  let t' := if RBNode_is_red t
            then set_color (RBNode_clone t None) RB_BLACK else t in
  rb_keys t' = rb_keys t /\ rb_values t' = rb_values t
  /\ RBNode_size t' = RBNode_size t /\ sizes_ok t' = sizes_ok t.
Proof. destruct t as [|? ? ? ? ? [|] ?]; cbn; auto. Qed.

End TreeFacts.

Section SortedVectorFacts.
Variable Obj : Type.
Variable PyObject_RichCompareBool : Obj -> Obj -> cmp_op -> result bool.
Variable lt : Obj -> Obj -> bool.

Hypothesis cmp_LT : forall a b, PyObject_RichCompareBool a b Py_LT = Ok (lt a b).
Hypothesis cmp_GT : forall a b, PyObject_RichCompareBool a b Py_GT = Ok (lt b a).
Hypothesis lt_asym : forall a b, lt a b = true -> lt b a = false.
Hypothesis lt_cotrans :
  forall a b c, lt a c = true -> lt a b = true \/ lt b c = true.

Lemma empty_sv_invariants (key_fn : option (Obj -> result Obj))
      (reverse : bool) :
  sv_invariants lt (mkSortedVector RBNull 0 key_fn reverse).
Proof.
  unfold sv_invariants. cbn.
  split; [|split; [|split; [|split; [|split; [|split; [|split]]]]]];
    try reflexivity.
  exists O. reflexivity.
Qed.

Lemma SortedVector_conj_invariants (self : SortedVector Obj)
      (value sort_key : Obj) :
  sv_invariants lt self ->
  SortedVector_get_sort_key (sv_key_fn self) value = Ok sort_key ->
  exists sv,
    SortedVector_conj PyObject_RichCompareBool self value = Ok (sv, 0%nat)
    /\ sv_invariants lt sv
    /\ sv_cnt sv = sv_cnt self + 1
    /\ sv_key_fn sv = sv_key_fn self
    /\ sv_reverse sv = sv_reverse self
    /\ Permutation (rb_values (sv_root sv))
                   (value :: rb_values (sv_root self)).
Proof.
  intros (Hbst & Hll & Hnrr & (n & Hbd) & Hsz & Hroot & Hcnt & Hlen) Hkey.
  unfold SortedVector_conj. rewrite Hkey. cbn [liftW bindW].
  rewrite (insert_None Obj PyObject_RichCompareBool lt cmp_LT cmp_GT lt_asym).
  cbn [bindW retW].
  set (r := insert_copy lt (sv_reverse self) (sv_root self) value sort_key).
  eexists. split; [reflexivity|].
  pose proof (checks_llrb Obj (sv_root self) n Hll Hnrr Hbd) as Hshape.
  rewrite (not_red_colour Obj _ Hroot) in Hshape.
  destruct (insert_copy_shape Obj lt (sv_reverse self) value sort_key
              (sv_root self) RB_BLACK n Hshape) as (c' & Hr).
  fold r in Hr.
  destruct (root_made_black Obj n c' r Hr) as (m & Hblack).
  destruct (root_made_black_same Obj r) as (Kk & Kv & Ks & Kz).
  destruct (insert_copy_sizes Obj lt (sv_reverse self) value sort_key
              (sv_root self) Hsz) as [Hsz' Hsize].
  fold r in Hsz', Hsize.
  pose proof (insert_copy_values Obj lt (sv_reverse self) value sort_key
                (sv_root self)) as Hperm.
  fold r in Hperm.
  destruct (llrb_checks Obj _ _ _ Hblack) as (L' & N' & B' & C').
  cbn [sv_root sv_cnt sv_reverse sv_key_fn].
  split; [|split; [|split; [|split]]].
  - unfold sv_invariants. cbn [sv_root sv_cnt sv_reverse sv_key_fn].
    split; [|split; [|split; [|split; [|split; [|split; [|split]]]]]].
    + apply (bst_order_sorted Obj lt lt_cotrans). rewrite Kk.
      apply (insert_copy_sorted Obj lt lt_asym lt_cotrans).
      apply (bst_order_sorted Obj lt lt_cotrans). exact Hbst.
    + exact L'.
    + exact N'.
    + exists m. exact B'.
    + rewrite Kz. exact Hsz'.
    + apply (llrb_black_not_red Obj _ _ Hblack).
    + rewrite Ks, Hsize, Hcnt. reflexivity.
    + rewrite Kv, (Permutation_length Hperm), Hlen. cbn [length]. lia.
  - reflexivity.
  - reflexivity.
  - reflexivity.
  - rewrite Kv. exact Hperm.
Qed.

Lemma sv_conj_all_invariants (items : list Obj) :
  forall self : SortedVector Obj,
    sv_invariants lt self -> sv_key_fn self = None ->
    exists sv,
      sv_conj_all PyObject_RichCompareBool self items = Ok (sv, 0%nat)
      /\ sv_invariants lt sv
      /\ sv_reverse sv = sv_reverse self
      /\ Permutation (rb_values (sv_root sv))
                     (rev items ++ rb_values (sv_root self)).
Proof.
  induction items as [|x rest IH]; intros self Hinv Hk.
  - exists self. split; [reflexivity|]. split; [exact Hinv|].
    split; [reflexivity|]. apply Permutation_refl.
  - cbn [sv_conj_all].
    destruct (SortedVector_conj_invariants self x x Hinv)
      as (sv1 & H1 & Hinv1 & _ & Hk1 & Hr1 & Hp1).
    { rewrite Hk. reflexivity. }
    rewrite H1. cbn [bindW].
    destruct (IH sv1 Hinv1) as (sv2 & H2 & Hinv2 & Hr2 & Hp2).
    { congruence. }
    rewrite H2. exists sv2. split; [reflexivity|]. split; [exact Hinv2|].
    split; [congruence|].
    rewrite Hp2. cbn [rev]. rewrite <- app_assoc. cbn [app].
    apply Permutation_app_head. exact Hp1.
Qed.
End SortedVectorFacts.

(** ** C8: the invariants of the tree of a SortedVector *)



Lemma Zcompare_GT (a b : Z) : Zcompare a b Py_GT = Ok (b <? a).
Proof. unfold Zcompare. rewrite Z.gtb_ltb. reflexivity. Qed.

Lemma Zltb_asym (a b : Z) : (a <? b) = true -> (b <? a) = false.
Proof. intros H. apply Z.ltb_lt in H. apply Z.ltb_ge. lia. Qed.

Lemma Zltb_cotrans (a b c : Z) :
  (a <? c) = true -> (a <? b) = true \/ (b <? c) = true.
Proof.
  intros H. apply Z.ltb_lt in H. rewrite !Z.ltb_lt. lia.
Qed.


(** ** One key through a map *)

Section OneKey.
Variable Obj : Type.
Variable Py_None : Obj.
Variable Obj_eq_dec : forall a b : Obj, {a = b} + {a <> b}.
Variable PyObject_Hash : Obj -> result Z.
Variable PyObject_RichCompareBool : Obj -> Obj -> cmp_op -> result bool.
Variables (k : Obj) (h : Z).
Hypothesis Hk : k <> Py_None.
Hypothesis Hh : PyObject_Hash k = Ok h.
Hypothesis Hkk : PyObject_RichCompareBool k k Py_EQ = Ok true.

Lemma find_single (f : nat) (s : Z) (tid : option token) (v : Obj) :
  BitmapIndexedNode_find Py_None Obj_eq_dec PyObject_RichCompareBool (S f)
    (BitmapIndexedNode (bitpos h s) [IObj k; IObj v] tid) s h k
  = Ok (Some v).
Proof.
  cbn [BitmapIndexedNode_find].
  rewrite (land_bitpos_self h), bitpos_self_index.
  change (2 * 0) with 0. change (0 + 1) with 1.
  rewrite get_item_0, get_item_1. cbn [bind is_Py_None].
  rewrite (obj_is_neq _ Obj_eq_dec k Py_None Hk). cbn [bind as_obj].
  rewrite Hkk. reflexivity.
Qed.

Lemma assoc_same_key (f : nat) (s : Z) (tid : option token) (v v2 : Obj) :
  exists r,
    BitmapIndexedNode_assoc Py_None Obj_eq_dec PyObject_Hash
      PyObject_RichCompareBool (S f)
      (BitmapIndexedNode (bitpos h s) [IObj k; IObj v] tid) s h k v2 None
    = Ok ((r, 0), 0%nat)
    /\ (r = RSelf (BitmapIndexedNode (bitpos h s) [IObj k; IObj v] tid)
        /\ v2 = v
        \/ r = RNew (BitmapIndexedNode (bitpos h s) [IObj k; IObj v2] None)).
Proof.
  cbn [BitmapIndexedNode_assoc].
  rewrite (land_bitpos_self h), bitpos_self_index. cbn [negb].
  change (2 * 0) with 0. change (0 + 1) with 1.
  rewrite get_item_0, get_item_1. cbn [liftW bindW is_Py_None].
  rewrite (obj_is_neq _ Obj_eq_dec k Py_None Hk). cbn [liftW bindW as_obj].
  rewrite Hkk. cbn [liftW bindW as_obj].
  unfold obj_is. destruct (Obj_eq_dec v2 v) as [->|Hne].
  - eexists. split; [reflexivity|]. left. auto.
  - eexists. split; [reflexivity|]. right. reflexivity.
Qed.

Lemma one_key_round_trip (v v2 default : Obj) :
  exists m1,
    assoc_result Py_None Obj_eq_dec PyObject_Hash PyObject_RichCompareBool
                 (EMPTY_MAP Obj) k v = Ok m1
    /\ map_cnt m1 = 1
    /\ Map_get Py_None Obj_eq_dec PyObject_Hash PyObject_RichCompareBool
               m1 k default = Ok v
    /\ Map_contains Py_None Obj_eq_dec PyObject_Hash PyObject_RichCompareBool
                    m1 k = Ok true
    /\ (exists m2,
           assoc_result Py_None Obj_eq_dec PyObject_Hash
                        PyObject_RichCompareBool m1 k v2 = Ok m2
           /\ map_cnt m2 = 1
           /\ Map_get Py_None Obj_eq_dec PyObject_Hash
                      PyObject_RichCompareBool m2 k default = Ok v2)
    /\ (exists m0,
           dissoc_result Py_None Obj_eq_dec PyObject_Hash
                         PyObject_RichCompareBool m1 k = Ok m0
           /\ map_cnt m0 = 0
           /\ Map_contains Py_None Obj_eq_dec PyObject_Hash
                           PyObject_RichCompareBool m0 k = Ok false).
Proof.
  eexists. split.
  { unfold assoc_result, Map_assoc. rewrite Hh.
    cbn [liftW bindW EMPTY_MAP Map_create map_root map_transient_id map_cnt].
    unfold root_assoc.
    cbn [dispatch liftW bindW EMPTY_BIN BitmapIndexedNode_create].
    change HAMT_FUEL with (S 63).
    rewrite assoc_EMPTY_BIN. cbn. reflexivity. }
  split; [reflexivity|]. split; [|split; [|split]].
  - unfold Map_get. cbn [Map_create map_root]. rewrite Hh. cbn [bind].
    unfold root_find. cbn [dispatch bind]. change HAMT_FUEL with (S 63).
    rewrite find_single. reflexivity.
  - unfold Map_contains. cbn [Map_create map_root]. rewrite Hh. cbn [bind].
    unfold root_find. cbn [dispatch bind]. change HAMT_FUEL with (S 63).
    rewrite find_single. reflexivity.
  - destruct (assoc_same_key 63 0 None v v2) as (r & Hr & [[Er Ev]| Er]);
      subst r; [subst v2|].
    + eexists. split.
      { unfold assoc_result, Map_assoc. rewrite Hh.
        cbn [liftW bindW Map_create map_root map_transient_id map_cnt].
        unfold root_assoc. cbn [dispatch liftW bindW].
        change HAMT_FUEL with (S 63). rewrite Hr. cbn. reflexivity. }
      split; [reflexivity|].
      unfold Map_get. cbn [with_root Map_create map_root]. rewrite Hh.
      cbn [bind]. unfold root_find. cbn [dispatch bind].
      change HAMT_FUEL with (S 63). rewrite find_single. reflexivity.
    + eexists. split.
      { unfold assoc_result, Map_assoc. rewrite Hh.
        cbn [liftW bindW Map_create map_root map_transient_id map_cnt].
        unfold root_assoc. cbn [dispatch liftW bindW].
        change HAMT_FUEL with (S 63). rewrite Hr. cbn. reflexivity. }
      split; [reflexivity|].
      unfold Map_get. cbn [Map_create map_root]. rewrite Hh.
      cbn [bind]. unfold root_find. cbn [dispatch bind].
      change HAMT_FUEL with (S 63). rewrite find_single. reflexivity.
  - eexists. split.
    { unfold dissoc_result, Map_dissoc.
      cbn [liftW bindW Map_create map_root map_transient_id map_cnt].
      rewrite Hh. cbn [liftW bindW].
      unfold root_dissoc. cbn [dispatch liftW bindW].
      change HAMT_FUEL with (S 63).
      rewrite (dissoc_single _ Py_None Obj_eq_dec PyObject_RichCompareBool
                 k h Hk Hkk). cbn. reflexivity. }
    split; reflexivity.
Qed.
End OneKey.

(** X1.  For a key other than [None] whose hash is defined and that is
    equal to itself: after [assoc] on the empty map the count is 1, [get]
    returns the value and [contains] is true; a second [assoc] of the same
    key leaves the count at 1 and [get] returns the new value; after
    [dissoc] the count is 0 and [contains] is false.  On a sample of 83
    integer keys (among them two with one hash, and forty that share their
    low ten bits), with 39 of them removed again, every lookup and every
    count is as the round trip requires. *)
Theorem X1_round_trip_for_keys_other_than_None :
  (forall (Obj : Type) (Py_None : Obj)
          (Obj_eq_dec : forall a b : Obj, {a = b} + {a <> b})
          (PyObject_Hash : Obj -> result Z)
          (PyObject_RichCompareBool : Obj -> Obj -> cmp_op -> result bool)
          (k : Obj) (h : Z) (v v2 default : Obj),
      k <> Py_None ->
      PyObject_Hash k = Ok h ->
      PyObject_RichCompareBool k k Py_EQ = Ok true ->
      exists m1,
        assoc_result Py_None Obj_eq_dec PyObject_Hash PyObject_RichCompareBool
                     (EMPTY_MAP Obj) k v = Ok m1
        /\ map_cnt m1 = 1
        /\ Map_get Py_None Obj_eq_dec PyObject_Hash PyObject_RichCompareBool
                   m1 k default = Ok v
        /\ Map_contains Py_None Obj_eq_dec PyObject_Hash
                        PyObject_RichCompareBool m1 k = Ok true
        /\ (exists m2,
               assoc_result Py_None Obj_eq_dec PyObject_Hash
                            PyObject_RichCompareBool m1 k v2 = Ok m2
               /\ map_cnt m2 = 1
               /\ Map_get Py_None Obj_eq_dec PyObject_Hash
                          PyObject_RichCompareBool m2 k default = Ok v2)
        /\ (exists m0,
               dissoc_result Py_None Obj_eq_dec PyObject_Hash
                             PyObject_RichCompareBool m1 k = Ok m0
               /\ map_cnt m0 = 0
               /\ Map_contains Py_None Obj_eq_dec PyObject_Hash
                               PyObject_RichCompareBool m0 k = Ok false))
  /\ round_trip_check round_trip_keys round_trip_gone = true.
Proof.
  split.
  - intros. eapply one_key_round_trip; eassumption.
  - vm_compute. reflexivity.
Qed.

(** X1, witness: the key 5. *)
Lemma X1_round_trip_for_keys_other_than_None_witness :
  exists m1,
    assoc_result PyHost.None_ PyHost.obj_eq_dec PyHost.hash PyHost.compare
                 (EMPTY_MAP PyHost.obj) (PyHost.Int 5) (PyHost.Int 1) = Ok m1
    /\ map_cnt m1 = 1
    /\ Map_get PyHost.None_ PyHost.obj_eq_dec PyHost.hash PyHost.compare
               m1 (PyHost.Int 5) PyHost.None_ = Ok (PyHost.Int 1)
    /\ Map_contains PyHost.None_ PyHost.obj_eq_dec PyHost.hash PyHost.compare
                    m1 (PyHost.Int 5) = Ok true
    /\ (exists m2,
           assoc_result PyHost.None_ PyHost.obj_eq_dec PyHost.hash
                        PyHost.compare m1 (PyHost.Int 5) (PyHost.Int 2)
           = Ok m2
           /\ map_cnt m2 = 1
           /\ Map_get PyHost.None_ PyHost.obj_eq_dec PyHost.hash
                      PyHost.compare m2 (PyHost.Int 5) PyHost.None_
              = Ok (PyHost.Int 2))
    /\ (exists m0,
           dissoc_result PyHost.None_ PyHost.obj_eq_dec PyHost.hash
                         PyHost.compare m1 (PyHost.Int 5) = Ok m0
           /\ map_cnt m0 = 0
           /\ Map_contains PyHost.None_ PyHost.obj_eq_dec PyHost.hash
                           PyHost.compare m0 (PyHost.Int 5) = Ok false).
Proof.
  refine (proj1 X1_round_trip_for_keys_other_than_None PyHost.obj
            PyHost.None_ PyHost.obj_eq_dec PyHost.hash PyHost.compare
            (PyHost.Int 5) 5 (PyHost.Int 1) (PyHost.Int 2) PyHost.None_
            _ _ _).
  - discriminate.
  - reflexivity.
  - reflexivity.
Defined.


(** ** Vectors as sequences *)

(** *** Shifts and masks as quotients and remainders *)

Lemma WIDTH_32 : WIDTH = 32.
Proof. reflexivity. Qed.

Lemma land_MASK_mod (x : Z) : Z.land x MASK = x mod 32.
Proof. change MASK with (Z.ones 5). rewrite Z.land_ones by lia. reflexivity. Qed.

Lemma capacity_pos (d : nat) : 0 < capacity d.
Proof. unfold capacity. apply Z.pow_pos_nonneg; rewrite ?WIDTH_32; lia. Qed.

Lemma capacity_S (d : nat) : capacity (S d) = 32 * capacity d.
Proof.
  unfold capacity. rewrite WIDTH_32.
  replace (Z.of_nat (S d) + 1) with (Z.succ (Z.of_nat d + 1)) by lia.
  rewrite Z.pow_succ_r by lia. reflexivity.
Qed.

Lemma capacity_0 : capacity 0 = 32.
Proof. reflexivity. Qed.

Lemma capacity_ge_32 (d : nat) : 32 <= capacity d.
Proof.
  induction d.
  - rewrite capacity_0. lia.
  - rewrite capacity_S. lia.
Qed.

Lemma capacity_div_32 (d : nat) : exists q, capacity d = 32 * q /\ 0 < q.
Proof.
  destruct d.
  - exists 1. rewrite capacity_0. lia.
  - exists (capacity d). split; [apply capacity_S | apply capacity_pos].
Qed.

Lemma shiftr_level (x : Z) (d : nat) :
  Z.shiftr x (BITS * Z.of_nat (S d)) = x / capacity d.
Proof.
  rewrite Z.shiftr_div_pow2 by (unfold BITS; lia).
  f_equal. unfold capacity, BITS. rewrite WIDTH_32.
  replace (5 * Z.of_nat (S d)) with (5 * (Z.of_nat d + 1)) by lia.
  change 32 with (2 ^ 5). rewrite <- Z.pow_mul_r by lia. reflexivity.
Qed.

(** The slot of index [i] in a node that starts at [base]. *)
Lemma slot_of_index (d : nat) (base i : Z) :
  (exists q, base = q * capacity (S d)) ->
  base <= i < base + capacity (S d) ->
  Z.land (Z.shiftr i (BITS * Z.of_nat (S d))) MASK = (i - base) / capacity d
  /\ 0 <= (i - base) / capacity d < 32.
Proof.
  intros [q Hq] Hi. rewrite shiftr_level, land_MASK_mod.
  pose proof (capacity_pos d) as Hc. rewrite capacity_S in *.
  assert (Hr : 0 <= (i - base) / capacity d < 32).
  { split.
    - apply Z.div_pos; lia.
    - apply Z.div_lt_upper_bound; lia. }
  split; [|exact Hr].
  replace i with ((i - base) + (q * 32) * capacity d) by lia.
  rewrite Z.div_add by lia.
  replace ((i - base + q * 32 * capacity d - base)) with (i - base) by lia.
  rewrite Z.add_comm, Z.mul_comm.
  replace (32 * q + (i - base) / capacity d)
    with ((i - base) / capacity d + q * 32) by lia.
  rewrite Z.mod_add by lia. apply Z.mod_small. exact Hr.
Qed.

Lemma geb_true (a b : Z) : b <= a -> (a >=? b) = true.
Proof. intros. rewrite Z.geb_leb. apply Z.leb_le. lia. Qed.

Lemma geb_false (a b : Z) : a < b -> (a >=? b) = false.
Proof. intros. rewrite Z.geb_leb. apply Z.leb_gt. lia. Qed.

Lemma gtb_true (a b : Z) : b < a -> (a >? b) = true.
Proof. intros. rewrite Z.gtb_ltb. apply Z.ltb_lt. lia. Qed.

Lemma gtb_false (a b : Z) : a <= b -> (a >? b) = false.
Proof. intros. rewrite Z.gtb_ltb. apply Z.ltb_ge. lia. Qed.

(** Settle the comparisons of the goal that linear arithmetic decides. *)
Ltac zcmp :=
  repeat match goal with
  | |- context [?a <? ?b] =>
      first [ rewrite (proj2 (Z.ltb_lt a b)) by lia
            | rewrite (proj2 (Z.ltb_ge a b)) by lia ]
  | |- context [?a <=? ?b] =>
      first [ rewrite (proj2 (Z.leb_le a b)) by lia
            | rewrite (proj2 (Z.leb_gt a b)) by lia ]
  | |- context [?a >=? ?b] =>
      first [ rewrite (geb_true a b) by lia
            | rewrite (geb_false a b) by lia ]
  | |- context [?a >? ?b] =>
      first [ rewrite (gtb_true a b) by lia
            | rewrite (gtb_false a b) by lia ]
  | |- context [?a =? ?b] =>
      first [ rewrite (proj2 (Z.eqb_eq a b)) by lia
            | rewrite (proj2 (Z.eqb_neq a b)) by lia ]
  end.

(** *** Lists as C arrays, by index *)

Lemma nth_error_set_nth (A : Type) (l : list A) (n m : nat) (x : A) :
  (n < length l)%nat ->
  nth_error (set_nth l n x) m = if Nat.eqb m n then Some x else nth_error l m.
Proof.
  revert n m. induction l as [|a t IH]; intros [|n] [|m] H; cbn in *;
    try lia; try reflexivity.
  apply IH. lia.
Qed.

Lemma nth_error_set_item (A : Type) (l : list A) (i j : Z) (x : A) :
  0 <= i < Z.of_nat (length l) -> 0 <= j ->
  nth_error (set_item l i x) (Z.to_nat j)
  = if j =? i then Some x else nth_error l (Z.to_nat j).
Proof.
  intros Hi Hj. unfold set_item.
  destruct (i <? 0) eqn:E; [apply Z.ltb_lt in E; lia|].
  rewrite nth_error_set_nth by lia.
  destruct (j =? i) eqn:Eji.
  - apply Z.eqb_eq in Eji. subst. now rewrite Nat.eqb_refl.
  - apply Z.eqb_neq in Eji.
    replace (Nat.eqb (Z.to_nat j) (Z.to_nat i)) with false; [reflexivity|].
    symmetry. apply Nat.eqb_neq. lia.
Qed.

Lemma get_item_of_nth_error (A : Type) (l : list A) (i : Z) (a : A) :
  0 <= i -> nth_error l (Z.to_nat i) = Some a -> get_item l i = Ok a.
Proof.
  intros Hi H. unfold get_item.
  destruct (i <? 0) eqn:E; [apply Z.ltb_lt in E; lia|]. now rewrite H.
Qed.

Lemma firstn_succ_nth (A : Type) (l : list A) (k : nat) (d : A) :
  (k < length l)%nat -> firstn (S k) l = firstn k l ++ [nth k l d].
Proof.
  revert k. induction l as [|a t IH]; intros [|k] H; cbn in *; try lia;
    try reflexivity.
  f_equal. apply IH. lia.
Qed.

Lemma skipn_nth_cons (A : Type) (l : list A) (k : nat) (d : A) :
  (k < length l)%nat -> skipn k l = nth k l d :: skipn (S k) l.
Proof.
  revert k. induction l as [|a t IH]; intros [|k] H; cbn in *; try lia;
    try reflexivity.
  apply IH. lia.
Qed.

Lemma firstn_plus (A : Type) (l : list A) (a k : nat) :
  firstn (a + k) l = firstn a l ++ firstn k (skipn a l).
Proof.
  revert l. induction a as [|a IH]; intros [|x l]; cbn;
    rewrite ?firstn_nil; try reflexivity.
  f_equal. apply IH.
Qed.

Section VectorSequence.
Variable Obj : Type.
Variable Py_None : Obj.

Local Abbreviation hold := (holds Py_None).
Local Abbreviation el := (elem Py_None).
Local Abbreviation rep := (represents Py_None).

Lemma elem_app_l (l l2 : list Obj) (i : Z) :
  0 <= i < Z.of_nat (length l) -> el (l ++ l2) i = el l i.
Proof. intros H. unfold elem. apply app_nth1. lia. Qed.

Lemma elem_app_r (l : list Obj) (x : Obj) :
  el (l ++ [x]) (Z.of_nat (length l)) = x.
Proof.
  unfold elem. rewrite Nat2Z.id, app_nth2 by lia.
  now rewrite Nat.sub_diag.
Qed.

Lemma elem_skipn (l : list Obj) (k i : Z) :
  0 <= k -> 0 <= i -> el (skipn (Z.to_nat k) l) i = el l (k + i).
Proof.
  intros Hk Hi. unfold elem. rewrite nth_skipn. f_equal. lia.
Qed.

Lemma elem_set_item (l : list Obj) (i j : Z) (x : Obj) :
  0 <= i < Z.of_nat (length l) -> 0 <= j ->
  el (set_item l i x) j = if j =? i then x else el l j.
Proof.
  intros Hi Hj. unfold elem.
  destruct (Z_lt_dec j (Z.of_nat (length l))) as [Hlt|Hge].
  - pose proof (nth_error_set_item _ l i j x Hi Hj) as H.
    rewrite (nth_error_nth' (set_item l i x) Py_None) in H
      by (rewrite set_item_length; lia).
    destruct (j =? i).
    + congruence.
    + rewrite (nth_error_nth' l Py_None) in H by lia. congruence.
  - rewrite !nth_overflow by (rewrite ?set_item_length; lia).
    destruct (j =? i) eqn:E; [apply Z.eqb_eq in E; lia|reflexivity].
Qed.

(** *** What [holds] says of a node *)

Lemma holds_length (d : nat) (node : VectorNode Obj) (base n : Z)
      (l : list Obj) :
  hold d node base n l -> length (node_array node) = Z.to_nat WIDTH.
Proof. destruct d; intros [H _]; exact H. Qed.

(** Only the elements of the node's own range, below [n], matter. *)
Lemma holds_ext_range (d : nat) : forall (node : VectorNode Obj) (base n : Z)
    (l l' : list Obj),
  0 <= base ->
  (forall i, base <= i < base + capacity d -> i < n -> el l i = el l' i) ->
  hold d node base n l -> hold d node base n l'.
Proof.
  induction d as [|d IH]; intros node base n l l' Hb Hext [Hlen H];
    split; auto; intros j Hj; specialize (H j Hj); rewrite WIDTH_32 in Hj.
  - destruct (base + j <? n) eqn:E; auto.
    apply Z.ltb_lt in E. rewrite capacity_0 in Hext.
    rewrite <- Hext by lia. exact H.
  - pose proof (capacity_pos d). rewrite capacity_S in Hext.
    destruct (base + j * capacity d <? n) eqn:E; auto.
    destruct H as (c & Hc & Hh). exists c. split; auto.
    eapply IH; [| |exact Hh]; [nia|].
    intros i Hi Hin. apply Hext; nia.
Qed.

Lemma holds_ext (d : nat) (node : VectorNode Obj) (base n : Z)
      (l l' : list Obj) :
  0 <= base ->
  (forall i, base <= i < n -> el l i = el l' i) ->
  hold d node base n l -> hold d node base n l'.
Proof.
  intros Hb Hext. apply holds_ext_range; auto. intros i Hi Hn. apply Hext. lia.
Qed.

(** A full node is not affected by how far the trie reaches past it. *)
Lemma holds_full (d : nat) : forall (node : VectorNode Obj) (base n n' : Z)
    (l : list Obj),
  base + capacity d <= n -> base + capacity d <= n' ->
  hold d node base n l -> hold d node base n' l.
Proof.
  induction d as [|d IH]; intros node base n n' l Hfull Hn [Hlen H];
    split; auto; intros j Hj; specialize (H j Hj); rewrite WIDTH_32 in Hj.
  - rewrite capacity_0 in Hfull, Hn.
    replace (base + j <? n) with true in H by (symmetry; apply Z.ltb_lt; lia).
    replace (base + j <? n') with true by (symmetry; apply Z.ltb_lt; lia).
    exact H.
  - rewrite capacity_S in Hfull, Hn. pose proof (capacity_pos d).
    replace (base + j * capacity d <? n) with true in H
      by (symmetry; apply Z.ltb_lt; nia).
    replace (base + j * capacity d <? n') with true
      by (symmetry; apply Z.ltb_lt; nia).
    destruct H as (c & Hc & Hh). exists c. split; auto.
    eapply IH; [| |exact Hh]; nia.
Qed.

(** A node of [NULL]s holds nothing. *)
Lemma holds_create (d : nat) (base n : Z) (l : list Obj) (t : option token) :
  n <= base -> hold d (VectorNode_create Obj t) base n l.
Proof.
  intros Hn. assert (Hnth : forall j, 0 <= j < WIDTH ->
    nth_error (repeat (VNull Obj) (Z.to_nat WIDTH)) (Z.to_nat j)
    = Some (VNull Obj)).
  { intros j Hj. rewrite nth_error_repeat; auto. lia. }
  destruct d; split; try apply repeat_length; intros j Hj;
    cbn [VectorNode_create node_array]; rewrite Hnth by auto.
  - replace (base + j <? n) with false; auto.
    symmetry. apply Z.ltb_ge. lia.
  - pose proof (capacity_pos d).
    replace (base + j * capacity d <? n) with false; auto.
    symmetry. apply Z.ltb_ge. nia.
Qed.

(** Storing a child into a slot: the slots to its left are full before and
    after, the slots to its right are empty before and after. *)
Lemma holds_store_child_gen (d : nat) (node c : VectorNode Obj)
      (base n n' : Z) (l : list Obj) (k : Z) :
  0 <= k < 32 ->
  base + k * capacity d < n' ->
  (forall j, 0 <= j < k -> base + j * capacity d + capacity d <= n) ->
  (forall j, 0 <= j < k -> base + j * capacity d + capacity d <= n') ->
  (forall j, k < j < 32 -> n <= base + j * capacity d) ->
  (forall j, k < j < 32 -> n' <= base + j * capacity d) ->
  hold (S d) node base n l ->
  hold d c (base + k * capacity d) n' l ->
  hold (S d) (node_store node k (VChild c)) base n' l.
Proof.
  intros Hk Hkn Hlow Hlow' Hhigh Hhigh' [Hlen H] Hc. split.
  - cbn [node_store node_array]. now rewrite set_item_length.
  - intros j Hj. cbn [node_store node_array].
    rewrite nth_error_set_item by (rewrite ?Hlen, ?WIDTH_32; lia).
    rewrite WIDTH_32 in Hj. pose proof (capacity_pos d).
    destruct (j =? k) eqn:Ejk.
    + apply Z.eqb_eq in Ejk. subst j.
      replace (base + k * capacity d <? n') with true
        by (symmetry; apply Z.ltb_lt; lia).
      exists c. auto.
    + apply Z.eqb_neq in Ejk.
      specialize (H j ltac:(rewrite WIDTH_32; lia)).
      destruct (Z_lt_dec j k) as [Hlt|Hgt].
      * specialize (Hlow j ltac:(lia)). specialize (Hlow' j ltac:(lia)).
        replace (base + j * capacity d <? n) with true in H
          by (symmetry; apply Z.ltb_lt; lia).
        replace (base + j * capacity d <? n') with true
          by (symmetry; apply Z.ltb_lt; lia).
        destruct H as (cj & Hcj & Hh). exists cj. split; auto.
        eapply holds_full; [| |exact Hh]; lia.
      * specialize (Hhigh j ltac:(lia)). specialize (Hhigh' j ltac:(lia)).
        replace (base + j * capacity d <? n) with false in H
          by (symmetry; apply Z.ltb_ge; lia).
        replace (base + j * capacity d <? n') with false
          by (symmetry; apply Z.ltb_ge; lia).
        exact H.
Qed.

Lemma holds_store_child (d : nat) (node c : VectorNode Obj) (base n n' : Z)
      (l : list Obj) (k : Z) :
  0 <= k < 32 ->
  n <= n' ->
  base + k * capacity d < n' ->
  (forall j, 0 <= j < k -> base + j * capacity d + capacity d <= n) ->
  (forall j, k < j < 32 -> n' <= base + j * capacity d) ->
  hold (S d) node base n l ->
  hold d c (base + k * capacity d) n' l ->
  hold (S d) (node_store node k (VChild c)) base n' l.
Proof.
  intros Hk Hn Hkn Hlow Hhigh Hh Hc.
  apply (holds_store_child_gen d node c base n n' l k); auto.
  - intros j Hj. specialize (Hlow j Hj). lia.
  - intros j Hj. specialize (Hhigh j Hj). lia.
Qed.

Lemma holds_clone (d : nat) (node : VectorNode Obj) (base n : Z)
      (l : list Obj) (t : option token) :
  hold d node base n l -> hold d (VectorNode_clone node t) base n l.
Proof. destruct d, node; auto. Qed.

Lemma for_write_holds (d : nat) (parent : VectorNode Obj) (base n : Z)
      (l : list Obj) (t : option token) :
  hold d parent base n l ->
  exists r w, VectorNode_for_write parent t = Ok (r, w)
              /\ hold d r base n l.
Proof.
  intros H. unfold VectorNode_for_write.
  destruct (VectorNode_is_editable parent t).
  - exists parent, 1%nat. auto.
  - exists (VectorNode_clone parent t), 0%nat. auto using holds_clone.
Qed.

(** *** Reading *)

Lemma descend_holds (d : nat) : forall (fuel : nat) (node : VectorNode Obj)
    (base n i : Z) (l : list Obj),
  (d <= fuel)%nat ->
  (exists q, base = q * capacity d) ->
  base <= i < base + capacity d -> i < n ->
  hold d node base n l ->
  exists leaf,
    descend fuel node (BITS * Z.of_nat d) i = Ok leaf
    /\ hold 0 leaf (32 * (i / 32)) n l.
Proof.
  induction d as [|d IH]; intros fuel node base n i l Hf Hq Hi Hn Hh.
  - exists node. split.
    + destruct fuel; reflexivity.
    + rewrite capacity_0 in *. destruct Hq as [q ->].
      replace (32 * (i / 32)) with (q * 32); [exact Hh|].
      assert (i / 32 = q); [|lia].
      symmetry. apply (Z.div_unique i 32 q (i - q * 32)); lia.
  - destruct fuel as [|fuel]; [lia|]. cbn [descend].
    replace (BITS * Z.of_nat (S d) >? 0) with true
      by (symmetry; apply Z.gtb_lt; unfold BITS; lia).
    destruct (slot_of_index d base i Hq Hi) as [Hslot Hr].
    rewrite Hslot. set (k := (i - base) / capacity d) in *.
    pose proof (capacity_pos d) as Hc.
    assert (Hk : base + k * capacity d <= i < base + k * capacity d + capacity d).
    { pose proof (Z.mul_div_le (i - base) (capacity d) Hc).
      pose proof (Z.mul_succ_div_gt (i - base) (capacity d) Hc).
      fold k in H, H0. lia. }
    destruct Hh as [Hlen H]. specialize (H k ltac:(rewrite WIDTH_32; lia)).
    replace (base + k * capacity d <? n) with true in H
      by (symmetry; apply Z.ltb_lt; lia).
    destruct H as (c & Hc' & Hhc).
    rewrite (get_item_of_nth_error _ _ k _ (proj1 Hr) Hc'). cbn [bind as_node].
    replace (BITS * Z.of_nat (S d) - BITS) with (BITS * Z.of_nat d)
      by (unfold BITS; lia).
    apply (IH fuel c (base + k * capacity d) n i l); auto; try lia.
    destruct Hq as [q Hq]. exists (q * 32 + k). rewrite Hq, capacity_S. lia.
Qed.

Lemma map_result_slot_item (arr : list (VSlot Obj)) :
  Forall (fun s => forall c, s <> VChild c) arr ->
  exists objs, map_result (slot_item Py_None) arr = Ok objs
    /\ length objs = length arr
    /\ forall j s, nth_error arr j = Some s ->
         nth_error objs j = Some (match s with VItem o => o | _ => Py_None end).
Proof.
  induction 1 as [|s t Hs Ht IH].
  - exists []. repeat split; auto. intros [|j] s; discriminate.
  - destruct IH as (objs & Hm & Hl & Hn). cbn [map_result].
    destruct s as [|o|c]; [| |now destruct (Hs c)]; cbn [slot_item bind];
      rewrite Hm; cbn [bind]; eexists; (split; [reflexivity|]);
      (split; [cbn; lia|]); intros [|j] s Hj; cbn in *;
      try (inversion Hj; subst; reflexivity); auto.
Qed.

Lemma leaf_read (leaf : VectorNode Obj) (base n : Z) (l : list Obj) (j : Z) :
  hold 0 leaf base n l -> 0 <= j < 32 -> base + j < n ->
  exists arr, map_result (slot_item Py_None) (node_array leaf) = Ok arr
    /\ length arr = Z.to_nat WIDTH
    /\ get_item arr j = Ok (el l (base + j))
    /\ forall k, 0 <= k < 32 ->
         nth_error arr (Z.to_nat k)
         = Some (if base + k <? n then el l (base + k) else Py_None).
Proof.
  intros [Hlen H] Hj Hn.
  destruct (map_result_slot_item (node_array leaf)) as (arr & Hm & Hl & Hnth).
  { apply Forall_forall. intros s Hs c ->.
    apply In_nth_error in Hs. destruct Hs as [m Hm].
    assert (Hmlt : (m < Z.to_nat WIDTH)%nat).
    { rewrite <- Hlen. apply nth_error_Some. congruence. }
    specialize (H (Z.of_nat m) ltac:(lia)). rewrite Nat2Z.id, Hm in H.
    destruct (base + Z.of_nat m <? n); discriminate. }
  assert (Hall : forall k, 0 <= k < 32 ->
    nth_error arr (Z.to_nat k)
    = Some (if base + k <? n then el l (base + k) else Py_None)).
  { intros k Hk. specialize (H k ltac:(rewrite WIDTH_32; lia)).
    rewrite (Hnth _ _ H). destruct (base + k <? n); reflexivity. }
  exists arr. repeat split; auto; try congruence.
  apply get_item_of_nth_error; [lia|]. rewrite Hall by lia.
  replace (base + j <? n) with true by (symmetry; apply Z.ltb_lt; lia).
  reflexivity.
Qed.

(** *** The tail offset *)

Lemma tail_off_spec (c : Z) :
  0 <= c ->
  let off := if c <? WIDTH then 0
             else Z.shiftl (Z.shiftr (c - 1) BITS) BITS in
  (exists q, off = 32 * q /\ 0 <= q) /\ off <= c /\ c - off <= 32
  /\ (0 < c -> off < c).
Proof.
  intros Hc. cbv zeta. rewrite WIDTH_32.
  destruct (c <? 32) eqn:E.
  - apply Z.ltb_lt in E. split; [exists 0; lia|lia].
  - apply Z.ltb_ge in E. unfold BITS.
    rewrite Z.shiftl_mul_pow2, Z.shiftr_div_pow2 by lia.
    change (2 ^ 5) with 32.
    pose proof (Z.mul_div_le (c - 1) 32 ltac:(lia)).
    pose proof (Z.mul_succ_div_gt (c - 1) 32 ltac:(lia)).
    split; [exists ((c - 1) / 32); split; [lia|apply Z.div_pos; lia]|lia].
Qed.

Lemma tail_off_step (c : Z) :
  0 <= c ->
  let off := fun x => if x <? WIDTH then 0
                      else Z.shiftl (Z.shiftr (x - 1) BITS) BITS in
  (c - off c < 32 -> off (c + 1) = off c)
  /\ (32 <= c - off c -> off (c + 1) = c).
Proof.
  intros Hc. cbv zeta beta. rewrite WIDTH_32. unfold BITS.
  rewrite !Z.shiftl_mul_pow2, !Z.shiftr_div_pow2 by lia.
  change (2 ^ 5) with 32. replace (c + 1 - 1) with c by lia.
  destruct (c <? 32) eqn:E1; destruct (c + 1 <? 32) eqn:E2;
    try apply Z.ltb_lt in E1; try apply Z.ltb_ge in E1;
    try apply Z.ltb_lt in E2; try apply Z.ltb_ge in E2;
    split; intros H; try lia;
    Z.to_euclidean_division_equations; lia.
Qed.

Lemma Vector_tail_off_spec (v : Vector Obj) :
  0 <= cnt v ->
  (exists q, Vector_tail_off v = 32 * q /\ 0 <= q)
  /\ Vector_tail_off v <= cnt v /\ cnt v - Vector_tail_off v <= 32
  /\ (0 < cnt v -> Vector_tail_off v < cnt v).
Proof. intros H. exact (tail_off_spec (cnt v) H). Qed.

(** Reading index [i] of a vector that stores [l]. *)
Lemma Vector_array_for_represents (v : Vector Obj) (l : list Obj) (i : Z) :
  rep v l -> 0 <= i < cnt v ->
  exists arr, Vector_array_for Py_None v i = Ok arr
              /\ get_item arr (Z.land i MASK) = Ok (el l i).
Proof.
  intros (d & Hs & Hc & Ht & Hcap & Hmin & Hh) Hi.
  destruct (Vector_tail_off_spec v ltac:(lia)) as ((q & Hq & Hq0) & Hle & Hsz & _).
  unfold Vector_array_for.
  zcmp. cbn [orb]. rewrite land_MASK_mod.
  destruct (i >=? Vector_tail_off v) eqn:E.
  - apply Z.geb_le in E. exists (tail v). split; auto.
    assert (Hm : i mod 32 = i - Vector_tail_off v).
    { symmetry. apply (Z.mod_unique i 32 q); lia. }
    rewrite Hm, Ht.
    rewrite (get_item_Ok_nth _ _ _ Py_None)
      by (rewrite length_skipn; lia).
    f_equal. change (el (skipn (Z.to_nat (Vector_tail_off v)) l)
                        (i - Vector_tail_off v) = el l i).
    rewrite elem_skipn by lia. f_equal. lia.
  - rewrite Z.geb_leb in E. apply Z.leb_gt in E.
    destruct (descend_holds (S d) (level_fuel (shift v)) (root v) 0
                (Vector_tail_off v) i l) as (leaf & Hd & Hl); auto.
    + unfold level_fuel. rewrite Hs. unfold BITS. lia.
    + exists 0. lia.
    + lia.
    + rewrite <- Hs in Hd. rewrite Hd. cbn [bind].
      pose proof (Z.mod_pos_bound i 32 ltac:(lia)) as Hm.
      pose proof (Z.div_mod i 32 ltac:(lia)) as Hdm.
      destruct (leaf_read leaf _ _ l (i mod 32) Hl Hm ltac:(lia))
        as (arr & Ha & _ & Hg & _).
      exists arr. split; auto. rewrite Hg. do 2 f_equal. lia.
Qed.

Lemma Vector_getitem_represents (v : Vector Obj) (l : list Obj) (i : Z) :
  rep v l -> 0 <= i < cnt v -> Vector_getitem Py_None v i = Ok (el l i).
Proof.
  intros Hr Hi. unfold Vector_getitem.
  zcmp. cbn [orb].
  destruct (Vector_array_for_represents v l i Hr Hi) as (arr & Ha & Hg).
  rewrite Ha. exact Hg.
Qed.

(** *** Appending *)

Lemma Vector_new_path_holds (d : nat) : forall (fuel : nat)
    (node : VectorNode Obj) (n : Z) (l : list Obj) (t : option token),
  (d <= fuel)%nat -> 0 <= n ->
  hold 0 node n (n + 32) l ->
  exists p, Vector_new_path fuel (BITS * Z.of_nat d) node t = Ok p
            /\ hold d p n (n + 32) l.
Proof.
  induction d as [|d IH]; intros fuel node n l t Hf Hn Hh.
  - exists node. split; auto. destruct fuel; reflexivity.
  - destruct fuel as [|fuel]; [lia|]. cbn [Vector_new_path].
    replace (BITS * Z.of_nat (S d) =? 0) with false
      by (symmetry; apply Z.eqb_neq; unfold BITS; lia).
    replace (BITS * Z.of_nat (S d) - BITS) with (BITS * Z.of_nat d)
      by (unfold BITS; lia).
    destruct (IH fuel node n l t ltac:(lia) Hn Hh) as (p & Hp & Hhp).
    rewrite Hp. cbn [bind]. eexists. split; [reflexivity|].
    pose proof (capacity_ge_32 d).
    apply (holds_store_child d _ p n n (n + 32) l 0);
      [lia | lia | lia | intros j Hj; lia | intros j Hj; nia
      | apply holds_create; lia
      | replace (n + 0 * capacity d) with n by lia; exact Hhp].
Qed.

Lemma Vector_push_tail_holds (d : nat) : forall (fuel : nat) (base n : Z)
    (l : list Obj) (parent tail_node : VectorNode Obj) (t : option token),
  (d < fuel)%nat ->
  0 <= base ->
  (exists q, base = q * capacity (S d)) ->
  (exists q, n = 32 * q) ->
  base <= n < base + capacity (S d) ->
  hold (S d) parent base n l ->
  hold 0 tail_node n (n + 32) l ->
  exists r w,
    Vector_push_tail fuel (n + 32) (BITS * Z.of_nat (S d)) parent tail_node t
    = Ok (r, w)
    /\ hold (S d) r base (n + 32) l.
Proof.
  induction d as [|d IH];
    intros fuel base n l parent tail_node t Hf Hb0 Hq Hn32 Hn Hp Ht;
    (destruct fuel as [|fuel]; [lia|]); cbn [Vector_push_tail];
    replace (n + 32 - 1) with (n + 31) by lia.
  - (* the parent is a node of leaves *)
    destruct (for_write_holds _ _ _ _ _ t Hp) as (r & w & Hr & Hhr).
    rewrite Hr. change (BITS * Z.of_nat 1 =? BITS) with true.
    cbn [bindW retW liftW].
    destruct (slot_of_index 0 base (n + 31) Hq) as [Hslot Hk].
    { destruct Hq as [q Hq], Hn32 as [m Hm].
      rewrite capacity_S, capacity_0 in *. lia. }
    rewrite Hslot. set (k := (n + 31 - base) / capacity 0) in *.
    eexists _, _. split; [reflexivity|].
    assert (Hkn : base + k * 32 = n).
    { destruct Hq as [q Hq], Hn32 as [m Hm].
      rewrite capacity_S, capacity_0 in Hq.
      assert (k = m - q * 32); [|lia].
      symmetry. unfold k. rewrite capacity_0.
      apply (Z.div_unique (n + 31 - base) 32 (m - q * 32) 31); lia. }
    apply (holds_store_child 0 r tail_node base n (n + 32) l k);
      rewrite ?capacity_0;
      [lia | lia | lia | intros j Hj; nia | intros j Hj; nia | exact Hhr
      | rewrite Hkn; exact Ht].
  - (* the parent is further up *)
    destruct (for_write_holds _ _ _ _ _ t Hp) as (r & w & Hr & Hhr).
    rewrite Hr.
    replace (BITS * Z.of_nat (S (S d)) =? BITS) with false
      by (symmetry; apply Z.eqb_neq; unfold BITS; lia).
    replace (BITS * Z.of_nat (S (S d)) - BITS) with (BITS * Z.of_nat (S d))
      by (unfold BITS; lia).
    pose proof (capacity_pos (S d)) as Hcpos.
    destruct (capacity_div_32 (S d)) as (c32 & Hc32 & Hc32pos).
    destruct (slot_of_index (S d) base (n + 31) Hq) as [Hslot Hk].
    { destruct Hq as [q Hq], Hn32 as [m Hm].
      rewrite (capacity_S (S d)), Hc32 in *. lia. }
    rewrite Hslot. set (k := (n + 31 - base) / capacity (S d)) in *.
    assert (Hkn : base + k * capacity (S d) <= n
                  < base + k * capacity (S d) + capacity (S d)).
    { pose proof (Z.mul_div_le (n + 31 - base) _ Hcpos) as H1.
      pose proof (Z.mul_succ_div_gt (n + 31 - base) _ Hcpos) as H2.
      fold k in H1, H2.
      destruct Hq as [q Hq], Hn32 as [m Hm].
      rewrite (capacity_S (S d)) in Hq. rewrite Hc32 in *.
      nia. }
    destruct Hp as [Hlen H].
    pose proof (H k ltac:(rewrite WIDTH_32; lia)) as Hslotk.
    cbn [bindW].
    assert (Hins : exists nti w',
      ((child <~ liftW (get_item (node_array parent) k) ;;
        match child with
        | VNull _ =>
            liftW (Vector_new_path fuel (BITS * Z.of_nat (S d)) tail_node t)
        | _ =>
            c <~ liftW (as_node child) ;;
            Vector_push_tail fuel (n + 32) (BITS * Z.of_nat (S d)) c
                             tail_node t
        end) = Ok (nti, w'))
      /\ hold (S d) nti (base + k * capacity (S d)) (n + 32) l).
    { destruct (base + k * capacity (S d) <? n) eqn:E.
      - apply Z.ltb_lt in E. destruct Hslotk as (c & Hc & Hhc).
        rewrite (get_item_of_nth_error _ _ k _ (proj1 Hk) Hc).
        cbn [liftW bindW as_node].
        destruct (IH fuel (base + k * capacity (S d)) n l c tail_node t)
          as (r' & w' & Hr' & Hhr'); auto; try lia.
        + destruct Hq as [q Hq]. exists (q * 32 + k).
          rewrite Hq, (capacity_S (S d)). lia.
        + rewrite Hr'. cbn [bindW retW]. eexists _, _. split; [reflexivity|].
          exact Hhr'.
      - apply Z.ltb_ge in E.
        rewrite (get_item_of_nth_error _ _ k _ (proj1 Hk) Hslotk).
        cbn [liftW bindW].
        assert (Hkeq : base + k * capacity (S d) = n) by lia.
        destruct (Vector_new_path_holds (S d) fuel tail_node n l t)
          as (p & Hp' & Hhp); auto; try lia.
        rewrite Hp'. eexists _, _. split; [reflexivity|].
        rewrite Hkeq. exact Hhp. }
    destruct Hins as (nti & w' & Hins & Hhn).
    match goal with
    | |- context [bindW ?m _] =>
        match m with
        | bindW _ _ => replace m with (@Ok (VectorNode Obj * nat) (nti, w'))
        end
    end.
    cbn [bindW retW]. eexists _, _. split; [reflexivity|].
    apply (holds_store_child (S d) r nti base n (n + 32) l k);
      [lia | lia | lia | intros j Hj; nia | | exact Hhr | exact Hhn].
    intros j Hj.
    destruct Hq as [q Hq], Hn32 as [m Hm].
    rewrite (capacity_S (S d)) in Hq. rewrite Hc32 in *. nia.
Qed.

Lemma tail_node_of_holds (tl l : list Obj) (n : Z) (t : option token) :
  0 <= n -> tl = skipn (Z.to_nat n) l -> length tl = 32%nat ->
  hold 0 (tail_node_of tl t) n (n + 32) l.
Proof.
  intros Hn Htl Hlen. unfold tail_node_of.
  rewrite firstn_all2 by (rewrite Hlen; change (Z.to_nat WIDTH) with 32%nat; lia).
  rewrite Hlen. change (Z.to_nat WIDTH - 32)%nat with 0%nat.
  cbn [repeat]. rewrite app_nil_r. split.
  - cbn [node_array]. now rewrite length_map, Hlen.
  - intros j Hj. rewrite WIDTH_32 in Hj. cbn [node_array]. zcmp.
    rewrite nth_error_map, (nth_error_nth' tl Py_None) by lia.
    cbn [option_map]. do 2 f_equal.
    change (el tl j = el l (n + j)). rewrite Htl. apply elem_skipn; lia.
Qed.

(** [conj] on a vector that stores [l] returns a vector that stores
    [l ++ [val]]. *)
Lemma Vector_conj_represents (v : Vector Obj) (l : list Obj) (val : Obj) :
  rep v l ->
  exists v' w, Vector_conj v val = Ok (v', w) /\ rep v' (l ++ [val])
               /\ transient_id v' = transient_id v.
Proof.
  intros (d & Hs & Hc & Ht & Hcap & Hmin & Hh).
  destruct (Vector_tail_off_spec v ltac:(lia))
    as ((q & Hq & Hq0) & Hle & Hsz & Hpos).
  assert (Hlen' : Z.of_nat (length (l ++ [val])) = cnt v + 1)
    by (rewrite length_app; cbn [length]; lia).
  unfold Vector_conj.
  destruct (cnt v - Vector_tail_off v <? WIDTH) eqn:Eroom.
  - (* room in the tail *)
    apply Z.ltb_lt in Eroom. rewrite WIDTH_32 in Eroom.
    eexists _, _. split; [reflexivity|]. split; [|reflexivity].
    set (v' := Vector_create _ _ _ _ _).
    assert (Hoff : Vector_tail_off v' = Vector_tail_off v).
    { apply (proj1 (tail_off_step (cnt v) ltac:(lia))). exact Eroom. }
    exists d. rewrite Hoff. unfold v'. cbn [shift cnt tail root Vector_create].
    split; [exact Hs|]. split; [lia|].
    split; [|split; [exact Hcap|split; [exact Hmin|]]].
    + rewrite Ht, skipn_app.
      replace (Z.to_nat (Vector_tail_off v) - length l)%nat with 0%nat by lia.
      reflexivity.
    + eapply holds_ext; [lia| |exact Hh].
      intros i Hi. symmetry. apply elem_app_l. lia.
  - (* the tail is full *)
    apply Z.ltb_ge in Eroom. rewrite WIDTH_32 in Eroom.
    assert (Hfull : cnt v = Vector_tail_off v + 32) by lia.
    assert (Htl : hold 0 (tail_node_of (tail v) (transient_id v))
                       (Vector_tail_off v) (Vector_tail_off v + 32) l).
    { apply tail_node_of_holds; auto; [lia|].
      rewrite Ht, length_skipn. lia. }
    assert (Hoff : forall (r : VectorNode Obj) (s : Z),
      Vector_tail_off (Vector_create (cnt v + 1) s r [val] (transient_id v))
      = cnt v).
    { intros r s.
      apply (proj2 (tail_off_step (cnt v) ltac:(lia))). exact Eroom. }
    assert (Hnewtail : [val] = skipn (Z.to_nat (cnt v)) (l ++ [val])).
    { rewrite skipn_app, skipn_all2 by lia.
      replace (Z.to_nat (cnt v) - length l)%nat with 0%nat by lia.
      reflexivity. }
    pose proof (capacity_pos d) as Hcd. pose proof (capacity_ge_32 d) as Hc32.
    destruct (Z.shiftr (cnt v) BITS >? Z.shiftl 1 (shift v)) eqn:Eover.
    + (* a new root *)
      assert (Htop : Vector_tail_off v = capacity (S d)).
      { rewrite Z.gtb_ltb in Eover. apply Z.ltb_lt in Eover.
        rewrite Hs, Z.shiftl_1_l in Eover. unfold BITS in Eover.
        rewrite Z.shiftr_div_pow2 in Eover by lia.
        change (2 ^ 5) with 32 in Eover.
        replace (cnt v) with ((q + 1) * 32) in Eover by lia.
        rewrite Z.div_mul in Eover by lia.
        replace (2 ^ (5 * Z.of_nat (S d))) with (capacity d) in Eover.
        2:{ unfold capacity. rewrite WIDTH_32. change 32 with (2 ^ 5).
            rewrite <- Z.pow_mul_r by lia. f_equal. lia. }
        rewrite capacity_S in *. lia. }
      destruct (Vector_new_path_holds (S d) (level_fuel (shift v))
                  (tail_node_of (tail v) (transient_id v))
                  (Vector_tail_off v) l (transient_id v))
        as (p & Hp & Hhp); auto; try lia.
      { unfold level_fuel. rewrite Hs. unfold BITS. lia. }
      rewrite <- Hs in Hp. rewrite Hp. cbn [liftW bindW retW].
      eexists _, _. split; [reflexivity|]. split; [|reflexivity].
      exists (S d). rewrite Hoff. cbn [shift cnt tail root Vector_create].
      pose proof (capacity_ge_32 (S d)) as Hc32'.
      rewrite (capacity_S (S d)).
      split; [rewrite Hs; unfold BITS; lia|].
      split; [lia|]. split; [exact Hnewtail|].
      split; [lia|]. split; [lia|].
      eapply holds_ext with (l := l); [lia| |].
      { intros i Hi. symmetry. apply elem_app_l. lia. }
      rewrite Hfull.
      apply (holds_store_child (S d) _ p 0 (Vector_tail_off v)
               (Vector_tail_off v + 32) l 1);
        [lia | lia | lia | intros j Hj; lia | intros j Hj; nia | |
         replace (0 + 1 * capacity (S d)) with (Vector_tail_off v) by lia;
         exact Hhp].
      apply (holds_store_child (S d) _ (root v) 0 0 (Vector_tail_off v) l 0);
        [lia | lia | lia | intros j Hj; lia | intros j Hj; nia
        | apply holds_create; lia | exact Hh].
    + (* the leaf goes under the root *)
      rewrite Z.gtb_ltb in Eover. apply Z.ltb_ge in Eover.
      assert (Hroom : Vector_tail_off v < capacity (S d)).
      { rewrite Hs, Z.shiftl_1_l in Eover. unfold BITS in Eover.
        rewrite Z.shiftr_div_pow2 in Eover by lia.
        change (2 ^ 5) with 32 in Eover.
        replace (cnt v) with ((q + 1) * 32) in Eover by lia.
        rewrite Z.div_mul in Eover by lia.
        replace (2 ^ (5 * Z.of_nat (S d))) with (capacity d) in Eover.
        2:{ unfold capacity. rewrite WIDTH_32. change 32 with (2 ^ 5).
            rewrite <- Z.pow_mul_r by lia. f_equal. lia. }
        rewrite capacity_S in *. lia. }
      destruct (Vector_push_tail_holds d (level_fuel (shift v)) 0
                  (Vector_tail_off v) l (root v)
                  (tail_node_of (tail v) (transient_id v)) (transient_id v))
        as (r & w & Hr & Hhr); auto; try lia.
      { unfold level_fuel. rewrite Hs. unfold BITS. lia. }
      { exists 0. lia. }
      { exists q. exact Hq. }
      rewrite <- Hs, <- Hfull in Hr. rewrite Hr. cbn [liftW bindW retW].
      eexists _, _. split; [reflexivity|]. split; [|reflexivity].
      exists d. rewrite Hoff. cbn [shift cnt tail root Vector_create].
      split; [exact Hs|]. split; [lia|]. split; [exact Hnewtail|].
      split; [pose proof (capacity_S d); lia|].
      split; [intros Hd; specialize (Hmin Hd); lia|].
      eapply holds_ext with (l := l); [lia| |].
      { intros i Hi. symmetry. apply elem_app_l. lia. }
      rewrite Hfull. exact Hhr.
Qed.

Lemma EMPTY_VECTOR_represents : rep (EMPTY_VECTOR Obj) [].
Proof.
  exists 0%nat. cbn. repeat split; try lia; try reflexivity.
  intros j Hj. change (0 + j * capacity 0 <? 0) with (0 + j * 32 <? 0). zcmp.
  apply nth_error_repeat. lia.
Qed.

Lemma Vector_conj_all_represents (xs : list Obj) :
  forall (v : Vector Obj) (l : list Obj),
    rep v l ->
    exists v', Vector_conj_all v xs = Ok v' /\ rep v' (l ++ xs).
Proof.
  induction xs as [|x xs IH]; intros v l Hr.
  - exists v. rewrite app_nil_r. auto.
  - destruct (Vector_conj_represents v l x Hr) as (v1 & w & Hc & Hr1 & _).
    cbn [Vector_conj_all]. rewrite Hc.
    destruct (IH v1 (l ++ [x]) Hr1) as (v' & Hv' & Hr').
    exists v'. split; auto. now rewrite <- app_assoc in Hr'.
Qed.

(** *** Updating *)

Lemma Vector_do_assoc_holds (d : nat) : forall (fuel : nat)
    (node : VectorNode Obj) (base n i : Z) (l : list Obj) (val : Obj),
  (d <= fuel)%nat -> 0 <= base ->
  (exists q, base = q * capacity d) ->
  base <= i < base + capacity d -> i < n -> n <= Z.of_nat (length l) ->
  hold d node base n l ->
  exists r, Vector_do_assoc fuel (BITS * Z.of_nat d) node i val = Ok r
            /\ hold d r base n (set_item l i val).
Proof.
  induction d as [|d IH]; intros fuel node base n i l val Hf Hb Hq Hi Hn Hl Hh.
  - assert (Hgoal : hold 0 (node_store (VectorNode_clone node None)
                              (Z.land i MASK) (VItem val)) base n
                         (set_item l i val)).
    { destruct Hh as [Hlen H]. rewrite capacity_0 in *.
      assert (Hm : Z.land i MASK = i - base).
      { rewrite land_MASK_mod. destruct Hq as [q Hq].
        symmetry. apply (Z.mod_unique i 32 q); lia. }
      rewrite Hm. split.
      - destruct node. cbn [node_store node_array VectorNode_clone].
        rewrite set_item_length. exact Hlen.
      - intros j Hj. rewrite WIDTH_32 in Hj.
        destruct node as [arr tid].
        cbn [node_store node_array VectorNode_clone] in *.
        rewrite nth_error_set_item by (rewrite ?Hlen, ?WIDTH_32; lia).
        rewrite elem_set_item by lia.
        specialize (H j ltac:(rewrite WIDTH_32; lia)).
        destruct (j =? i - base) eqn:E.
        + apply Z.eqb_eq in E. zcmp. reflexivity.
        + apply Z.eqb_neq in E. zcmp. exact H. }
    exists (node_store (VectorNode_clone node None) (Z.land i MASK) (VItem val)).
    split; [|exact Hgoal]. destruct fuel; reflexivity.
  - destruct fuel as [|fuel]; [lia|]. cbn [Vector_do_assoc].
    replace (BITS * Z.of_nat (S d) =? 0) with false
      by (symmetry; apply Z.eqb_neq; unfold BITS; lia).
    replace (BITS * Z.of_nat (S d) - BITS) with (BITS * Z.of_nat d)
      by (unfold BITS; lia).
    destruct (slot_of_index d base i Hq Hi) as [Hslot Hr].
    rewrite Hslot. set (k := (i - base) / capacity d) in *.
    pose proof (capacity_pos d) as Hc.
    assert (Hk : base + k * capacity d <= i
                 < base + k * capacity d + capacity d).
    { pose proof (Z.mul_div_le (i - base) (capacity d) Hc) as H1.
      pose proof (Z.mul_succ_div_gt (i - base) (capacity d) Hc) as H2.
      fold k in H1, H2. lia. }
    pose proof Hh as [Hlen H]. pose proof (H k ltac:(rewrite WIDTH_32; lia)) as Hk'.
    replace (base + k * capacity d <? n) with true in Hk'
      by (symmetry; apply Z.ltb_lt; lia).
    destruct Hk' as (c & Hc' & Hhc).
    rewrite (get_item_of_nth_error _ _ k _ (proj1 Hr) Hc'). cbn [bind as_node].
    destruct (IH fuel c (base + k * capacity d) n i l val)
      as (r & Hr' & Hhr); auto; try lia.
    { destruct Hq as [q Hq]. exists (q * 32 + k). rewrite Hq, capacity_S. lia. }
    rewrite Hr'. cbn [bind]. eexists. split; [reflexivity|].
    (* the other slots hold what they held *)
    split.
    + destruct node. cbn [node_store node_array VectorNode_clone].
      rewrite set_item_length. exact Hlen.
    + intros j Hj. rewrite WIDTH_32 in Hj. destruct node as [arr tid].
      cbn [node_store node_array VectorNode_clone] in *.
      rewrite nth_error_set_item by (rewrite ?Hlen, ?WIDTH_32; lia).
      specialize (H j ltac:(rewrite WIDTH_32; lia)).
      destruct (j =? k) eqn:E.
      * apply Z.eqb_eq in E. subst j. zcmp. exists r. auto.
      * apply Z.eqb_neq in E.
        destruct (base + j * capacity d <? n) eqn:En; [|exact H].
        destruct H as (cj & Hcj & Hhj). exists cj. split; auto.
        eapply holds_ext_range; [| |exact Hhj]; [nia|].
        intros m Hm Hmn.
        assert (Hmi : m <> i) by nia.
        rewrite elem_set_item by lia. zcmp. reflexivity.
Qed.

Lemma skipn_set_item (l : list Obj) (k i : Z) (x : Obj) :
  0 <= k <= i -> i < Z.of_nat (length l) ->
  skipn (Z.to_nat k) (set_item l i x)
  = set_item (skipn (Z.to_nat k) l) (i - k) x.
Proof.
  intros Hk Hi.
  apply nth_error_ext. intros m.
  rewrite nth_error_skipn.
  destruct (Nat.lt_ge_cases m (length l - Z.to_nat k)) as [Hlt|Hge].
  - replace (Z.to_nat k + m)%nat with (Z.to_nat (k + Z.of_nat m)) by lia.
    replace m with (Z.to_nat (Z.of_nat m)) at 2 by lia.
    rewrite !nth_error_set_item by (rewrite ?length_skipn; lia).
    rewrite Nat2Z.id, nth_error_skipn.
    replace (Z.to_nat (k + Z.of_nat m)) with (Z.to_nat k + m)%nat by lia.
    destruct (k + Z.of_nat m =? i) eqn:E1; destruct (Z.of_nat m =? i - k) eqn:E2;
      try reflexivity;
      try apply Z.eqb_eq in E1; try apply Z.eqb_neq in E1;
      try apply Z.eqb_eq in E2; try apply Z.eqb_neq in E2; lia.
  - transitivity (@None Obj); [|symmetry]; apply nth_error_None;
      rewrite ?set_item_length, ?length_skipn; lia.
Qed.

(** [assoc] at an index below the count replaces that element. *)
Lemma Vector_assoc_represents (v : Vector Obj) (l : list Obj) (i : Z)
      (val : Obj) :
  rep v l -> 0 <= i < cnt v ->
  exists v' w, Vector_assoc v i val = Ok (v', w)
               /\ rep v' (set_item l i val).
Proof.
  intros (d & Hs & Hc & Ht & Hcap & Hmin & Hh) Hi.
  destruct (Vector_tail_off_spec v ltac:(lia))
    as ((q & Hq & Hq0) & Hle & Hsz & Hpos).
  unfold Vector_assoc. zcmp. cbn [orb].
  assert (Hoff : forall (r : VectorNode Obj) (tl : list Obj),
             Vector_tail_off (Vector_create (cnt v) (shift v) r tl None)
             = Vector_tail_off v) by reflexivity.
  destruct (i >=? Vector_tail_off v) eqn:E.
  - rewrite Z.geb_leb in E. apply Z.leb_le in E.
    eexists _, _. split; [reflexivity|].
    exists d. rewrite Hoff. cbn [shift cnt tail root Vector_create].
    split; [exact Hs|]. split; [rewrite set_item_length; exact Hc|].
    split; [|split; [exact Hcap|split; [exact Hmin|]]].
    + rewrite skipn_set_item, <- Ht by lia. f_equal.
      rewrite land_MASK_mod. symmetry. apply (Z.mod_unique i 32 q); lia.
    + eapply holds_ext; [lia| |exact Hh]. intros m Hm.
      rewrite elem_set_item by lia. zcmp. reflexivity.
  - rewrite Z.geb_leb in E. apply Z.leb_gt in E.
    destruct (Vector_do_assoc_holds (S d) (level_fuel (shift v)) (root v) 0
                (Vector_tail_off v) i l val) as (r & Hr & Hhr); auto; try lia.
    { unfold level_fuel. rewrite Hs. unfold BITS. lia. }
    { exists 0. lia. }
    rewrite <- Hs in Hr. rewrite Hr. cbn [liftW bindW retW].
    eexists _, _. split; [reflexivity|].
    exists d. rewrite Hoff. cbn [shift cnt tail root Vector_create].
    split; [exact Hs|]. split; [rewrite set_item_length; exact Hc|].
    split; [|split; [exact Hcap|split; [exact Hmin|exact Hhr]]].
    rewrite Ht. apply nth_error_ext. intros m.
    rewrite !nth_error_skipn.
    replace (Z.to_nat (Vector_tail_off v) + m)%nat
      with (Z.to_nat (Vector_tail_off v + Z.of_nat m)) by lia.
    rewrite nth_error_set_item by lia. zcmp. reflexivity.
Qed.

(** *** Popping *)

Lemma holds_store_null (d : nat) (node : VectorNode Obj) (base n n' : Z)
      (l : list Obj) (k : Z) :
  0 <= k < 32 ->
  n' <= base + k * capacity d ->
  (forall j, 0 <= j < k -> base + j * capacity d + capacity d <= n') ->
  (forall j, 0 <= j < k -> base + j * capacity d + capacity d <= n) ->
  (forall j, k < j < 32 -> n <= base + j * capacity d) ->
  hold (S d) node base n l ->
  hold (S d) (node_store (VectorNode_clone node None) k (VNull Obj))
       base n' l.
Proof.
  intros Hk Hkn Hlow' Hlow Hhigh [Hlen H]. destruct node as [arr tid].
  cbn [node_array] in *.
  split; cbn [node_store node_array VectorNode_clone].
  - now rewrite set_item_length.
  - intros j Hj.
    rewrite nth_error_set_item by (rewrite ?Hlen, ?WIDTH_32; lia).
    rewrite WIDTH_32 in Hj. pose proof (capacity_pos d).
    destruct (j =? k) eqn:Ejk.
    + apply Z.eqb_eq in Ejk. subst j. zcmp. reflexivity.
    + apply Z.eqb_neq in Ejk.
      specialize (H j ltac:(rewrite WIDTH_32; lia)).
      destruct (Z_lt_dec j k) as [Hlt|Hgt].
      * specialize (Hlow j ltac:(lia)). specialize (Hlow' j ltac:(lia)).
        replace (base + j * capacity d <? n) with true in H
          by (symmetry; apply Z.ltb_lt; lia).
        replace (base + j * capacity d <? n') with true
          by (symmetry; apply Z.ltb_lt; lia).
        destruct H as (cj & Hcj & Hh). exists cj. split; auto.
        eapply holds_full; [| |exact Hh]; lia.
      * specialize (Hhigh j ltac:(lia)).
        replace (base + j * capacity d <? n) with false in H
          by (symmetry; apply Z.ltb_ge; lia).
        replace (base + j * capacity d <? n') with false
          by (symmetry; apply Z.ltb_ge; nia).
        exact H.
Qed.

(** [Vector_pop_tail] takes the last leaf out: [NULL] when the node held
    no other leaf. *)
Lemma Vector_pop_tail_holds (d : nat) : forall (fuel : nat) (base n : Z)
    (l : list Obj) (node : VectorNode Obj),
  (d <= fuel)%nat ->
  0 <= base ->
  (exists q, base = q * capacity (S d)) ->
  (exists q, n = 32 * q) ->
  base < n <= base + capacity (S d) ->
  hold (S d) node base n l ->
  exists r,
    Vector_pop_tail fuel (n + 1) (BITS * Z.of_nat (S d)) node = Ok r
    /\ match r with
       | None => n - 32 = base
       | Some r' => base < n - 32 /\ hold (S d) r' base (n - 32) l
       end.
Proof.
  induction d as [|d IH]; intros fuel base n l node Hf Hb0 Hq Hn32 Hn Hh.
  - destruct fuel as [|fuel]; cbn [Vector_pop_tail];
      replace (n + 1 - 2) with (n - 1) by lia;
      change (BITS * Z.of_nat 1 >? BITS) with false; cbv iota;
      (destruct (slot_of_index 0 base (n - 1) Hq) as [Hslot Hk];
       [rewrite capacity_S, capacity_0 in *; lia|]);
      rewrite Hslot; set (k := (n - 1 - base) / capacity 0) in *;
      (assert (Hkn : base + k * 32 = n - 32);
       [destruct Hq as [q Hq], Hn32 as [m Hm];
        rewrite capacity_S, capacity_0 in Hq;
        assert (k = m - 1 - q * 32); [|lia];
        symmetry; unfold k; rewrite capacity_0;
        apply (Z.div_unique (n - 1 - base) 32 (m - 1 - q * 32) 31); lia|]);
      (destruct (k =? 0) eqn:Ek;
       [apply Z.eqb_eq in Ek; exists None; split; [reflexivity|lia]|]);
      apply Z.eqb_neq in Ek;
      (eexists (Some _); split; [reflexivity|]); (split; [lia|]);
      apply (holds_store_null 0 node base n (n - 32) l k);
      rewrite ?capacity_0;
      [lia | lia | intros j Hj; nia | intros j Hj; nia | intros j Hj; nia
      | exact Hh | lia | lia | intros j Hj; nia | intros j Hj; nia
      | intros j Hj; nia | exact Hh].
  - destruct fuel as [|fuel]; [lia|]. cbn [Vector_pop_tail].
    replace (n + 1 - 2) with (n - 1) by lia.
    replace (BITS * Z.of_nat (S (S d)) >? BITS) with true
      by (symmetry; apply gtb_true; unfold BITS; lia).
    replace (BITS * Z.of_nat (S (S d)) - BITS) with (BITS * Z.of_nat (S d))
      by (unfold BITS; lia).
    pose proof (capacity_pos (S d)) as Hcpos.
    destruct (capacity_div_32 (S d)) as (c32 & Hc32 & Hc32pos).
    destruct (slot_of_index (S d) base (n - 1) Hq) as [Hslot Hk].
    { rewrite (capacity_S (S d)) in *. lia. }
    rewrite Hslot. set (k := (n - 1 - base) / capacity (S d)) in *.
    assert (Hkn : base + k * capacity (S d) < n
                  <= base + k * capacity (S d) + capacity (S d)).
    { pose proof (Z.mul_div_le (n - 1 - base) _ Hcpos) as H1.
      pose proof (Z.mul_succ_div_gt (n - 1 - base) _ Hcpos) as H2.
      fold k in H1, H2. lia. }
    pose proof Hh as [Hlen H].
    pose proof (H k ltac:(rewrite WIDTH_32; lia)) as Hslotk.
    replace (base + k * capacity (S d) <? n) with true in Hslotk
      by (symmetry; apply Z.ltb_lt; lia).
    destruct Hslotk as (c & Hc & Hhc).
    rewrite (get_item_of_nth_error _ _ k _ (proj1 Hk) Hc). cbn [bind as_node].
    destruct (IH fuel (base + k * capacity (S d)) n l c)
      as (rc & Hrc & Hprop); auto; try lia.
    { destruct Hq as [q Hq]. exists (q * 32 + k).
      rewrite Hq, (capacity_S (S d)). lia. }
    rewrite Hrc. cbn [bind].
    destruct rc as [nc|].
    + destruct Hprop as [Hlt Hhnc].
      eexists (Some _). split; [reflexivity|]. split; [nia|].
      apply (holds_clone (S (S d)) node base n l None) in Hh.
      apply (holds_store_child_gen (S d) _ nc base n (n - 32) l k);
        [lia | lia | intros j Hj; nia | intros j Hj; nia | intros j Hj; nia
        | intros j Hj; nia | exact Hh | exact Hhnc].
    + destruct (k =? 0) eqn:Ek.
      * apply Z.eqb_eq in Ek. exists None. split; [reflexivity|]. lia.
      * apply Z.eqb_neq in Ek.
        eexists (Some _). split; [reflexivity|]. split; [nia|].
        apply (holds_store_null (S d) node base n (n - 32) l k);
          [lia | lia | intros j Hj; nia | intros j Hj; nia
          | intros j Hj; nia | exact Hh].
Qed.

Lemma tail_off_pred (c : Z) :
  2 <= c ->
  let off := fun x => if x <? WIDTH then 0
                      else Z.shiftl (Z.shiftr (x - 1) BITS) BITS in
  (1 < c - off c -> off (c - 1) = off c)
  /\ (c - off c <= 1 -> off (c - 1) = c - 1 - 32 /\ off c = c - 1).
Proof.
  intros Hc. cbv zeta beta. rewrite WIDTH_32. unfold BITS.
  rewrite !Z.shiftl_mul_pow2, !Z.shiftr_div_pow2 by lia.
  change (2 ^ 5) with 32.
  destruct (c <? 32) eqn:E1; destruct (c - 1 <? 32) eqn:E2;
    try apply Z.ltb_lt in E1; try apply Z.ltb_ge in E1;
    try apply Z.ltb_lt in E2; try apply Z.ltb_ge in E2;
    split; intros H; try lia;
    Z.to_euclidean_division_equations; lia.
Qed.

Lemma elem_removelast (l : list Obj) (i : Z) :
  0 <= i < Z.of_nat (length l) - 1 -> el (removelast l) i = el l i.
Proof.
  intros Hi. unfold elem. rewrite removelast_firstn_len.
  rewrite nth_firstn.
  replace (Z.to_nat i <? Init.Nat.pred (length l))%nat with true; auto.
  symmetry. apply Nat.ltb_lt. lia.
Qed.

Lemma length_removelast (l : list Obj) :
  l <> [] -> Z.of_nat (length (removelast l)) = Z.of_nat (length l) - 1.
Proof.
  intros Hl. rewrite removelast_firstn_len, length_firstn.
  destruct l; [congruence|]. cbn [length]. lia.
Qed.

(** [pop] on a vector that stores a non-empty [l] returns a vector that
    stores [l] without its last element. *)
Lemma Vector_pop_represents (v : Vector Obj) (l : list Obj) :
  rep v l -> 0 < cnt v ->
  exists r, Vector_pop Py_None v = Ok r
            /\ rep (deref_vector v r) (removelast l).
Proof.
  intros (d & Hs & Hc & Ht & Hcap & Hmin & Hh) Hpos.
  assert (Hl : l <> []) by (intros ->; cbn in Hc; lia).
  pose proof (length_removelast l Hl) as Hlen'.
  destruct (Vector_tail_off_spec v ltac:(lia))
    as ((q & Hq & Hq0) & Hle & Hsz & Hlt).
  unfold Vector_pop. zcmp.
  destruct (cnt v =? 1) eqn:E1.
  { apply Z.eqb_eq in E1. exists ret_canonical_empty. split; auto.
    cbn [deref_vector].
    replace (removelast l) with (@nil Obj); [apply EMPTY_VECTOR_represents|].
    symmetry. apply length_zero_iff_nil. lia. }
  apply Z.eqb_neq in E1.
  destruct (cnt v - Vector_tail_off v >? 1) eqn:E2.
  - (* the tail keeps an element *)
    rewrite Z.gtb_ltb in E2. apply Z.ltb_lt in E2.
    eexists (ret_new _). split; [reflexivity|]. cbn [deref_vector].
    set (v' := Vector_create _ _ _ _ _).
    assert (Hoff : Vector_tail_off v' = Vector_tail_off v).
    { apply (proj1 (tail_off_pred (cnt v) ltac:(lia))). exact E2. }
    exists d. rewrite Hoff. unfold v'. cbn [shift cnt tail root Vector_create].
    split; [exact Hs|]. split; [lia|].
    split; [|split; [exact Hcap|split; [exact Hmin|]]].
    + rewrite Ht, removelast_firstn_len, length_skipn, skipn_firstn_comm.
      f_equal. lia.
    + eapply holds_ext; [lia| |exact Hh].
      intros i Hi. symmetry. apply elem_removelast. lia.
  - (* the last leaf of the trie becomes the tail *)
    rewrite Z.gtb_ltb in E2. apply Z.ltb_ge in E2.
    destruct (proj2 (tail_off_pred (cnt v) ltac:(lia)) E2) as [Hoff' Hoff].
    fold (Vector_tail_off v) in Hoff.
    set (n := Vector_tail_off v) in *.
    assert (Hn32 : 32 <= n) by lia.
    (* the new tail *)
    destruct (descend_holds (S d) (level_fuel (shift v)) (root v) 0 n
                (cnt v - 2) l) as (leaf & Hd & Hleaf); auto; try lia.
    { unfold level_fuel. rewrite Hs. unfold BITS. lia. }
    { exists 0. lia. }
    assert (Hlb : 32 * ((cnt v - 2) / 32) = n - 32).
    { Z.to_euclidean_division_equations. lia. }
    rewrite Hlb in Hleaf.
    destruct (leaf_read leaf (n - 32) n l 0 Hleaf ltac:(lia) ltac:(lia))
      as (arr & Harr & Harrlen & _ & Hnth).
    assert (Htail' : arr = skipn (Z.to_nat (n - 32)) (removelast l)).
    { apply nth_error_ext. intros m.
      destruct (Nat.lt_ge_cases m 32) as [Hm|Hm].
      - replace m with (Z.to_nat (Z.of_nat m)) at 1 by lia.
        rewrite Hnth by lia. zcmp.
        rewrite nth_error_skipn.
        rewrite (nth_error_nth' _ Py_None) by lia.
        f_equal.
        replace (Z.to_nat (n - 32) + m)%nat
          with (Z.to_nat (n - 32 + Z.of_nat m)) by lia.
        change (el l (n - 32 + Z.of_nat m)
                = el (removelast l) (n - 32 + Z.of_nat m)).
        rewrite elem_removelast by lia. reflexivity.
      - transitivity (@None Obj); [|symmetry]; apply nth_error_None;
          rewrite ?length_skipn; change (Z.to_nat WIDTH) with 32%nat in *; lia. }
    unfold Vector_array_for.
    replace ((cnt v - 2 <? 0) || (cnt v - 2 >=? cnt v)) with false
      by (symmetry; zcmp; reflexivity).
    fold n. zcmp. rewrite <- Hs in Hd. rewrite Hd. cbn [bind].
    rewrite Harr. cbn [bind].
    (* the trie without its last leaf *)
    destruct (Vector_pop_tail_holds d (level_fuel (shift v)) 0 n l (root v))
      as (popped & Hpop & Hprop); auto; try lia.
    { unfold level_fuel. rewrite Hs. unfold BITS. lia. }
    { exists 0. lia. }
    { exists q. exact Hq. }
    replace (n + 1) with (cnt v) in Hpop by lia.
    rewrite <- Hs in Hpop. rewrite Hpop. cbn [bind].
    assert (Hoffn : forall (r : VectorNode Obj) (s : Z),
      Vector_tail_off (Vector_create (cnt v - 1) s r arr None) = n - 32).
    { intros r s. unfold Vector_tail_off at 1. cbn [cnt Vector_create].
      rewrite Hoff'. lia. }
    assert (Hext : forall i, 0 <= i < n - 32 -> el l i = el (removelast l) i).
    { intros i Hi. symmetry. apply elem_removelast. lia. }
    pose proof (capacity_ge_32 d) as Hc32.
    destruct popped as [r|].
    + destruct Hprop as [Hgt Hhr]. pose proof Hhr as [Hrlen Hslots].
      pose proof (Hslots 1 ltac:(rewrite WIDTH_32; lia)) as Hs1.
      pose proof (Hslots 0 ltac:(rewrite WIDTH_32; lia)) as Hs0.
      replace (0 + 1 * capacity d) with (capacity d) in Hs1 by lia.
      replace (0 + 0 * capacity d <? n - 32) with true in Hs0
        by (symmetry; apply Z.ltb_lt; lia).
      destruct Hs0 as (c0 & Hc0 & Hhc0).
      destruct (capacity d <? n - 32) eqn:E3.
      * (* the root keeps a second child *)
        apply Z.ltb_lt in E3. destruct Hs1 as (c1 & Hc1 & _).
        rewrite (get_item_of_nth_error _ _ 1 _ ltac:(lia) Hc1). cbn [bind].
        rewrite andb_false_r. cbn [bind].
        eexists (ret_new _). split; [reflexivity|]. cbn [deref_vector].
        exists d. rewrite Hoffn. cbn [shift cnt tail root Vector_create].
        split; [exact Hs|]. split; [lia|]. split; [exact Htail'|].
        split; [lia|]. split; [intros _; lia|].
        eapply holds_ext; [lia| |exact Hhr]. intros i Hi. apply Hext. lia.
      * apply Z.ltb_ge in E3.
        rewrite (get_item_of_nth_error _ _ 1 _ ltac:(lia) Hs1). cbn [bind].
        destruct d as [|d'].
        -- (* one level: the root stays *)
           replace (shift v >? BITS) with false
             by (symmetry; apply gtb_false; rewrite Hs; unfold BITS; lia).
           cbn [andb bind].
           eexists (ret_new _). split; [reflexivity|]. cbn [deref_vector].
           exists 0%nat. rewrite Hoffn. cbn [shift cnt tail root Vector_create].
           split; [exact Hs|]. split; [lia|]. split; [exact Htail'|].
           split; [lia|]. split; [congruence|].
           eapply holds_ext; [lia| |exact Hhr]. intros i Hi. apply Hext. lia.
        -- (* the root has one child left: that child is the new root *)
           replace (shift v >? BITS) with true
             by (symmetry; apply gtb_true; rewrite Hs; unfold BITS; lia).
           cbn [andb bind].
           rewrite (get_item_of_nth_error _ _ 0 _ ltac:(lia) Hc0).
           cbn [bind as_node].
           eexists (ret_new _). split; [reflexivity|]. cbn [deref_vector].
           specialize (Hmin ltac:(congruence)).
           assert (Hneq : n - 32 = capacity (S d')).
           { destruct (capacity_div_32 (S d')) as (c32 & Hc32e & _). lia. }
           exists d'. rewrite Hoffn. cbn [shift cnt tail root Vector_create].
           split; [rewrite Hs; unfold BITS; lia|]. split; [lia|].
           split; [exact Htail'|].
           split; [lia|].
           split; [intros _; rewrite Hneq, capacity_S;
                   pose proof (capacity_pos d'); lia|].
           replace (0 + 0 * capacity (S d')) with 0 in Hhc0 by lia.
           eapply holds_ext; [lia| |exact Hhc0]. intros i Hi. apply Hext. lia.
    + (* the trie is empty *)
      assert (Hd0 : d = 0%nat).
      { destruct d; auto. specialize (Hmin ltac:(congruence)).
        pose proof (capacity_ge_32 d). rewrite capacity_S in Hmin. lia. }
      subst d.
      change (get_item (node_array (EMPTY_NODE Obj)) 1) with (Ok (VNull Obj)).
      cbn [bind].
      replace (shift v >? BITS) with false
        by (symmetry; apply gtb_false; rewrite Hs; unfold BITS; lia).
      cbn [andb bind].
      eexists (ret_new _). split; [reflexivity|]. cbn [deref_vector].
      exists 0%nat. rewrite Hoffn. cbn [shift cnt tail root Vector_create].
      split; [exact Hs|]. split; [lia|]. split; [exact Htail'|].
      split; [lia|]. split; [congruence|].
      apply holds_create. lia.
Qed.

(** *** Transients *)

Local Abbreviation trep := (tv_represents Py_None).

Lemma TransientVector_conj_mut_raw_as_conj (t : TransientVector Obj)
      (val : Obj) :
  TransientVector_conj_mut_raw t val
  = (v <~ Vector_conj (tv_vector t) val ;;
     retW (mkTransientVector (cnt v) (shift v) (root v) (tail v)
                             (transient_id v))).
Proof.
  unfold TransientVector_conj_mut_raw, Vector_conj, tv_vector,
    TransientVector_tail_off, Vector_tail_off, TransientVector_new_path,
    TransientVector_push_tail.
  cbn [cnt shift root tail transient_id Vector_create].
  destruct (tv_cnt t - _ <? WIDTH); [reflexivity|].
  destruct (Z.shiftr (tv_cnt t) BITS >? Z.shiftl 1 (tv_shift t)).
  - destruct (Vector_new_path _ _ _ _); reflexivity.
  - destruct (Vector_push_tail _ _ _ _ _ _) as [[r w]|e]; [|reflexivity].
    cbn [bindW retW]. repeat f_equal; lia.
Qed.

Lemma tv_vector_transient (v : Vector Obj) (l : list Obj) (id : token) :
  rep v l -> trep (Vector_transient v id) l.
Proof.
  intros (d & Hs & Hc & Ht & Hcap & Hmin & Hh). exists d.
  unfold tv_vector, Vector_transient.
  change (Vector_tail_off (Vector_create _ _ _ _ _)) with (Vector_tail_off v).
  cbn [cnt shift root tail Vector_create tv_cnt tv_shift tv_root tv_tail].
  repeat (split; [assumption|]). apply holds_clone. exact Hh.
Qed.

Lemma TransientVector_conj_mut_represents (t : TransientVector Obj)
      (l : list Obj) (val : Obj) :
  trep t l -> tv_id t <> None ->
  exists t' w, TransientVector_conj_mut t val = Ok (t', w)
               /\ trep t' (l ++ [val]) /\ tv_id t' = tv_id t.
Proof.
  intros Hr Hid. unfold TransientVector_conj_mut,
    TransientVector_ensure_editable.
  destruct (tv_id t) eqn:E; [|congruence]. cbn [liftW bindW].
  rewrite TransientVector_conj_mut_raw_as_conj.
  destruct (Vector_conj_represents _ l val Hr) as (v' & w & Hc & Hr' & Htid).
  rewrite Hc. cbn [bindW retW]. eexists _, _. split; [reflexivity|].
  split.
  - unfold tv_represents, tv_vector.
    cbn [tv_cnt tv_shift tv_root tv_tail tv_id].
    destruct Hr' as (d & H). exists d. exact H.
  - cbn [tv_id]. rewrite Htid. cbn [tv_vector transient_id Vector_create].
    exact E.
Qed.

Lemma conj_mut_all_represents (items : list Obj) :
  forall (t : TransientVector Obj) (l : list Obj),
    trep t l -> tv_id t <> None ->
    exists t' w, conj_mut_all t items = Ok (t', w)
                 /\ trep t' (l ++ items) /\ tv_id t' = tv_id t.
Proof.
  induction items as [|x items IH]; intros t l Hr Hid.
  - exists t, 0%nat. rewrite app_nil_r. auto.
  - cbn [conj_mut_all].
    destruct (TransientVector_conj_mut_represents t l x Hr Hid)
      as (t1 & w1 & Hc & Hr1 & Hid1).
    rewrite Hc. cbn [bindW].
    destruct (IH t1 (l ++ [x]) Hr1 ltac:(congruence))
      as (t' & w' & Hc' & Hr' & Hid').
    rewrite Hc'. eexists _, _. split; [reflexivity|].
    rewrite <- app_assoc in Hr'. split; [exact Hr'|congruence].
Qed.

Lemma TransientVector_persistent_represents (t : TransientVector Obj)
      (l : list Obj) :
  trep t l -> tv_id t <> None ->
  exists v t', TransientVector_persistent t = Ok (v, t')
               /\ rep v l /\ tv_id t' = None.
Proof.
  intros Hr Hid. unfold TransientVector_persistent,
    TransientVector_ensure_editable.
  destruct (tv_id t) eqn:E; [|congruence]. cbn [bind].
  eexists _, _. split; [reflexivity|]. split; [|reflexivity].
  destruct Hr as (d & H). exists d. exact H.
Qed.

(** *** Chunks: the tail or a leaf *)

Lemma chunk_start_spec (i : Z) :
  0 <= i ->
  let cs := Z.shiftl (Z.shiftr i BITS) BITS in
  cs = 32 * (i / 32) /\ cs <= i < cs + 32 /\ 0 <= cs.
Proof.
  intros Hi. cbv zeta. unfold BITS.
  rewrite Z.shiftl_mul_pow2, Z.shiftr_div_pow2 by lia.
  change (2 ^ 5) with 32. Z.to_euclidean_division_equations. lia.
Qed.

(** Every element of the chunk of [i] is read through what
    [Vector_node_for] returns for [i]. *)
Lemma Vector_node_for_represents (v : Vector Obj) (l : list Obj) (i : Z) :
  rep v l -> 0 <= i < cnt v ->
  exists node, Vector_node_for v i = Ok node
    /\ (node = None <-> Vector_tail_off v <= i)
    /\ forall j, 32 * (i / 32) <= j < 32 * (i / 32) + 32 -> j < cnt v ->
         chunk_item Py_None v node j = Ok (el l j).
Proof.
  intros (d & Hs & Hc & Ht & Hcap & Hmin & Hh) Hi.
  destruct (Vector_tail_off_spec v ltac:(lia))
    as ((q & Hq & Hq0) & Hle & Hsz & _).
  unfold Vector_node_for.
  destruct (i >=? Vector_tail_off v) eqn:E.
  - rewrite Z.geb_leb in E. apply Z.leb_le in E.
    exists None. split; [reflexivity|]. split; [tauto|].
    intros j Hj Hjc. cbn [chunk_item]. rewrite land_MASK_mod.
    assert (Hjo : Vector_tail_off v <= j).
    { Z.to_euclidean_division_equations. lia. }
    assert (Hm : j mod 32 = j - Vector_tail_off v).
    { symmetry. apply (Z.mod_unique j 32 q); lia. }
    rewrite Hm, Ht.
    rewrite (get_item_Ok_nth _ _ _ Py_None) by (rewrite length_skipn; lia).
    f_equal. change (el (skipn (Z.to_nat (Vector_tail_off v)) l)
                        (j - Vector_tail_off v) = el l j).
    rewrite elem_skipn by lia. f_equal. lia.
  - rewrite Z.geb_leb in E. apply Z.leb_gt in E.
    destruct (descend_holds (S d) (level_fuel (shift v)) (root v) 0
                (Vector_tail_off v) i l) as (leaf & Hd & Hl); auto; try lia.
    { unfold level_fuel. rewrite Hs. unfold BITS. lia. }
    { exists 0. lia. }
    rewrite <- Hs in Hd. rewrite Hd. cbn [bind].
    exists (Some leaf). split; [reflexivity|].
    split; [split; [discriminate|lia]|].
    intros j Hj Hjc. cbn [chunk_item]. rewrite land_MASK_mod.
    assert (Hjo : j < Vector_tail_off v).
    { Z.to_euclidean_division_equations. lia. }
    destruct Hl as [Hlen Hslots].
    pose proof (Z.mod_pos_bound j 32 ltac:(lia)) as Hm.
    specialize (Hslots (j mod 32) ltac:(rewrite WIDTH_32; lia)).
    assert (Hje : 32 * (i / 32) + j mod 32 = j).
    { Z.to_euclidean_division_equations. lia. }
    rewrite Hje in Hslots.
    replace (j <? Vector_tail_off v) with true in Hslots
      by (symmetry; apply Z.ltb_lt; lia).
    rewrite (get_item_of_nth_error _ _ _ _ (proj1 Hm) Hslots).
    reflexivity.
Qed.

(** *** [Vector_to_seq] *)

Lemma cons_onto_app (l1 l2 : list Obj) (rest : ConsRest Obj) :
  cons_onto (l1 ++ l2) rest = cons_onto l1 (cons_onto l2 rest).
Proof. unfold cons_onto. apply fold_right_app. Qed.

Lemma slice_snoc (l : list Obj) (a : Z) (k : nat) :
  0 <= a -> a + Z.of_nat k < Z.of_nat (length l) ->
  slice l a (S k) = slice l a k ++ [el l (a + Z.of_nat k)].
Proof.
  intros Ha Hk. unfold slice.
  rewrite (firstn_succ_nth _ _ k Py_None) by (rewrite length_skipn; lia).
  do 2 f_equal. rewrite nth_skipn. unfold elem. f_equal. lia.
Qed.

Lemma to_seq_chunk_spec (v : Vector Obj) (l : list Obj)
      (node : option (VectorNode Obj)) (k : nat) :
  forall (j : Z) (res : ConsRest Obj),
    cnt v = Z.of_nat (length l) ->
    0 <= j - Z.of_nat k + 1 -> j < cnt v ->
    (forall m, j - Z.of_nat k + 1 <= m <= j ->
               chunk_item Py_None v node m = Ok (el l m)) ->
    to_seq_chunk Py_None k v node j res
    = Ok (cons_onto (slice l (j - Z.of_nat k + 1) k) res).
Proof.
  induction k as [|k IH]; intros j res Hc Hlo Hhi Hitems.
  - reflexivity.
  - cbn [to_seq_chunk]. rewrite Hitems by lia. cbn [bind].
    rewrite IH; try lia.
    + replace (j - 1 - Z.of_nat k + 1) with (j - Z.of_nat (S k) + 1) by lia.
      rewrite slice_snoc by lia.
      rewrite cons_onto_app. cbn [cons_onto fold_right].
      do 5 f_equal. lia.
    + intros m Hm. apply Hitems. lia.
Qed.

Lemma to_seq_loop_spec (v : Vector Obj) (l : list Obj) :
  rep v l ->
  forall (fuel : nat) (i : Z) (res : ConsRest Obj),
    -1 <= i < cnt v -> (Z.to_nat (i + 1) < fuel)%nat ->
    to_seq_loop Py_None fuel v i res
    = Ok (cons_onto (firstn (Z.to_nat (i + 1)) l) res).
Proof.
  intros Hr. pose proof Hr as (d & _ & Hc & _).
  induction fuel as [|fuel IH]; intros i res Hi Hf; [lia|].
  cbn [to_seq_loop].
  destruct (i >=? 0) eqn:E.
  2:{ rewrite Z.geb_leb in E. apply Z.leb_gt in E.
      replace (Z.to_nat (i + 1)) with 0%nat by lia. reflexivity. }
  rewrite Z.geb_leb in E. apply Z.leb_le in E.
  destruct (chunk_start_spec i E) as (Hcs & Hrange & Hcs0).
  set (cs := Z.shiftl (Z.shiftr i BITS) BITS) in *.
  destruct (Vector_node_for_represents v l i Hr ltac:(lia))
    as (node & Hn & _ & Hitems).
  rewrite Hn. cbn [bind].
  rewrite (to_seq_chunk_spec v l node (Z.to_nat (i - cs + 1)) i res Hc)
    by (try lia; intros m Hm; apply Hitems; lia).
  cbn [bind]. rewrite IH by lia.
  rewrite <- cons_onto_app. do 2 f_equal.
  replace (i - Z.of_nat (Z.to_nat (i - cs + 1)) + 1) with cs by lia.
  replace (cs - 1 + 1) with cs by lia. unfold slice.
  replace (Z.to_nat (i + 1)) with (Z.to_nat cs + Z.to_nat (i - cs + 1))%nat
    by lia.
  symmetry. apply firstn_plus.
Qed.

Lemma Vector_to_seq_represents (v : Vector Obj) (l : list Obj) :
  rep v l -> Vector_to_seq Py_None v = Ok (cons_of_list l).
Proof.
  intros Hr. pose proof Hr as (d & _ & Hc & _). unfold Vector_to_seq.
  destruct (cnt v =? 0) eqn:E.
  - apply Z.eqb_eq in E.
    replace l with (@nil Obj); [reflexivity|].
    symmetry. apply length_zero_iff_nil. lia.
  - apply Z.eqb_neq in E.
    rewrite (to_seq_loop_spec v l Hr) by lia.
    unfold cons_of_list. do 2 f_equal. apply firstn_all2. lia.
Qed.

(** *** The iterator *)

Lemma VectorIterator_next_represents (v : Vector Obj) (l : list Obj)
      (it : VectorIterator Obj) :
  rep v l -> cache_ok Py_None v l it -> 0 <= vi_index it < cnt v ->
  exists it', VectorIterator_next Py_None v it
              = Ok (Some (el l (vi_index it)), it')
              /\ vi_index it' = vi_index it + 1 /\ cache_ok Py_None v l it'.
Proof.
  intros Hr Hcache Hi. unfold VectorIterator_next. zcmp.
  destruct (chunk_start_spec (vi_index it) (proj1 Hi)) as (Hcs & Hrange & Hcs0).
  set (cs := Z.shiftl (Z.shiftr (vi_index it) BITS) BITS) in *.
  destruct (cs =? vi_cached_chunk it) eqn:E; cbn [negb].
  - (* the chunk is cached *)
    apply Z.eqb_eq in E. cbn [bind].
    destruct Hcache as [Hc|(c & Hc & Hc0 & Hitems)]; [lia|].
    assert (Hcc : c = vi_index it / 32) by lia. subst c.
    pose proof (Hitems (vi_index it) ltac:(lia) ltac:(lia)) as Hit.
    destruct it as [idx cn cc ct]. cbn [vi_index vi_cached_node
      vi_cached_chunk vi_cached_is_tail] in *.
    rewrite Hit. cbn [bind]. eexists. split; [reflexivity|].
    split; [reflexivity|]. right. exists (idx / 32).
    cbn [vi_cached_chunk vi_cached_node vi_cached_is_tail].
    repeat split; auto.
  - (* a new chunk is fetched *)
    destruct (Vector_node_for_represents v l (vi_index it) Hr Hi)
      as (node & Hn & Htl & Hitems).
    rewrite Hn. cbn [bind].
    assert (Hnew : forall j, cs <= j < cs + 32 -> j < cnt v ->
      cached_item Py_None v
        (mkVectorIterator j node cs
           match node with None => true | Some _ => false end)
      = Ok (el l j)).
    { intros j Hj Hjc. specialize (Hitems j ltac:(lia) Hjc).
      unfold cached_item. cbn [vi_index vi_cached_node vi_cached_is_tail].
      destruct node; exact Hitems. }
    rewrite (Hnew (vi_index it)) by lia. cbn [bind].
    eexists. split; [reflexivity|]. split; [reflexivity|].
    right. exists (vi_index it / 32).
    cbn [vi_cached_chunk vi_cached_node vi_cached_is_tail].
    split; [exact Hcs|]. split; [lia|].
    intros j Hj Hjc. rewrite <- Hcs in Hj. apply Hnew; lia.
Qed.

Lemma Vector_iterate_represents (v : Vector Obj) (l : list Obj) :
  rep v l ->
  forall (fuel : nat) (it : VectorIterator Obj),
    cache_ok Py_None v l it -> 0 <= vi_index it <= cnt v ->
    (Z.to_nat (cnt v - vi_index it) < fuel)%nat ->
    Vector_iterate Py_None fuel v it
    = Ok (skipn (Z.to_nat (vi_index it)) l).
Proof.
  intros Hr. pose proof Hr as (d & _ & Hc & _).
  induction fuel as [|fuel IH]; intros it Hcache Hi Hf; [lia|].
  cbn [Vector_iterate].
  destruct (Z.eq_dec (vi_index it) (cnt v)) as [Hend|Hmore].
  - unfold VectorIterator_next. zcmp. cbn [bind].
    rewrite skipn_all2 by lia. reflexivity.
  - destruct (VectorIterator_next_represents v l it Hr Hcache ltac:(lia))
      as (it' & Hnext & Hidx & Hcache').
    rewrite Hnext. cbn [bind]. rewrite IH; auto; try lia.
    cbn [bind]. rewrite Hidx. f_equal.
    replace (Z.to_nat (vi_index it + 1)) with (S (Z.to_nat (vi_index it)))
      by lia.
    unfold elem. symmetry. apply skipn_nth_cons. lia.
Qed.

(** *** [nth] with a default *)

Lemma Vector_nth_impl_represents (v : Vector Obj) (l : list Obj) (i : Z)
      (default_val : option Obj) :
  rep v l ->
  (0 <= i < cnt v -> Vector_nth_impl Py_None v i default_val = Ok (el l i))
  /\ (- cnt v <= i < 0 ->
      Vector_nth_impl Py_None v i default_val = Ok (el l (cnt v + i)))
  /\ (i < - cnt v \/ cnt v <= i ->
      Vector_nth_impl Py_None v i default_val
      = match default_val with Some d => Ok d | None => Raise IndexError end).
Proof.
  intros Hr. pose proof Hr as (d & _ & Hc & _).
  unfold Vector_nth_impl. split; [|split]; intros Hi.
  - zcmp. cbn [orb].
    destruct (Vector_array_for_represents v l i Hr Hi) as (arr & Ha & Hg).
    rewrite Ha. exact Hg.
  - zcmp. cbn [orb].
    destruct (Vector_array_for_represents v l (cnt v + i) Hr ltac:(lia))
      as (arr & Ha & Hg).
    rewrite Ha. exact Hg.
  - destruct Hi as [Hi|Hi]; zcmp; cbn [orb]; reflexivity.
Qed.

Lemma Vector_getitem_negative (v : Vector Obj) (l : list Obj) (i : Z) :
  rep v l -> - cnt v <= i < 0 ->
  Vector_getitem Py_None v i = Ok (el l (cnt v + i)).
Proof.
  intros Hr Hi. unfold Vector_getitem. zcmp. cbn [orb].
  destruct (Vector_array_for_represents v l (cnt v + i) Hr ltac:(lia))
    as (arr & Ha & Hg).
  rewrite Ha. exact Hg.
Qed.

(** *** [index], [count] and equality, for a host whose [==] on the
    elements is the total relation [eqb] *)
Section Compare.
Variable PyObject_RichCompareBool : Obj -> Obj -> cmp_op -> result bool.
Variable eqb : Obj -> Obj -> bool.
Hypothesis cmp_EQ :
  forall a b, PyObject_RichCompareBool a b Py_EQ = Ok (eqb a b).

Lemma index_loop_spec (v : Vector Obj) (l : list Obj) (value : Obj) :
  rep v l ->
  forall (n : nat) (i : Z),
    0 <= i -> i + Z.of_nat n <= cnt v ->
    index_loop Py_None PyObject_RichCompareBool n v value i
    = match first_index Py_None (fun x => eqb x value) l i n with
      | Some k => Ok k
      | None => Raise ValueError
      end.
Proof.
  intros Hr. induction n as [|n IH]; intros i Hi Hn; [reflexivity|].
  cbn [index_loop first_index].
  rewrite (proj1 (Vector_nth_impl_represents v l i None Hr)) by lia.
  cbn [bind]. rewrite cmp_EQ. cbn [bind].
  destruct (eqb (el l i) value); [reflexivity|]. apply IH; lia.
Qed.

Lemma first_index_spec (p : Obj -> bool) (l : list Obj) (n : nat) :
  forall (i : Z),
    match first_index Py_None p l i n with
    | Some k =>
        i <= k < i + Z.of_nat n /\ p (el l k) = true
        /\ forall j, i <= j < k -> p (el l j) = false
    | None => forall j, i <= j < i + Z.of_nat n -> p (el l j) = false
    end.
Proof.
  induction n as [|n IH]; intros i; cbn [first_index].
  - intros j Hj. lia.
  - destruct (p (el l i)) eqn:E.
    + split; [lia|]. split; [exact E|]. intros j Hj. lia.
    + specialize (IH (i + 1)).
      destruct (first_index Py_None p l (i + 1) n) as [k|].
      * destruct IH as (Hk & Hp & Hlt).
        split; [lia|]. split; [exact Hp|].
        intros j Hj. destruct (Z.eq_dec j i) as [->|Hne]; auto.
        apply Hlt. lia.
      * intros j Hj. destruct (Z.eq_dec j i) as [->|Hne]; auto.
        apply IH. lia.
Qed.

Lemma count_loop_spec (v : Vector Obj) (l : list Obj) (value : Obj) :
  rep v l ->
  forall (n : nat) (i count : Z),
    0 <= i -> i + Z.of_nat n <= cnt v ->
    count_loop Py_None PyObject_RichCompareBool n v value i count
    = Ok (count + count_of (fun x => eqb x value) (slice l i n)).
Proof.
  intros Hr. pose proof Hr as (d & _ & Hc & _).
  induction n as [|n IH]; intros i count Hi Hn.
  - unfold count_of, slice. cbn. f_equal. lia.
  - cbn [count_loop].
    rewrite (proj1 (Vector_nth_impl_represents v l i None Hr)) by lia.
    cbn [bind]. rewrite cmp_EQ. cbn [bind]. rewrite IH by lia.
    f_equal. unfold count_of, slice.
    rewrite (skipn_nth_cons _ l (Z.to_nat i) Py_None) by lia.
    cbn [firstn filter]. fold (el l i).
    replace (S (Z.to_nat i)) with (Z.to_nat (i + 1)) by lia.
    destruct (eqb (el l i) value); cbn [length]; lia.
Qed.

Lemma Vector_count_represents (v : Vector Obj) (l : list Obj) (value : Obj) :
  rep v l ->
  Vector_count Py_None PyObject_RichCompareBool v value
  = Ok (count_of (fun x => eqb x value) l).
Proof.
  intros Hr. pose proof Hr as (d & _ & Hc & _). unfold Vector_count.
  rewrite (count_loop_spec v l value Hr) by lia.
  rewrite Z.add_0_l. do 2 f_equal. unfold slice. cbn [Z.to_nat skipn].
  apply firstn_all2. lia.
Qed.

Lemma Vector_compare_loop_spec (v o : Vector Obj) (l1 l2 : list Obj) :
  rep v l1 -> rep o l2 -> cnt v = cnt o ->
  forall (n : nat) (i : Z),
    0 <= i -> i + Z.of_nat n = cnt v ->
    Vector_compare_loop Py_None PyObject_RichCompareBool n i v o
    = Ok (list_eqb eqb (skipn (Z.to_nat i) l1) (skipn (Z.to_nat i) l2)).
Proof.
  intros Hr1 Hr2 Hcnt.
  pose proof Hr1 as (d1 & _ & Hc1 & _). pose proof Hr2 as (d2 & _ & Hc2 & _).
  induction n as [|n IH]; intros i Hi Hn.
  - rewrite !skipn_all2 by lia. reflexivity.
  - cbn [Vector_compare_loop].
    destruct (Vector_array_for_represents v l1 i Hr1 ltac:(lia))
      as (a1 & Ha1 & Hg1).
    destruct (Vector_array_for_represents o l2 i Hr2 ltac:(lia))
      as (a2 & Ha2 & Hg2).
    rewrite Ha1, Ha2. cbn [bind]. rewrite Hg1, Hg2. cbn [bind].
    rewrite cmp_EQ. cbn [bind].
    rewrite (skipn_nth_cons _ l1 (Z.to_nat i) Py_None) by lia.
    rewrite (skipn_nth_cons _ l2 (Z.to_nat i) Py_None) by lia.
    cbn [list_eqb]. fold (el l1 i). fold (el l2 i).
    destruct (eqb (el l1 i) (el l2 i)); cbn [negb andb]; [|reflexivity].
    rewrite IH by lia.
    replace (Z.to_nat (i + 1)) with (S (Z.to_nat i)) by lia. reflexivity.
Qed.

Lemma list_eqb_length (l1 l2 : list Obj) :
  length l1 <> length l2 -> list_eqb eqb l1 l2 = false.
Proof.
  revert l2. induction l1 as [|x t IH]; intros [|y u] H; cbn in *;
    try congruence.
  rewrite IH by congruence. apply andb_false_r.
Qed.

End Compare.

(** *** The factory and [+] *)
Section Builders.
Variable expands : Obj -> bool.
Variable PyObject_GetIter : Obj -> result (list Obj).

Lemma build_represents (v : Vector Obj) (l items : list Obj) (id : token) :
  rep v l ->
  exists t w v' t',
    conj_mut_all (Vector_transient v id) items = Ok (t, w)
    /\ TransientVector_persistent t = Ok (v', t')
    /\ rep v' (l ++ items).
Proof.
  intros Hr.
  destruct (conj_mut_all_represents items (Vector_transient v id) l
              (tv_vector_transient v l id Hr) ltac:(discriminate))
    as (t & w & Hc & Hrt & Hid).
  destruct (TransientVector_persistent_represents t (l ++ items) Hrt
              ltac:(rewrite Hid; discriminate))
    as (v' & t' & Hp & Hr' & _).
  exists t, w, v', t'. auto.
Qed.

Lemma Vector_add_represents (v : Vector Obj) (l items : list Obj)
      (other : Obj) (id : token) :
  rep v l -> PyObject_GetIter other = Ok items ->
  exists v' w, Vector_add PyObject_GetIter v other id = Ok (Some v', w)
               /\ rep v' (l ++ items).
Proof.
  intros Hr Hit. unfold Vector_add. rewrite Hit.
  destruct (build_represents v l items id Hr) as (t & w & v' & t' & Hc & Hp & Hr').
  rewrite Hc. cbn [bindW]. rewrite Hp. cbn [liftW bindW retW].
  eexists _, _. split; [reflexivity|exact Hr'].
Qed.

Lemma pds_vec_varargs (args : list Obj) (id : token) :
  args <> [] ->
  (forall arg, args = [arg] ->
     expands arg = false \/ exists e, PyObject_GetIter arg = Raise e) ->
  exists v w, pds_vec expands PyObject_GetIter args id = Ok (ret_new v, w)
              /\ rep v args.
Proof.
  intros Hne Hsingle.
  destruct (build_represents (EMPTY_VECTOR Obj) [] args id
              EMPTY_VECTOR_represents)
    as (t & w & v' & t' & Hc & Hp & Hr').
  cbn [app] in Hr'.
  assert (Hvar : exists w0,
    (t <~ conj_mut_all (Vector_transient (EMPTY_VECTOR Obj) id) args ;;
     '(v, _) <~ liftW (TransientVector_persistent t) ;;
     retW (ret_new v)) = Ok (ret_new v', w0)).
  { rewrite Hc. cbn [bindW]. rewrite Hp. cbn [liftW bindW retW].
    eexists. reflexivity. }
  destruct Hvar as (w0 & Hvar).
  exists v', w0. split; [|exact Hr'].
  unfold pds_vec. destruct args as [|a [|b rest]]; [congruence| |exact Hvar].
  destruct (Hsingle a eq_refl) as [He|[e He]]; rewrite He; [exact Hvar|].
  destruct (expands a); exact Hvar.
Qed.

Lemma pds_vec_expands (arg : Obj) (items : list Obj) (id : token) :
  expands arg = true -> PyObject_GetIter arg = Ok items ->
  exists v w, pds_vec expands PyObject_GetIter [arg] id = Ok (ret_new v, w)
              /\ rep v items.
Proof.
  intros He Hit.
  destruct (build_represents (EMPTY_VECTOR Obj) [] items id
              EMPTY_VECTOR_represents)
    as (t & w & v' & t' & Hc & Hp & Hr').
  cbn [app] in Hr'. unfold pds_vec. rewrite He, Hit, Hc. cbn [bindW].
  rewrite Hp. cbn [liftW bindW retW]. eexists _, _.
  split; [reflexivity|exact Hr'].
Qed.

End Builders.

End VectorSequence.

Lemma sample_vector_represents (n : nat) :
  represents PyHost.None_ (sample_vector n) (int_range n).
Proof.
  destruct (Vector_conj_all_represents PyHost.obj PyHost.None_ (int_range n)
              (EMPTY_VECTOR PyHost.obj) []
              (EMPTY_VECTOR_represents PyHost.obj PyHost.None_))
    as (v & Hv & Hr).
  unfold sample_vector, vector_of_range. rewrite Hv. exact Hr.
Qed.

Lemma sample_vector_cnt (n : nat) : cnt (sample_vector n) = Z.of_nat n.
Proof.
  destruct (sample_vector_represents n) as (d & _ & Hc & _).
  rewrite Hc. unfold int_range. now rewrite length_map, length_seq.
Qed.

(** X2.  The empty vector stores the empty sequence, and [conj] on a vector
    that stores the sequence [l] succeeds and returns a vector that stores
    [l ++ [val]] and is one longer; so the vector built from the empty one
    by appending the elements of a list stores that list. *)
Theorem X2_vector_conj_appends :
  forall (Obj : Type) (Py_None : Obj),
    represents Py_None (EMPTY_VECTOR Obj) []
    /\ (forall (v : Vector Obj) (l : list Obj) (val : Obj),
           represents Py_None v l ->
           exists v' w,
             Vector_conj v val = Ok (v', w)
             /\ represents Py_None v' (l ++ [val])
             /\ Vector_length v' = Vector_length v + 1)
    /\ (forall xs : list Obj,
           exists v, Vector_conj_all (EMPTY_VECTOR Obj) xs = Ok v
                     /\ represents Py_None v xs).
Proof.
  intros Obj Py_None. split; [apply EMPTY_VECTOR_represents|]. split.
  - intros v l val Hr.
    destruct (Vector_conj_represents Obj Py_None v l val Hr)
      as (v' & w & Hc & Hr' & _).
    exists v', w. split; [exact Hc|]. split; [exact Hr'|].
    destruct Hr as (d & _ & Hl & _), Hr' as (d' & _ & Hl' & _).
    unfold Vector_length. rewrite Hl, Hl', length_app. cbn [length]. lia.
  - intros xs.
    exact (Vector_conj_all_represents Obj Py_None xs (EMPTY_VECTOR Obj) []
             (EMPTY_VECTOR_represents Obj Py_None)).
Qed.

(** X2, witness: appending to the vector of the integers 0..39. *)
Lemma X2_vector_conj_appends_witness :
  exists v' w,
    Vector_conj (sample_vector 40) (PyHost.Int 40) = Ok (v', w)
    /\ represents PyHost.None_ v' (int_range 40 ++ [PyHost.Int 40])
    /\ Vector_length v' = Vector_length (sample_vector 40) + 1.
Proof.
  exact (proj1 (proj2 (X2_vector_conj_appends PyHost.obj PyHost.None_))
           (sample_vector 40) (int_range 40) (PyHost.Int 40)
           (sample_vector_represents 40)).
Defined.





(** X5.  [pop] on a vector that stores a non-empty [l] returns a vector
    that stores [l] without its last element; so [pop] after [conj] gives
    back a vector that stores what the receiver of [conj] stored. *)
Theorem X5_vector_pop_removes_last :
  forall (Obj : Type) (Py_None : Obj) (v : Vector Obj) (l : list Obj),
    represents Py_None v l ->
    (l <> [] ->
     exists r, Vector_pop Py_None v = Ok r
               /\ represents Py_None (deref_vector v r) (removelast l))
    /\ (forall val : Obj,
           exists v1 w r,
             Vector_conj v val = Ok (v1, w)
             /\ Vector_pop Py_None v1 = Ok r
             /\ represents Py_None (deref_vector v1 r) l).
Proof.
  intros Obj Py_None v l Hr. split.
  - intros Hl. apply Vector_pop_represents; auto.
    destruct Hr as (d & _ & Hc & _). rewrite Hc.
    destruct l; [congruence|]. cbn [length]. lia.
  - intros val.
    destruct (Vector_conj_represents Obj Py_None v l val Hr)
      as (v1 & w & Hc & Hr1 & _).
    destruct (Vector_pop_represents Obj Py_None v1 _ Hr1) as (r & Hp & Hr2).
    { destruct Hr1 as (d & _ & Hc1 & _). rewrite Hc1, length_app.
      cbn [length]. lia. }
    exists v1, w, r. split; [exact Hc|]. split; [exact Hp|].
    now rewrite removelast_last in Hr2.
Qed.

(** X5, witness: [pop] on the vector of 0..32 empties the tail and takes
    the only leaf out of the trie. *)
Lemma X5_vector_pop_removes_last_witness :
  exists r, Vector_pop PyHost.None_ (sample_vector 33) = Ok r
            /\ represents PyHost.None_ (deref_vector (sample_vector 33) r)
                          (removelast (int_range 33)).
Proof.
  apply (proj1 (X5_vector_pop_removes_last PyHost.obj PyHost.None_
                  (sample_vector 33) (int_range 33)
                  (sample_vector_represents 33))).
  discriminate.
Defined.

(** X6.  Building through a transient: the elements [conj_mut] adds to the
    transient of a vector that stores [l] end up, in order, behind [l] in
    the vector [persistent()] returns.  So [v + other] stores [l] followed
    by what the iterator of [other] yields (and is NotImplemented when
    [other] has no iterator), and [vec(args...)] stores its arguments, or
    the elements of its only argument when that one is expanded. *)
Theorem X6_vector_builders :
  forall (Obj : Type) (Py_None : Obj) (expands : Obj -> bool)
         (PyObject_GetIter : Obj -> result (list Obj)) (id : token),
    (forall (v : Vector Obj) (l items : list Obj),
        represents Py_None v l ->
        exists t w v' t',
          conj_mut_all (Vector_transient v id) items = Ok (t, w)
          /\ TransientVector_persistent t = Ok (v', t')
          /\ represents Py_None v' (l ++ items))
    /\ (forall (v : Vector Obj) (l : list Obj) (other : Obj),
           represents Py_None v l ->
           match PyObject_GetIter other with
           | Ok items =>
               exists v' w,
                 Vector_add PyObject_GetIter v other id = Ok (Some v', w)
                 /\ represents Py_None v' (l ++ items)
           | Raise _ =>
               Vector_add PyObject_GetIter v other id = Ok (None, 0%nat)
           end)
    /\ (forall args : list Obj,
           (2 <= length args)%nat ->
           exists v w,
             pds_vec expands PyObject_GetIter args id = Ok (ret_new v, w)
             /\ represents Py_None v args)
    /\ (forall arg : Obj,
           exists v w,
             pds_vec expands PyObject_GetIter [arg] id = Ok (ret_new v, w)
             /\ represents Py_None v
                  (match PyObject_GetIter arg with
                   | Ok items => if expands arg then items else [arg]
                   | Raise _ => [arg]
                   end)).
Proof.
  intros Obj Py_None expands PyObject_GetIter id.
  split; [|split; [|split]].
  - intros v l items Hr. apply build_represents. exact Hr.
  - intros v l other Hr.
    destruct (PyObject_GetIter other) as [items|e] eqn:E.
    + apply (Vector_add_represents Obj Py_None PyObject_GetIter v l items
               other id Hr E).
    + unfold Vector_add. rewrite E. reflexivity.
  - intros args Hlen. apply pds_vec_varargs.
    + intros ->. cbn in Hlen. lia.
    + intros arg ->. cbn in Hlen. lia.
  - intros arg.
    destruct (PyObject_GetIter arg) as [items|e] eqn:E.
    + destruct (expands arg) eqn:Ex.
      * apply (pds_vec_expands Obj Py_None expands PyObject_GetIter arg items
                 id Ex E).
      * apply pds_vec_varargs; [discriminate|].
        intros a Ha. inversion Ha; subst. left. exact Ex.
    + apply pds_vec_varargs; [discriminate|].
      intros a Ha. inversion Ha; subst. right. exists e. exact E.
Qed.

(** X6, witness: the vector of 0..39 plus an iterable of 0..4. *)
Lemma X6_vector_builders_witness :
  exists v' w,
    Vector_add range_iter (sample_vector 40) (PyHost.Int 5) 1%positive
    = Ok (Some v', w)
    /\ represents PyHost.None_ v' (int_range 40 ++ int_range 5).
Proof.
  exact (proj1 (proj2 (X6_vector_builders PyHost.obj PyHost.None_
                         (fun _ => false) range_iter 1%positive))
           (sample_vector 40) (int_range 40) (PyHost.Int 5)
           (sample_vector_represents 40)).
Defined.

(** X7.  The elements of a vector that stores [l], as its two traversals
    hand them out: [to_seq()] returns the Cons chain of the elements of [l]
    in order ([None] for the empty vector), and the iterator yields the
    elements of [l] in order and then stops. *)
Theorem X7_vector_traversals :
  forall (Obj : Type) (Py_None : Obj) (v : Vector Obj) (l : list Obj),
    represents Py_None v l ->
    Vector_to_seq Py_None v = Ok (cons_of_list l)
    /\ Vector_iterate Py_None (S (length l)) v (Vector_iter Obj) = Ok l.
Proof.
  intros Obj Py_None v l Hr. split.
  - apply Vector_to_seq_represents. exact Hr.
  - pose proof Hr as (d & _ & Hc & _).
    rewrite (Vector_iterate_represents Obj Py_None v l Hr).
    + reflexivity.
    + left. reflexivity.
    + cbn [vi_index Vector_iter]. lia.
    + cbn [vi_index Vector_iter]. lia.
Qed.

(** X7, witness: the vector of the integers 0..39. *)
Lemma X7_vector_traversals_witness :
  Vector_to_seq PyHost.None_ (sample_vector 40)
  = Ok (cons_of_list (int_range 40))
  /\ Vector_iterate PyHost.None_ (S (length (int_range 40)))
       (sample_vector 40) (Vector_iter PyHost.obj)
     = Ok (int_range 40).
Proof.
  exact (X7_vector_traversals PyHost.obj PyHost.None_ (sample_vector 40)
           (int_range 40) (sample_vector_represents 40)).
Defined.



(** X9.  For a host whose [==] on the elements is a total relation [eqb]:
    [==] between two vectors that store [l1] and [l2] (and are not the
    same object) is true exactly when the lists have the same length and
    equal elements at every index, and [!=] is its negation. *)
Theorem X9_vector_equality_is_elementwise :
  forall (Obj : Type) (Py_None : Obj)
         (PyObject_RichCompareBool : Obj -> Obj -> cmp_op -> result bool)
         (eqb : Obj -> Obj -> bool) (v o : Vector Obj) (l1 l2 : list Obj),
    (forall a b, PyObject_RichCompareBool a b Py_EQ = Ok (eqb a b)) ->
    represents Py_None v l1 -> represents Py_None o l2 ->
    Vector_richcompare Py_None PyObject_RichCompareBool v
      (Other (PyVector o)) Op_EQ
    = Ok (PyBool (list_eqb eqb l1 l2))
    /\ Vector_richcompare Py_None PyObject_RichCompareBool v
         (Other (PyVector o)) Op_NE
       = Ok (PyBool (negb (list_eqb eqb l1 l2))).
Proof.
  intros Obj Py_None cmp eqb v o l1 l2 Hcmp Hr1 Hr2.
  pose proof Hr1 as (d1 & _ & Hc1 & _). pose proof Hr2 as (d2 & _ & Hc2 & _).
  unfold Vector_richcompare. cbn [is_Op_EQ is_Op_NE negb andb].
  destruct (cnt v =? cnt o) eqn:E; cbn [negb].
  - apply Z.eqb_eq in E.
    rewrite (Vector_compare_loop_spec Obj Py_None cmp eqb Hcmp v o l1 l2
               Hr1 Hr2 E) by lia.
    cbn [bind skipn Z.to_nat]. unfold PyBool_FromLong.
    destruct (list_eqb eqb l1 l2); auto.
  - apply Z.eqb_neq in E.
    rewrite (list_eqb_length Obj eqb l1 l2) by lia.
    split; reflexivity.
Qed.

(** X9, witness: the vectors of 0..39 and of 0..32. *)
Lemma X9_vector_equality_is_elementwise_witness :
  Vector_richcompare PyHost.None_ PyHost.compare (sample_vector 40)
    (Other (PyVector (sample_vector 33))) Op_EQ
  = Ok (PyBool (list_eqb host_eqb (int_range 40) (int_range 33))).
Proof.
  exact (proj1 (X9_vector_equality_is_elementwise PyHost.obj PyHost.None_
                  PyHost.compare host_eqb
                  (sample_vector 40) (sample_vector 33)
                  (int_range 40) (int_range 33)
                  ltac:(intros [|x] [|y]; reflexivity)
                  (sample_vector_represents 40)
                  (sample_vector_represents 33))).
Defined.

(** * SortedVector: what the readers return *)

Section SortedReads.
Variable Obj : Type.

Lemma rb_items_keys (t : RBNode Obj) : map fst (rb_items t) = rb_keys t.
Proof.
  induction t as [|v k l IHl r IHr s c e]; [reflexivity|].
  cbn [rb_items rb_keys]. rewrite map_app. cbn [map fst]. congruence.
Qed.

Lemma rb_items_values (t : RBNode Obj) : map snd (rb_items t) = rb_values t.
Proof.
  induction t as [|v k l IHl r IHr s c e]; [reflexivity|].
  cbn [rb_items rb_values]. rewrite map_app. cbn [map snd]. congruence.
Qed.

Lemma rb_nodes_values (t : RBNode Obj) : rb_nodes t = length (rb_values t).
Proof.
  induction t as [|v k l IHl r IHr s c e]; [reflexivity|].
  cbn [rb_nodes rb_values]. rewrite length_app. cbn [length]. lia.
Qed.

Lemma sizes_ok_inv (v k : Obj) (l r : RBNode Obj) (s : Z) (c : rb_color)
      (e : option token) :
  sizes_ok (RBNode_ v k l r s c e) = true ->
  s = 1 + RBNode_size l + RBNode_size r
  /\ sizes_ok l = true /\ sizes_ok r = true.
Proof.
  cbn [sizes_ok]. rewrite !andb_true_iff, Z.eqb_eq. tauto.
Qed.

Lemma sizes_ok_length (t : RBNode Obj) :
  sizes_ok t = true -> RBNode_size t = Z.of_nat (length (rb_values t)).
Proof.
  induction t as [|v k l IHl r IHr s c e]; intros H; [reflexivity|].
  apply sizes_ok_inv in H. destruct H as (-> & Hl & Hr).
  cbn [RBNode_size rb_values]. rewrite length_app. cbn [length].
  rewrite (IHl Hl), (IHr Hr). lia.
Qed.

(** [RBNode_nth] on a tree with correct sizes, at every index. *)
Lemma RBNode_nth_spec (t : RBNode Obj) :
  sizes_ok t = true ->
  forall i : Z,
    RBNode_nth t i
    = if i <? 0 then Raise IndexError
      else match nth_error (rb_values t) (Z.to_nat i) with
           | Some x => Ok x
           | None => Raise IndexError
           end.
Proof.
  induction t as [|v k l IHl r IHr s c e]; intros H i.
  - cbn [RBNode_nth rb_values]. destruct (i <? 0); [reflexivity|].
    destruct (Z.to_nat i); reflexivity.
  - apply sizes_ok_inv in H. destruct H as (_ & Hl & Hr).
    cbn [RBNode_nth rb_values].
    pose proof (sizes_ok_length l Hl) as Sl.
    destruct (i <? RBNode_size l) eqn:E1.
    + apply Z.ltb_lt in E1. rewrite (IHl Hl).
      destruct (i <? 0) eqn:E0; [reflexivity|]. apply Z.ltb_ge in E0.
      rewrite nth_error_app1 by lia. reflexivity.
    + apply Z.ltb_ge in E1.
      assert (E0 : (i <? 0) = false) by (apply Z.ltb_ge; lia).
      rewrite E0. destruct (i =? RBNode_size l) eqn:E2.
      * apply Z.eqb_eq in E2.
        rewrite nth_error_app2 by lia.
        replace (Z.to_nat i - length (rb_values l))%nat with O by lia.
        reflexivity.
      * apply Z.eqb_neq in E2. rewrite (IHr Hr).
        assert (E3 : (i - RBNode_size l - 1 <? 0) = false)
          by (apply Z.ltb_ge; lia).
        rewrite E3. rewrite nth_error_app2 by lia.
        replace (Z.to_nat i - length (rb_values l))%nat
          with (S (Z.to_nat (i - RBNode_size l - 1))) by lia.
        reflexivity.
Qed.

(** *** First and last *)

Lemma rb_leftmost_spec (v k : Obj) (l r : RBNode Obj) (s : Z) (c : rb_color)
      (e : option token) :
  exists x rest,
    rb_values (RBNode_ v k l r s c e) = x :: rest
    /\ rb_leftmost (RBNode_ v k l r s c e) = Ok x.
Proof.
  revert v k r s c e.
  induction l as [|lv lk ll IHll lr _ ls lc le]; intros v k r s c e.
  - exists v, (rb_values r). split; reflexivity.
  - destruct (IHll lv lk lr ls lc le) as (x & rest & Hv & Hx).
    exists x, (rest ++ v :: rb_values r).
    split.
    + change (rb_values (RBNode_ v k (RBNode_ lv lk ll lr ls lc le) r s c e))
        with (rb_values (RBNode_ lv lk ll lr ls lc le) ++ v :: rb_values r).
      rewrite Hv. reflexivity.
    + exact Hx.
Qed.

Lemma rb_rightmost_spec (v k : Obj) (l r : RBNode Obj) (s : Z) (c : rb_color)
      (e : option token) :
  exists x front,
    rb_values (RBNode_ v k l r s c e) = front ++ [x]
    /\ rb_rightmost (RBNode_ v k l r s c e) = Ok x.
Proof.
  revert v k l s c e.
  induction r as [|rv rk rl _ rr IHrr rs rc re]; intros v k l s c e.
  - exists v, (rb_values l). split; reflexivity.
  - destruct (IHrr rv rk rl rs rc re) as (x & front & Hv & Hx).
    exists x, (rb_values l ++ v :: front).
    split.
    + change (rb_values (RBNode_ v k l (RBNode_ rv rk rl rr rs rc re) s c e))
        with (rb_values l ++ v :: rb_values (RBNode_ rv rk rl rr rs rc re)).
      rewrite Hv. rewrite <- app_assoc. reflexivity.
    + destruct l; exact Hx.
Qed.

(** *** The iterator *)

Lemma push_left_values (t : RBNode Obj) :
  forall stack : list (RBNode Obj),
    stack_values (SortedVectorIterator_push_left stack t)
    = rb_values t ++ stack_values stack.
Proof.
  induction t as [|v k l IHl r _ s c e]; intros stack; [reflexivity|].
  cbn [SortedVectorIterator_push_left]. rewrite IHl.
  cbn [stack_values rb_values]. rewrite <- app_assoc. reflexivity.
Qed.

Lemma push_left_ok (t : RBNode Obj) :
  forall stack : list (RBNode Obj),
    stack_ok stack -> stack_ok (SortedVectorIterator_push_left stack t).
Proof.
  induction t as [|v k l IHl r _ s c e]; intros stack H; [exact H|].
  cbn [SortedVectorIterator_push_left]. apply IHl.
  constructor; [reflexivity|exact H].
Qed.

(** One step of the iterator: nothing when nothing is left, otherwise the
    next value. *)
Lemma SortedVectorIterator_next_spec (stack : list (RBNode Obj)) :
  stack_ok stack ->
  match stack_values stack with
  | [] => SortedVectorIterator_next stack = Ok (None, [])
  | x :: rest =>
      exists stack',
        SortedVectorIterator_next stack = Ok (Some x, stack')
        /\ stack_ok stack' /\ stack_values stack' = rest
  end.
Proof.
  intros H. destruct stack as [|n stack']; [reflexivity|].
  inversion H as [|? ? Hn Hs]; subst.
  destruct n as [|v k l r s c e]; [discriminate|].
  cbn [stack_values SortedVectorIterator_next].
  eexists. split; [reflexivity|]. split.
  - apply push_left_ok. exact Hs.
  - apply push_left_values.
Qed.

Lemma SortedVector_iterate_spec (fuel : nat) :
  forall stack : list (RBNode Obj),
    stack_ok stack ->
    (length (stack_values stack) < fuel)%nat ->
    SortedVector_iterate fuel stack = Ok (stack_values stack).
Proof.
  induction fuel as [|fuel IH]; intros stack Hok Hf; [lia|].
  cbn [SortedVector_iterate].
  pose proof (SortedVectorIterator_next_spec stack Hok) as Hn.
  destruct (stack_values stack) as [|x rest] eqn:E.
  - rewrite Hn. reflexivity.
  - destruct Hn as (stack' & -> & Hok' & Hv). cbn [bind].
    rewrite (IH stack' Hok') by (rewrite Hv; cbn [length] in Hf; lia).
    rewrite Hv. reflexivity.
Qed.

Lemma SortedVector_iter_values (sv : SortedVector Obj) :
  stack_ok (SortedVector_iter sv)
  /\ stack_values (SortedVector_iter sv) = rb_values (sv_root sv).
Proof.
  unfold SortedVector_iter. split.
  - apply push_left_ok. constructor.
  - rewrite push_left_values. apply app_nil_r.
Qed.

(** *** Equality *)
Section Compare.
Variable PyObject_RichCompareBool : Obj -> Obj -> cmp_op -> result bool.
Variable eqb : Obj -> Obj -> bool.
Hypothesis cmp_EQ :
  forall a b, PyObject_RichCompareBool a b Py_EQ = Ok (eqb a b).

Lemma SortedVector_compare_loop_spec (fuel : nat) :
  forall s1 s2 : list (RBNode Obj),
    stack_ok s1 -> stack_ok s2 ->
    length (stack_values s1) = length (stack_values s2) ->
    (length (stack_values s1) < fuel)%nat ->
    SortedVector_compare_loop PyObject_RichCompareBool fuel s1 s2
    = Ok (list_eqb eqb (stack_values s1) (stack_values s2)).
Proof.
  induction fuel as [|fuel IH]; intros s1 s2 H1 H2 Hl Hf; [lia|].
  cbn [SortedVector_compare_loop].
  pose proof (SortedVectorIterator_next_spec s1 H1) as N1.
  pose proof (SortedVectorIterator_next_spec s2 H2) as N2.
  destruct (stack_values s1) as [|x r1] eqn:E1;
    destruct (stack_values s2) as [|y r2] eqn:E2; try discriminate.
  - rewrite N1. reflexivity.
  - destruct N1 as (s1' & -> & Hok1 & Hv1).
    destruct N2 as (s2' & -> & Hok2 & Hv2).
    cbn [bind]. rewrite cmp_EQ. cbn [bind list_eqb].
    destruct (eqb x y); [|reflexivity]. cbn [negb andb].
    rewrite (IH s1' s2' Hok1 Hok2).
    + rewrite Hv1, Hv2. reflexivity.
    + rewrite Hv1, Hv2. cbn [length] in Hl. lia.
    + rewrite Hv1. cbn [length] in Hf. lia.
Qed.

End Compare.
End SortedReads.

(** * SortedVector: order *)

Lemma find_first_app {A : Type} (p : A -> bool) (l1 l2 : list A) :
  find_first p (l1 ++ l2)
  = match find_first p l1 with
    | Some i => Some i
    | None => match find_first p l2 with
              | Some j => Some (length l1 + j)%nat
              | None => None
              end
    end.
Proof.
  induction l1 as [|x t IH]; cbn [app find_first length].
  - destruct (find_first p l2); reflexivity.
  - destruct (p x); [reflexivity|]. rewrite IH.
    destruct (find_first p t); [reflexivity|].
    destruct (find_first p l2); reflexivity.
Qed.

Lemma find_first_none {A : Type} (p : A -> bool) (l : list A) :
  (forall x, In x l -> p x = false) -> find_first p l = None.
Proof.
  induction l as [|x t IH]; intros H; [reflexivity|].
  cbn [find_first]. rewrite (H x (or_introl eq_refl)).
  rewrite IH; [reflexivity|]. intros y Hy. apply H. right. exact Hy.
Qed.

Lemma find_first_spec {A : Type} (p : A -> bool) (l : list A) :
  match find_first p l with
  | Some i =>
      (exists x, nth_error l i = Some x /\ p x = true)
      /\ forall j x, (j < i)%nat -> nth_error l j = Some x -> p x = false
  | None => forall x, In x l -> p x = false
  end.
Proof.
  induction l as [|y t IH]; cbn [find_first].
  - intros x [].
  - destruct (p y) eqn:E.
    + split; [exists y; split; [reflexivity|exact E]|]. intros j x Hj. lia.
    + destruct (find_first p t) as [i|].
      * destruct IH as [(x & Hx & Hp) Hb]. split.
        -- exists x. split; assumption.
        -- intros [|j] z Hj Hz.
           ++ cbn in Hz. congruence.
           ++ cbn in Hz. apply (Hb j z); [lia|exact Hz].
      * intros x [<-|Hx]; [exact E|]. apply IH. exact Hx.
Qed.

Lemma filter_none {A : Type} (p : A -> bool) (l : list A) :
  (forall x, In x l -> p x = false) -> filter p l = [].
Proof.
  induction l as [|x t IH]; intros H; [reflexivity|].
  cbn [filter]. rewrite (H x (or_introl eq_refl)).
  apply IH. intros y Hy. apply H. right. exact Hy.
Qed.

Lemma filter_all {A : Type} (p : A -> bool) (l : list A) :
  (forall x, In x l -> p x = true) -> filter p l = l.
Proof.
  induction l as [|x t IH]; intros H; [reflexivity|].
  cbn [filter]. rewrite (H x (or_introl eq_refl)).
  rewrite IH; [reflexivity|]. intros y Hy. apply H. right. exact Hy.
Qed.

Lemma existsb_none {A : Type} (p : A -> bool) (l : list A) :
  (forall x, In x l -> p x = false) -> existsb p l = false.
Proof.
  induction l as [|x t IH]; intros H; [reflexivity|].
  cbn [existsb]. rewrite (H x (or_introl eq_refl)).
  apply IH. intros y Hy. apply H. right. exact Hy.
Qed.

Section SortedOrder.
Variable Obj : Type.
Variable PyObject_RichCompareBool : Obj -> Obj -> cmp_op -> result bool.
Variable lt : Obj -> Obj -> bool.

Hypothesis cmp_LT : forall a b, PyObject_RichCompareBool a b Py_LT = Ok (lt a b).
Hypothesis cmp_GT : forall a b, PyObject_RichCompareBool a b Py_GT = Ok (lt b a).
Hypothesis lt_asym : forall a b, lt a b = true -> lt b a = false.
Hypothesis lt_cotrans :
  forall a b c, lt a c = true -> lt a b = true \/ lt b c = true.

Variable reverse : bool.

Local Abbreviation bef := (before lt reverse).
Local Abbreviation equiv := (equivalent lt).

(** The three answers of [SortedVector_compare_keys]. *)
Lemma compare_keys_cases (a b : Obj) :
  exists c, SortedVector_compare_keys PyObject_RichCompareBool a b reverse
            = Ok c
            /\ (c <? 0) = bef a b
            /\ (c >? 0) = bef b a
            /\ (c <=? 0) = negb (bef b a).
Proof.
  unfold SortedVector_compare_keys, before.
  rewrite cmp_LT, cmp_GT. cbn [bind].
  destruct (lt a b) eqn:Eab.
  - rewrite (lt_asym _ _ Eab).
    destruct reverse; eexists; (split; [reflexivity|]); repeat split.
  - destruct (lt b a) eqn:Eba;
      destruct reverse; eexists; (split; [reflexivity|]); repeat split.
Qed.

Lemma equivalent_before (a b : Obj) :
  equiv a b = negb (bef a b) && negb (bef b a).
Proof.
  unfold equivalent, before. destruct reverse; [|reflexivity].
  apply andb_comm.
Qed.

Lemma bst_order_inv (v k : Obj) (l r : RBNode Obj) (s : Z) (c : rb_color)
      (e : option token) :
  bst_order lt reverse (RBNode_ v k l r s c e) = true ->
  (forall x, In x (rb_keys l) -> bef k x = false)
  /\ (forall x, In x (rb_keys r) -> bef x k = false)
  /\ bst_order lt reverse l = true /\ bst_order lt reverse r = true.
Proof.
  cbn [bst_order]. rewrite !andb_true_iff, !forallb_forall.
  intros [[[Hl Hr] Bl] Br]. repeat split; auto.
  - intros x Hx. apply negb_true_iff. apply Hl. exact Hx.
  - intros x Hx. apply negb_true_iff. apply Hr. exact Hx.
Qed.

Lemma bef_cotrans (a b c : Obj) :
  bef a c = true -> bef a b = true \/ bef b c = true.
Proof.
  unfold before. destruct reverse; intros H.
  - destruct (lt_cotrans _ b _ H); auto.
  - apply lt_cotrans. exact H.
Qed.

Lemma bef_asym (a b : Obj) : bef a b = true -> bef b a = false.
Proof. unfold before. destruct reverse; apply lt_asym. Qed.

(** The key [x] goes strictly before the key [k] of a node: it goes
    strictly before every key of the right subtree. *)
Lemma before_node_before_right (x k : Obj) (keys : list Obj) :
  bef x k = true ->
  (forall y, In y keys -> bef y k = false) ->
  forall y, In y keys -> bef x y = true.
Proof.
  intros Hx Hr y Hy. destruct (bef_cotrans _ y _ Hx) as [H|H]; [exact H|].
  rewrite (Hr y Hy) in H. discriminate.
Qed.

(** The key [k] of a node goes strictly before [x]: so does every key of
    the left subtree. *)
Lemma node_before_left_before (x k : Obj) (keys : list Obj) :
  bef k x = true ->
  (forall y, In y keys -> bef k y = false) ->
  forall y, In y keys -> bef y x = true.
Proof.
  intros Hx Hl y Hy. destruct (bef_cotrans _ y _ Hx) as [H|H]; [|exact H].
  rewrite (Hl y Hy) in H. discriminate.
Qed.

(** [x] does not go before the key [k] of a node: it goes before no key of
    the left subtree. *)
Lemma not_before_node_not_before_left (x k : Obj) (keys : list Obj) :
  bef x k = false ->
  (forall y, In y keys -> bef k y = false) ->
  forall y, In y keys -> bef x y = false.
Proof.
  intros Hx Hl y Hy. destruct (bef x y) eqn:E; [|reflexivity].
  destruct (bef_cotrans _ k _ E) as [H|H]; [congruence|].
  rewrite (Hl y Hy) in H. discriminate.
Qed.

(** The key [k] of a node does not go before [x]: no key of the right
    subtree does. *)
Lemma node_not_before_right_not_before (x k : Obj) (keys : list Obj) :
  bef k x = false ->
  (forall y, In y keys -> bef y k = false) ->
  forall y, In y keys -> bef y x = false.
Proof.
  intros Hx Hr y Hy. destruct (bef y x) eqn:E; [|reflexivity].
  destruct (bef_cotrans _ k _ E) as [H|H]; [|congruence].
  rewrite (Hr y Hy) in H. discriminate.
Qed.

(** *** [rank] *)
Lemma RBNode_rank_spec (x : Obj) (t : RBNode Obj) :
  sizes_ok t = true -> bst_order lt reverse t = true ->
  RBNode_rank PyObject_RichCompareBool t x reverse
  = Ok (Z.of_nat (length (filter (fun k => bef k x) (rb_keys t)))).
Proof.
  induction t as [|v k l IHl r IHr s c e]; intros Hs Hb; [reflexivity|].
  apply sizes_ok_inv in Hs. destruct Hs as (_ & Sl & Sr).
  apply bst_order_inv in Hb. destruct Hb as (Hl & Hr & Bl & Br).
  cbn [RBNode_rank rb_keys].
  destruct (compare_keys_cases x k) as (c0 & -> & _ & _ & Hle).
  cbn [bind]. rewrite Hle. rewrite filter_app. cbn [filter].
  destruct (bef k x) eqn:E; cbn [negb].
  - rewrite (IHr Sr Br). cbn [bind].
    rewrite (filter_all _ (rb_keys l))
      by (apply (node_before_left_before x k); assumption).
    rewrite length_app. cbn [length].
    rewrite (sizes_ok_length _ l Sl).
    replace (length (rb_values l)) with (length (rb_keys l))
      by (rewrite <- rb_items_keys, <- rb_items_values, !length_map;
          reflexivity).
    match goal with |- context [?z <? 0] =>
      assert (Hz : (z <? 0) = false) by (apply Z.ltb_ge; lia) end.
    rewrite Hz. f_equal. lia.
  - rewrite (IHl Sl Bl).
    rewrite (filter_none _ (rb_keys r))
      by (apply (node_not_before_right_not_before x k); assumption).
    rewrite length_app. cbn [length]. rewrite Nat.add_0_r. reflexivity.
Qed.

(** *** [index_of] *)
Lemma RBNode_index_of_spec (x : Obj) (t : RBNode Obj) :
  sizes_ok t = true -> bst_order lt reverse t = true ->
  forall offset : Z, 0 <= offset ->
    RBNode_index_of PyObject_RichCompareBool t x reverse offset
    = Ok (match find_first (equiv x) (rb_keys t) with
          | Some i => offset + Z.of_nat i
          | None => -1
          end).
Proof.
  induction t as [|v k l IHl r IHr s c e]; intros Hs Hb offset Ho;
    [reflexivity|].
  apply sizes_ok_inv in Hs. destruct Hs as (_ & Sl & Sr).
  apply bst_order_inv in Hb. destruct Hb as (Hl & Hr & Bl & Br).
  pose proof (sizes_ok_length _ l Sl) as Ll.
  assert (Lk : length (rb_values l) = length (rb_keys l))
    by (rewrite <- rb_items_keys, <- rb_items_values, !length_map;
        reflexivity).
  cbn [RBNode_index_of rb_keys].
  destruct (compare_keys_cases x k) as (c0 & -> & Hlt & Hgt & _).
  cbn [bind]. rewrite Hlt, Hgt. rewrite find_first_app. cbn [find_first].
  rewrite (equivalent_before x k).
  destruct (bef x k) eqn:E1; cbn [negb andb].
  - (* the key goes to the left *)
    rewrite (IHl Sl Bl offset Ho).
    rewrite (find_first_none (equiv x) (rb_keys r)).
    + destruct (find_first (equiv x) (rb_keys l)); reflexivity.
    + intros y Hy. rewrite equivalent_before.
      rewrite (before_node_before_right x k (rb_keys r) E1 Hr y Hy).
      reflexivity.
  - destruct (bef k x) eqn:E2; cbn [negb].
    + (* the key goes to the right *)
      rewrite (IHr Sr Br) by lia.
      rewrite (find_first_none (equiv x) (rb_keys l)).
      * destruct (find_first (equiv x) (rb_keys r)); [|reflexivity].
        f_equal. lia.
      * intros y Hy. rewrite equivalent_before.
        rewrite (node_before_left_before x k (rb_keys l) E2 Hl y Hy).
        apply andb_false_r.
    + (* the key of the node is equivalent *)
      rewrite (IHl Sl Bl offset Ho). cbn [bind].
      destruct (find_first (equiv x) (rb_keys l)) as [i|].
      * assert (Hi : (offset + Z.of_nat i >=? 0) = true)
          by (rewrite Z.geb_leb; apply Z.leb_le; lia).
        rewrite Hi. reflexivity.
      * cbn. f_equal. lia.
Qed.

(** *** [contains] *)
Section Contains.
Variable eqb : Obj -> Obj -> bool.
Hypothesis cmp_EQ :
  forall a b, PyObject_RichCompareBool a b Py_EQ = Ok (eqb a b).

Lemma In_items_key (t : RBNode Obj) (kv : Obj * Obj) :
  In kv (rb_items t) -> In (fst kv) (rb_keys t).
Proof. intros H. rewrite <- rb_items_keys. apply in_map. exact H. Qed.

Lemma RBNode_contains_spec (x value : Obj) (t : RBNode Obj) :
  bst_order lt reverse t = true ->
  RBNode_contains PyObject_RichCompareBool t x value reverse
  = Ok (existsb (fun kv => equiv x (fst kv) && eqb value (snd kv))
                (rb_items t)).
Proof.
  induction t as [|v k l IHl r IHr s c e]; intros Hb; [reflexivity|].
  apply bst_order_inv in Hb. destruct Hb as (Hl & Hr & Bl & Br).
  cbn [RBNode_contains rb_items].
  destruct (compare_keys_cases x k) as (c0 & -> & Hlt & Hgt & _).
  cbn [bind]. rewrite Hlt, Hgt. rewrite existsb_app. cbn [existsb fst snd].
  rewrite (equivalent_before x k).
  destruct (bef x k) eqn:E1; cbn [negb andb orb].
  - rewrite (IHl Bl).
    rewrite (existsb_none _ (rb_items r)); [rewrite orb_false_r; reflexivity|].
    intros kv Hkv. rewrite equivalent_before.
    rewrite (before_node_before_right x k (rb_keys r) E1 Hr (fst kv)
               (In_items_key r kv Hkv)).
    reflexivity.
  - destruct (bef k x) eqn:E2; cbn [negb andb orb].
    + rewrite (IHr Br).
      rewrite (existsb_none _ (rb_items l)); [reflexivity|].
      intros kv Hkv. rewrite equivalent_before.
      rewrite (node_before_left_before x k (rb_keys l) E2 Hl (fst kv)
                 (In_items_key l kv Hkv)).
      rewrite andb_false_r. reflexivity.
    + rewrite cmp_EQ. cbn [bind].
      destruct (eqb value v); cbn [orb].
      * rewrite orb_true_r. reflexivity.
      * rewrite (IHl Bl). cbn [bind].
        destruct (existsb _ (rb_items l)); [reflexivity|].
        rewrite (IHr Br). reflexivity.
Qed.

End Contains.

(** *** Insertion keeps the order of arrival among equivalent keys *)

Lemma stable_insert_left (x a : Obj * Obj) (l1 l2 : list (Obj * Obj)) :
  bef (fst x) (fst a) = true ->
  stable_insert lt reverse x (l1 ++ a :: l2)
  = stable_insert lt reverse x l1 ++ a :: l2.
Proof.
  intros H. induction l1 as [|y t IH]; cbn [app stable_insert].
  - rewrite H. reflexivity.
  - destruct (bef (fst x) (fst y)); [reflexivity|]. rewrite IH. reflexivity.
Qed.

Lemma stable_insert_right (x : Obj * Obj) (l1 l2 : list (Obj * Obj)) :
  (forall y, In y l1 -> bef (fst x) (fst y) = false) ->
  stable_insert lt reverse x (l1 ++ l2)
  = l1 ++ stable_insert lt reverse x l2.
Proof.
  induction l1 as [|y t IH]; intros H; cbn [app]; [reflexivity|].
  cbn [stable_insert]. rewrite (H y (or_introl eq_refl)).
  rewrite IH; [reflexivity|]. intros z Hz. apply H. right. exact Hz.
Qed.

Lemma balance_copy_items (h : RBNode Obj) :
  rb_items (balance_copy h) = rb_items h.
Proof.
  destruct h as [|v k l r s c e]; [reflexivity|].
  unfold balance_copy.
  destruct l as [|lv lk ll lr ls [|] le]; destruct r as [|rv rk rl rr rs [|] re];
    try destruct ll as [|? ? ? ? ? [|] ?];
    try destruct rr as [|? ? ? ? ? [|] ?];
    cbn; rewrite <- ?app_assoc; cbn; rewrite <- ?app_assoc; reflexivity.
Qed.

Lemma insert_copy_items (value sort_key : Obj) (t : RBNode Obj) :
  bst_order lt reverse t = true ->
  rb_items (insert_copy lt reverse t value sort_key)
  = stable_insert lt reverse (sort_key, value) (rb_items t).
Proof.
  induction t as [|v k l IHl r IHr s c e]; intros Hb; [reflexivity|].
  apply bst_order_inv in Hb. destruct Hb as (Hl & Hr & Bl & Br).
  cbn [insert_copy]. rewrite balance_copy_items. cbn [rb_items].
  destruct (bef sort_key k) eqn:E.
  - cbn [RBNode_clone set_left rb_items]. rewrite (IHl Bl).
    symmetry. apply stable_insert_left. exact E.
  - cbn [RBNode_clone set_right rb_items]. rewrite (IHr Br).
    rewrite stable_insert_right.
    + cbn [stable_insert fst]. rewrite E. reflexivity.
    + intros y Hy. cbn [fst].
      apply (not_before_node_not_before_left sort_key k (rb_keys l) E Hl).
      apply In_items_key. exact Hy.
Qed.

Lemma set_color_items (t : RBNode Obj) (c : rb_color) :
  rb_items (set_color t c) = rb_items t.
Proof. destruct t; reflexivity. Qed.

Lemma clone_items (t : RBNode Obj) (e : option token) :
  rb_items (RBNode_clone t e) = rb_items t.
Proof. destruct t; reflexivity. Qed.

(** [conj] puts the value behind the values whose key does not come after
    its own. *)
Lemma SortedVector_conj_items (self sv : SortedVector Obj)
      (value sort_key : Obj) (w : nat) :
  bst_order lt (sv_reverse self) (sv_root self) = true ->
  sv_reverse self = reverse ->
  SortedVector_get_sort_key (sv_key_fn self) value = Ok sort_key ->
  SortedVector_conj PyObject_RichCompareBool self value = Ok (sv, w) ->
  rb_items (sv_root sv)
  = stable_insert lt reverse (sort_key, value) (rb_items (sv_root self)).
Proof.
  intros Hb Hr Hk. rewrite Hr in Hb.
  unfold SortedVector_conj. rewrite Hk, Hr. cbn [liftW bindW].
  rewrite (insert_None Obj PyObject_RichCompareBool lt cmp_LT cmp_GT lt_asym).
  cbn [bindW retW]. intros H. injection H as Hsv _. rewrite <- Hsv.
  cbn [sv_root].
  rewrite <- insert_copy_items by exact Hb.
  destruct (RBNode_is_red _); [|reflexivity].
  rewrite set_color_items, clone_items. reflexivity.
Qed.

End SortedOrder.

(** *** [sorted_vec] by any key *)
Section SortedBuild.
Variable Obj : Type.
Variable PyObject_RichCompareBool : Obj -> Obj -> cmp_op -> result bool.
Variable lt : Obj -> Obj -> bool.

Hypothesis cmp_LT : forall a b, PyObject_RichCompareBool a b Py_LT = Ok (lt a b).
Hypothesis cmp_GT : forall a b, PyObject_RichCompareBool a b Py_GT = Ok (lt b a).
Hypothesis lt_asym : forall a b, lt a b = true -> lt b a = false.
Hypothesis lt_cotrans :
  forall a b c, lt a c = true -> lt a b = true \/ lt b c = true.

Variable key_fn : option (Obj -> result Obj).
Variable kf : Obj -> Obj.
Hypothesis key_total :
  forall v, SortedVector_get_sort_key key_fn v = Ok (kf v).

Lemma sv_conj_all_items (items : list Obj) :
  forall self : SortedVector Obj,
    sv_invariants lt self -> sv_key_fn self = key_fn ->
    exists sv,
      sv_conj_all PyObject_RichCompareBool self items = Ok (sv, 0%nat)
      /\ sv_invariants lt sv
      /\ sv_reverse sv = sv_reverse self
      /\ sv_key_fn sv = key_fn
      /\ rb_items (sv_root sv)
         = fold_left (fun acc v =>
                        stable_insert lt (sv_reverse self) (kf v, v) acc)
                     items (rb_items (sv_root self))
      /\ Permutation (rb_values (sv_root sv))
                     (rev items ++ rb_values (sv_root self)).
Proof.
  induction items as [|x rest IH]; intros self Hinv Hk.
  - exists self. repeat (split; [reflexivity || assumption|]).
    apply Permutation_refl.
  - cbn [sv_conj_all fold_left].
    assert (Hkey : SortedVector_get_sort_key (sv_key_fn self) x = Ok (kf x))
      by (rewrite Hk; apply key_total).
    destruct (SortedVector_conj_invariants Obj PyObject_RichCompareBool lt
                cmp_LT cmp_GT lt_asym lt_cotrans self x (kf x) Hinv Hkey)
      as (sv1 & H1 & Hinv1 & _ & Hk1 & Hr1 & Hp1).
    pose proof (SortedVector_conj_items Obj PyObject_RichCompareBool lt
                  cmp_LT cmp_GT lt_asym lt_cotrans (sv_reverse self)
                  self sv1 x (kf x) 0%nat (proj1 Hinv) eq_refl Hkey H1)
      as Hi1.
    rewrite H1. cbn [bindW].
    destruct (IH sv1 Hinv1) as (sv2 & H2 & Hinv2 & Hr2 & Hk2 & Hi2 & Hp2).
    { congruence. }
    rewrite H2. exists sv2. split; [reflexivity|]. split; [exact Hinv2|].
    split; [congruence|]. split; [exact Hk2|]. split.
    + rewrite Hi2, Hr1, Hi1. reflexivity.
    + rewrite Hp2. cbn [rev]. rewrite <- app_assoc. cbn [app].
      apply Permutation_app_head. exact Hp1.
Qed.

End SortedBuild.

(** The position of the first equivalent key of a sorted sequence is the
    number of keys strictly before the key. *)
Lemma find_first_is_rank (Obj : Type) (lt : Obj -> Obj -> bool)
      (reverse : bool) (x : Obj) :
  (forall a b, lt a b = true -> lt b a = false) ->
  (forall a b c, lt a c = true -> lt a b = true \/ lt b c = true) ->
  forall (keys : list Obj) (i : nat),
    StronglySorted (may_precede lt reverse) keys ->
    find_first (equivalent lt x) keys = Some i ->
    i = length (filter (fun k => before lt reverse k x) keys).
Proof.
  intros Hasym Hcot keys. induction keys as [|y t IH]; intros i Hs Hf.
  - discriminate.
  - inversion Hs as [|? ? Ht Hy]; subst. rewrite Forall_forall in Hy.
    cbn [find_first filter] in *.
    rewrite (equivalent_before Obj lt reverse) in Hf.
    destruct (before lt reverse y x) eqn:Eyx.
    + rewrite andb_false_r in Hf.
      destruct (find_first (equivalent lt x) t) as [j|] eqn:Ej;
        [|discriminate].
      injection Hf as <-. cbn [length]. f_equal. apply IH; auto.
    + destruct (before lt reverse x y) eqn:Exy; cbn [negb andb] in Hf.
      * (* nothing behind [y] is equivalent to [x] *)
        rewrite (find_first_none (equivalent lt x) t) in Hf; [discriminate|].
        intros z Hz. rewrite (equivalent_before Obj lt reverse).
        destruct (bef_cotrans Obj lt Hcot reverse x z y Exy) as [H|H].
        -- rewrite H. reflexivity.
        -- specialize (Hy z Hz). unfold may_precede in Hy. congruence.
      * injection Hf as <-.
        rewrite filter_none; [reflexivity|].
        intros z Hz. destruct (before lt reverse z x) eqn:E; [|reflexivity].
        destruct (bef_cotrans Obj lt Hcot reverse z y x E) as [H|H].
        -- specialize (Hy z Hz). unfold may_precede in Hy. congruence.
        -- congruence.
Qed.



(** X11.  When the host compares sort keys by a strict weak order and the
    key function returns for every value: [conj] puts its argument behind
    every element whose key does not come strictly after the key of the
    argument, and so [sorted_vec(items, key, reverse)] is the insertion sort
    of [items] by key: iterating it yields a permutation of [items], sorted
    by key in the direction of the vector, in which items with equivalent
    keys keep the order they had in [items]. *)
Theorem X11_sorted_vec_is_a_stable_sort :
  forall (Obj : Type)
         (PyObject_RichCompareBool : Obj -> Obj -> cmp_op -> result bool)
         (lt : Obj -> Obj -> bool)
         (key_fn : option (Obj -> result Obj)) (kf : Obj -> Obj),
    (forall a b, PyObject_RichCompareBool a b Py_LT = Ok (lt a b)) ->
    (forall a b, PyObject_RichCompareBool a b Py_GT = Ok (lt b a)) ->
    (forall a b, lt a b = true -> lt b a = false) ->
    (forall a b c, lt a c = true -> lt a b = true \/ lt b c = true) ->
    (forall v, SortedVector_get_sort_key key_fn v = Ok (kf v)) ->
    (forall (self : SortedVector Obj) (value : Obj),
        sv_invariants lt self -> sv_key_fn self = key_fn ->
        exists sv,
          SortedVector_conj PyObject_RichCompareBool self value
          = Ok (sv, 0%nat)
          /\ rb_items (sv_root sv)
             = stable_insert lt (sv_reverse self) (kf value, value)
                             (rb_items (sv_root self)))
    /\ (forall (items : list Obj) (reverse : bool),
           exists sv,
             pds_sorted_vec PyObject_RichCompareBool (Some items) key_fn
                            reverse
             = Ok (ret_new sv, 0%nat)
             /\ rb_items (sv_root sv) = stable_sort lt reverse kf items
             /\ SortedVector_iterate (S (length items)) (SortedVector_iter sv)
                = Ok (map snd (stable_sort lt reverse kf items))
             /\ Permutation (map snd (stable_sort lt reverse kf items)) items
             /\ StronglySorted (may_precede lt reverse)
                  (map fst (stable_sort lt reverse kf items))).
Proof.
  intros Obj cmp lt key_fn kf HLT HGT Hasym Hcot Hkey. split.
  - intros self value Hinv Hk.
    assert (Hkv : SortedVector_get_sort_key (sv_key_fn self) value
                  = Ok (kf value)) by (rewrite Hk; apply Hkey).
    destruct (SortedVector_conj_invariants Obj cmp lt HLT HGT Hasym Hcot
                self value (kf value) Hinv Hkv) as (sv & H & _).
    exists sv. split; [exact H|].
    apply (SortedVector_conj_items Obj cmp lt HLT HGT Hasym Hcot
             (sv_reverse self) self sv value (kf value) 0%nat
             (proj1 Hinv) eq_refl Hkv H).
  - intros items reverse. unfold pds_sorted_vec.
    destruct (sv_conj_all_items Obj cmp lt HLT HGT Hasym Hcot key_fn kf Hkey
                items (mkSortedVector RBNull 0 key_fn reverse)
                (empty_sv_invariants Obj lt key_fn reverse) eq_refl)
      as (sv & H & Hinv & Hr & Hk & Hi & Hp).
    cbn [sv_root sv_reverse rb_items rb_values] in Hi, Hp, Hr.
    rewrite app_nil_r in Hp.
    rewrite H. exists sv. split; [reflexivity|].
    fold (stable_sort lt reverse kf items) in Hi.
    assert (Hv : rb_values (sv_root sv)
                 = map snd (stable_sort lt reverse kf items))
      by (rewrite <- Hi; symmetry; apply rb_items_values).
    split; [exact Hi|]. split; [|split].
    + destruct (SortedVector_iter_values Obj sv) as [Hok Hsv].
      rewrite (SortedVector_iterate_spec Obj _ _ Hok).
      * rewrite Hsv. f_equal. exact Hv.
      * rewrite Hsv, (Permutation_length Hp), length_rev. lia.
    + rewrite <- Hv, Hp. apply Permutation_sym, Permutation_rev.
    + rewrite <- Hi, rb_items_keys.
      apply (bst_order_sorted Obj lt Hcot). rewrite <- Hr.
      exact (proj1 Hinv).
Qed.

(** X11, witness: [sorted_vec([31, 12, 35, 18, 30], key=tens)] over the
    integers keeps 31, 35, 30 in the order they came in. *)
Lemma X11_sorted_vec_is_a_stable_sort_witness :
  exists sv,
    pds_sorted_vec Zcompare (Some [31; 12; 35; 18; 30]) (Some tens) false
    = Ok (ret_new sv, 0%nat)
    /\ rb_items (sv_root sv)
       = stable_sort Z.ltb false (fun z => z / 10) [31; 12; 35; 18; 30]
    /\ SortedVector_iterate 6 (SortedVector_iter sv)
       = Ok (map snd (stable_sort Z.ltb false (fun z => z / 10)
                        [31; 12; 35; 18; 30]))
    /\ Permutation (map snd (stable_sort Z.ltb false (fun z => z / 10)
                               [31; 12; 35; 18; 30]))
                   [31; 12; 35; 18; 30]
    /\ StronglySorted (may_precede Z.ltb false)
         (map fst (stable_sort Z.ltb false (fun z => z / 10)
                     [31; 12; 35; 18; 30])).
Proof.
  exact (proj2 (X11_sorted_vec_is_a_stable_sort Z Zcompare Z.ltb (Some tens)
                  (fun z => z / 10)
                  (fun a b => eq_refl) Zcompare_GT Zltb_asym Zltb_cotrans
                  (fun v => eq_refl))
               [31; 12; 35; 18; 30] false).
Defined.

(** X12.  On a SortedVector that keeps its invariants, for a host that
    compares sort keys by a strict weak order: [rank(x)] is the number of
    elements whose key comes strictly before the key of [x]; [index_of(x)]
    is the position of the first element whose key is equivalent to that of
    [x] (neither is smaller), which is then [rank(x)], and [-1] when no key
    is equivalent. *)
Theorem X12_sorted_vector_rank_and_index_of :
  forall (Obj : Type)
         (PyObject_RichCompareBool : Obj -> Obj -> cmp_op -> result bool)
         (lt : Obj -> Obj -> bool)
         (sv : SortedVector Obj) (x key : Obj),
    (forall a b, PyObject_RichCompareBool a b Py_LT = Ok (lt a b)) ->
    (forall a b, PyObject_RichCompareBool a b Py_GT = Ok (lt b a)) ->
    (forall a b, lt a b = true -> lt b a = false) ->
    (forall a b c, lt a c = true -> lt a b = true \/ lt b c = true) ->
    sv_invariants lt sv ->
    SortedVector_get_sort_key (sv_key_fn sv) x = Ok key ->
    SortedVector_rank PyObject_RichCompareBool sv x
    = Ok (Z.of_nat (length (filter (fun k => before lt (sv_reverse sv) k key)
                                   (rb_keys (sv_root sv)))))
    /\ match find_first (equivalent lt key) (rb_keys (sv_root sv)) with
       | Some i =>
           SortedVector_index_of PyObject_RichCompareBool sv x
           = Ok (Z.of_nat i)
           /\ SortedVector_index_of PyObject_RichCompareBool sv x
              = SortedVector_rank PyObject_RichCompareBool sv x
       | None =>
           SortedVector_index_of PyObject_RichCompareBool sv x = Ok (-1)
       end.
Proof.
  intros Obj cmp lt sv x key HLT HGT Hasym Hcot Hinv Hkey.
  destruct Hinv as (Hb & _ & _ & _ & Hs & _).
  assert (Hrank :
    SortedVector_rank cmp sv x
    = Ok (Z.of_nat (length (filter (fun k => before lt (sv_reverse sv) k key)
                                   (rb_keys (sv_root sv)))))).
  { unfold SortedVector_rank. rewrite Hkey. cbn [bind].
    rewrite (RBNode_rank_spec Obj cmp lt HLT HGT Hasym Hcot (sv_reverse sv)
               key (sv_root sv) Hs Hb).
    cbn [bind].
    match goal with |- context [?z <? 0] =>
      assert (Hz : (z <? 0) = false) by (apply Z.ltb_ge; lia) end.
    rewrite Hz. reflexivity. }
  split; [exact Hrank|].
  assert (Hidx :
    SortedVector_index_of cmp sv x
    = Ok (match find_first (equivalent lt key) (rb_keys (sv_root sv)) with
          | Some i => 0 + Z.of_nat i
          | None => -1
          end)).
  { unfold SortedVector_index_of. rewrite Hkey. cbn [bind].
    apply (RBNode_index_of_spec Obj cmp lt HLT HGT Hasym Hcot (sv_reverse sv)
             key (sv_root sv) Hs Hb 0). lia. }
  destruct (find_first (equivalent lt key) (rb_keys (sv_root sv)))
    as [i|] eqn:E.
  - rewrite Z.add_0_l in Hidx. split; [exact Hidx|].
    rewrite Hidx, Hrank. do 2 f_equal.
    apply (find_first_is_rank Obj lt (sv_reverse sv) key Hasym Hcot
             (rb_keys (sv_root sv)) i); [|exact E].
    apply (bst_order_sorted Obj lt Hcot). exact Hb.
  - exact Hidx.
Qed.

(** X12, witness: the rank of 3 in the SortedVector of 5, 3, 8, 3, 1. *)
Lemma X12_sorted_vector_rank_and_index_of_witness :
  SortedVector_rank Zcompare (sample_sorted [5; 3; 8; 3; 1]) 3
  = Ok (Z.of_nat
          (length (filter
                     (fun k => before Z.ltb
                                 (sv_reverse (sample_sorted [5; 3; 8; 3; 1]))
                                 k 3)
                     (rb_keys (sv_root (sample_sorted [5; 3; 8; 3; 1])))))).
Proof.
  exact (proj1 (X12_sorted_vector_rank_and_index_of Z Zcompare Z.ltb
                  (sample_sorted [5; 3; 8; 3; 1]) 3 3
                  (fun a b => eq_refl) Zcompare_GT Zltb_asym Zltb_cotrans
                  ltac:(vm_compute; repeat split; exists 2%nat; reflexivity)
                  eq_refl)).
Defined.

(** X13.  On a SortedVector that keeps its invariants, for a host that
    compares sort keys by a strict weak order and whose [==] is a total
    relation [eqb]: [x in sv] is true exactly when some element has a key
    equivalent to the key of [x] and is [==] to [x]. *)
Theorem X13_sorted_vector_contains :
  forall (Obj : Type)
         (PyObject_RichCompareBool : Obj -> Obj -> cmp_op -> result bool)
         (lt eqb : Obj -> Obj -> bool)
         (sv : SortedVector Obj) (x key : Obj),
    (forall a b, PyObject_RichCompareBool a b Py_LT = Ok (lt a b)) ->
    (forall a b, PyObject_RichCompareBool a b Py_GT = Ok (lt b a)) ->
    (forall a b, PyObject_RichCompareBool a b Py_EQ = Ok (eqb a b)) ->
    (forall a b, lt a b = true -> lt b a = false) ->
    (forall a b c, lt a c = true -> lt a b = true \/ lt b c = true) ->
    sv_invariants lt sv ->
    SortedVector_get_sort_key (sv_key_fn sv) x = Ok key ->
    SortedVector_contains PyObject_RichCompareBool sv x
    = Ok (existsb (fun kv => equivalent lt key (fst kv) && eqb x (snd kv))
                  (rb_items (sv_root sv))).
Proof.
  intros Obj cmp lt eqb sv x key HLT HGT HEQ Hasym Hcot Hinv Hkey.
  destruct Hinv as (Hb & _ & _ & _ & _ & _ & _ & Hlen).
  unfold SortedVector_contains. destruct (sv_cnt sv =? 0) eqn:E.
  - apply Z.eqb_eq in E. rewrite <- rb_items_values, length_map in Hlen.
    destruct (rb_items (sv_root sv)); [reflexivity|cbn [length] in Hlen; lia].
  - rewrite Hkey. cbn [bind].
    apply (RBNode_contains_spec Obj cmp lt HLT HGT Hasym Hcot (sv_reverse sv)
             eqb HEQ key x (sv_root sv) Hb).
Qed.

(** X13, witness: 3 in the SortedVector of 5, 3, 8, 3, 1. *)
Lemma X13_sorted_vector_contains_witness :
  SortedVector_contains Zcompare (sample_sorted [5; 3; 8; 3; 1]) 3
  = Ok (existsb (fun kv => equivalent Z.ltb 3 (fst kv) && (3 =? snd kv))
                (rb_items (sv_root (sample_sorted [5; 3; 8; 3; 1])))).
Proof.
  exact (X13_sorted_vector_contains Z Zcompare Z.ltb Z.eqb
           (sample_sorted [5; 3; 8; 3; 1]) 3 3
           (fun a b => eq_refl) Zcompare_GT (fun a b => eq_refl)
           Zltb_asym Zltb_cotrans
           ltac:(vm_compute; repeat split; exists 2%nat; reflexivity) eq_refl).
Defined.

(** X14.  For a host whose [==] on the elements is a total relation [eqb],
    and two SortedVectors whose counts are the numbers of their elements:
    [==] is true exactly when they have the same number of elements and
    the elements are [==] position by position, in order; [!=] is the
    negation.  Against an object of another type [==] is false and [!=]
    true, and the ordering comparisons are not implemented. *)
Theorem X14_sorted_vector_equality_is_elementwise :
  forall (Obj : Type)
         (PyObject_RichCompareBool : Obj -> Obj -> cmp_op -> result bool)
         (eqb : Obj -> Obj -> bool) (self o : SortedVector Obj),
    (forall a b, PyObject_RichCompareBool a b Py_EQ = Ok (eqb a b)) ->
    sv_cnt self = Z.of_nat (length (rb_values (sv_root self))) ->
    sv_cnt o = Z.of_nat (length (rb_values (sv_root o))) ->
    SortedVector_richcompare PyObject_RichCompareBool self (OtherSorted o)
                             Op_EQ
    = Ok (PyBool (list_eqb eqb (rb_values (sv_root self))
                           (rb_values (sv_root o))))
    /\ SortedVector_richcompare PyObject_RichCompareBool self (OtherSorted o)
                                Op_NE
       = Ok (PyBool (negb (list_eqb eqb (rb_values (sv_root self))
                                    (rb_values (sv_root o)))))
    /\ SortedVector_richcompare PyObject_RichCompareBool self OtherNotSorted
                                Op_EQ
       = Ok (PyBool false)
    /\ SortedVector_richcompare PyObject_RichCompareBool self OtherNotSorted
                                Op_NE
       = Ok (PyBool true)
    /\ forall (other : sv_other Obj) (op : rich_op),
         is_Op_EQ op = false -> is_Op_NE op = false ->
         SortedVector_richcompare PyObject_RichCompareBool self other op
         = Ok Py_NotImplemented.
Proof.
  intros Obj cmp eqb self o Hcmp H1 H2.
  destruct (SortedVector_iter_values Obj self) as [Hok1 Hv1].
  destruct (SortedVector_iter_values Obj o) as [Hok2 Hv2].
  split; [|split; [|split; [|split]]]; try reflexivity.
  - unfold SortedVector_richcompare. cbn [is_Op_EQ is_Op_NE negb andb].
    destruct (sv_cnt self =? sv_cnt o) eqn:E; cbn [negb].
    + apply Z.eqb_eq in E.
      rewrite (SortedVector_compare_loop_spec Obj cmp eqb Hcmp _ _ _ Hok1 Hok2)
        by (rewrite ?Hv1, ?Hv2, ?rb_nodes_values; lia).
      rewrite Hv1, Hv2. reflexivity.
    + apply Z.eqb_neq in E.
      rewrite (list_eqb_length Obj eqb) by lia. reflexivity.
  - unfold SortedVector_richcompare. cbn [is_Op_EQ is_Op_NE negb andb].
    destruct (sv_cnt self =? sv_cnt o) eqn:E; cbn [negb].
    + apply Z.eqb_eq in E.
      rewrite (SortedVector_compare_loop_spec Obj cmp eqb Hcmp _ _ _ Hok1 Hok2)
        by (rewrite ?Hv1, ?Hv2, ?rb_nodes_values; lia).
      rewrite Hv1, Hv2. reflexivity.
    + apply Z.eqb_neq in E.
      rewrite (list_eqb_length Obj eqb) by lia. reflexivity.
  - intros other op He Hn. unfold SortedVector_richcompare.
    rewrite He, Hn. reflexivity.
Qed.

(** X14, witness: the SortedVectors of 5, 3, 8 and of 8, 5, 3. *)
Lemma X14_sorted_vector_equality_is_elementwise_witness :
  SortedVector_richcompare Zcompare (sample_sorted [5; 3; 8])
    (OtherSorted (sample_sorted [8; 5; 3])) Op_EQ
  = Ok (PyBool (list_eqb Z.eqb
                  (rb_values (sv_root (sample_sorted [5; 3; 8])))
                  (rb_values (sv_root (sample_sorted [8; 5; 3]))))).
Proof.
  exact (proj1 (X14_sorted_vector_equality_is_elementwise Z Zcompare Z.eqb
                  (sample_sorted [5; 3; 8]) (sample_sorted [8; 5; 3])
                  (fun a b => eq_refl) eq_refl eq_refl)).
Defined.

(** * Cons *)

Section ConsFacts.
Variable Obj : Type.

Lemma Cons_length_list :
  forall c : Cons Obj, Cons_length c = Z.of_nat (length (cons_list c)).
Proof.
  fix IH 1. intros [f [|r|o] h hc]; cbn [Cons_length cons_list length].
  - reflexivity.
  - rewrite (IH r). lia.
  - reflexivity.
Qed.

Lemma Cons_iterate_list :
  forall (c : Cons Obj) (fuel : nat),
    (length (cons_list c) < fuel)%nat ->
    Cons_iterate fuel (Cons_iter c) = Ok (cons_list c).
Proof.
  fix IH 1. intros [f [|r|o] h hc] fuel Hf; cbn [cons_list length] in *.
  - destruct fuel as [|[|fuel]]; try lia. reflexivity.
  - destruct fuel as [|fuel]; [lia|].
    cbn [Cons_iterate Cons_iter ConsIterator_next cons_first cons_rest].
    change (RestCons r) with (Cons_iter r).
    rewrite (IH r fuel) by lia. reflexivity.
  - destruct fuel as [|[|fuel]]; try lia. reflexivity.
Qed.

Lemma cons_of_list_list :
  forall (l : list Obj) (x : Obj),
    exists c, cons_of_list (x :: l) = RestCons c
              /\ cons_list c = x :: l /\ cons_proper c = true.
Proof.
  induction l as [|y t IH]; intros x.
  - eexists. split; [reflexivity|]. split; reflexivity.
  - destruct (IH y) as (c & Hc & Hl & Hp).
    exists (mkCons x (RestCons c) 0 false).
    split; [|split].
    + unfold cons_of_list, cons_onto in *. cbn [fold_right] in *.
      rewrite Hc. reflexivity.
    + cbn [cons_list]. rewrite Hl. reflexivity.
    + exact Hp.
Qed.

Section Compare.
Variable PyObject_RichCompareBool : Obj -> Obj -> cmp_op -> result bool.
Variable eqb : Obj -> Obj -> bool.
Hypothesis cmp_EQ :
  forall a b, PyObject_RichCompareBool a b Py_EQ = Ok (eqb a b).

Lemma Cons_compare_loop_list :
  forall a b : Cons Obj,
    Cons_compare_loop PyObject_RichCompareBool (RestCons a) (RestCons b)
    = Ok (cons_proper a && cons_proper b
          && list_eqb eqb (cons_list a) (cons_list b)).
Proof.
  fix IH 1. intros [fa ra ha ca] [fb rb hb cb].
  cbn [Cons_compare_loop]. rewrite cmp_EQ. cbn [bind].
  destruct (eqb fa fb) eqn:E; cbn [negb].
  - destruct ra as [|a|oa]; destruct rb as [|b|ob].
    5: { rewrite (IH a b). cbn [cons_proper cons_list list_eqb].
         rewrite E. reflexivity. }
    all: try destruct a as [? [|?|?] ? ?]; try destruct b as [? [|?|?] ? ?];
      cbn [cons_proper cons_list list_eqb Cons_compare_loop andb];
      rewrite ?E; cbn [andb];
      repeat match goal with
             | |- context [cons_proper ?x] => destruct (cons_proper x)
             end;
      cbn [andb]; rewrite ?andb_false_r; reflexivity.
  - destruct ra as [|a|oa]; destruct rb as [|b|ob];
      cbn [cons_proper cons_list list_eqb andb];
      rewrite ?E; cbn [andb]; rewrite ?andb_false_r; reflexivity.
Qed.

End Compare.
End ConsFacts.

(** X15.  A Cons chain read as the list of its [first] fields: [len] is the
    number of cells, the iterator yields the elements in order and then
    stops, and [conj] puts its argument in front.  For a host whose [==] on
    the elements is a total relation [eqb], [==] between two chains (not
    the same object) is true exactly when both end in [None], have the same
    length and equal elements at every position; a chain whose last [rest]
    is some other object is equal to no other chain.  The chain [to_seq()]
    returns for a Vector that stores a non-empty [l] ends in [None] and has
    the elements of [l]. *)
Theorem X15_cons_chain_is_a_list :
  forall (Obj : Type) (Py_None : Obj)
         (PyObject_RichCompareBool : Obj -> Obj -> cmp_op -> result bool)
         (eqb : Obj -> Obj -> bool),
    (forall a b, PyObject_RichCompareBool a b Py_EQ = Ok (eqb a b)) ->
    (forall c : Cons Obj,
        Cons_length c = Z.of_nat (length (cons_list c))
        /\ forall fuel, (length (cons_list c) < fuel)%nat ->
             Cons_iterate fuel (Cons_iter c) = Ok (cons_list c))
    /\ (forall (c : Cons Obj) (x : Obj),
           cons_list (Cons_conj c x) = x :: cons_list c
           /\ cons_proper (Cons_conj c x) = cons_proper c)
    /\ (forall c o : Cons Obj,
           Cons_richcompare PyObject_RichCompareBool c (Other (PyCons o))
                            Op_EQ
           = Ok (PyBool (cons_proper c && cons_proper o
                         && list_eqb eqb (cons_list c) (cons_list o)))
           /\ Cons_richcompare PyObject_RichCompareBool c (Other (PyCons o))
                               Op_NE
              = Ok (PyBool (negb (cons_proper c && cons_proper o
                                  && list_eqb eqb (cons_list c)
                                              (cons_list o)))))
    /\ (forall (v : Vector Obj) (x : Obj) (l : list Obj),
           represents Py_None v (x :: l) ->
           exists c, Vector_to_seq Py_None v = Ok (RestCons c)
                     /\ cons_list c = x :: l /\ cons_proper c = true).
Proof.
  intros Obj Py_None cmp eqb Hcmp. split; [|split; [|split]].
  - intros c. split; [apply Cons_length_list|].
    intros fuel Hf. apply Cons_iterate_list. exact Hf.
  - intros c x. split; reflexivity.
  - intros c o. unfold Cons_richcompare. cbn [is_Op_EQ is_Op_NE negb andb].
    rewrite (Cons_compare_loop_list Obj cmp eqb Hcmp c o). cbn [bind].
    unfold PyBool_FromLong. split; reflexivity.
  - intros v x l Hr.
    rewrite (Vector_to_seq_represents Obj Py_None v (x :: l) Hr).
    destruct (cons_of_list_list Obj l x) as (c & Hc & Hl & Hp).
    exists c. rewrite Hc. auto.
Qed.

(** X15, witness: the chains (1 2) and (1 2) over the integers. *)
Lemma X15_cons_chain_is_a_list_witness :
  Cons_richcompare PyHost.compare
    (Cons_conj (pds_cons (PyHost.Int 2) RestNone) (PyHost.Int 1))
    (Other (PyCons (Cons_conj (pds_cons (PyHost.Int 2) RestNone)
                              (PyHost.Int 1))))
    Op_EQ
  = Ok (PyBool true).
Proof.
  exact (proj1 (proj1 (proj2 (proj2
           (X15_cons_chain_is_a_list PyHost.obj PyHost.None_ PyHost.compare
              host_eqb ltac:(intros [|x] [|y]; reflexivity))))
           (Cons_conj (pds_cons (PyHost.Int 2) RestNone) (PyHost.Int 1))
           (Cons_conj (pds_cons (PyHost.Int 2) RestNone) (PyHost.Int 1)))).
Defined.

(** * TransientVector: the transient as a sequence *)

Section TransientSequence.
Variable Obj : Type.
Variable Py_None : Obj.

Local Abbreviation hold := (holds Py_None).
Local Abbreviation el := (elem Py_None).
Local Abbreviation rep := (represents Py_None).
Local Abbreviation trep := (tv_represents Py_None).

(** What a node holds depends on its array only, not on its token. *)
Lemma holds_array (d : nat) (a b : VectorNode Obj) (base n : Z)
      (l : list Obj) :
  node_array a = node_array b -> hold d a base n l -> hold d b base n l.
Proof.
  intros E H. destruct d; cbn [holds] in *; rewrite <- E; exact H.
Qed.

Lemma for_write_array (node : VectorNode Obj) (id : option token) :
  exists r w, VectorNode_for_write node id = Ok (r, w)
              /\ node_array r = node_array node.
Proof.
  unfold VectorNode_for_write.
  destruct (VectorNode_is_editable node id).
  - exists node, 1%nat. auto.
  - exists (VectorNode_clone node id), 0%nat. destruct node. auto.
Qed.

Lemma node_store_array (a b : VectorNode Obj) (k : Z) (s : VSlot Obj) :
  node_array a = node_array b ->
  node_array (node_store a k s) = node_array (node_store b k s).
Proof. intros E. destruct a, b. cbn in *. congruence. Qed.

Lemma clone_array (a : VectorNode Obj) (t : option token) :
  node_array (VectorNode_clone a t) = node_array a.
Proof. destruct a. reflexivity. Qed.

(** A child replaced by one that holds the same range of another list,
    when the two lists agree outside that range. *)
Lemma holds_store_child_set (d : nat) (node r : VectorNode Obj)
      (base n : Z) (l l' : list Obj) (k : Z) :
  0 <= base -> 0 <= k < 32 ->
  base + k * capacity d < n ->
  (forall m, 0 <= m ->
             m < base + k * capacity d
             \/ base + k * capacity d + capacity d <= m ->
             el l m = el l' m) ->
  hold (S d) node base n l ->
  hold d r (base + k * capacity d) n l' ->
  hold (S d) (node_store node k (VChild r)) base n l'.
Proof.
  intros Hb Hk Hkn Hout [Hlen H] Hr. pose proof (capacity_pos d) as Hc.
  split.
  - destruct node. cbn [node_store node_array].
    rewrite set_item_length. exact Hlen.
  - intros j Hj. rewrite WIDTH_32 in Hj. destruct node as [arr tid].
    cbn [node_store node_array] in *.
    rewrite nth_error_set_item by (rewrite ?Hlen, ?WIDTH_32; lia).
    specialize (H j ltac:(rewrite WIDTH_32; lia)).
    destruct (j =? k) eqn:E.
    + apply Z.eqb_eq in E. subst j. zcmp. exists r. auto.
    + apply Z.eqb_neq in E.
      destruct (base + j * capacity d <? n) eqn:En; [|exact H].
      destruct H as (cj & Hcj & Hhj). exists cj. split; auto.
      eapply holds_ext_range; [| |exact Hhj]; [nia|].
      intros m Hm Hmn. apply Hout; [nia|]. nia.
Qed.

(** *** [assoc_mut] *)
Lemma TransientVector_do_assoc_holds (id : option token) (d : nat) :
  forall (fuel : nat) (node : VectorNode Obj) (base n i : Z) (l : list Obj)
         (val : Obj),
    (d <= fuel)%nat -> 0 <= base ->
    (exists q, base = q * capacity d) ->
    base <= i < base + capacity d -> i < n -> n <= Z.of_nat (length l) ->
    hold d node base n l ->
    exists r w,
      TransientVector_do_assoc fuel id (BITS * Z.of_nat d) node i val
      = Ok (r, w)
      /\ hold d r base n (set_item l i val).
Proof.
  induction d as [|d IH]; intros fuel node base n i l val Hf Hb Hq Hi Hn Hl Hh.
  - destruct (Vector_do_assoc_holds Obj Py_None 0 0 node base n i l val)
      as (r0 & Hr0 & Hh0); auto.
    cbn in Hr0. injection Hr0 as <-.
    destruct (for_write_array node id) as (ret & w & Hw & Ha).
    exists (node_store ret (Z.land i MASK) (VItem val)), (w + 0)%nat. split.
    + destruct fuel; cbn [TransientVector_do_assoc]; rewrite Hw;
        reflexivity.
    + eapply holds_array; [|exact Hh0].
      apply node_store_array. rewrite clone_array. congruence.
  - destruct fuel as [|fuel]; [lia|]. cbn [TransientVector_do_assoc].
    destruct (for_write_holds Obj Py_None (S d) node base n l id Hh)
      as (ret & w & Hw & Hret).
    rewrite Hw. cbn [bindW].
    replace (BITS * Z.of_nat (S d) =? 0) with false
      by (symmetry; apply Z.eqb_neq; unfold BITS; lia).
    replace (BITS * Z.of_nat (S d) - BITS) with (BITS * Z.of_nat d)
      by (unfold BITS; lia).
    destruct (slot_of_index d base i Hq Hi) as [Hslot Hr].
    rewrite Hslot. set (k := (i - base) / capacity d) in *.
    pose proof (capacity_pos d) as Hc.
    assert (Hk : base + k * capacity d <= i
                 < base + k * capacity d + capacity d).
    { pose proof (Z.mul_div_le (i - base) (capacity d) Hc) as H1.
      pose proof (Z.mul_succ_div_gt (i - base) (capacity d) Hc) as H2.
      fold k in H1, H2. lia. }
    pose proof Hh as [Hlen H].
    pose proof (H k ltac:(rewrite WIDTH_32; lia)) as Hk'.
    replace (base + k * capacity d <? n) with true in Hk'
      by (symmetry; apply Z.ltb_lt; lia).
    destruct Hk' as (c & Hc' & Hhc).
    rewrite (get_item_of_nth_error _ _ k _ (proj1 Hr) Hc').
    cbn [liftW bindW as_node].
    destruct (IH fuel c (base + k * capacity d) n i l val)
      as (r & w' & Hr' & Hhr); auto; try lia.
    { destruct Hq as [q Hq]. exists (q * 32 + k). rewrite Hq, capacity_S. lia. }
    rewrite Hr'. cbn [bindW retW]. eexists _, _. split; [reflexivity|].
    apply (holds_store_child_set d ret r base n l (set_item l i val) k);
      auto; try lia.
    intros m Hm0 Hm. rewrite elem_set_item by lia.
    replace (m =? i) with false by (symmetry; apply Z.eqb_neq; lia).
    reflexivity.
Qed.

Lemma tv_tail_off (t : TransientVector Obj) :
  TransientVector_tail_off t = Vector_tail_off (tv_vector t).
Proof. reflexivity. Qed.

Lemma TransientVector_assoc_mut_represents (t : TransientVector Obj)
      (l : list Obj) (i : Z) (val : Obj) :
  trep t l -> tv_id t <> None -> 0 <= i < tv_cnt t ->
  exists t' w, TransientVector_assoc_mut t i val = Ok (t', w)
               /\ trep t' (set_item l i val) /\ tv_id t' = tv_id t.
Proof.
  intros (d & Hs & Hc & Ht & Hcap & Hmin & Hh) Hid Hi.
  cbn [tv_vector Vector_create shift cnt tail root] in Hs, Hc, Ht, Hh.
  destruct (Vector_tail_off_spec Obj (tv_vector t) ltac:(cbn; lia))
    as ((q & Hq & Hq0) & Hle & Hsz & Hpos).
  cbn [tv_vector Vector_create cnt] in Hle, Hsz, Hpos.
  unfold TransientVector_assoc_mut, TransientVector_ensure_editable.
  destruct (tv_id t) as [tid|] eqn:Eid; [|congruence].
  cbn [liftW bindW]. zcmp. cbn [orb].
  rewrite tv_tail_off.
  set (off := Vector_tail_off (tv_vector t)) in *.
  destruct (i >=? off) eqn:E.
  - rewrite Z.geb_leb in E. apply Z.leb_le in E.
    assert (Hlt : length (tv_tail t) = Z.to_nat (tv_cnt t - off)).
    { rewrite Ht, length_skipn. lia. }
    unfold list_set_item.
    replace ((0 <=? i - off) && (i - off <? Z.of_nat (length (tv_tail t))))
      with true
      by (symmetry; apply andb_true_iff; rewrite Z.leb_le, Z.ltb_lt; lia).
    cbn [liftW bindW retW]. eexists _, _. split; [reflexivity|].
    split; [|cbn [tv_id]; congruence].
    exists d. unfold tv_vector. cbn [tv_cnt tv_shift tv_root tv_tail tv_id].
    change (Vector_tail_off (Vector_create (tv_cnt t) (tv_shift t) (tv_root t)
              (set_item (tv_tail t) (i - off) val) (Some tid))) with off.
    cbn [shift cnt tail root Vector_create].
    split; [exact Hs|]. split; [rewrite set_item_length; exact Hc|].
    split; [|split; [exact Hcap|split; [exact Hmin|]]].
    + rewrite skipn_set_item, <- Ht by lia. reflexivity.
    + eapply holds_ext; [lia| |exact Hh]. intros m Hm.
      rewrite elem_set_item by lia. zcmp. reflexivity.
  - rewrite Z.geb_leb in E. apply Z.leb_gt in E.
    destruct (TransientVector_do_assoc_holds (Some tid) (S d)
                (level_fuel (tv_shift t)) (tv_root t) 0 off i l val)
      as (r & w & Hr & Hhr); auto; try lia.
    { unfold level_fuel. rewrite Hs. unfold BITS. lia. }
    { exists 0. lia. }
    rewrite <- Hs in Hr. rewrite Hr. cbn [bindW retW].
    eexists _, _. split; [reflexivity|].
    split; [|cbn [tv_id]; congruence].
    exists d. unfold tv_vector. cbn [tv_cnt tv_shift tv_root tv_tail tv_id].
    change (Vector_tail_off (Vector_create (tv_cnt t) (tv_shift t) r
              (tv_tail t) (Some tid))) with off.
    cbn [shift cnt tail root Vector_create].
    split; [exact Hs|]. split; [rewrite set_item_length; exact Hc|].
    split; [|split; [exact Hcap|split; [exact Hmin|exact Hhr]]].
    rewrite Ht. apply nth_error_ext. intros m.
    rewrite !nth_error_skipn.
    replace (Z.to_nat off + m)%nat with (Z.to_nat (off + Z.of_nat m)) by lia.
    rewrite nth_error_set_item by lia. zcmp. reflexivity.
Qed.

(** *** [t[i]] *)
Lemma TransientVector_sq_item_represents (t : TransientVector Obj)
      (l : list Obj) (i : Z) :
  trep t l -> tv_id t <> None -> 0 <= i < tv_cnt t ->
  TransientVector_sq_item t i = Ok (el l i).
Proof.
  intros (d & Hs & Hc & Ht & Hcap & Hmin & Hh) Hid Hi.
  cbn [tv_vector Vector_create shift cnt tail root] in Hs, Hc, Ht, Hh.
  destruct (Vector_tail_off_spec Obj (tv_vector t) ltac:(cbn; lia))
    as ((q & Hq & Hq0) & Hle & Hsz & Hpos).
  cbn [tv_vector Vector_create cnt] in Hle, Hsz, Hpos.
  unfold TransientVector_sq_item, TransientVector_ensure_editable.
  destruct (tv_id t) as [tid|] eqn:Eid; [|congruence].
  cbn [bind]. zcmp. cbn [orb].
  rewrite tv_tail_off.
  set (off := Vector_tail_off (tv_vector t)) in *.
  destruct (i >=? off) eqn:E.
  - rewrite Z.geb_leb in E. apply Z.leb_le in E.
    apply get_item_of_nth_error; [lia|].
    rewrite Ht, nth_error_skipn.
    replace (Z.to_nat off + Z.to_nat (i - off))%nat with (Z.to_nat i) by lia.
    unfold elem. apply nth_error_nth'. lia.
  - rewrite Z.geb_leb in E. apply Z.leb_gt in E.
    destruct (descend_holds Obj Py_None (S d) (level_fuel (tv_shift t))
                (tv_root t) 0 off i l) as (leaf & Hd & Hleaf); auto; try lia.
    { unfold level_fuel. rewrite Hs. unfold BITS. lia. }
    { exists 0. lia. }
    rewrite <- Hs in Hd. rewrite Hd. cbn [bind].
    destruct Hleaf as [Hlen Hslots].
    rewrite land_MASK_mod.
    assert (Hm : 0 <= i mod 32 < 32) by (apply Z.mod_pos_bound; lia).
    specialize (Hslots (i mod 32) ltac:(rewrite WIDTH_32; lia)).
    replace (32 * (i / 32) + i mod 32) with i in Hslots
      by (rewrite <- Z.div_mod; lia).
    replace (i <? off) with true in Hslots by (symmetry; apply Z.ltb_lt; lia).
    rewrite (get_item_of_nth_error _ _ (i mod 32) _ ltac:(lia) Hslots).
    reflexivity.
Qed.

(** *** [pop_mut] *)

Lemma holds_store_null_array (d : nat) (node ret : VectorNode Obj)
      (base n n' : Z) (l : list Obj) (k : Z) :
  node_array ret = node_array node ->
  0 <= k < 32 ->
  n' <= base + k * capacity d ->
  (forall j, 0 <= j < k -> base + j * capacity d + capacity d <= n') ->
  (forall j, 0 <= j < k -> base + j * capacity d + capacity d <= n) ->
  (forall j, k < j < 32 -> n <= base + j * capacity d) ->
  hold (S d) node base n l ->
  hold (S d) (node_store ret k (VNull Obj)) base n' l.
Proof.
  intros Ha Hk H1 H2 H3 H4 Hh.
  eapply holds_array;
    [|exact (holds_store_null Obj Py_None d node base n n' l k Hk H1 H2 H3 H4
               Hh)].
  apply node_store_array. rewrite clone_array. congruence.
Qed.

Lemma TransientVector_pop_tail_holds (id : option token) (d : nat) :
  forall (fuel : nat) (base n : Z) (l : list Obj) (node : VectorNode Obj),
    (d <= fuel)%nat ->
    0 <= base ->
    (exists q, base = q * capacity (S d)) ->
    (exists q, n = 32 * q) ->
    base < n <= base + capacity (S d) ->
    hold (S d) node base n l ->
    exists r w,
      TransientVector_pop_tail fuel (n + 1) id (BITS * Z.of_nat (S d)) node
      = Ok (r, w)
      /\ match r with
         | None => n - 32 = base
         | Some r' => base < n - 32 /\ hold (S d) r' base (n - 32) l
         end.
Proof.
  induction d as [|d IH]; intros fuel base n l node Hf Hb0 Hq Hn32 Hn Hh.
  - destruct (for_write_array node id) as (ret & w & Hw & Ha).
    destruct (slot_of_index 0 base (n - 1) Hq) as [Hslot Hk].
    { rewrite capacity_S, capacity_0 in *. lia. }
    set (k := (n - 1 - base) / capacity 0) in *.
    assert (Hkn : base + k * 32 = n - 32).
    { destruct Hq as [q Hq], Hn32 as [m Hm].
      rewrite capacity_S, capacity_0 in Hq.
      assert (k = m - 1 - q * 32); [|lia].
      symmetry. unfold k. rewrite capacity_0.
      apply (Z.div_unique (n - 1 - base) 32 (m - 1 - q * 32) 31); lia. }
    assert (Hrun :
      TransientVector_pop_tail fuel (n + 1) id (BITS * Z.of_nat 1) node
      = if k =? 0 then Ok (None, (w + 0)%nat)
        else Ok (Some (node_store ret k (VNull Obj)), (w + 0)%nat)).
    { destruct fuel; cbn [TransientVector_pop_tail];
        replace (n + 1 - 2) with (n - 1) by lia;
        rewrite Hw; cbn [bindW];
        change (BITS * Z.of_nat 1 >? BITS) with false; cbv iota;
        rewrite Hslot; fold k; destruct (k =? 0); reflexivity. }
    rewrite Hrun. destruct (k =? 0) eqn:Ek.
    + apply Z.eqb_eq in Ek. exists None, (w + 0)%nat. split; [reflexivity|].
      lia.
    + apply Z.eqb_neq in Ek. eexists (Some _), _. split; [reflexivity|].
      split; [lia|].
      apply (holds_store_null_array 0 node ret base n (n - 32) l k Ha);
        rewrite ?capacity_0;
        [lia | lia | intros j Hj; nia | intros j Hj; nia | intros j Hj; nia
        | exact Hh].
  - destruct fuel as [|fuel]; [lia|]. cbn [TransientVector_pop_tail].
    replace (n + 1 - 2) with (n - 1) by lia.
    destruct (for_write_holds Obj Py_None (S (S d)) node base n l id Hh)
      as (ret & w & Hw & Hret).
    destruct (for_write_array node id) as (ret' & w' & Hw' & Ha).
    rewrite Hw in Hw'. injection Hw' as <- <-.
    rewrite Hw. cbn [bindW].
    replace (BITS * Z.of_nat (S (S d)) >? BITS) with true
      by (symmetry; apply gtb_true; unfold BITS; lia).
    replace (BITS * Z.of_nat (S (S d)) - BITS) with (BITS * Z.of_nat (S d))
      by (unfold BITS; lia).
    pose proof (capacity_pos (S d)) as Hcpos.
    destruct (capacity_div_32 (S d)) as (c32 & Hc32 & Hc32pos).
    destruct (slot_of_index (S d) base (n - 1) Hq) as [Hslot Hk].
    { rewrite (capacity_S (S d)) in *. lia. }
    rewrite Hslot. set (k := (n - 1 - base) / capacity (S d)) in *.
    assert (Hkn : base + k * capacity (S d) < n
                  <= base + k * capacity (S d) + capacity (S d)).
    { pose proof (Z.mul_div_le (n - 1 - base) _ Hcpos) as H1.
      pose proof (Z.mul_succ_div_gt (n - 1 - base) _ Hcpos) as H2.
      fold k in H1, H2. lia. }
    pose proof Hh as [Hlen H].
    pose proof (H k ltac:(rewrite WIDTH_32; lia)) as Hslotk.
    replace (base + k * capacity (S d) <? n) with true in Hslotk
      by (symmetry; apply Z.ltb_lt; lia).
    destruct Hslotk as (c & Hc & Hhc).
    rewrite (get_item_of_nth_error _ _ k _ (proj1 Hk) Hc).
    cbn [liftW bindW as_node].
    destruct (IH fuel (base + k * capacity (S d)) n l c)
      as (rc & wc & Hrc & Hprop); auto; try lia.
    { destruct Hq as [q Hq]. exists (q * 32 + k).
      rewrite Hq, (capacity_S (S d)). lia. }
    rewrite Hrc. cbn [bindW].
    destruct rc as [nc|].
    + destruct Hprop as [Hlt Hhnc].
      eexists (Some _), _. split; [reflexivity|]. split; [nia|].
      apply (holds_store_child_gen Obj Py_None (S d) _ nc base n (n - 32) l k);
        [lia | lia | intros j Hj; nia | intros j Hj; nia | intros j Hj; nia
        | intros j Hj; nia | exact Hret | exact Hhnc].
    + destruct (k =? 0) eqn:Ek.
      * apply Z.eqb_eq in Ek. exists None. eexists. split; [reflexivity|].
        lia.
      * apply Z.eqb_neq in Ek.
        eexists (Some _), _. split; [reflexivity|]. split; [nia|].
        apply (holds_store_null_array (S d) node ret base n (n - 32) l k Ha);
          [lia | lia | intros j Hj; nia | intros j Hj; nia
          | intros j Hj; nia | exact Hh].
Qed.

Lemma TransientVector_pop_mut_represents (t : TransientVector Obj)
      (l : list Obj) :
  trep t l -> tv_id t <> None -> 0 < tv_cnt t ->
  exists t' w, TransientVector_pop_mut Py_None t = Ok (t', w)
               /\ trep t' (removelast l) /\ tv_id t' = tv_id t.
Proof.
  intros (d & Hs & Hc & Ht & Hcap & Hmin & Hh) Hid Hpos.
  assert (Hl : l <> []) by (intros ->; cbn in Hc; lia).
  pose proof (length_removelast Obj l Hl) as Hlen'.
  destruct (Vector_tail_off_spec Obj (tv_vector t) ltac:(cbn; lia))
    as ((q & Hq & Hq0) & Hle & Hsz & Hlt).
  set (n := Vector_tail_off (tv_vector t)) in *.
  cbn [tv_vector Vector_create shift cnt tail root] in Hs, Hc, Ht, Hh, Hle,
    Hsz, Hlt.
  specialize (Hlt Hpos).
  assert (Htl : Z.of_nat (length (tv_tail t)) = tv_cnt t - n).
  { rewrite Ht, length_skipn. lia. }
  unfold TransientVector_pop_mut, TransientVector_ensure_editable.
  destruct (tv_id t) as [tid|] eqn:Eid; [|congruence].
  cbn [liftW bindW]. zcmp.
  destruct (tv_cnt t =? 1) eqn:E1.
  { apply Z.eqb_eq in E1. cbn [retW]. eexists _, _. split; [reflexivity|].
    split; [|reflexivity].
    assert (Hn0 : n = 0) by lia.
    assert (Hd0 : d = 0%nat).
    { destruct d; auto. specialize (Hmin ltac:(congruence)).
      pose proof (capacity_pos (S d)). lia. }
    subst d.
    replace (removelast l) with (@nil Obj)
      by (symmetry; apply length_zero_iff_nil; lia).
    exists 0%nat. unfold tv_vector.
    cbn [tv_cnt tv_shift tv_root tv_tail tv_id].
    change (Vector_tail_off (Vector_create 0 (tv_shift t) (tv_root t) []
                                           (Some tid))) with 0.
    cbn [shift cnt tail root Vector_create length].
    split; [exact Hs|]. split; [reflexivity|]. split; [reflexivity|].
    split; [pose proof (capacity_pos 1); lia|]. split; [congruence|].
    rewrite Hn0 in Hh.
    eapply holds_ext; [lia| |exact Hh]. intros i Hi. lia. }
  apply Z.eqb_neq in E1. rewrite Htl.
  destruct (tv_cnt t - n >? 1) eqn:E2.
  - (* the tail keeps an element *)
    rewrite Z.gtb_ltb in E2. apply Z.ltb_lt in E2. cbn [retW].
    eexists _, _. split; [reflexivity|]. split; [|reflexivity].
    exists d. unfold tv_vector. cbn [tv_cnt tv_shift tv_root tv_tail tv_id].
    match goal with |- context [Vector_tail_off ?v] =>
      assert (Hoff : Vector_tail_off v = n)
        by (apply (proj1 (tail_off_pred (tv_cnt t) ltac:(lia))); exact E2)
    end.
    rewrite Hoff. cbn [shift cnt tail root Vector_create].
    split; [exact Hs|]. split; [lia|].
    split; [|split; [exact Hcap|split; [exact Hmin|]]].
    + rewrite Ht, removelast_firstn_len, skipn_firstn_comm.
      f_equal. lia.
    + eapply holds_ext; [lia| |exact Hh].
      intros i Hi. symmetry. apply elem_removelast. lia.
  - (* the last leaf of the trie becomes the tail *)
    rewrite Z.gtb_ltb in E2. apply Z.ltb_ge in E2.
    destruct (proj2 (tail_off_pred (tv_cnt t) ltac:(lia)) E2) as [Hoff' Hoff].
    change (n = tv_cnt t - 1) in Hoff.
    assert (Hn32 : 32 <= n) by lia.
    destruct (descend_holds Obj Py_None (S d) (level_fuel (tv_shift t))
                (tv_root t) 0 n (tv_cnt t - 2) l) as (leaf & Hd & Hleaf);
      auto; try lia.
    { unfold level_fuel. rewrite Hs. unfold BITS. lia. }
    { exists 0. lia. }
    assert (Hlb : 32 * ((tv_cnt t - 2) / 32) = n - 32).
    { Z.to_euclidean_division_equations. lia. }
    rewrite Hlb in Hleaf.
    destruct (leaf_read Obj Py_None leaf (n - 32) n l 0 Hleaf ltac:(lia)
                ltac:(lia)) as (arr & Harr & Harrlen & _ & Hnth).
    assert (Htail' : arr = skipn (Z.to_nat (n - 32)) (removelast l)).
    { apply nth_error_ext. intros m.
      destruct (Nat.lt_ge_cases m 32) as [Hm|Hm].
      - replace m with (Z.to_nat (Z.of_nat m)) at 1 by lia.
        rewrite Hnth by lia. zcmp.
        rewrite nth_error_skipn.
        rewrite (nth_error_nth' _ Py_None) by lia.
        f_equal.
        replace (Z.to_nat (n - 32) + m)%nat
          with (Z.to_nat (n - 32 + Z.of_nat m)) by lia.
        change (el l (n - 32 + Z.of_nat m)
                = el (removelast l) (n - 32 + Z.of_nat m)).
        rewrite elem_removelast by lia. reflexivity.
      - transitivity (@None Obj); [|symmetry]; apply nth_error_None;
          rewrite ?length_skipn; change (Z.to_nat WIDTH) with 32%nat in *; lia. }
    rewrite <- Hs in Hd. rewrite Hd. cbn [liftW bindW].
    rewrite Harr. cbn [bindW].
    destruct (TransientVector_pop_tail_holds (Some tid) d
                (level_fuel (tv_shift t)) 0 n l (tv_root t))
      as (popped & wp & Hpop & Hprop); auto; try lia.
    { unfold level_fuel. rewrite Hs. unfold BITS. lia. }
    { exists 0. lia. }
    { exists q. exact Hq. }
    replace (n + 1) with (tv_cnt t) in Hpop by lia.
    rewrite <- Hs in Hpop. rewrite Hpop. cbn [bindW].
    assert (Htrim :
      (Z.land (tv_cnt t - 1 - 1) MASK <? WIDTH - 1) = false).
    { rewrite land_MASK_mod, WIDTH_32. apply Z.ltb_ge.
      replace (tv_cnt t - 1 - 1) with (32 * (q - 1) + 31) by lia.
      rewrite Z.add_comm, Z.mul_comm, Z.mod_add by lia. cbn. lia. }
    rewrite Htrim.
    assert (Hoffn : forall (r : VectorNode Obj) (s : Z),
      Vector_tail_off (Vector_create (tv_cnt t - 1) s r arr (Some tid))
      = n - 32).
    { intros r s. unfold Vector_tail_off at 1. cbn [cnt Vector_create].
      rewrite Hoff'. lia. }
    assert (Hext : forall i, 0 <= i < n - 32 -> el l i = el (removelast l) i).
    { intros i Hi. symmetry. apply elem_removelast. lia. }
    pose proof (capacity_ge_32 d) as Hc32.
    destruct popped as [r|].
    + destruct Hprop as [Hgt Hhr]. pose proof Hhr as [Hrlen Hslots].
      pose proof (Hslots 1 ltac:(rewrite WIDTH_32; lia)) as Hs1.
      pose proof (Hslots 0 ltac:(rewrite WIDTH_32; lia)) as Hs0.
      replace (0 + 1 * capacity d) with (capacity d) in Hs1 by lia.
      replace (0 + 0 * capacity d <? n - 32) with true in Hs0
        by (symmetry; apply Z.ltb_lt; lia).
      destruct Hs0 as (c0 & Hc0 & Hhc0).
      destruct (capacity d <? n - 32) eqn:E3.
      * (* the root keeps a second child *)
        apply Z.ltb_lt in E3. destruct Hs1 as (c1 & Hc1 & _).
        rewrite (get_item_of_nth_error _ _ 1 _ ltac:(lia) Hc1).
        cbn [liftW bindW].
        rewrite andb_false_r. cbn [liftW bindW retW].
        eexists _, _. split; [reflexivity|]. split; [|reflexivity].
        exists d. unfold tv_vector.
        cbn [tv_cnt tv_shift tv_root tv_tail tv_id].
        rewrite Hoffn. cbn [shift cnt tail root Vector_create].
        split; [exact Hs|]. split; [lia|]. split; [exact Htail'|].
        split; [lia|]. split; [intros _; lia|].
        eapply holds_ext; [lia| |exact Hhr]. intros i Hi. apply Hext. lia.
      * apply Z.ltb_ge in E3.
        rewrite (get_item_of_nth_error _ _ 1 _ ltac:(lia) Hs1).
        cbn [liftW bindW].
        destruct d as [|d'].
        -- (* one level: the root stays *)
           replace (tv_shift t >? BITS) with false
             by (symmetry; apply gtb_false; rewrite Hs; unfold BITS; lia).
           cbn [andb liftW bindW retW].
           eexists _, _. split; [reflexivity|]. split; [|reflexivity].
           exists 0%nat. unfold tv_vector.
           cbn [tv_cnt tv_shift tv_root tv_tail tv_id].
           rewrite Hoffn. cbn [shift cnt tail root Vector_create].
           split; [exact Hs|]. split; [lia|]. split; [exact Htail'|].
           split; [lia|]. split; [congruence|].
           eapply holds_ext; [lia| |exact Hhr]. intros i Hi. apply Hext. lia.
        -- (* the root has one child left: that child is the new root *)
           replace (tv_shift t >? BITS) with true
             by (symmetry; apply gtb_true; rewrite Hs; unfold BITS; lia).
           cbn [andb liftW bindW bind].
           rewrite (get_item_of_nth_error _ _ 0 _ ltac:(lia) Hc0).
           cbn [bind as_node liftW bindW retW].
           eexists _, _. split; [reflexivity|]. split; [|reflexivity].
           specialize (Hmin ltac:(congruence)).
           assert (Hneq : n - 32 = capacity (S d')).
           { destruct (capacity_div_32 (S d')) as (c32 & Hc32e & _). lia. }
           exists d'. unfold tv_vector.
           cbn [tv_cnt tv_shift tv_root tv_tail tv_id].
           rewrite Hoffn. cbn [shift cnt tail root Vector_create].
           split; [rewrite Hs; unfold BITS; lia|]. split; [lia|].
           split; [exact Htail'|].
           split; [lia|].
           split; [intros _; rewrite Hneq, capacity_S;
                   pose proof (capacity_pos d'); lia|].
           replace (0 + 0 * capacity (S d')) with 0 in Hhc0 by lia.
           eapply holds_ext; [lia| |exact Hhc0]. intros i Hi. apply Hext. lia.
    + (* the trie is empty *)
      assert (Hd0 : d = 0%nat).
      { destruct d; auto. specialize (Hmin ltac:(congruence)).
        pose proof (capacity_ge_32 d). rewrite capacity_S in Hmin. lia. }
      subst d.
      change (get_item (node_array (VectorNode_create Obj (Some tid))) 1)
        with (Ok (VNull Obj)).
      cbn [liftW bindW].
      replace (tv_shift t >? BITS) with false
        by (symmetry; apply gtb_false; rewrite Hs; unfold BITS; lia).
      cbn [andb liftW bindW retW].
      eexists _, _. split; [reflexivity|]. split; [|reflexivity].
      exists 0%nat. unfold tv_vector.
      cbn [tv_cnt tv_shift tv_root tv_tail tv_id].
      rewrite Hoffn. cbn [shift cnt tail root Vector_create].
      split; [exact Hs|]. split; [lia|]. split; [exact Htail'|].
      split; [lia|]. split; [congruence|].
      apply holds_create. lia.
Qed.

End TransientSequence.


